(* ===== verification/_CoqProject ===== *)
-Q . S2P
Prelude.v
GoStr.v
Utf8.v
Quote.v
Html.v
GoTime.v
Js.v
Json.v
GoJson.v
Bytes.v
Crypto.v
Packet.v
HbServer.v
Attempts.v
Traffic.v
Persist.v
Probe.v
Auth.v
Registry.v
Sessions.v
Shutdown.v
Conn.v
Links.v
Meta.v
HbClient.v
HbLink.v
Api.v
Routes.v
Availability.v
Page.v
PageSafe.v
PageShow.v
Answers.v
Sampler.v
Speedtest.v
Flags.v
Config.v
Stats.v
Metrics.v
HostKey.v
ServerKey.v
Agent.v
Preflight.v
Startup.v
Server.v
Leases.v
Accounts.v
