(* ===== verification/Prelude.v ===== *)
(** * tunnelkit: a verification development

    tunnelkit keeps reverse SSH tunnels from small devices to an ingress server.
    This library models the logic of its Go code under src/core and proves what
    makes it correct. Paths below are relative to src/core/internal.

    ** The program and its model

    The server (tunnelserver/server.go) accepts SSH connections, opens a listener
    for each port a client asks for and may use, evicts the stale session of a
    client that reconnects, and pipes connections through the tunnel. It feeds the
    monitor (monitor/): a registry of connected clients, a store of traffic and
    availability, the failed attempts by address, the operator's metadata, and the
    web panel, whose page runs a script in the browser. Clients send signed UDP heartbeats (heartbeat/) so that the server can tell
    a broken TCP path from a dead client. The client (client/, stats/) keeps an ssh
    process running; both sides share the configuration (config/) and a speed test
    (speedtest/). The files of the model, by what they hold:

    - [Prelude]: machine integers with their wrap-around, lists, tactics, hints.
      [GoStr], [Utf8], [Quote], [GoTime], [Bytes], [Crypto], [Flags]: what the code
      uses of Go's standard library (strings, strconv, unicode/utf8, net, time,
      encoding/binary, crypto/sha256, crypto/hmac, flag), executable, with the
      laws the components need. [Crypto.Hash] is the interface HMAC is built on.
    - [Json], [GoJson]: encoding/json. The first is the text: the printer with its
      escapes, the scanner, and that what is printed is read back. The second is
      Go's types: a codec by combinators for integers, strings, slices, maps,
      pointers and structs, each a lawful instance of the class [GoJson.Lawful]. The
      formats of the program are such codecs, in the file of each component.
    - [Html], [Js]: what the panel's page runs in: the states of the HTML tokenizer
      that fragments reach, JavaScript's string literals and number formats, and the
      encoding of a query with Go's decoding of it.
    - [Packet]: heartbeat/packet.go. [encode] builds the buffer by the writes of the
      code; [decode] returns a value or one of the code's errors.
    - [HbServer], [HbClient], [HbLink]: heartbeat/server.go, heartbeat/client.go and
      one exchange between them. The table of the server is a map, [note] is split
      at the point where the code releases the mutex ([note_insert], [note_fill]);
      the client is a machine of its loop, its reader and the channel between.
    - [Attempts], [Traffic], [Probe], [Registry], [Links], [Meta]: the stores of
      monitor/, one operation per method. [Persist]: the traffic file over restarts.
      [Api]: the sampler tick and the panel's handlers over the stores, each as one
      step; [Routes]: the root handler and the routes in front of them;
      [Sampler]: the sampler as a machine of its critical sections;
      [Availability]: the sampler and the store together.
    - [Page]: every function of the script of monitor/page.go, as the HTML it builds
      from the answers of the API and the requests it makes; [PageSafe]: its markup;
      [PageShow]: what it shows and asks for. [Answers]: the JSON of /api/traffic and
      /api/uptime, written by the server and read by the dialogs.
    - [Auth]: authorized_keys and its ports. [Sessions]: the sessions of
      tunnelserver/server.go as a machine; an action is a critical section or a
      wait of one of the goroutines. [Shutdown]: how a session ends. [Conn]: the
      records of a handshake and the accounting of a forwarded connection.
      [ServerKey]: the server's host key over restarts, and the line it logs.
    - [Server]: tunnelserver.Run: one state with the authorized keys, the handshakes,
      the sessions, the forwarded connections, the stores, the heartbeat server with
      Run's two callbacks, and the sampler; [Server.start] is the set-up with its
      errors and [Server.exec_] one action of one goroutine. [Accounts]: what its
      counters say. [Leases]: an abstract specification of the forwarded ports that
      the sessions implement, and how the tables refer to each other.
    - [Speedtest], [Config], [Stats], [HostKey], [Agent], [Preflight], [Startup]:
      speedtest/speedtest.go, config/config.go with the dispatch of cmd/,
      stats/stats.go, client/hostkey.go with base64, client/client.go's loop,
      client/probe.go, and client.Run up to its loop. [Metrics]: the path of the
      client's statistics, as JSON through the tunnel, to the panel.

    Names are those of the code, with a suffix or prefix where two would clash.
    [Server] and [Accounts] use the theory of the parts through projections: a run
    of the whole server is a run of each part ([server_refines]), so that an
    invariant proved of a part holds in the whole.

    ** What the theorems show

    - The whole server, in every state it reaches, whatever interleaves: a listener,
      a probe, a proxied request and a scrape reach only ports that a line of
      authorized_keys permits and whose key some connection offered
      ([listeners_authorized], [panel_authorized]); the counters of the clients and
      of the traffic store are the sums over the connections forwarded
      ([accounts_balance]); the registry, the names and the listeners refer to the
      sessions that have them ([tables_coherent]).
    - Packets: what is encoded is decoded, and what is accepted is exactly an
      encoding under the key ([decode_canonical], [packet_roundtrip]).
    - Heartbeats: a datagram is recorded and answered once or ignored; losses
      and resumptions alternate; every beat sent is answered, lost or still waited
      for, and the reports follow from these outcomes ([receive_spec],
      [callbacks_alternate], [beats_accounted], [reports_follow_outcomes],
      [answers_authentic], [beat_answered]).
    - Sessions, for every reachable state: listeners stay within the ports of a
      session's key and do not share ports, the ports held are the leases an abstract
      specification gives ([leases_refined]), a finished session holds none, a name has one live
      session, an evicted session's ports can be bound again, and a session
      whose connection is closed finishes ([listeners_confined], [done_frees_ports],
      [one_live_session], [eviction_hands_over], [registered_ports_permitted],
      [session_ends]).
    - Availability and traffic: the percentage counts the seconds the log says, pruning keeps
      it, logs are well formed, what the panel shows is what the sampler's ticks saw,
      and a tick is its steps ([uptime_counts_seconds], [prune_keeps_uptime],
      [logs_well_formed], [sampler_marks], [shown_uptime_observed], [tick_sequential]);
      traffic is conserved, and kept over restarts, through the bytes of the JSON
      file, while the disk works ([traffic_conserved], [pipe_accounts],
      [saves_are_durable]).
    - The panel: what it shows of the metadata is clean, every known client is
      shown with the client's own numbers, probes and proxied requests reach only
      listed ports, a path has one meaning, and probes are limited exactly
      ([shown_clean], [status_complete], [panel_shows_client], [probe_confined],
      [root_spec], [panel_routes], [gate_exact], [diagnose_spec]).
    - The page: whatever names, titles, links and numbers it is given, the HTML it
      builds is made of its own elements, with links to the web only and handlers that
      call its own functions for the client of the row ([panel_markup_safe],
      [dialogs_safe]); a click asks the server for exactly that client
      ([clicks_reach_client], [probe_request]); the dialogs read what the server
      answered, the availability computed in the browser is the server's, its bar is
      to scale, and every client has one row ([traffic_dialog_reads],
      [dialog_read_agrees], [bar_to_scale], [tick_lists_all]).
    - Keys and settings: [allowed_ports_exact], [callback_spec], [host_key_kept],
      [logged_line_pins], [pin_log_verbatim], [parse_public_key], [load_precedence],
      [request_served].
    - The client: a pinned key is enforced or the client does not start, ssh is
      started only after a pre-flight that passed, a failed one is what the client
      reports and what a stranger answers cannot break its log, it reports itself
      connected only while an ssh is up, and it stops ([host_key_enforced],
      [strict_options_first], [preflight_gates_ssh], [failed_preflight_reported],
      [probe_text_confined], [connected_means_settled], [stop_ends]).
    - Behaviour that falls short of what the code or its comments mean, each by a
      theorem: [first_heartbeat_race], [port_zero_leaks],
      [cancelled_port_stays_listed], [late_del_hides_successor],
      [trivial_attempt_reads_as_reconnect], [allowed_ports_exact],
      [empty_flow_collapses], [late_callback_reports_connected],
      [failed_save_forgotten], [speedtest_unconfined], [first_json_wins],
      [unsaved_key_changes], [bad_file_relogs], [bad_flags_ignored],
      [bad_option_drops_all], [error_is_markup].

    A property with hypotheses is applied to a concrete input by a lemma named
    after it with the suffix _witness.

    ** Conventions and bounds

    A [uintN] is its residue, an [intN] the centred one; a [float64] is the exact
    rational and its rounding is not modelled. A time is a number of
    nanoseconds and every reading of the clock is an argument, so clocks may
    be anything unless a theorem asks them not to go back. Go maps are finite maps; where
    the code ranges over one, the order visited is an argument and the
    results are shown not to depend on it, or hold for each. Wall-clock waits are
    actions that may happen at any time.

    The loader of authorized_keys has as much fuel as the file has bytes, which is
    enough as each line read leaves a shorter rest. The beat numbers of a client
    wrap after 2^32 beats and [beats_accounted] is stated before that. The
    availability log is cut at 8000 events, which [prune_keeps_uptime] excludes. The gate of
    the probes is exact for a minimum of at most a minute; the code uses a second.

    The scanner of JSON has fuel for each byte of the text, and more changes nothing
    ([Json.read_value_fuel]); its limit of nesting is Go's. A string of the browser
    is the UTF-8 of its text and a JavaScript number an exact rational; the
    tokenizer covers what fragments of the page can hold (NUL and CR are not
    normalised; a declaration, a comment and other character references lead to
    [Html.Bogus], which the theorems exclude). Addresses and dates given to the page
    are assumed free of markup.

    Atomicity: a method that holds its mutex throughout is one step. These are
    single actions though the code lets others run inside: [startForward] (between
    the listen and the two notes of it), the requests of one scrape with the storing
    of their result, the counting of written bytes in the client and in the store,
    a failed handshake's record, and a panel request, which reads one state at one time.
    Everything else interleaves.

    ** What is not modelled

    Libraries outside the repository and their formats are arguments, with the
    facts needed of them as hypotheses: golang.org/x/crypto/ssh (key lines,
    fingerprints, the server's key with its generation and PEM). So are, of the
    standard library, net/url, unicode's tables of case (above 0x7f) and of printing
    runes (above 0xff), and the decimal text of a float64. The network, files and processes are the inputs and outputs of the steps.
    Not modelled: the style sheet and the static HTML of monitor/page.go and what its
    dialogs show while they wait, the JSON text of /api/status, /api/probe and
    /api/speedtest, the HTTP servers and what the reverse proxy copies, the rounding in the line the initiator of the
    speed test prints, the text of most log lines, the tunables of the tests,
    a server whose traffic file left nil in the store (it stops), and the packaging
    outside src/core.

    The next steps are, in this order: the JSON of /api/status, joined with
    what a tick of the page reads; the interleavings inside [startForward] and a panel request;
    the client's loop joined with the session it opens on the server; the
    heartbeat client's end by its context. *)

From stdpp Require Export base tactics numbers list strings gmap fin_maps.
From Stdlib Require Export ZArith Lia.

#[global] Open Scope Z_scope.

(** ** Machine integers

    A Go [uintN] is the residue of an unbounded [Z]; an [intN] is the residue
    re-centred on zero. *)

Definition wrapU (w z : Z) : Z := z mod 2 ^ w.

Definition wrapS (w z : Z) : Z := (z + 2 ^ (w - 1)) mod 2 ^ w - 2 ^ (w - 1).

Definition u32 : Z -> Z := wrapU 32.
Definition u64 : Z -> Z := wrapU 64.
Definition i64 : Z -> Z := wrapS 64.

Definition max_i64 : Z := 9223372036854775807.
Definition min_i64 : Z := -9223372036854775808.

Definition is_u32 (z : Z) : Prop := 0 <= z < 2 ^ 32.
Definition is_u64 (z : Z) : Prop := 0 <= z < 2 ^ 64.
Definition is_i64 (z : Z) : Prop := - 2 ^ 63 <= z < 2 ^ 63.

Create HintDb go.
Create Rewrite HintDb go_rw.

Lemma wrapU_range w z : 0 <= w -> 0 <= wrapU w z < 2 ^ w.
Proof. intros Hw. apply Z.mod_pos_bound. lia. Qed.

Lemma wrapU_small w z : 0 <= z < 2 ^ w -> wrapU w z = z.
Proof. apply Z.mod_small. Qed.

Lemma wrapU_add_l w a b : wrapU w (wrapU w a + b) = wrapU w (a + b).
Proof. apply Zplus_mod_idemp_l. Qed.

Lemma wrapU_add_r w a b : wrapU w (a + wrapU w b) = wrapU w (a + b).
Proof. apply Zplus_mod_idemp_r. Qed.

Lemma wrapU_wrapU w a : wrapU w (wrapU w a) = wrapU w a.
Proof. apply Zmod_mod. Qed.

Lemma u32_range z : is_u32 (u32 z).
Proof. apply wrapU_range. lia. Qed.

Lemma u64_range z : is_u64 (u64 z).
Proof. apply wrapU_range. lia. Qed.

Lemma i64_range z : is_i64 (i64 z).
Proof.
  unfold is_i64, i64, wrapS.
  change (2 ^ (64 - 1)) with (2 ^ 63).
  pose proof (Z.mod_pos_bound (z + 2 ^ 63) (2 ^ 64) ltac:(lia)). lia.
Qed.

Lemma u32_small z : is_u32 z -> u32 z = z.
Proof. apply wrapU_small. Qed.

Lemma u64_small z : is_u64 z -> u64 z = z.
Proof. apply wrapU_small. Qed.

Lemma u64_eq z : exists k, u64 z = z + k * 2 ^ 64.
Proof.
  exists (- (z / 2 ^ 64)). unfold u64, wrapU.
  pose proof (Z.div_mod z (2 ^ 64)). lia.
Qed.

Lemma u64_shift z k : u64 (z + k * 2 ^ 64) = u64 z.
Proof. apply Z_mod_plus_full. Qed.

Lemma i64_small z : is_i64 z -> i64 z = z.
Proof.
  unfold is_i64, i64, wrapS. intros Hz. change (2 ^ (64 - 1)) with (2 ^ 63). rewrite Z.mod_small; lia.
Qed.

(** [int64(uint64(x))] is the identity on an [int64]. *)
Lemma i64_add_l a b : i64 (i64 a + b) = i64 (a + b).
Proof.
  unfold i64, wrapS. change (2 ^ (64 - 1)) with (2 ^ 63). f_equal.
  replace ((a + 2 ^ 63) mod 2 ^ 64 - 2 ^ 63 + b + 2 ^ 63) with ((a + 2 ^ 63) mod 2 ^ 64 + b) by lia.
  rewrite Zplus_mod_idemp_l. f_equal. lia.
Qed.

Lemma i64_u64 z : is_i64 z -> i64 (u64 z) = z.
Proof.
  unfold is_i64, i64, u64, wrapS, wrapU. intros Hz.
  change (2 ^ (64 - 1)) with (2 ^ 63).
  rewrite Zplus_mod_idemp_l, Z.mod_small; lia.
Qed.

(** [uint64(int64(x))] is the identity on a [uint64]. *)
Lemma u64_i64 z : is_u64 z -> u64 (i64 z) = z.
Proof.
  unfold is_u64, i64, u64, wrapS, wrapU. intros Hz.
  change (2 ^ (64 - 1)) with (2 ^ 63).
  rewrite Zminus_mod_idemp_l. rewrite Z.mod_small; lia.
Qed.

#[export] Hint Resolve u32_range u64_range i64_range : go.
#[export] Hint Rewrite u32_small u64_small i64_u64 u64_i64 using done : go_rw.

(** ** Errors as values: Go's [(T, error)] results *)

Inductive result (A : Type) : Type :=
| Ok (a : A)
| Err (e : string).
Arguments Ok {A} a.
Arguments Err {A} e.

Definition is_ok {A} (r : result A) : bool :=
  match r with Ok _ => true | Err _ => false end.

Definition result_bind {A B} (f : A -> result B) (r : result A) : result B :=
  match r with Ok a => f a | Err e => Err e end.

Declare Scope go_scope.
Delimit Scope go_scope with go.
Notation "'let*' x ':=' e 'in' k" := (result_bind (fun x => k) e)
  (at level 10, x name, e at level 100, k at level 200) : go_scope.
Notation "'guard*' c 'else' m 'in' k" := (if c then k else Err m)
  (at level 10, c at level 100, m at level 100, k at level 200) : go_scope.

(** ** Keeping the last [n] elements of a log: the [x = x[len(x)-n:]] idiom *)

Definition last_n {A} (n : nat) (l : list A) : list A := drop (length l - n) l.

Section last_n.
Context {A : Type}.
Implicit Types l k : list A.

Lemma length_last_n n l : length (last_n n l) = Nat.min n (length l).
Proof. unfold last_n. rewrite length_drop. lia. Qed.

Lemma last_n_all n l : (length l <= n)%nat -> last_n n l = l.
Proof. intros H. unfold last_n. by replace (length l - n)%nat with 0%nat by lia. Qed.

Lemma last_n_app_last n l x : last_n n (last_n n l ++ [x]) = last_n n (l ++ [x]).
Proof.
  unfold last_n. rewrite !length_app, length_drop. simpl.
  destruct (decide (length l <= n)%nat) as [Hle | Hgt].
  - replace (length l - n)%nat with 0%nat by lia. by rewrite drop_0, Nat.sub_0_r.
  - rewrite !drop_app, drop_drop, length_drop. f_equal; f_equal; lia.
Qed.

(** The Go code tests the length before it cuts; the test changes nothing. *)
Lemma last_n_guard n l :
  (if decide (n < length l)%nat then last_n n l else l) = last_n n l.
Proof. case_decide; [done |]. symmetry. apply last_n_all. lia. Qed.

Lemma last_n_suffix n l : exists k, l = k ++ last_n n l.
Proof. exists (take (length l - n) l). unfold last_n. by rewrite take_drop. Qed.

Lemma last_last_n n l : (0 < n)%nat -> last (last_n n l) = last l.
Proof.
  intros Hn. destruct l as [| x l _] using rev_ind; [by destruct n |].
  unfold last_n. rewrite length_app, drop_app_le by (simpl; lia).
  by rewrite !last_snoc.
Qed.

Lemma elem_of_last_n n l x : x ∈ last_n n l -> x ∈ l.
Proof. intros H. destruct (last_n_suffix n l) as [k ->]. set_solver. Qed.
End last_n.

(** ** Filters *)

Section filters.
Context {A : Type} (P Q : A -> Prop) `{!forall x, Decision (P x)} `{!forall x, Decision (Q x)}.
Implicit Types l : list A.

Lemma filter_ext_in l : (forall x, x ∈ l -> P x <-> Q x) -> filter P l = filter Q l.
Proof.
  induction l as [| x l IH]; intros Hl; [done |].
  rewrite !filter_cons, IH by set_solver.
  pose proof (Hl x ltac:(set_solver)). repeat case_decide; tauto.
Qed.

Lemma filter_all l : Forall P l -> filter P l = l.
Proof.
  induction 1 as [| x l Hx _ IH]; [done |]. rewrite filter_cons, IH. by rewrite decide_True.
Qed.

Lemma filter_none l : Forall (fun x => ~ P x) l -> filter P l = [].
Proof.
  induction 1 as [| x l Hx _ IH]; [done |]. rewrite filter_cons, IH. by rewrite decide_False.
Qed.
End filters.

(** ** The sum of a finite map's values *)

Section map_sum.
Context `{Countable K} {V : Type} (f : V -> Z).
Implicit Types m : gmap K V.

Definition map_sum m : Z := foldr Z.add 0 (f <$> (map_to_list m).*2).

Lemma sum_perm (l k : list Z) : l ≡ₚ k -> foldr Z.add 0 l = foldr Z.add 0 k.
Proof. induction 1; cbn; lia. Qed.

Lemma map_sum_empty : map_sum ∅ = 0.
Proof. unfold map_sum. by rewrite map_to_list_empty. Qed.

Lemma map_sum_insert_new m k v : m !! k = None -> map_sum (<[k := v]> m) = f v + map_sum m.
Proof.
  intros Hk. unfold map_sum.
  rewrite (sum_perm _ (f <$> ((k, v) :: map_to_list m).*2)); [done |].
  by rewrite (map_to_list_insert m k v Hk).
Qed.

Lemma map_sum_insert m k v :
  map_sum (<[k := v]> m) = map_sum m - from_option f 0 (m !! k) + f v.
Proof.
  destruct (m !! k) as [v0 |] eqn:E; cbn.
  - rewrite <-(insert_delete_eq m k v). rewrite map_sum_insert_new by apply lookup_delete_eq.
    rewrite <-(insert_id m k v0 E) at 2. rewrite <-(insert_delete_eq m k v0).
    rewrite map_sum_insert_new by apply lookup_delete_eq. lia.
  - rewrite map_sum_insert_new by done. lia.
Qed.

Lemma map_sum_zero m : (forall k v, m !! k = Some v -> f v = 0) -> map_sum m = 0.
Proof.
  induction m as [| k v m Hk IH] using map_ind; [by rewrite map_sum_empty |]. intros Hf.
  rewrite map_sum_insert_new by done. rewrite (Hf k v) by apply lookup_insert_eq. apply IH.
  intros j w Hj. apply (Hf j). rewrite lookup_insert_ne; [done |]. congruence.
Qed.

(** Replacing a value. *)
Lemma map_sum_update m k v v' : m !! k = Some v -> map_sum (<[k := v']> m) = map_sum m + (f v' - f v).
Proof. intros Hk. rewrite map_sum_insert, Hk. cbn. lia. Qed.
End map_sum.

(** The values of a finite map. *)
Lemma elem_of_values `{Countable K} {V : Type} (f : gmap K V) v : v ∈ (map_to_list f).*2 <-> exists k, f !! k = Some v.
Proof.
  rewrite list_elem_of_fmap. split.
  - intros ([k w] & -> & Hk%elem_of_map_to_list). eauto.
  - intros [k Hk]. exists (k, v). by rewrite elem_of_map_to_list.
Qed.

(** ** Proof automation shared by the components *)

(** Split every [if]/[match] of the goal or the hypotheses, keeping equations. *)
Ltac split_cases := repeat (case_match || case_decide); simplify_eq/=.

(** Turn the boolean tests of the code into their propositions. *)
Ltac breflect :=
  repeat match goal with
  | H : andb _ _ = true |- _ => apply andb_prop in H as [? ?]
  | H : orb _ _ = false |- _ => apply orb_false_elim in H as [? ?]
  | H : negb _ = true |- _ => apply negb_true_iff in H
  | H : negb _ = false |- _ => apply negb_false_iff in H
  | H : Z.eqb _ _ = true |- _ => apply Z.eqb_eq in H
  | H : Z.eqb _ _ = false |- _ => apply Z.eqb_neq in H
  | H : Z.leb _ _ = true |- _ => apply Z.leb_le in H
  | H : Z.leb _ _ = false |- _ => apply Z.leb_gt in H
  | H : Z.ltb _ _ = true |- _ => apply Z.ltb_lt in H
  | H : Z.ltb _ _ = false |- _ => apply Z.ltb_ge in H
  | H : bool_decide _ = true |- _ => apply bool_decide_eq_true_1 in H
  | H : bool_decide _ = false |- _ => apply bool_decide_eq_false_1 in H
  end.
