(* ===== verification/GoStr.v ===== *)
(** * Go strings

    The functions of Go's [strings], [strconv], [unicode/utf8] and [net]
    packages that tunnelkit calls. A Go string is a sequence of bytes, here a
    Rocq [string]; the functions that look at runes decode UTF-8 the way Go
    does (an invalid byte is the rune U+FFFD of width one). *)

From S2P Require Export Prelude.
From Stdlib Require Export Strings.Ascii.
From Stdlib Require Import Decimal DecimalN DecimalString.
#[global] Open Scope Z_scope.

#[export] Instance ascii_inhabited : Inhabited ascii := populate Ascii.zero.

Definition chars : string -> list ascii := String.list_ascii_of_string.
Definition of_chars : list ascii -> string := String.string_of_list_ascii.

Lemma of_chars_chars s : of_chars (chars s) = s.
Proof. apply String.string_of_list_ascii_of_string. Qed.

Lemma chars_of_chars l : chars (of_chars l) = l.
Proof. apply String.list_ascii_of_string_of_list_ascii. Qed.

Lemma chars_inj s t : chars s = chars t -> s = t.
Proof. intros H. by rewrite <-(of_chars_chars s), H, of_chars_chars. Qed.

Lemma chars_app s t : chars (s +:+ t) = chars s ++ chars t.
Proof. induction s as [| c s IH]; [done |]. simpl. unfold chars in *. simpl. by rewrite IH. Qed.

Lemma append_assoc (s t u : string) : (s +:+ t) +:+ u = s +:+ (t +:+ u).
Proof. apply chars_inj. by rewrite !chars_app, app_assoc. Qed.

Lemma append_nil_r (s : string) : s +:+ "" = s.
Proof. induction s as [| c s IH]; [done |]. change (String c (s +:+ "") = String c s). by rewrite IH. Qed.

Lemma of_chars_app l k : of_chars (l ++ k) = of_chars l +:+ of_chars k.
Proof. apply chars_inj. by rewrite chars_app, !chars_of_chars. Qed.

Lemma length_chars s : length (chars s) = String.length s.
Proof. induction s as [| c s IH]; [done |]. simpl. by f_equal. Qed.

#[export] Hint Rewrite of_chars_chars chars_of_chars chars_app of_chars_app : go_rw.

(** The value of a byte. *)
Definition byte_val (c : ascii) : Z := Z.of_N (N_of_ascii c).

Lemma byte_val_range c : 0 <= byte_val c < 256.
Proof. unfold byte_val. pose proof (N_ascii_bounded c). lia. Qed.

Lemma byte_val_inj c d : byte_val c = byte_val d -> c = d.
Proof.
  unfold byte_val. intros H%N2Z.inj.
  by rewrite <-(ascii_N_embedding c), H, ascii_N_embedding.
Qed.

(** ** strconv *)

(** [strconv.Itoa] / [%d]. *)
Definition itoa (z : Z) : string := NilZero.string_of_int (Z.to_int z).

(** The value of a run of decimal digits; [None] on any other byte. *)
Definition digits (s : string) : option Z :=
  match s with
  | "" => None
  | _ => Z.of_N ∘ N.of_uint <$> NilEmpty.uint_of_string s
  end.

(** [strconv.ParseInt s 10 64], and [strconv.Atoi] on a 64-bit platform: an
    optional sign, digits, and the range of an [int64]. [None] is any error. *)
Definition atoi (s : string) : option Z :=
  match s with
  | String "-" r => n ← digits r; if n <=? 2 ^ 63 then Some (- n) else None
  | String "+" r => n ← digits r; if n <? 2 ^ 63 then Some n else None
  | _ => n ← digits s; if n <? 2 ^ 63 then Some n else None
  end.

Lemma digits_itoa n : 0 <= n -> digits (itoa n) = Some n.
Proof.
  intros Hn. unfold itoa, digits.
  assert (Hu : exists u, Z.to_int n = Decimal.Pos u /\ Z.of_N (N.of_uint u) = n /\ u <> Nil).
  { destruct n as [| p | p]; [by exists (D0 Nil) | | lia].
    exists (Pos.to_uint p). split; [done |]. split.
    - change (Z.of_N (N.of_uint (N.to_uint (N.pos p))) = Z.pos p).
      by rewrite Unsigned.of_to.
    - intros E. assert (N.of_uint (N.to_uint (N.pos p)) = 0%N) as E0 by (simpl; by rewrite E).
      by rewrite Unsigned.of_to in E0. }
  destruct Hu as (u & -> & Hu & Hnil). simpl.
  assert (NilZero.string_of_uint u = NilEmpty.string_of_uint u) as -> by by destruct u.
  destruct (NilEmpty.string_of_uint u) as [| c s] eqn:E; [by destruct u |].
  rewrite <-E, NilEmpty.usu. simpl. by rewrite Hu.
Qed.

(** A number that prints without a sign is made of digits only. *)
Definition is_digit (c : ascii) : bool := (48 <=? byte_val c) && (byte_val c <=? 57).

Lemma uint_digits u : Forall (fun c => is_digit c = true) (chars (NilEmpty.string_of_uint u)).
Proof. induction u; constructor; done. Qed.

Lemma itoa_digits n : 0 <= n -> Forall (fun c => is_digit c = true) (chars (itoa n)).
Proof.
  intros Hn. unfold itoa. destruct n as [| p | p]; [by repeat constructor | | lia].
  simpl. unfold NilZero.string_of_uint.
  destruct (Pos.to_uint p) eqn:E; [by repeat constructor | ..]; rewrite <-E; apply uint_digits.
Qed.

Lemma atoi_nosign s :
  match s with String c _ => is_digit c = true | "" => True end ->
  atoi s = (n ← digits s; if n <? 2 ^ 63 then Some n else None).
Proof. by destruct s as [| [[] [] [] [] [] [] [] []] r]. Qed.

Lemma atoi_itoa n : 0 <= n < 2 ^ 63 -> atoi (itoa n) = Some n.
Proof.
  intros Hn. rewrite atoi_nosign.
  - rewrite digits_itoa by lia. simpl.
    rewrite (proj2 (Z.ltb_lt _ _)); [done | lia].
  - pose proof (itoa_digits n ltac:(lia)) as H.
    destruct (itoa n) as [| c s]; [done |]. by inversion H.
Qed.

Lemma digits_chars s n : digits s = Some n -> Forall (fun c => is_digit c = true) (chars s).
Proof.
  unfold digits. intros H. destruct s as [| c s]; [done |].
  destruct (NilEmpty.uint_of_string (String c s)) as [u |] eqn:E; [| done].
  apply NilEmpty.sus in E. rewrite <-E. apply uint_digits.
Qed.

Lemma digits_nonneg s n : digits s = Some n -> 0 <= n.
Proof.
  unfold digits. intros H. destruct s; [done |].
  destruct (NilEmpty.uint_of_string _); simplify_eq/=. lia.
Qed.

(** What [atoi] accepted: digits after an optional sign. *)
Lemma atoi_inv s n :
  atoi s = Some n ->
  exists t m, digits t = Some m
    /\ (s = t \/ s = String "-" t \/ s = String "+" t)
    /\ (n = - m /\ m <= 2 ^ 63 \/ n = m /\ m < 2 ^ 63).
Proof.
  intros H.
  assert ((exists r, s = String "-" r) \/ (exists r, s = String "+" r)
          \/ atoi s = (n ← digits s; if n <? 2 ^ 63 then Some n else None)) as Hs.
  { destruct s as [| [[] [] [] [] [] [] [] []] r]; eauto. }
  destruct Hs as [[r ->] | [[r ->] | Hs]]; [| | rewrite Hs in H]; simpl in H;
    apply bind_Some in H as (m & Hm & H); case_match; breflect; simplify_eq;
    do 2 eexists; (split; [exact Hm |]); split; auto.
Qed.

Lemma atoi_range s n : atoi s = Some n -> is_i64 n.
Proof.
  intros (t & m & Hm%digits_nonneg & _ & Hn)%atoi_inv. unfold is_i64. lia.
Qed.

(** Every byte of a string [atoi] accepts is a digit or a sign. *)
Definition is_num_char (c : ascii) : bool :=
  is_digit c || bool_decide (c = "-"%char) || bool_decide (c = "+"%char).

Lemma atoi_chars s n : atoi s = Some n -> Forall (fun c => is_num_char c = true) (chars s).
Proof.
  intros (t & m & Hm%digits_chars & Hs & _)%atoi_inv.
  assert (Forall (fun c => is_num_char c = true) (chars t)) as Ht.
  { eapply Forall_impl; [done |]. intros c Hc. unfold is_num_char. by rewrite Hc. }
  destruct Hs as [-> | [-> | ->]]; [done | by constructor..].
Qed.

(** ** strings *)

Definition has_prefix (s p : string) : bool := String.prefix p s.

Definition trim_prefix (s p : string) : string :=
  if has_prefix s p then String.substring (String.length p) (String.length s - String.length p) s
  else s.

Fixpoint drop_while {A} (f : A -> bool) (l : list A) : list A :=
  match l with
  | [] => []
  | x :: l' => if f x then drop_while f l' else l
  end.

Definition drop_while_end {A} (f : A -> bool) (l : list A) : list A :=
  reverse (drop_while f (reverse l)).

(** [strings.TrimRight s cutset] and [strings.Trim s cutset] for a one-byte cutset. *)
Definition trim_right (c : ascii) (s : string) : string :=
  of_chars (drop_while_end (fun d => bool_decide (d = c)) (chars s)).

Definition trim (c : ascii) (s : string) : string :=
  of_chars (drop_while_end (fun d => bool_decide (d = c))
    (drop_while (fun d => bool_decide (d = c)) (chars s))).

Lemma drop_while_none {A} (f : A -> bool) l :
  Forall (fun x => f x = false) l -> drop_while f l = l.
Proof. intros H. destruct H as [| x l Hx _]; [done |]. simpl. by rewrite Hx. Qed.

Lemma drop_while_end_none {A} (f : A -> bool) l :
  Forall (fun x => f x = false) l -> drop_while_end f l = l.
Proof.
  intros H. unfold drop_while_end.
  rewrite drop_while_none by by apply Forall_reverse. apply reverse_involutive.
Qed.

Lemma drop_while_all_app {A} (f : A -> bool) l k :
  Forall (fun x => f x = true) l -> drop_while f (l ++ k) = drop_while f k.
Proof. induction 1 as [| x l Hx _ IH]; [done |]. simpl. by rewrite Hx. Qed.

(** The trailing run is the only thing cut. *)
Lemma drop_while_end_app {A} (f : A -> bool) l k :
  Forall (fun x => f x = true) k -> Forall (fun x => f x = false) l ->
  drop_while_end f (l ++ k) = l.
Proof.
  intros Hk Hl. unfold drop_while_end.
  rewrite reverse_app, drop_while_all_app by by apply Forall_reverse.
  rewrite drop_while_none by by apply Forall_reverse. apply reverse_involutive.
Qed.

Lemma drop_while_end_split {A} (f : A -> bool) l :
  exists k, l = drop_while_end f l ++ k /\ Forall (fun x => f x = true) k.
Proof.
  unfold drop_while_end.
  assert (forall r, exists k, r = k ++ drop_while f r /\ Forall (fun x => f x = true) k) as H.
  { induction r as [| x r [k [IH Hk]]]; [by exists [] |]. simpl.
    destruct (f x) eqn:E; [| by exists []].
    exists (x :: k). split; [by rewrite IH at 1 | by constructor]. }
  destruct (H (reverse l)) as (k & E & Hk). exists (reverse k). split.
  - by rewrite <-reverse_app, <-E, reverse_involutive.
  - by apply Forall_reverse.
Qed.

(** [strings.Split s sep] for a one-byte separator, [strings.Join]. *)
Fixpoint split (sep : ascii) (s : string) : list string :=
  match s with
  | "" => [""]
  | String c s' =>
      if decide (c = sep) then "" :: split sep s'
      else match split sep s' with
           | x :: xs => String c x :: xs
           | [] => [String c ""]
           end
  end.

Fixpoint join (sep : string) (l : list string) : string :=
  match l with
  | [] => ""
  | [x] => x
  | x :: l' => x +:+ sep +:+ join sep l'
  end.

Definition free_of (sep : ascii) (s : string) : Prop := sep ∉ chars s.

Lemma split_free sep s : free_of sep s -> split sep s = [s].
Proof.
  unfold free_of. induction s as [| c s IH]; [done |]. simpl.
  intros H. apply not_elem_of_cons in H as [Hc Hs].
  case_decide; [congruence |]. by rewrite IH.
Qed.

Lemma split_app_sep sep s t :
  free_of sep s -> split sep (s +:+ String sep t) = s :: split sep t.
Proof.
  unfold free_of. induction s as [| c s IH]; simpl; intros H.
  - by rewrite decide_True.
  - apply not_elem_of_cons in H as [Hc Hs].
    case_decide; [congruence |]. by rewrite IH.
Qed.

Lemma split_join sep l :
  l <> [] -> Forall (free_of sep) l -> split sep (join (String sep "") l) = l.
Proof.
  intros Hne H. induction H as [| x l Hx Hl IH]; [done |].
  destruct l as [| y l]; [by apply split_free |].
  change (join (String sep "") (x :: y :: l)) with (x +:+ String sep (join (String sep "") (y :: l))).
  rewrite split_app_sep by done. by rewrite IH.
Qed.

(** [strings.Contains]. *)
Fixpoint contains (s sub : string) : bool :=
  String.prefix sub s || match s with "" => false | String _ s' => contains s' sub end.

(** The double quote. *)
Definition QUOTE : ascii := ascii_of_N 34.

(** ** unicode/utf8 *)

Definition rune_error : Z := 65533.

Definition cont (b lo hi : Z) : bool := (lo <=? b) && (b <=? hi).

(** Bounds of the second byte after a multi-byte lead byte. *)
Definition second_lo (b0 : Z) : Z :=
  if b0 =? 224 then 160 else if b0 =? 240 then 144 else 128.
Definition second_hi (b0 : Z) : Z :=
  if b0 =? 237 then 159 else if b0 =? 244 then 143 else 191.

(** The runes of a string with the bytes each one came from ([for range]). *)
Fixpoint runes (s : string) : list (Z * string) :=
  match s with
  | "" => []
  | String c0 s1 =>
      let b0 := byte_val c0 in
      let bad (_ : unit) := (rune_error, String c0 "") :: runes s1 in
      if b0 <? 128 then (b0, String c0 "") :: runes s1
      else if negb (cont b0 194 244) then bad tt
      else match s1 with
      | "" => bad tt
      | String c1 s2 =>
          let b1 := byte_val c1 in
          if negb (cont b1 (second_lo b0) (second_hi b0)) then bad tt
          else if b0 <? 224 then
            ((b0 - 192) * 64 + (b1 - 128), String c0 (String c1 "")) :: runes s2
          else match s2 with
          | "" => bad tt
          | String c2 s3 =>
              let b2 := byte_val c2 in
              if negb (cont b2 128 191) then bad tt
              else if b0 <? 240 then
                ((b0 - 224) * 4096 + (b1 - 128) * 64 + (b2 - 128),
                 String c0 (String c1 (String c2 ""))) :: runes s3
              else match s3 with
              | "" => bad tt
              | String c3 s4 =>
                  let b3 := byte_val c3 in
                  if negb (cont b3 128 191) then bad tt
                  else ((b0 - 240) * 262144 + (b1 - 128) * 4096 + (b2 - 128) * 64 + (b3 - 128),
                        String c0 (String c1 (String c2 (String c3 "")))) :: runes s4
              end
          end
      end
  end.

Definition unrunes (l : list (Z * string)) : string := foldr (fun p s => snd p +:+ s) "" l.

(** [utf8.EncodeRune]; a surrogate or a value out of range gives U+FFFD. *)
Definition byte_at (z : Z) : ascii := ascii_of_N (Z.to_N (z mod 256)).
Definition utf8 (r : Z) : string :=
  let r := if (r <? 0) || (1114111 <? r) || ((55296 <=? r) && (r <=? 57343)) then rune_error else r in
  of_chars
    (if r <? 128 then [byte_at r]
     else if r <? 2048 then [byte_at (192 + r / 64); byte_at (128 + r mod 64)]
     else if r <? 65536 then
       [byte_at (224 + r / 4096); byte_at (128 + r / 64 mod 64); byte_at (128 + r mod 64)]
     else [byte_at (240 + r / 262144); byte_at (128 + r / 4096 mod 64);
           byte_at (128 + r / 64 mod 64); byte_at (128 + r mod 64)]).

Definition of_runes (l : list Z) : string := foldr (fun r s => utf8 r +:+ s) "" l.

(** [strings.Map f s], where [f] never drops a rune. *)
Definition map_runes (f : Z -> Z) (s : string) : string := of_runes (f <$> (runes s).*1).

(** Case mappings of runes. Below 0x80 they are ASCII's; above they are
    [unicode]'s tables, an argument. *)
Section cases.
Context (unicode_lower unicode_upper : Z -> Z).

Definition lower_rune (r : Z) : Z :=
  if r <? 128 then (if (65 <=? r) && (r <=? 90) then r + 32 else r) else unicode_lower r.
Definition upper_rune (r : Z) : Z :=
  if r <? 128 then (if (97 <=? r) && (r <=? 122) then r - 32 else r) else unicode_upper r.

Definition ToLower (s : string) : string := map_runes lower_rune s.
Definition ToUpper (s : string) : string := map_runes upper_rune s.
End cases.

Example utf8_ex : map_runes (fun r => r) "aé€𐍈" = "aé€𐍈" /\ ToLower id "AbC-9" = "abc-9".
Proof. vm_compute. done. Qed.

(** [unicode.IsSpace]. *)
Definition is_space (r : Z) : bool :=
  ((9 <=? r) && (r <=? 13)) || (r =? 32) || (r =? 133) || (r =? 160) || (r =? 5760)
  || ((8192 <=? r) && (r <=? 8202)) || (r =? 8232) || (r =? 8233) || (r =? 8239)
  || (r =? 8287) || (r =? 12288).

(** [strings.TrimSpace]. *)
Definition trim_space (s : string) : string :=
  unrunes (drop_while_end (is_space ∘ fst) (drop_while (is_space ∘ fst) (runes s))).

(** [strings.Fields]. *)
Fixpoint fields_go (l : list (Z * string)) (cur : string) : list string :=
  let flush := if decide (cur = "") then [] else [cur] in
  match l with
  | [] => flush
  | (r, b) :: l' =>
      if is_space r then flush ++ fields_go l' "" else fields_go l' (cur +:+ b)
  end.

Definition fields (s : string) : list string := fields_go (runes s) "".

(** A byte below 0x80 that is not white space. *)
Definition is_graph (c : ascii) : bool := (byte_val c <? 128) && negb (is_space (byte_val c)).

Lemma runes_ascii s :
  Forall (fun c => byte_val c < 128) (chars s) ->
  runes s = (fun c => (byte_val c, String c "")) <$> chars s.
Proof.
  induction s as [| c s IH]; [done |]. cbn. intros [Hc Hs]%Forall_cons.
  rewrite (proj2 (Z.ltb_lt _ _) Hc). f_equal. by apply IH.
Qed.

Lemma unrunes_ascii l : unrunes ((fun c => (byte_val c, String c "")) <$> l) = of_chars l.
Proof.
  induction l as [| c l IH]; [done |].
  change (String c (unrunes ((fun c => (byte_val c, String c "")) <$> l)) = String c (of_chars l)).
  by rewrite IH.
Qed.

Lemma graph_ascii l :
  Forall (fun c => is_graph c = true) l -> Forall (fun c => byte_val c < 128) l.
Proof.
  intros H. eapply Forall_impl; [done |]. unfold is_graph. intros c Hc. breflect. lia.
Qed.

Lemma graph_not_space l :
  Forall (fun c => is_graph c = true) l ->
  Forall (fun p : Z * string => (is_space ∘ fst) p = false) ((fun c => (byte_val c, String c "")) <$> l).
Proof.
  intros H. apply Forall_fmap. eapply Forall_impl; [done |].
  unfold is_graph, compose. intros c Hc. breflect. done.
Qed.

(** Strings without white space are their own trimming. *)
Lemma trim_space_graph s :
  Forall (fun c => is_graph c = true) (chars s) -> trim_space s = s.
Proof.
  intros H. unfold trim_space. rewrite runes_ascii by by apply graph_ascii.
  rewrite drop_while_none, drop_while_end_none by by apply graph_not_space.
  rewrite unrunes_ascii. apply of_chars_chars.
Qed.

(** ASCII text with white space around it is trimmed to itself. *)
Lemma drop_while_end_last {A} (f : A -> bool) l x k :
  f x = false -> Forall (fun y => f y = true) k -> drop_while_end f ((l ++ [x]) ++ k) = l ++ [x].
Proof.
  intros Hx Hk. unfold drop_while_end.
  rewrite reverse_app, drop_while_all_app by by apply Forall_reverse.
  rewrite reverse_app. change (reverse [x]) with [x]. simpl.
  rewrite Hx, reverse_cons, reverse_involutive. done.
Qed.

Lemma trim_space_core s l r c d k :
  chars s = c :: l -> chars s = r ++ [d] -> is_graph c = true -> is_graph d = true ->
  Forall (fun c => byte_val c < 128) (chars s ++ chars k) ->
  Forall (fun c => is_space (byte_val c) = true) (chars k) -> trim_space (s +:+ k) = s.
Proof.
  intros Hl Hr Hc Hd Ha Hk. unfold trim_space. rewrite runes_ascii by by rewrite chars_app.
  unfold is_graph in *. breflect. rewrite chars_app, fmap_app.
  assert (forall x, drop_while (is_space ∘ fst) (((fun c => (byte_val c, String c "")) <$> chars s) ++ x)
            = ((fun c => (byte_val c, String c "")) <$> chars s) ++ x) as ->.
  { intros x. rewrite Hl. simpl. by replace (is_space (byte_val c)) with false by done. }
  rewrite Hr, fmap_app. cbn [fmap list_fmap]. rewrite drop_while_end_last; [| by cbn |].
  - change ([(byte_val d, String d "")]) with ((fun c0 => (byte_val c0, String c0 "")) <$> [d]).
    rewrite <-fmap_app, unrunes_ascii, <-Hr. apply of_chars_chars.
  - apply Forall_fmap. eapply Forall_impl; [exact Hk |]. done.
Qed.

(** The fields of ASCII text, word by word. *)
Lemma fields_go_word w l cur :
  Forall (fun c => is_graph c = true) w ->
  fields_go (((fun c => (byte_val c, String c "")) <$> w) ++ l) cur = fields_go l (cur +:+ of_chars w).
Proof.
  intros Hw. revert cur. induction Hw as [| c w Hc _ IH]; intros cur.
  - cbn. f_equal. apply chars_inj. by rewrite chars_app, app_nil_r.
  - unfold is_graph in Hc. breflect. simpl.
    replace (is_space (byte_val c)) with false by done. rewrite IH. f_equal.
    rewrite append_assoc. done.
Qed.

Lemma fields_two w d :
  w <> "" -> d <> "" -> Forall (fun c => is_graph c = true) (chars w) -> Forall (fun c => is_graph c = true) (chars d) ->
  fields (w +:+ " " +:+ d) = [w; d].
Proof.
  intros Hw Hd Gw Gd. unfold fields. rewrite runes_ascii.
  - rewrite chars_app, fmap_app, fields_go_word by done. rewrite of_chars_chars.
    change ("" +:+ w) with w. change (chars (" " +:+ d)) with (" "%char :: chars d). cbn [fmap list_fmap fields_go].
    replace (is_space (byte_val " ")) with true by done. rewrite decide_False by done. cbn [app]. f_equal.
    rewrite <-(app_nil_r (_ <$> chars d)), fields_go_word by done. rewrite of_chars_chars. cbn [fields_go].
    change ("" +:+ d) with d. by rewrite decide_False.
  - rewrite chars_app. change (chars (" " +:+ d)) with (" "%char :: chars d). apply Forall_app. split; [by apply graph_ascii |].
    constructor; [vm_compute; done | by apply graph_ascii].
Qed.

Lemma num_char_graph c : is_num_char c = true -> is_graph c = true.
Proof. destruct c as [[] [] [] [] [] [] [] []]; vm_compute; congruence. Qed.

(** ** net *)

Fixpoint index_byte (c : ascii) (l : list ascii) : option nat :=
  match l with
  | [] => None
  | d :: l' => if decide (d = c) then Some 0%nat else S <$> index_byte c l'
  end.

Fixpoint last_index_byte (c : ascii) (l : list ascii) : option nat :=
  match l with
  | [] => None
  | d :: l' =>
      match last_index_byte c l' with
      | Some i => Some (S i)
      | None => if decide (d = c) then Some 0%nat else None
      end
  end.

Definition has_byte (c : ascii) (l : list ascii) : bool := bool_decide (c ∈ l).

(** [net.SplitHostPort]; [None] is any of its errors. *)
Definition split_host_port (hostport : string) : option (string * string) :=
  let hp := chars hostport in
  i ← last_index_byte ":" hp;
  let port := drop (i + 1) hp in
  if bool_decide (head hp = Some "["%char) then
    e ← index_byte "]" hp;
    if bool_decide (e + 1 = i)%nat then
      if has_byte "[" (drop 1 hp) || has_byte "]" (drop (e + 1) hp) then None
      else Some (of_chars (drop 1 (take e hp)), of_chars port)
    else None
  else
    let host := take i hp in
    if has_byte ":" host || has_byte "[" hp || has_byte "]" hp then None
    else Some (of_chars host, of_chars port).

(** [net.JoinHostPort]. *)
Definition join_host_port (host port : string) : string :=
  if has_byte ":" (chars host) then "[" +:+ host +:+ "]:" +:+ port
  else host +:+ ":" +:+ port.

Lemma index_byte_none c l : c ∉ l -> index_byte c l = None.
Proof.
  induction l as [| d l IH]; [done |]. intros [Hd Hl]%not_elem_of_cons. cbn. rewrite decide_False by done. by rewrite IH.
Qed.

Lemma index_byte_app c l k : c ∉ l -> index_byte c (l ++ c :: k) = Some (length l).
Proof.
  induction l as [| d l IH]; intros H; cbn; [by rewrite decide_True |].
  apply not_elem_of_cons in H as [Hd Hl]. rewrite decide_False by done. by rewrite IH.
Qed.

Lemma last_index_byte_none c l : c ∉ l -> last_index_byte c l = None.
Proof.
  induction l as [| d l IH]; [done |]. intros [Hd Hl]%not_elem_of_cons. simpl.
  rewrite IH by done. by rewrite decide_False.
Qed.

Lemma last_index_byte_app c l k :
  c ∉ k -> last_index_byte c (l ++ c :: k) = Some (length l).
Proof.
  intros Hk. induction l as [| d l IH]; simpl.
  - rewrite last_index_byte_none by done. by rewrite decide_True.
  - by rewrite IH.
Qed.

Lemma split_host_port_nocolon s : free_of ":" s -> split_host_port s = None.
Proof. intros H. unfold split_host_port. by rewrite last_index_byte_none. Qed.

(** A plain host and a port are recovered. *)
Lemma split_host_port_plain h p :
  free_of ":" h -> free_of "[" h -> free_of "]" h ->
  free_of ":" p -> free_of "[" p -> free_of "]" p ->
  split_host_port (h +:+ ":" +:+ p) = Some (h, p).
Proof.
  unfold free_of, split_host_port. intros Hh1 Hh2 Hh3 Hp1 Hp2 Hp3.
  assert (chars (h +:+ ":" +:+ p) = chars h ++ ":"%char :: chars p) as ->
    by by rewrite chars_app.
  rewrite last_index_byte_app by done. simpl.
  rewrite bool_decide_eq_false_2.
  2:{ destruct (chars h) as [| c l]; [done |]. simpl. intros [= ->]. set_solver. }
  unfold has_byte. rewrite take_app_length.
  rewrite !bool_decide_eq_false_2 by set_solver.
  simpl. rewrite drop_app, drop_ge by lia.
  replace (length (chars h) + 1 - length (chars h))%nat with 1%nat by lia.
  simpl. by rewrite drop_0, !of_chars_chars.
Qed.
