(* ===== verification/Utf8.v ===== *)
(** * UTF-8: decoding and encoding runes are inverse

    The laws of [runes] and [utf8] that clipping strings relies on. *)

From S2P Require Export GoStr.

(** A Unicode scalar value. *)
Definition valid_rune (r : Z) : Prop := 0 <= r < 55296 \/ 57344 <= r <= 1114111.

Lemma byte_val_at z : 0 <= z < 256 -> byte_val (byte_at z) = z.
Proof. intros H. unfold byte_val, byte_at. rewrite N_ascii_embedding; rewrite Z.mod_small by lia; lia. Qed.

Lemma cont_spec b lo hi : cont b lo hi = true <-> lo <= b <= hi.
Proof. unfold cont. rewrite andb_true_iff, !Z.leb_le. lia. Qed.

Lemma cont_in b lo hi : lo <= b <= hi -> negb (cont b lo hi) = false.
Proof. intros H%cont_spec. by rewrite H. Qed.

Lemma ltb_f a b : b <= a -> (a <? b) = false.
Proof. apply Z.ltb_ge. Qed.

Lemma ltb_t a b : a < b -> (a <? b) = true.
Proof. apply Z.ltb_lt. Qed.

Ltac divmod := Z.to_euclidean_division_equations; lia.

Lemma append_cons c t s : String c t +:+ s = String c (t +:+ s).
Proof. reflexivity. Qed.

Lemma append_nil s : "" +:+ s = s.
Proof. reflexivity. Qed.

(** Expose the bytes at the front of the string. *)
Ltac open_runes := cbn [of_chars String.string_of_list_ascii]; rewrite !append_cons, append_nil; cbn [runes].

(** Encoding a scalar value in front of a string puts it in front of its runes. *)
Lemma runes_utf8 r s : valid_rune r -> (runes (utf8 r +:+ s)).*1 = r :: (runes s).*1.
Proof.
  intros Hr. unfold utf8.
  assert ((r <? 0) || (1114111 <? r) || ((55296 <=? r) && (r <=? 57343)) = false) as ->.
  { unfold valid_rune in Hr. apply orb_false_iff. split; [apply orb_false_iff; split; apply Z.ltb_ge; lia |].
    apply andb_false_iff. destruct Hr; [left | right]; apply Z.leb_gt; lia. }
  destruct (r <? 128) eqn:E1; breflect.
  { open_runes.
    rewrite byte_val_at, ltb_t by (unfold valid_rune in Hr; lia). done. }
  destruct (r <? 2048) eqn:E2; breflect.
  { open_runes.
    rewrite !byte_val_at by divmod. unfold second_lo, second_hi.
    rewrite (ltb_f (192 + _)), cont_in by divmod.
    destruct (192 + r / 64 =? 224) eqn:E3; breflect; [exfalso; divmod |].
    destruct (192 + r / 64 =? 240) eqn:E4; breflect; [exfalso; divmod |].
    destruct (192 + r / 64 =? 237) eqn:E5; breflect; [exfalso; divmod |].
    destruct (192 + r / 64 =? 244) eqn:E6; breflect; [exfalso; divmod |].
    rewrite cont_in, ltb_t by divmod. cbn. f_equal. divmod. }
  destruct (r <? 65536) eqn:E3; breflect.
  - open_runes.
    rewrite !byte_val_at by divmod. unfold second_lo, second_hi.
    rewrite (ltb_f (224 + _)), cont_in by divmod.
    rewrite cont_in.
    2: { destruct (224 + r / 4096 =? 224) eqn:F1; destruct (224 + r / 4096 =? 240) eqn:F2;
         destruct (224 + r / 4096 =? 237) eqn:F3; destruct (224 + r / 4096 =? 244) eqn:F4; breflect;
         unfold valid_rune in Hr; divmod. }
    rewrite ltb_f, cont_in, ltb_t by divmod. cbn. f_equal. divmod.
  - open_runes.
    assert (r <= 1114111) as Hmax by (unfold valid_rune in Hr; lia).
    rewrite !byte_val_at by divmod. unfold second_lo, second_hi.
    rewrite (ltb_f (240 + _)), cont_in by divmod.
    rewrite cont_in.
    2: { destruct (240 + r / 262144 =? 224) eqn:F1; destruct (240 + r / 262144 =? 240) eqn:F2;
         destruct (240 + r / 262144 =? 237) eqn:F3; destruct (240 + r / 262144 =? 244) eqn:F4; breflect; divmod. }
    rewrite ltb_f, cont_in, ltb_f, cont_in by divmod. cbn. f_equal. divmod.
Qed.

(** Where the runes of a string come from: a byte that is no rune, or an encoding. *)
Definition decoded (p : Z * string) : Prop :=
  (fst p = rune_error /\ exists c, snd p = String c "" /\ 128 <= byte_val c)
  \/ (valid_rune (fst p) /\ snd p = utf8 (fst p)).

Lemma utf8_valid r : valid_rune r ->
  utf8 r = of_chars
    (if r <? 128 then [byte_at r]
     else if r <? 2048 then [byte_at (192 + r / 64); byte_at (128 + r mod 64)]
     else if r <? 65536 then [byte_at (224 + r / 4096); byte_at (128 + r / 64 mod 64); byte_at (128 + r mod 64)]
     else [byte_at (240 + r / 262144); byte_at (128 + r / 4096 mod 64);
           byte_at (128 + r / 64 mod 64); byte_at (128 + r mod 64)]).
Proof.
  unfold valid_rune, utf8. intros H.
  destruct ((r <? 0) || (1114111 <? r) || ((55296 <=? r) && (r <=? 57343))) eqn:E; [breflect; lia | done].
Qed.

Lemma byte_at_of c z : byte_val c = z -> byte_at z = c.
Proof. intros <-. apply byte_val_inj. rewrite byte_val_at; [done |]. apply byte_val_range. Qed.

(** What the bounds of the second byte exclude. *)
Lemma second_spec b0 b1 : cont b1 (second_lo b0) (second_hi b0) = true ->
  128 <= b1 <= 191 /\ (b0 = 224 -> 160 <= b1) /\ (b0 = 240 -> 144 <= b1) /\ (b0 = 237 -> b1 <= 159) /\ (b0 = 244 -> b1 <= 143).
Proof.
  intros H%cont_spec. unfold second_lo, second_hi in H.
  destruct (b0 =? 224) eqn:?; destruct (b0 =? 240) eqn:?; destruct (b0 =? 237) eqn:?; destruct (b0 =? 244) eqn:?; breflect; lia.
Qed.

(** Decoding takes one rune off the front. *)
Lemma runes_step c s : exists r b t,
  runes (String c s) = (r, b) :: runes t /\ String c s = b +:+ t
  /\ (String.length t <= String.length s)%nat /\ decoded (r, b).
Proof.
  pose proof (byte_val_range c) as B0. cbn [runes].
  destruct (byte_val c <? 128) eqn:E0; breflect.
  { exists (byte_val c), (String c ""), s. split_and!; [done | done | done | right; split; [unfold valid_rune; cbn; lia |]].
    rewrite utf8_valid, ltb_t by (unfold valid_rune; cbn; lia). cbn. by rewrite (byte_at_of c). }
  assert (exists r b t, (rune_error, String c "") :: runes s = (r, b) :: runes t /\ String c s = b +:+ t
    /\ (String.length t <= String.length s)%nat /\ decoded (r, b)) as Hbad.
  { exists rune_error, (String c ""), s. split_and!; [done | done | done | left; cbn; eauto]. }
  destruct (negb (cont (byte_val c) 194 244)) eqn:E1; [done |]. apply negb_false_iff, cont_spec in E1.
  destruct s as [| c1 s2]; [done |].
  destruct (negb (cont (byte_val c1) _ _)) eqn:E2; [done |]. apply negb_false_iff, second_spec in E2.
  destruct (byte_val c <? 224) eqn:E3; breflect.
  { eexists _, _, s2. split_and!; [done | done | cbn; lia | right; cbn [fst snd]; split; [unfold valid_rune; lia |]].
    rewrite utf8_valid, ltb_f, ltb_t by (unfold valid_rune; lia). cbn.
    rewrite (byte_at_of c), (byte_at_of c1) by divmod. done. }
  destruct s2 as [| c2 s3]; [done |].
  destruct (negb (cont (byte_val c2) _ _)) eqn:E4; [done |]. apply negb_false_iff, cont_spec in E4.
  destruct (byte_val c <? 240) eqn:E5; breflect.
  { eexists _, _, s3. split_and!; [done | done | cbn; lia | right; cbn [fst snd]; split; [unfold valid_rune; lia |]].
    rewrite utf8_valid, ltb_f, ltb_f, ltb_t by (unfold valid_rune; lia). cbn.
    rewrite (byte_at_of c), (byte_at_of c1), (byte_at_of c2) by divmod. done. }
  destruct s3 as [| c3 s4]; [done |].
  destruct (negb (cont (byte_val c3) _ _)) eqn:E6; [done |]. apply negb_false_iff, cont_spec in E6.
  eexists _, _, s4. split_and!; [done | done | cbn; lia | right; cbn [fst snd]; split; [unfold valid_rune; lia |]].
  rewrite utf8_valid, ltb_f, ltb_f, ltb_f by (unfold valid_rune; lia). cbn.
  rewrite (byte_at_of c), (byte_at_of c1), (byte_at_of c2), (byte_at_of c3) by divmod. done.
Qed.

(** The runes of a string are its bytes, cut; each is decoded. *)
Lemma runes_decoded s : unrunes (runes s) = s /\ Forall decoded (runes s).
Proof.
  remember (String.length s) as n eqn:Hn. revert s Hn.
  induction n as [n IH] using lt_wf_ind. intros [| c s] ->; [by split; [| constructor] |].
  destruct (runes_step c s) as (r & b & t & -> & Hs & Hle & Hd).
  destruct (IH (String.length t) ltac:(cbn; lia) t eq_refl) as [U D].
  split; [change (unrunes ((r, b) :: runes t)) with (b +:+ unrunes (runes t)); by rewrite U | by constructor].
Qed.

(** Decoding gives scalar values only. *)
Lemma runes_valid s : Forall valid_rune (runes s).*1.
Proof.
  apply Forall_fmap, (Forall_impl decoded); [apply runes_decoded |].
  intros [r b] [[E _] | [H _]]; cbn in *; [rewrite E; unfold valid_rune, rune_error; lia | done].
Qed.

Lemma runes_of_runes l : Forall valid_rune l -> (runes (of_runes l)).*1 = l.
Proof.
  induction 1 as [| r l Hr _ IH]; [done |]. cbn [of_runes foldr].
  change (foldr (fun r s => utf8 r +:+ s) "" l) with (of_runes l). by rewrite runes_utf8, IH.
Qed.
