(* ===== verification/Quote.v ===== *)
(** * Quoted text

    What [fmt]'s %q prints: [strconv.Quote], with [strconv.IsPrint] above 0xff an
    argument; and [unquote], which reads the escapes of a Go string literal back. *)

From S2P Require Export Utf8.

Definition BACKSLASH : ascii := ascii_of_N 92.

Definition hex_digit (n : Z) : ascii := byte_at (if n <? 10 then 48 + n else 87 + n).

(** The [k] lowest hexadecimal digits. *)
Fixpoint hex (k : nat) (r : Z) : list ascii :=
  match k with O => [] | S k' => hex k' (r / 16) ++ [hex_digit (r mod 16)] end.

Section quote.
Context (unicode_print : Z -> bool).

Definition is_print (r : Z) : bool :=
  if r <? 256 then ((32 <=? r) && (r <? 127)) || ((161 <=? r) && negb (r =? 173)) else unicode_print r.

(** The letter of the runes that have an escape of one. *)
Definition letter_of (r : Z) : option ascii :=
  if r =? 7 then Some "a"%char else if r =? 8 then Some "b"%char else if r =? 12 then Some "f"%char
  else if r =? 10 then Some "n"%char else if r =? 13 then Some "r"%char else if r =? 9 then Some "t"%char
  else if r =? 11 then Some "v"%char else None.

Definition escape (r : Z) : list ascii :=
  if (r =? 34) || (r =? 92) then [BACKSLASH; byte_at r]
  else if is_print r then chars (utf8 r)
  else match letter_of r with
  | Some c => [BACKSLASH; c]
  | None =>
      if (r <? 32) || (r =? 127) then BACKSLASH :: "x"%char :: hex 2 r
      else if r <? 65536 then BACKSLASH :: "u"%char :: hex 4 r
      else BACKSLASH :: "U"%char :: hex 8 r
  end.

(** A rune with the bytes it came from; a byte that is no rune is escaped as it is. *)
Definition quote_one (p : Z * string) : list ascii :=
  match chars (snd p) with
  | [c] => if fst p =? rune_error then BACKSLASH :: "x"%char :: hex 2 (byte_val c) else escape (fst p)
  | _ => escape (fst p)
  end.

Definition quoted (s : string) : list ascii := mjoin (quote_one <$> runes s).

Definition quote (s : string) : string := of_chars ([QUOTE] ++ quoted s ++ [QUOTE]).
End quote.

(** ** Reading it back *)

Definition unhex_digit (c : ascii) : Z :=
  let b := byte_val c in if b <? 58 then b - 48 else b - 87.

Definition unhex (l : list ascii) : Z := foldl (fun v c => v * 16 + unhex_digit c) 0 l.

Definition unletter (c : ascii) : option Z :=
  list_find (fun r => letter_of r = Some c) [0; 1; 2; 3; 4; 5; 6; 7; 8; 9; 10; 11; 12; 13] ≫= fun p => Some (snd p).

Fixpoint unescape (l : list ascii) : option (list ascii) :=
  match l with
  | [] => Some []
  | c :: r =>
      if decide (c = BACKSLASH) then
        match r with
        | [] => None
        | d :: r1 =>
            if decide (d = "x"%char) then
              match r1 with a :: b :: k => cons (byte_at (unhex [a; b])) <$> unescape k | _ => None end
            else if decide (d = "u"%char) then
              match r1 with
              | a :: b :: e :: f :: k => app (chars (utf8 (unhex [a; b; e; f]))) <$> unescape k
              | _ => None
              end
            else if decide (d = "U"%char) then
              match r1 with
              | a :: b :: e :: f :: g :: h :: i :: j :: k =>
                  app (chars (utf8 (unhex [a; b; e; f; g; h; i; j]))) <$> unescape k
              | _ => None
              end
            else match unletter d with
            | Some v => cons (byte_at v) <$> unescape r1
            | None => if bool_decide (d = QUOTE) || bool_decide (d = BACKSLASH) then cons d <$> unescape r1 else None
            end
        end
      else cons c <$> unescape r
  end.

(** The text between the two quotes. *)
Definition unquote (s : string) : option string :=
  match chars s with
  | q :: l =>
      match last l with
      | Some q' => if decide (q = QUOTE /\ q' = QUOTE) then of_chars <$> unescape (take (length l - 1) l) else None
      | None => None
      end
  | [] => None
  end.

Example quote_ex :
  let s := of_chars ("a"%char :: QUOTE :: BACKSLASH :: (byte_at <$> [10; 27; 255; 233]) ++ chars "é€𐍈") in
  quote (fun _ => false) s
  = of_chars (QUOTE :: "a"%char :: BACKSLASH :: QUOTE :: BACKSLASH :: BACKSLASH
                :: chars "\n\x1b\xff\xe9é\u20ac\U00010348" ++ [QUOTE])
  /\ unquote (quote (fun _ => false) s) = Some s.
Proof. vm_compute. done. Qed.

(** ** Lemmas *)


(** ** Lemmas *)

Lemma hex_digit_val n : 0 <= n < 16 ->
  byte_val (hex_digit n) = (if n <? 10 then 48 + n else 87 + n) /\ unhex_digit (hex_digit n) = n.
Proof.
  intros H. unfold unhex_digit, hex_digit. rewrite byte_val_at by (destruct (n <? 10) eqn:E; breflect; lia).
  split; [done |]. destruct (n <? 10) eqn:E; breflect; destruct (_ <? 58) eqn:F; breflect; lia.
Qed.

Lemma unhex_hex k r : 0 <= r -> unhex (hex k r) = r mod 16 ^ Z.of_nat k.
Proof.
  unfold unhex. revert r. induction k as [| k IH]; intros r Hr; [cbn; by rewrite Z.mod_1_r |].
  cbn [hex]. rewrite foldl_app. cbn [foldl]. rewrite IH by (apply Z.div_pos; lia).
  rewrite (proj2 (hex_digit_val (r mod 16) ltac:(apply Z.mod_pos_bound; lia))).
  rewrite Nat2Z.inj_succ, Z.pow_succ_r, (Z.rem_mul_r r 16) by lia. lia.
Qed.

(** Printing ASCII: no control character and not DEL. *)
Definition clean (c : ascii) : bool := (32 <=? byte_val c) && negb (byte_val c =? 127).

Lemma hex_clean k r : Forall (fun c => clean c = true) (hex k r).
Proof.
  revert r. induction k as [| k IH]; intros r; [constructor |]. cbn [hex].
  apply Forall_app. split; [apply IH |]. repeat constructor. unfold clean.
  pose proof (Z.mod_pos_bound r 16 ltac:(lia)) as B. rewrite (proj1 (hex_digit_val _ B)).
  destruct (r mod 16 <? 10) eqn:E; breflect; apply andb_true_iff; split; [lia | apply negb_true_iff; lia | lia | apply negb_true_iff; lia].
Qed.

Lemma utf8_bytes r : valid_rune r -> Forall (fun c => byte_val c = r \/ 128 <= byte_val c /\ 128 <= r) (chars (utf8 r)).
Proof.
  intros H. rewrite utf8_valid, chars_of_chars by done. pose proof H as Hr. unfold valid_rune in Hr.
  destruct (r <? 128) eqn:E1; breflect; [constructor; [left; apply byte_val_at; lia | constructor] |].
  destruct (r <? 2048) eqn:E2; breflect; [| destruct (r <? 65536) eqn:E3; breflect];
    repeat (apply Forall_cons; split; [right; rewrite byte_val_at by divmod; divmod |]); constructor.
Qed.

Lemma unescape_raw k l : BACKSLASH ∉ k -> unescape (k ++ l) = app k <$> unescape l.
Proof.
  induction k as [| c k IH]; intros H; [cbn; by destruct (unescape l) |].
  apply not_elem_of_cons in H as [Hc Hk]. cbn [app unescape]. rewrite decide_False by done.
  rewrite IH by done. by destruct (unescape l).
Qed.

Lemma letter_spec r c : letter_of r = Some c -> 7 <= r <= 13 /\ unletter c = Some r /\ clean c = true
  /\ c ∉ ["x"%char; "u"%char; "U"%char].
Proof.
  unfold letter_of. intros H.
  repeat match type of H with (if ?b then _ else _) = _ => destruct b eqn:?; breflect end; try done;
    injection H as <-; subst; (split; [lia |]); repeat split; try done; set_solver.
Qed.

Section laws.
Context (unicode_print : Z -> bool).
Notation quote_one := (quote_one unicode_print).
Notation escape := (escape unicode_print).
Notation quote := (quote unicode_print).

(** An escape is one of five. *)
Lemma escape_cases (P : list ascii -> Prop) r : valid_rune r ->
  (r = 34 \/ r = 92 -> P [BACKSLASH; byte_at r]) ->
  (r <> 34 -> r <> 92 -> is_print unicode_print r = true -> P (chars (utf8 r))) ->
  (forall c, letter_of r = Some c -> P [BACKSLASH; c]) ->
  (r < 32 \/ r = 127 -> P (BACKSLASH :: "x"%char :: hex 2 r)) ->
  (r < 65536 -> P (BACKSLASH :: "u"%char :: hex 4 r)) ->
  P (BACKSLASH :: "U"%char :: hex 8 r) -> P (escape r).
Proof.
  intros Hv H1 H2 H3 H4 H5 H6. unfold Quote.escape.
  destruct ((r =? 34) || (r =? 92)) eqn:E1; [apply H1; breflect; lia |].
  destruct (is_print unicode_print r) eqn:E2; [apply H2; breflect; lia |].
  destruct (letter_of r) as [c |] eqn:E3; [by apply H3 |].
  destruct ((r <? 32) || (r =? 127)) eqn:E4; [apply H4; breflect; lia |].
  destruct (r <? 65536) eqn:E5; [apply H5; breflect; lia | done].
Qed.

Lemma unescape_escape r l : valid_rune r -> unescape (escape r ++ l) = app (chars (utf8 r)) <$> unescape l.
Proof.
  intros Hv. pose proof Hv as Hr. unfold valid_rune in Hr.
  assert (r < 128 -> chars (utf8 r) = [byte_at r]) as Hlow
    by (intros H; rewrite utf8_valid, chars_of_chars, ltb_t by done; done).
  apply escape_cases; [done | | | | | |].
  - intros H. rewrite Hlow by lia. destruct H as [-> | ->]; reflexivity.
  - intros H1 H2 _. apply unescape_raw. intros Hin.
    pose proof (utf8_bytes r Hv) as F. rewrite Forall_forall in F. apply F in Hin.
    change (byte_val BACKSLASH) with 92 in Hin. lia.
  - intros c Hc. apply letter_spec in Hc as (H1 & H2 & _ & H3). rewrite Hlow by lia.
    cbn [app unescape]. rewrite decide_True by done. rewrite !decide_False by set_solver. by rewrite H2.
  - intros H. rewrite Hlow by lia. pose proof (unhex_hex 2 r ltac:(lia)) as Hx.
    transitivity (cons (byte_at (unhex (hex 2 r))) <$> unescape l); [done |].
    rewrite Hx, Z.mod_small by (cbn; lia). done.
  - intros H. pose proof (unhex_hex 4 r ltac:(lia)) as Hx.
    transitivity (app (chars (utf8 (unhex (hex 4 r)))) <$> unescape l); [done |].
    rewrite Hx, Z.mod_small by (cbn; lia). done.
  - pose proof (unhex_hex 8 r ltac:(lia)) as Hx.
    transitivity (app (chars (utf8 (unhex (hex 8 r)))) <$> unescape l); [done |].
    rewrite Hx, Z.mod_small by (cbn; lia). done.
Qed.

Lemma escape_clean r : valid_rune r -> Forall (fun c => clean c = true) (escape r).
Proof.
  intros Hv. assert (clean BACKSLASH = true) as HB by done. apply escape_cases; [done | | | | | |].
  - intros H. by destruct H as [-> | ->]; repeat constructor.
  - intros _ _ Hp. eapply Forall_impl; [by apply utf8_bytes |]. intros c Hc. unfold clean, is_print in *.
    destruct (r <? 256) eqn:E; breflect; [destruct ((32 <=? r) && (r <? 127)) eqn:F |]; breflect;
      apply andb_true_iff; (split; [lia | apply negb_true_iff; lia]).
  - intros c Hc. apply letter_spec in Hc as (_ & _ & Hc & _). by repeat constructor.
  - intros _. constructor; [done |]. constructor; [done |]. apply hex_clean.
  - intros _. constructor; [done |]. constructor; [done |]. apply hex_clean.
  - constructor; [done |]. constructor; [done |]. apply hex_clean.
Qed.

Lemma quote_one_cases (P : list ascii -> Prop) p : decoded p ->
  (forall c, snd p = String c "" -> P (BACKSLASH :: "x"%char :: hex 2 (byte_val c))) ->
  (valid_rune (fst p) -> snd p = utf8 (fst p) -> P (escape (fst p))) -> P (quote_one p).
Proof.
  destruct p as [r b]. intros [[E (c & Hc & Hn)] | [Hv Hb]] H1 H2; cbn [fst snd] in *; unfold Quote.quote_one; cbn [fst snd].
  - subst r b. cbn. by apply H1.
  - assert (forall c, chars b = [c] -> (r =? rune_error) = false) as Hne.
    { intros c Hc. apply Z.eqb_neq. intros ->. subst b. discriminate. }
    destruct (chars b) as [| c [| ? ?]]; [by apply H2 | | by apply H2].
    rewrite (Hne c eq_refl). by apply H2.
Qed.

Lemma unescape_quoted l : Forall decoded l -> unescape (mjoin (quote_one <$> l)) = Some (chars (unrunes l)).
Proof.
  induction 1 as [| p l Hp _ IH]; [done |].
  change (mjoin (quote_one <$> p :: l)) with (quote_one p ++ mjoin (quote_one <$> l)).
  change (unrunes (p :: l)) with (snd p +:+ unrunes l). rewrite chars_app.
  apply quote_one_cases; [done | |].
  - intros c ->. pose proof (byte_val_range c) as B. pose proof (unhex_hex 2 (byte_val c) ltac:(lia)) as Hx.
    transitivity (cons (byte_at (unhex (hex 2 (byte_val c)))) <$> unescape (mjoin (quote_one <$> l))); [done |].
    rewrite Hx, Z.mod_small, IH by (cbn; lia). by rewrite (byte_at_of c).
  - intros Hv ->. by rewrite unescape_escape, IH.
Qed.

Lemma quoted_clean s : Forall (fun c => clean c = true) (quoted unicode_print s).
Proof.
  unfold quoted. apply Forall_join, Forall_fmap. eapply Forall_impl; [apply (runes_decoded s) |].
  intros p Hp. cbn. apply quote_one_cases; [done | |].
  - intros c _. constructor; [done |]. constructor; [done |]. apply hex_clean.
  - intros Hv _. by apply escape_clean.
Qed.

(** Quoted text is one line of printing characters, whatever is quoted. *)
Lemma quote_clean s : Forall (fun c => clean c = true) (chars (quote s)).
Proof.
  unfold Quote.quote. rewrite chars_of_chars. constructor; [done |].
  apply Forall_app. split; [apply quoted_clean | by repeat constructor].
Qed.

(** It determines what was quoted. *)
Lemma unquote_quote s : unquote (quote s) = Some s.
Proof.
  unfold Quote.quote, unquote. rewrite chars_of_chars. cbn [app]. rewrite last_snoc, decide_True by done.
  rewrite length_app, take_app_length' by (cbn; lia).
  unfold quoted. destruct (runes_decoded s) as [U D]. rewrite unescape_quoted, U by done. cbn. by rewrite of_chars_chars.
Qed.

#[global] Instance quote_inj : Inj (=) (=) quote.
Proof. intros s t H. apply (inj Some). by rewrite <-!unquote_quote, H. Qed.

(** Printing ASCII other than the quote and the backslash is quoted as it is. *)
Lemma quote_plain s : Forall (fun c => 32 <= byte_val c < 127 /\ c <> QUOTE /\ c <> BACKSLASH) (chars s) ->
  quote s = String QUOTE (s +:+ String QUOTE "").
Proof.
  intros H. assert (quoted unicode_print s = chars s) as E.
  { unfold quoted. rewrite runes_ascii by (eapply Forall_impl; [exact H |]; cbn; lia).
    induction H as [| c l (Hr & Hq & Hb) _ IH]; [done |]. cbn [fmap list_fmap].
    change (mjoin _) with (quote_one (byte_val c, String c "") ++ mjoin (quote_one <$> ((fun c => (byte_val c, String c "")) <$> l))).
    rewrite IH. unfold Quote.quote_one, rune_error, Quote.escape, is_print. cbn [chars String.list_ascii_of_string fst snd].
    assert ((byte_val c =? 65533) = false) as -> by lia.
    assert (byte_val c <> 34) as Nq by (intros E; apply Hq, byte_val_inj; rewrite E; done).
    assert (byte_val c <> 92) as Nb by (intros E; apply Hb, byte_val_inj; rewrite E; done).
    assert ((byte_val c =? 34) || (byte_val c =? 92) = false) as -> by lia.
    assert ((byte_val c <? 256) = true) as -> by lia.
    assert (((32 <=? byte_val c) && (byte_val c <? 127)) = true) as -> by lia. cbn [orb].
    rewrite utf8_valid, ltb_t, chars_of_chars by (unfold valid_rune; lia). by rewrite (byte_at_of c). }
  unfold Quote.quote. rewrite E. cbn. rewrite of_chars_app, of_chars_chars. done.
Qed.
End laws.
