(* ===== verification/Html.v ===== *)
(** * How a browser reads markup

    The part of the WHATWG tokenizer that fragments of HTML exercise: text, tags,
    attributes in double quotes, single quotes or none, and the character
    references of [&], [<], [>] and the two quotes. Declarations, comments and other
    references lead to a state of their own, [Bogus], from which nothing returns. *)

From S2P Require Export GoStr.

(** A tag under construction. *)
Record tag := Tag { tg_close : bool; tg_name : string; tg_attrs : list (string * string) }.

Inductive hstate :=
| Data
| TagOpen
| EndTagOpen
| TagName (close : bool) (name : string)
| BeforeName (t : tag)
| AttrName (t : tag) (n : string)
| AfterName (t : tag) (n : string)
| BeforeValue (t : tag) (n : string)
| Dq (t : tag) (n v : string)            (* value in double quotes *)
| Sq (t : tag) (n v : string)            (* in single quotes *)
| Uq (t : tag) (n v : string)            (* in none *)
| AfterValue (t : tag)
| SelfClosing (t : tag)
| CharRef (back : hstate) (r : string)   (* after an ampersand *)
| Bogus.

Inductive token :=
| TChar (c : ascii)
| TStart (name : string) (attrs : list (string * string))
| TEnd (name : string).

Definition LT : ascii := "<"%char.
Definition GT : ascii := ">"%char.
Definition AMP : ascii := "&"%char.
Definition SQUOTE : ascii := "'"%char.
Definition SLASH : ascii := "/"%char.
Definition EQUALS : ascii := "="%char.

Definition ascii_lower (c : ascii) : ascii :=
  match c with
  | "A" => "a" | "B" => "b" | "C" => "c" | "D" => "d" | "E" => "e" | "F" => "f" | "G" => "g" | "H" => "h" | "I" => "i"
  | "J" => "j" | "K" => "k" | "L" => "l" | "M" => "m" | "N" => "n" | "O" => "o" | "P" => "p" | "Q" => "q" | "R" => "r"
  | "S" => "s" | "T" => "t" | "U" => "u" | "V" => "v" | "W" => "w" | "X" => "x" | "Y" => "y" | "Z" => "z"
  | _ => c
  end%char.
Definition is_alpha (c : ascii) : bool :=
  match ascii_lower c with
  | "a" | "b" | "c" | "d" | "e" | "f" | "g" | "h" | "i" | "j" | "k" | "l" | "m"
  | "n" | "o" | "p" | "q" | "r" | "s" | "t" | "u" | "v" | "w" | "x" | "y" | "z" => true
  | _ => false
  end%char.
Definition html_space (c : ascii) : bool :=
  match c with "009" | "010" | "012" | "013" | " " => true | _ => false end%char.

Definition is_dq (c : ascii) : bool := Ascii.eqb c QUOTE.
Definition is_sq (c : ascii) : bool := Ascii.eqb c SQUOTE.
Definition is_lt (c : ascii) : bool := Ascii.eqb c LT.
Definition is_gt (c : ascii) : bool := Ascii.eqb c GT.
Definition is_amp (c : ascii) : bool := Ascii.eqb c AMP.
Definition is_slash (c : ascii) : bool := Ascii.eqb c SLASH.
Definition is_equals (c : ascii) : bool := Ascii.eqb c EQUALS.

Definition one (c : ascii) : string := String c "".
Definition push (s : string) (c : ascii) : string := s +:+ one c.
(** Appending to a value. *)
Definition value_app (v s : string) : string := v +:+ s.

Definition new_tag (close : bool) (name : string) : tag := Tag close name [].
Definition add_attr (t : tag) (n v : string) : tag := Tag (tg_close t) (tg_name t) (tg_attrs t ++ [(n, v)]).
Definition tok_emit (t : tag) : token :=
  if tg_close t then TEnd (tg_name t) else TStart (tg_name t) (tg_attrs t).

(** A character of text or of a value, literal or referred to. *)
Definition tok_put (q : hstate) (c : ascii) : list token * hstate :=
  match q with
  | Data => ([TChar c], Data)
  | Dq t n v => ([], Dq t n (value_app v (one c)))
  | Sq t n v => ([], Sq t n (value_app v (one c)))
  | Uq t n v => ([], Uq t n (value_app v (one c)))
  | _ => ([], Bogus)
  end.

(** The references that are known. *)
Definition char_ref (r : string) : option ascii :=
  if bool_decide (r = "amp") then Some AMP
  else if bool_decide (r = "lt") then Some LT
  else if bool_decide (r = "gt") then Some GT
  else if bool_decide (r = "quot") then Some QUOTE
  else if bool_decide (r = "#39") then Some SQUOTE
  else None.

Definition tok_step (q : hstate) (c : ascii) : list token * hstate :=
  match q with
  | Data => if is_lt c then ([], TagOpen) else if is_amp c then ([], CharRef Data "") else tok_put Data c
  | TagOpen =>
      if is_slash c then ([], EndTagOpen)
      else if is_alpha c then ([], TagName false (one (ascii_lower c)))
      else ([], Bogus)
  | EndTagOpen => if is_alpha c then ([], TagName true (one (ascii_lower c))) else ([], Bogus)
  | TagName cl name =>
      if html_space c then ([], BeforeName (new_tag cl name))
      else if is_slash c then ([], SelfClosing (new_tag cl name))
      else if is_gt c then ([tok_emit (new_tag cl name)], Data)
      else ([], TagName cl (push name (ascii_lower c)))
  | BeforeName t =>
      if html_space c then ([], q)
      else if is_slash c then ([], SelfClosing t)
      else if is_gt c then ([tok_emit t], Data)
      else ([], AttrName t (one (ascii_lower c)))
  | AttrName t n =>
      if html_space c then ([], AfterName t n)
      else if is_slash c then ([], SelfClosing (add_attr t n ""))
      else if is_gt c then ([tok_emit (add_attr t n "")], Data)
      else if is_equals c then ([], BeforeValue t n)
      else ([], AttrName t (push n (ascii_lower c)))
  | AfterName t n =>
      if html_space c then ([], q)
      else if is_slash c then ([], SelfClosing (add_attr t n ""))
      else if is_gt c then ([tok_emit (add_attr t n "")], Data)
      else if is_equals c then ([], BeforeValue t n)
      else ([], AttrName (add_attr t n "") (one (ascii_lower c)))
  | BeforeValue t n =>
      if html_space c then ([], q)
      else if is_dq c then ([], Dq t n "")
      else if is_sq c then ([], Sq t n "")
      else if is_gt c then ([tok_emit (add_attr t n "")], Data)
      else if is_amp c then ([], CharRef (Uq t n "") "")
      else ([], Uq t n (one c))
  | Dq t n v =>
      if is_dq c then ([], AfterValue (add_attr t n v)) else if is_amp c then ([], CharRef q "") else tok_put q c
  | Sq t n v =>
      if is_sq c then ([], AfterValue (add_attr t n v)) else if is_amp c then ([], CharRef q "") else tok_put q c
  | Uq t n v =>
      if html_space c then ([], BeforeName (add_attr t n v))
      else if is_gt c then ([tok_emit (add_attr t n v)], Data)
      else if is_amp c then ([], CharRef q "") else tok_put q c
  | AfterValue t =>
      if html_space c then ([], BeforeName t)
      else if is_slash c then ([], SelfClosing t)
      else if is_gt c then ([tok_emit t], Data)
      else ([], AttrName t (one (ascii_lower c)))
  | SelfClosing t =>
      if is_gt c then ([tok_emit t], Data)
      else if html_space c then ([], BeforeName t)
      else ([], AttrName t (one (ascii_lower c)))
  | CharRef back r =>
      if Ascii.eqb c ";" then match char_ref r with Some d => tok_put back d | None => ([], Bogus) end
      else ([], CharRef back (push r c))
  | Bogus => ([], Bogus)
  end.

Fixpoint tok_run (q : hstate) (s : string) : list token * hstate :=
  match s with
  | "" => ([], q)
  | String c s' =>
      let '(ts, q1) := tok_step q c in
      let '(ts', q2) := tok_run q1 s' in (ts ++ ts', q2)
  end.

(** What a fragment set as the content of an element is read as. *)
Definition tokenize (s : string) : list token * hstate := tok_run Data s.

(** A template: a Go raw string has no backquote, so one stands for the double
    quote here. *)
Fixpoint html (s : string) : string :=
  match s with
  | "" => ""
  | String c s' => String (if Ascii.eqb c "`" then QUOTE else c) (html s')
  end.

Definition tok_text (s : string) : list token := TChar <$> chars s.

Example tokenize_ex :
  tokenize (html "<td class=mono title=`a&lt;b`>x &amp; y<br/></td>")
  = (TStart "td" [("class", "mono"); ("title", "a<b")] :: tok_text "x & y" ++ [TStart "br" []; TEnd "td"], Data).
Proof. vm_compute. reflexivity. Qed.

(** ** Laws *)

Lemma tok_run_app q s t :
  tok_run q (s +:+ t) = let '(ts, q1) := tok_run q s in let '(ts', q2) := tok_run q1 t in (ts ++ ts', q2).
Proof.
  revert q. induction s as [| c s IH]; intros q; cbn [tok_run].
  - change ("" +:+ t) with t. by destruct (tok_run q t).
  - change (String c s +:+ t) with (String c (s +:+ t)). cbn [tok_run]. destruct (tok_step q c) as [ts q1]. rewrite IH.
    destruct (tok_run q1 s) as [ts1 q2]. destruct (tok_run q2 t) as [ts2 q3]. by rewrite app_assoc.
Qed.

(** Where text or a value may go: the places data is put in. *)
Inductive hole : hstate -> Prop :=
| hole_data : hole Data
| hole_dq t n v : hole (Dq t n v).

(** What a hole becomes when a string is put in. *)
Definition filled (q : hstate) (s : string) : list token * hstate :=
  match q with
  | Data => (tok_text s, Data)
  | Dq t n v => ([], Dq t n (value_app v s))
  | _ => ([], Bogus)
  end.

Lemma filled_cons q c s : hole q ->
  filled q (String c s) = let '(ts, q1) := tok_put q c in let '(ts', q2) := filled q1 s in (ts ++ ts', q2).
Proof.
  intros [|t n v]; cbn; [done |]. do 2 f_equal. unfold value_app, one. by rewrite append_assoc.
Qed.

Lemma hole_put q c : hole q -> hole (tok_put q c).2.
Proof. intros []; constructor. Qed.

(** A character that is nothing but itself in text and between double quotes. *)
Definition inert (c : ascii) : bool := negb (is_lt c || is_amp c || is_dq c).

Lemma tok_step_inert q c : hole q -> inert c = true -> tok_step q c = tok_put q c.
Proof.
  unfold inert. intros Hq H. rewrite negb_true_iff, !orb_false_iff in H. destruct H as [[Hl Ha] Hd].
  destruct Hq; cbn [tok_step]; by rewrite ?Hl, ?Ha, ?Hd.
Qed.

Definition plain (s : string) : Prop := Forall (fun c => inert c = true) (chars s).

Lemma tok_run_plain q s : hole q -> plain s -> tok_run q s = filled q s.
Proof.
  unfold plain. revert q. induction s as [| c s IH]; intros q Hq Hs.
  - destruct Hq; cbn; [done |]. unfold value_app. by rewrite append_nil_r.
  - apply Forall_cons in Hs as [Hc Hs]. cbn [tok_run]. rewrite (tok_step_inert q c) by done.
    rewrite filled_cons by done. pose proof (hole_put q c Hq) as Hp. destruct (tok_put q c) as [ts q1]. by rewrite (IH q1).
Qed.
