(* ===== verification/GoTime.v ===== *)
(** * Go time

    [time.Time] is a count of nanoseconds from the Unix epoch and
    [time.Duration] an [int64] of nanoseconds, both as [Z]. Subtraction
    saturates, as [Time.Sub] does, and the zero [Time] is year one. *)

From S2P Require Export GoStr.
From Stdlib Require Export QArith.QArith_base.
#[global] Open Scope Z_scope.

Definition time : Type := Z.
Definition duration : Type := Z.

Definition nanosecond : duration := 1.
Definition microsecond : duration := 1000.
Definition millisecond : duration := 1000000.
Definition second : duration := 1000000000.
Definition minute : duration := 60 * second.
Definition hour : duration := 60 * minute.

(** [time.Time{}]: 0001-01-01 00:00:00 UTC. *)
Definition zero_time : time := - 62135596800 * second.

Definition is_zero (t : time) : bool := t =? zero_time.

(** [time.Unix s 0] and [Time.Unix]. *)
Definition of_unix (s : Z) : time := s * second.
Definition unix (t : time) : Z := t / second.

(** [Time.Sub], saturating at the ends of [int64]. *)
Definition sub (t u : time) : duration := Z.max min_i64 (Z.min max_i64 (t - u)).

(** [Duration.Seconds] and [Duration.Milliseconds]. A [float64] is the exact
    rational; its rounding is not modelled. *)
Definition seconds (d : duration) : Q := Qmake d 1000000000.
Definition milliseconds (d : duration) : Z := Z.quot d millisecond.
Definition microseconds (d : duration) : Z := Z.quot d microsecond.

(** [Duration.Round]. *)
Definition round (d m : duration) : duration :=
  if m <=? 0 then d
  else
    let r := Z.rem d m in
    if d <? 0 then
      let r := - r in
      if u64 (r + r) <? m then d + r
      else let d1 := i64 (d - m + r) in if d1 <? d then d1 else min_i64
    else
      if u64 (r + r) <? m then d - r
      else let d1 := i64 (d + m - r) in if d <? d1 then d1 else max_i64.

(** [fmtFrac]: the decimal fraction of [v / 10^prec] without trailing zeros, in
    front of [acc], and the integer part. *)
Fixpoint fmt_frac (prec : nat) (v : Z) (print : bool) (acc : string) : string * Z :=
  match prec with
  | O => (if print then "." +:+ acc else acc, v)
  | S p =>
      let digit := v mod 10 in
      let print := print || negb (digit =? 0) in
      fmt_frac p (v / 10) print (if print then itoa digit +:+ acc else acc)
  end.

(** [Duration.String]. *)
Definition dur_string (d : duration) : string :=
  let u := Z.abs d in
  let body :=
    if u <? second then
      if u =? 0 then "0s"
      else
        let '(prec, unit) :=
          if u <? microsecond then (0%nat, "ns")
          else if u <? millisecond then (3%nat, "µs")
          else (6%nat, "ms") in
        let '(frac, v) := fmt_frac prec u false unit in itoa v +:+ frac
    else
      let '(frac, s) := fmt_frac 9 u false "s" in
      let secs := itoa (s mod 60) +:+ frac in
      let m := s / 60 in
      if 0 <? m then
        let mins := itoa (m mod 60) +:+ "m" +:+ secs in
        let h := m / 60 in
        if 0 <? h then itoa h +:+ "h" +:+ mins else mins
      else secs in
  if d <? 0 then "-" +:+ body else body.

Example dur_string_ex :
  (dur_string (15 * second), dur_string (1500 * millisecond), dur_string (hour + 2 * minute),
   dur_string 1200, dur_string 0)
  = ("15s", "1.5s", "1h2m0s", "1.2µs", "0s").
Proof. vm_compute. reflexivity. Qed.

(** [Time.Format "2006-01-02"], from the seconds since the epoch in the zone of
    the time: the civil date of the proleptic Gregorian calendar. *)
Definition civil (days : Z) : Z * Z * Z :=
  let z := days + 719468 in
  let era := z / 146097 in
  let doe := z mod 146097 in
  let yoe := (doe - doe / 1460 + doe / 36524 - doe / 146096) / 365 in
  let doy := doe - (365 * yoe + yoe / 4 - yoe / 100) in
  let mp := (5 * doy + 2) / 153 in
  let d := doy - (153 * mp + 2) / 5 + 1 in
  let mo := if mp <? 10 then mp + 3 else mp - 9 in
  (yoe + era * 400 + (if mo <=? 2 then 1 else 0), mo, d).

Definition pad2 (n : Z) : string := (if n <? 10 then "0" else "") +:+ itoa n.
Definition pad4 (n : Z) : string :=
  (if n <? 10 then "000" else if n <? 100 then "00" else if n <? 1000 then "0" else "") +:+ itoa n.

Definition date_string (secs : Z) : string :=
  let '(y, mo, d) := civil (secs / 86400) in
  pad4 y +:+ "-" +:+ pad2 mo +:+ "-" +:+ pad2 d.

Example date_string_ex :
  (date_string 0, date_string 951782400, date_string 1709251199, date_string 1735689599)
  = ("1970-01-01", "2000-02-29", "2024-02-29", "2024-12-31").
Proof. vm_compute. reflexivity. Qed.

Lemma sub_small t u : is_i64 (t - u) -> sub t u = t - u.
Proof. unfold is_i64, sub, min_i64, max_i64. lia. Qed.

Lemma sub_range t u : is_i64 (sub t u).
Proof. unfold is_i64, sub, min_i64, max_i64. lia. Qed.

Lemma sub_le_mono t t' u : t <= t' -> sub t u <= sub t' u.
Proof. unfold sub, min_i64, max_i64. lia. Qed.

(** A test of a saturated difference against a duration is a test of the exact one. *)
Lemma sub_ge t u d : 0 <= d <= max_i64 -> (d <=? sub t u) = (d <=? t - u).
Proof.
  unfold sub, min_i64, max_i64. intros H.
  destruct (Z.leb_spec d (t - u)); [apply Z.leb_le | apply Z.leb_gt]; lia.
Qed.

Lemma sub_lt t u d : 0 <= d <= max_i64 -> (sub t u <? d) = (t - u <? d).
Proof.
  intros H. rewrite !Z.ltb_antisym. by rewrite sub_ge.
Qed.

Lemma unix_of_unix s : unix (of_unix s) = s.
Proof. apply Z.div_mul. done. Qed.

Lemma unix_mono t u : t <= u -> unix t <= unix u.
Proof. intros H. apply Z.div_le_mono; [done | lia]. Qed.

#[export] Hint Resolve sub_range unix_mono : go.
