(* ===== verification/Js.v ===== *)
(** * The JavaScript the panel's page is written in

    What monitor/page.go uses of JavaScript's standard library and of the web:
    [JSON.stringify] of a string and the string literals of the language,
    [Number.prototype.toFixed], [encodeURIComponent], and on the server's side the
    query parsing of Go's net/url. A string is the UTF-8 of its text; a number is
    an exact rational. *)

From S2P Require Export Html GoTime Quote.

(** ** String literals *)

(** One character as [JSON.stringify] writes it. *)
Definition json_char (c : ascii) : list ascii :=
  let b := byte_val c in
  if b =? 34 then [BACKSLASH; c]
  else if b =? 92 then [BACKSLASH; c]
  else if b =? 8 then [BACKSLASH; "b"%char]
  else if b =? 12 then [BACKSLASH; "f"%char]
  else if b =? 10 then [BACKSLASH; "n"%char]
  else if b =? 13 then [BACKSLASH; "r"%char]
  else if b =? 9 then [BACKSLASH; "t"%char]
  else if b <? 32 then BACKSLASH :: "u"%char :: hex 4 b
  else [c].

Definition stringify (s : string) : string := of_chars (QUOTE :: mjoin (json_char <$> chars s) ++ [QUOTE]).

(** The rest of a literal after its opening quote: its value, and what follows the
    closing quote. An unescaped line end is an error, as are escapes not known here. *)
Fixpoint read_rest (l : list ascii) : option (list ascii * list ascii) :=
  match l with
  | [] => None
  | c :: r =>
      if Ascii.eqb c QUOTE then Some ([], r)
      else if Ascii.eqb c BACKSLASH then
        match r with
        | [] => None
        | d :: r1 =>
            let one (v : ascii) := '(t, k) ← read_rest r1; Some (v :: t, k) in
            if Ascii.eqb d QUOTE || Ascii.eqb d BACKSLASH then one d
            else if Ascii.eqb d "b" then one (byte_at 8)
            else if Ascii.eqb d "f" then one (byte_at 12)
            else if Ascii.eqb d "n" then one (byte_at 10)
            else if Ascii.eqb d "r" then one (byte_at 13)
            else if Ascii.eqb d "t" then one (byte_at 9)
            else if Ascii.eqb d "u" then
              match r1 with
              | a :: b :: e :: f :: r2 =>
                  '(t, k) ← read_rest r2; Some (chars (utf8 (unhex [a; b; e; f])) ++ t, k)
              | _ => None
              end
            else None
        end
      else if (byte_val c =? 10) || (byte_val c =? 13) then None
      else '(t, k) ← read_rest r; Some (c :: t, k)
  end.

Definition read_literal (s : string) : option (string * string) :=
  match chars s with
  | c :: l => if Ascii.eqb c QUOTE then '(t, k) ← read_rest l; Some (of_chars t, of_chars k) else None
  | [] => None
  end.

(** A call of a function with a string literal first: the function, the string it
    is given, and the rest of the code. *)
Fixpoint read_call_go (f : string) (s : string) : option (string * string * string) :=
  match s with
  | "" => None
  | String c s' =>
      if Ascii.eqb c "(" then '(a, k) ← read_literal s'; Some (f, a, k) else read_call_go (f +:+ String c "") s'
  end.
Definition read_call (s : string) : option (string * string * string) := read_call_go "" s.

(** ** Numbers *)

Definition Qlt_b (a b : Q) : bool := Qnum a * Zpos (Qden b) <? Qnum b * Zpos (Qden a).
Definition Qfloor_ (q : Q) : Z := Qnum q / Zpos (Qden q).

Definition pad_digits (k : nat) (s : string) : string :=
  of_chars (replicate (S k - length (chars s)) "0"%char) +:+ s.

(** The decimals of a number that is not negative: the nearest, the larger of two. *)
Definition fixed_abs (k : nat) (q : Q) : string :=
  let n := (2 * (Qnum q * 10 ^ Z.of_nat k) + Zpos (Qden q)) / (2 * Zpos (Qden q)) in
  let m := chars (pad_digits k (itoa n)) in
  match k with
  | O => of_chars m
  | _ => of_chars (take (length m - k) m) +:+ "." +:+ of_chars (drop (length m - k) m)
  end.

Definition toFixed (k : nat) (q : Q) : string :=
  if Qnum q <? 0 then "-" +:+ fixed_abs k (Qopp q) else fixed_abs k q.

(** ** URLs *)

Definition is_uri_char (c : ascii) : bool :=
  is_alpha c || is_digit c || bool_decide (c ∈ ["-"; "_"; "."; "!"; "~"; "*"; "'"; "("; ")"]%char).

Definition upper_hex (n : Z) : ascii := byte_at (if n <? 10 then 48 + n else 55 + n).
Definition uri_char (c : ascii) : list ascii :=
  if is_uri_char c then [c] else ["%"%char; upper_hex (byte_val c / 16); upper_hex (byte_val c mod 16)].

Definition encodeURIComponent (s : string) : string := of_chars (mjoin (uri_char <$> chars s)).

(** *** Go's side: [url.QueryUnescape] and [Values.Get]. *)

Definition unhex_uri (c : ascii) : option Z :=
  let b := byte_val c in
  if (48 <=? b) && (b <=? 57) then Some (b - 48)
  else if (97 <=? b) && (b <=? 102) then Some (b - 87)
  else if (65 <=? b) && (b <=? 70) then Some (b - 55)
  else None.

Fixpoint unescape_uri (l : list ascii) : option (list ascii) :=
  match l with
  | [] => Some []
  | c :: r =>
      if Ascii.eqb c "%" then
        match r with
        | a :: b :: k => x ← unhex_uri a; y ← unhex_uri b; t ← unescape_uri k; Some (byte_at (x * 16 + y) :: t)
        | _ => None
        end
      else t ← unescape_uri r; Some ((if Ascii.eqb c "+" then " "%char else c) :: t)
  end.
Definition QueryUnescape (s : string) : option string := of_chars <$> unescape_uri (chars s).

(** [strings.Cut]. *)
Definition cut (sep : ascii) (s : string) : string * string :=
  match index_byte sep (chars s) with
  | Some i => (of_chars (take i (chars s)), of_chars (drop (S i) (chars s)))
  | None => (s, "")
  end.

(** One pair of [url.ParseQuery]; pairs that are empty, have a semicolon or do not
    unescape are left out. *)
Definition query_pair (kv : string) : option (string * string) :=
  if has_byte ";" (chars kv) || bool_decide (kv = "") then None
  else let '(k, v) := cut "=" kv in
       k ← QueryUnescape k; v ← QueryUnescape v; Some (k, v).

(** [req.URL.Query().Get key], of the URL as it was requested. *)
Definition query_get (url key : string) : string :=
  let pairs := omap query_pair (split "&" (snd (cut "?" (fst (cut "#" url))))) in
  match list_find (fun p : string * string => p.1 = key) pairs with Some (_, p) => p.2 | None => "" end.

Example js_ex :
  let s := of_chars (chars "a" ++ [QUOTE; BACKSLASH; byte_at 10; byte_at 1] ++ chars "&é<") in
  read_literal (stringify s +:+ ",this)") = Some (s, ",this)")
  /\ query_get ("/api/traffic?client=" +:+ encodeURIComponent s +:+ "&port=7") "client" = s
  /\ (toFixed 1 (125 # 100), toFixed 0 (5 # 2), toFixed 2 (-1 # 1000), toFixed 1 999)%Q = ("1.3", "3", "-0.00", "999.0").
Proof. vm_compute. done. Qed.

(** ** Laws *)

Lemma read_rest_json c l : 
  read_rest (json_char c ++ l) = '(t, k) ← read_rest l; Some (c :: t, k).
Proof.
  unfold json_char. pose proof (byte_val_range c) as Hc.
  assert (forall z, byte_val c = z -> c = byte_at z) as Hat by (intros z <-; symmetry; by apply byte_at_of).
  repeat match goal with |- context [if byte_val c =? ?z then _ else _] =>
    destruct (Z.eqb_spec (byte_val c) z) as [E |]; [apply Hat in E; subst c; reflexivity |] end.
  destruct (Z.ltb_spec (byte_val c) 32).
  - transitivity ('(t, k) ← read_rest l; Some (chars (utf8 (unhex (hex 4 (byte_val c)))) ++ t, k)); [done |].
    rewrite unhex_hex, Z.mod_small by (cbn; lia).
    rewrite utf8_valid, chars_of_chars, ltb_t by (unfold valid_rune; lia). by rewrite (byte_at_of c).
  - cbn [app read_rest].
    destruct (Ascii.eqb_spec c QUOTE) as [-> |]; [done |]. destruct (Ascii.eqb_spec c BACKSLASH) as [-> |]; [done |].
    assert ((byte_val c =? 10) || (byte_val c =? 13) = false) as -> by lia. done.
Qed.

(** A literal that [JSON.stringify] wrote is read to its end and no further,
    whatever follows, and means the string. *)
Lemma read_stringify s k : read_literal (stringify s +:+ k) = Some (s, k).
Proof.
  unfold read_literal, stringify. rewrite chars_app, chars_of_chars. cbn [app].
  rewrite (proj2 (Ascii.eqb_eq QUOTE QUOTE) eq_refl).
  assert (forall l, read_rest ((mjoin (json_char <$> l) ++ [QUOTE]) ++ chars k) = Some (l, chars k)) as H.
  { induction l as [| c l IH]; [done |].
    change (mjoin (json_char <$> c :: l)) with (json_char c ++ mjoin (json_char <$> l)).
    rewrite <-!app_assoc, read_rest_json. rewrite <-!app_assoc in IH. by rewrite IH. }
  rewrite H. cbn. by rewrite !of_chars_chars.
Qed.

Lemma read_call_stringify f s k : free_of "(" f -> read_call (f +:+ "(" +:+ stringify s +:+ k) = Some (f, s, k).
Proof.
  intros Hf. unfold read_call. assert (forall g, read_call_go g (f +:+ "(" +:+ stringify s +:+ k) = Some (g +:+ f, s, k)) as H.
  { induction f as [| c f IH]; intros g.
    - change (read_call_go g (String "(" (stringify s +:+ k)) = Some (g +:+ "", s, k)).
      cbn [read_call_go]. rewrite (proj2 (Ascii.eqb_eq _ _) eq_refl), read_stringify, append_nil_r. done.
    - change (String c f +:+ "(" +:+ stringify s +:+ k) with (String c (f +:+ "(" +:+ stringify s +:+ k)). cbn [read_call_go].
      unfold free_of in Hf. apply not_elem_of_cons in Hf as [Hc Hf].
      rewrite (proj2 (Ascii.eqb_neq c "(")) by congruence. rewrite IH by done. by rewrite append_assoc. }
  by rewrite H.
Qed.

Lemma unhex_upper n : 0 <= n < 16 -> unhex_uri (upper_hex n) = Some n.
Proof.
  intros Hn. assert (Forall (fun n => unhex_uri (upper_hex n) = Some n) (seqZ 0 16)) as H
    by (apply (bool_decide_unpack _); vm_compute; exact I).
  rewrite Forall_forall in H. apply H, elem_of_seqZ. lia.
Qed.

(** Characters that stand for themselves in a query. *)
Definition query_safe (c : ascii) : Prop := c ∉ ["%"; "+"; "&"; "="; ";"; "#"; "?"]%char.

Lemma upper_hex_safe n : 0 <= n < 16 -> upper_hex n ∉ ["+"; "&"; "="; ";"; "#"; "?"]%char.
Proof.
  intros Hn. assert (Forall (fun n => upper_hex n ∉ ["+"; "&"; "="; ";"; "#"; "?"]%char) (seqZ 0 16)) as H
    by (apply (bool_decide_unpack _); vm_compute; exact I).
  rewrite Forall_forall in H. apply H, elem_of_seqZ. lia.
Qed.

Lemma uri_char_safe c : is_uri_char c = true -> query_safe c.
Proof.
  intros H Hin. unfold query_safe in Hin. rewrite !elem_of_cons in Hin.
  repeat (destruct Hin as [-> | Hin]; [discriminate H |]). by apply not_elem_of_nil in Hin.
Qed.

Lemma unescape_encoded s l : unescape_uri (chars (encodeURIComponent s) ++ l) = t ← unescape_uri l; Some (chars s ++ t).
Proof.
  unfold encodeURIComponent. rewrite chars_of_chars. induction (chars s) as [| c cs IH]; [cbn; by destruct (unescape_uri l) |].
  change (mjoin (uri_char <$> c :: cs)) with (uri_char c ++ mjoin (uri_char <$> cs)). rewrite <-app_assoc.
  unfold uri_char at 1. destruct (is_uri_char c) eqn:E.
  - cbn [app unescape_uri]. apply uri_char_safe in E. unfold query_safe in E.
    rewrite (proj2 (Ascii.eqb_neq c "%")), (proj2 (Ascii.eqb_neq c "+")) by set_solver.
    rewrite IH. by destruct (unescape_uri l).
  - cbn [app unescape_uri]. rewrite (proj2 (Ascii.eqb_eq _ _) eq_refl). pose proof (byte_val_range c).
    rewrite !unhex_upper by (Z.to_euclidean_division_equations; lia). cbn [mbind option_bind]. rewrite IH.
    rewrite (byte_at_of c) by divmod. by destruct (unescape_uri l).
Qed.

(** What is encoded has none of the characters that structure a query. *)
Lemma encoded_free s d : d ∈ ["&"; "="; ";"; "#"; "?"]%char -> free_of d (encodeURIComponent s).
Proof.
  intros Hd. unfold free_of, encodeURIComponent. rewrite chars_of_chars. intros Hin.
  apply list_elem_of_join in Hin as (l & Hin & Hl). apply list_elem_of_fmap in Hl as (c & -> & _).
  pose proof (byte_val_range c). unfold uri_char in Hin. destruct (is_uri_char c) eqn:E.
  - apply uri_char_safe in E. unfold query_safe in E. set_solver.
  - apply elem_of_cons in Hin as [-> | Hin]; [set_solver |].
    apply elem_of_cons in Hin as [-> | Hin].
    + pose proof (upper_hex_safe (byte_val c / 16) ltac:(divmod)). set_solver.
    + apply list_elem_of_singleton in Hin. subst d. pose proof (upper_hex_safe (byte_val c mod 16) ltac:(divmod)). set_solver.
Qed.

Lemma cut_free sep s : free_of sep s -> cut sep s = (s, "").
Proof. intros H. unfold cut. by rewrite index_byte_none. Qed.

Lemma cut_at sep s t : free_of sep s -> cut sep (s +:+ String sep t) = (s, t).
Proof.
  intros H. unfold cut. rewrite chars_app. change (chars (String sep t)) with (sep :: chars t).
  rewrite index_byte_app, take_app_length by done.
  replace (S (length (chars s))) with (length (chars s) + 1)%nat by lia.
  rewrite drop_app_add. cbn [drop]. by rewrite ?drop_0, !of_chars_chars.
Qed.

Lemma free_app sep s t : free_of sep (s +:+ t) <-> free_of sep s /\ free_of sep t.
Proof. unfold free_of. rewrite chars_app. set_solver. Qed.

Lemma query_pair_client s : query_pair ("client=" +:+ encodeURIComponent s) = Some ("client", s).
Proof.
  unfold query_pair. rewrite bool_decide_eq_false_2 by done. rewrite orb_false_r. unfold has_byte.
  rewrite bool_decide_eq_false_2.
  2:{ rewrite chars_app. intros [Hin | Hin]%elem_of_app; [cbn in Hin; set_solver |].
      eapply (encoded_free s ";"); [set_solver | done]. }
  change ("client=" +:+ encodeURIComponent s) with ("client" +:+ String "=" (encodeURIComponent s)).
  rewrite cut_at by (unfold free_of; cbn; set_solver). cbn [mbind option_bind].
  assert (QueryUnescape (encodeURIComponent s) = Some s) as ->; [| done].
  unfold QueryUnescape. pose proof (unescape_encoded s []) as H. rewrite app_nil_r in H. rewrite H. cbn.
  by rewrite app_nil_r, of_chars_chars.
Qed.

Lemma unescape_plain s : free_of "%" s -> free_of "+" s -> unescape_uri (chars s) = Some (chars s).
Proof.
  unfold free_of. induction (chars s) as [| c l IH]; [done |].
  intros [H1 H1']%not_elem_of_cons [H2 H2']%not_elem_of_cons. cbn [unescape_uri].
  rewrite !(proj2 (Ascii.eqb_neq c _)) by congruence. by rewrite IH.
Qed.

(** The query of the page's requests names the client, whatever its name. *)
Lemma query_get_client path s tail :
  free_of "?" path -> free_of "#" path ->
  tail = "" \/ (exists t, tail = "&" +:+ t /\ free_of "#" t) ->
  query_get (path +:+ "?client=" +:+ encodeURIComponent s +:+ tail) "client" = s.
Proof.
  intros Hq Hh Ht. unfold query_get.
  assert (free_of "#" tail) as Htl.
  { destruct Ht as [-> | (t & -> & Hf)]; [by apply not_elem_of_nil |]. apply free_app. split; [| done]. unfold free_of. set_solver. }
  rewrite (cut_free "#").
  2:{ rewrite !free_app. split; [done |]. split; [unfold free_of; cbn; set_solver |]. split; [| done]. apply encoded_free. set_solver. }
  cbn [fst]. change (path +:+ "?client=" +:+ encodeURIComponent s +:+ tail)
    with (path +:+ String "?" ("client=" +:+ encodeURIComponent s +:+ tail)).
  rewrite cut_at by done. cbn [snd].
  pose proof (query_pair_client s) as Hp.
  assert (exists rest, split "&" ("client=" +:+ encodeURIComponent s +:+ tail) = ("client=" +:+ encodeURIComponent s) :: rest) as [rest ->].
  { assert (free_of "&" ("client=" +:+ encodeURIComponent s)) as Hf
      by (apply free_app; split; [unfold free_of; cbn; set_solver | apply encoded_free; set_solver]).
    destruct Ht as [-> | (t & -> & _)].
    - exists []. rewrite append_nil_r. by apply split_free.
    - exists (split "&" t). rewrite <-append_assoc. by apply (split_app_sep "&"). }
  cbn [omap list_omap]. rewrite Hp. cbn [list_find fst]. by rewrite decide_True.
Qed.

(** The characters of numbers. *)
Definition numeric (s : string) : Prop := Forall (fun c => is_digit c = true \/ c = "."%char \/ c = "-"%char) (chars s).

Lemma numeric_app s t : numeric (s +:+ t) <-> numeric s /\ numeric t.
Proof. unfold numeric. rewrite chars_app. apply Forall_app. Qed.

Lemma numeric_itoa n : numeric (itoa n).
Proof.
  destruct (Z.le_gt_cases 0 n) as [H | H].
  - eapply Forall_impl; [by apply itoa_digits |]. by left.
  - destruct n as [| p | p]; [lia | lia |].
    change (itoa (Zneg p)) with ("-" +:+ itoa (Zpos p)). apply numeric_app. split; [constructor; [by right; right | constructor] |].
    eapply Forall_impl; [apply itoa_digits; lia |]. by left.
Qed.

Lemma numeric_fixed k q : numeric (toFixed k q).
Proof.
  assert (forall q, numeric (fixed_abs k q)) as H.
  { clear q. intros q. unfold fixed_abs. set (n := (_ / _)).
    assert (numeric (pad_digits k (itoa n))) as Hn.
    { unfold pad_digits. apply numeric_app. split; [| apply numeric_itoa]. unfold numeric. rewrite chars_of_chars.
      apply Forall_replicate. by left. }
    unfold numeric in Hn. destruct k; [unfold numeric; by rewrite chars_of_chars |].
    rewrite !numeric_app. unfold numeric. rewrite !chars_of_chars. split; [by apply Forall_take |].
    split; [constructor; [by right; left | constructor] | by apply Forall_drop]. }
  unfold toFixed. destruct (_ <? 0); [apply numeric_app; split; [constructor; [by right; right | constructor] | done] | done].
Qed.

Lemma numeric_plain s : numeric s -> plain s.
Proof.
  intros H. eapply Forall_impl; [exact H |]. intros c [Hd | [-> | ->]]; [| done | done].
  unfold inert, is_lt, is_amp, is_dq. rewrite !(proj2 (Ascii.eqb_neq _ _)); [done | | |]; intros ->; discriminate.
Qed.

#[export] Hint Resolve numeric_itoa numeric_fixed numeric_plain : go.
