(* ===== verification/Json.v ===== *)
(** * encoding/json

    JSON texts as Go's encoding/json writes and reads them: the values, the
    printer of [Marshal] with its escapes, and the scanner, with its limit of
    nesting. What is read back is what was printed, except that a byte that is no
    UTF-8 is printed as U+FFFD. The types of Go are in [GoJson]. *)

From S2P Require Export Quote Js.

(** A text with each byte that is no UTF-8 replaced by U+FFFD. *)
Definition coerce (s : string) : string := of_runes (runes s).*1.

Definition valid_utf8 (s : string) : Prop := coerce s = s.

#[export] Instance valid_utf8_dec s : Decision (valid_utf8 s).
Proof. unfold valid_utf8. apply _. Defined.

(** A number is kept as the text it is written with. *)
Unset Elimination Schemes.
Inductive value :=
| JNull
| JBool (b : bool)
| JNum (lit : string)
| JStr (s : string)
| JArr (l : list value)
| JObj (fs : list (string * value)).
Set Elimination Schemes.

Section value_ind.
Context (P : value -> Prop) (Hnull : P JNull) (Hbool : forall b, P (JBool b)) (Hnum : forall n, P (JNum n))
  (Hstr : forall s, P (JStr s)) (Harr : forall l, Forall P l -> P (JArr l))
  (Hobj : forall fs, Forall (fun f => P (snd f)) fs -> P (JObj fs)).

Fixpoint value_ind (v : value) : P v :=
  match v with
  | JNull => Hnull
  | JBool b => Hbool b
  | JNum n => Hnum n
  | JStr s => Hstr s
  | JArr l =>
      Harr l ((fix go l : Forall P l :=
        match l with [] => List.Forall_nil _ | v :: l' => List.Forall_cons _ _ _ (value_ind v) (go l') end) l)
  | JObj fs =>
      Hobj fs ((fix go fs : Forall (fun f => P (snd f)) fs :=
        match fs with [] => List.Forall_nil _ | f :: fs' => List.Forall_cons _ _ _ (value_ind (snd f)) (go fs') end) fs)
  end.
End value_ind.

(** ** Printing *)

Definition unicode_escape (r : Z) : list ascii := BACKSLASH :: "u"%char :: hex 4 r.

(** The letter of the control characters that have an escape of one. *)
Definition json_letter (r : Z) : option ascii :=
  if r =? 8 then Some "b"%char else if r =? 12 then Some "f"%char else if r =? 10 then Some "n"%char
  else if r =? 13 then Some "r"%char else if r =? 9 then Some "t"%char else None.

(** Besides the control characters, what HTML and JavaScript would misread is escaped. *)
Definition json_escape (r : Z) : list ascii :=
  if (r =? 34) || (r =? 92) then [BACKSLASH; byte_at r]
  else match json_letter r with
  | Some c => [BACKSLASH; c]
  | None =>
      if (r <? 32) || (r =? 60) || (r =? 62) || (r =? 38) || (r =? 8232) || (r =? 8233) then unicode_escape r
      else chars (utf8 r)
  end.

(** A rune with the bytes it came from. *)
Definition json_rune (p : Z * string) : list ascii :=
  match chars (snd p) with
  | [_] => if fst p =? rune_error then unicode_escape rune_error else json_escape (fst p)
  | _ => json_escape (fst p)
  end.

Definition print_str (s : string) : list ascii := QUOTE :: mjoin (json_rune <$> runes s) ++ [QUOTE].

Fixpoint commas (l : list (list ascii)) : list ascii :=
  match l with
  | [] => []
  | [x] => x
  | x :: l' => x ++ ","%char :: commas l'
  end.

Fixpoint print (v : value) : list ascii :=
  match v with
  | JNull => chars "null"
  | JBool b => chars (if b then "true" else "false")
  | JNum n => chars n
  | JStr s => print_str s
  | JArr l => "["%char :: commas (List.map print l) ++ ["]"%char]
  | JObj fs => "{"%char :: commas (List.map (fun f => print_str (fst f) ++ ":"%char :: print (snd f)) fs) ++ ["}"%char]
  end.

(** The text of a value. *)
Definition text (v : value) : string := of_chars (print v).

(** ** Reading *)

Definition is_ws (c : ascii) : bool :=
  (byte_val c =? 32) || (byte_val c =? 9) || (byte_val c =? 13) || (byte_val c =? 10).

Definition skip_ws : list ascii -> list ascii := drop_while is_ws.

Definition strip (p l : list ascii) : option (list ascii) :=
  if decide (take (length p) l = p) then Some (drop (length p) l) else None.

Definition hex4 (a b c d : ascii) : option Z :=
  w ← unhex_uri a; x ← unhex_uri b; y ← unhex_uri c; z ← unhex_uri d; Some (((w * 16 + x) * 16 + y) * 16 + z).

(** [utf16.DecodeRune]. *)
Definition decode_pair (r r1 : Z) : option Z :=
  if (55296 <=? r) && (r <? 56320) && (56320 <=? r1) && (r1 <? 57344)
  then Some ((r - 55296) * 1024 + (r1 - 56320) + 65536) else None.

Definition unletter_json (c : ascii) : option ascii :=
  if decide (c = "b"%char) then Some (byte_at 8) else if decide (c = "f"%char) then Some (byte_at 12)
  else if decide (c = "n"%char) then Some (byte_at 10) else if decide (c = "r"%char) then Some (byte_at 13)
  else if decide (c = "t"%char) then Some (byte_at 9)
  else if decide (c = QUOTE) then Some QUOTE else if decide (c = BACKSLASH) then Some BACKSLASH
  else if decide (c = "/"%char) then Some "/"%char else None.

Definition emit (s : list ascii) (r : option (list ascii * list ascii)) : option (list ascii * list ascii) :=
  '(t, l) ← r; Some (s ++ t, l).

(** The bytes of a string after its opening quote, and what follows it. Half of a
    surrogate pair stands for U+FFFD, as [utf8] has it. *)
Fixpoint read_str (l : list ascii) : option (list ascii * list ascii) :=
  match l with
  | [] => None
  | c :: r =>
      if decide (c = QUOTE) then Some ([], r)
      else if decide (c = BACKSLASH) then
        match r with
        | [] => None
        | d :: r1 =>
            match unletter_json d with
            | Some b => emit [b] (read_str r1)
            | None =>
                if decide (d = "u"%char) then
                  match r1 with
                  | a1 :: a2 :: a3 :: a4 :: k =>
                      match hex4 a1 a2 a3 a4 with
                      | None => None
                      | Some v =>
                          match k with
                          | q :: u :: b1 :: b2 :: b3 :: b4 :: k' =>
                              match (if decide (q = BACKSLASH /\ u = "u"%char)
                                     then v1 ← hex4 b1 b2 b3 b4; decode_pair v v1 else None) with
                              | Some w => emit (chars (utf8 w)) (read_str k')
                              | None => emit (chars (utf8 v)) (read_str k)
                              end
                          | _ => emit (chars (utf8 v)) (read_str k)
                          end
                      end
                  | _ => None
                  end
                else None
            end
        end
      else if byte_val c <? 32 then None
      else emit [c] (read_str r)
  end.

Fixpoint span {A} (f : A -> bool) (l : list A) : list A * list A :=
  match l with
  | [] => ([], [])
  | x :: l' => if f x then let '(a, b) := span f l' in (x :: a, b) else ([], l)
  end.

(** At least one digit. *)
Definition some_digits (l : list ascii) : option (list ascii * list ascii) :=
  let '(ds, r) := span is_digit l in if decide (ds = []) then None else Some (ds, r).

Definition read_sign (ok : ascii -> bool) (l : list ascii) : list ascii * list ascii :=
  match l with c :: r => if ok c then ([c], r) else ([], l) | [] => ([], l) end.

Definition read_int (l : list ascii) : option (list ascii * list ascii) :=
  match l with
  | c :: r => if decide (c = "0"%char) then Some ([c], r) else some_digits l
  | [] => None
  end.

Definition read_frac (l : list ascii) : option (list ascii * list ascii) :=
  match l with
  | c :: r => if decide (c = "."%char) then emit [c] (some_digits r) else Some ([], l)
  | [] => Some ([], l)
  end.

Definition is_minus (c : ascii) : bool := bool_decide (c = "-"%char).
Definition is_sign (c : ascii) : bool := bool_decide (c = "-"%char) || bool_decide (c = "+"%char).

Definition read_exp (l : list ascii) : option (list ascii * list ascii) :=
  match l with
  | c :: r =>
      if decide (c = "e"%char \/ c = "E"%char)
      then let '(s, r1) := read_sign is_sign r in emit (c :: s) (some_digits r1) else Some ([], l)
  | [] => Some ([], l)
  end.

Definition read_num (l : list ascii) : option (list ascii * list ascii) :=
  let '(s, l) := read_sign is_minus l in
  '(i, l) ← read_int l; '(f, l) ← read_frac l; '(e, l) ← read_exp l; Some (s ++ i ++ f ++ e, l).

(** The literals of JSON. *)
Definition is_number (lit : string) : bool := bool_decide (read_num (chars lit) = Some (chars lit, [])).

Definition max_depth : Z := 10000.

(** Items with commas between them, up to [close]; there is at least one. *)
Fixpoint separated {A} (item : list ascii -> option (A * list ascii)) (close : ascii) (fuel : nat) (l : list ascii)
    : option (list A * list ascii) :=
  match fuel with
  | O => None
  | S n =>
      '(x, r) ← item l;
      match strip [close] (skip_ws r) with
      | Some r => Some ([x], r)
      | None => r ← strip [","%char] (skip_ws r); '(xs, r) ← separated item close n r; Some (x :: xs, r)
      end
  end.

Definition read_member (val : list ascii -> option (value * list ascii)) (l : list ascii)
    : option (string * value * list ascii) :=
  r ← strip [QUOTE] (skip_ws l);
  '(k, r) ← read_str r;
  r ← strip [":"%char] (skip_ws r);
  '(v, r) ← val r;
  Some (coerce (of_chars k), v, r).

(** [depth] is the number of arrays and objects entered. A unit of fuel is enough
    for each character. *)
Fixpoint read_value (fuel : nat) (depth : Z) (l : list ascii) : option (value * list ascii) :=
  match fuel with
  | O => None
  | S n =>
      match skip_ws l with
      | [] => None
      | c :: r =>
          if decide (c = "{"%char) then
            if max_depth <=? depth then None
            else match strip ["}"%char] (skip_ws r) with
            | Some r' => Some (JObj [], r')
            | None => '(fs, r') ← separated (read_member (read_value n (depth + 1))) "}" n r; Some (JObj fs, r')
            end
          else if decide (c = "["%char) then
            if max_depth <=? depth then None
            else match strip ["]"%char] (skip_ws r) with
            | Some r' => Some (JArr [], r')
            | None => '(vs, r') ← separated (read_value n (depth + 1)) "]" n r; Some (JArr vs, r')
            end
          else if decide (c = QUOTE) then '(s, r') ← read_str r; Some (JStr (coerce (of_chars s)), r')
          else if decide (c = "n"%char) then r' ← strip (chars "ull") r; Some (JNull, r')
          else if decide (c = "t"%char) then r' ← strip (chars "rue") r; Some (JBool true, r')
          else if decide (c = "f"%char) then r' ← strip (chars "alse") r; Some (JBool false, r')
          else '(n, r') ← read_num (c :: r); Some (JNum (of_chars n), r')
      end
  end.

(** A whole document, as [checkValid] and the decoder see it. *)
Definition parse (s : string) : option value :=
  let l := chars s in
  '(v, r) ← read_value (S (length l)) 0 l; if decide (skip_ws r = []) then Some v else None.

(** What a value is after printing and reading. *)
Fixpoint norm (v : value) : value :=
  match v with
  | JStr s => JStr (coerce s)
  | JArr l => JArr (List.map norm l)
  | JObj fs => JObj (List.map (fun f => (coerce (fst f), norm (snd f))) fs)
  | _ => v
  end.

(** The numbers of a value are numbers, and it is at most [k] deep. *)
Fixpoint wf (k : nat) (v : value) {struct v} : bool :=
  match v with
  | JNum n => is_number n
  | JArr l => match k with O => false | S k => forallb (wf k) l end
  | JObj fs => match k with O => false | S k => forallb (fun f => wf k (snd f)) fs end
  | _ => true
  end.

(** ** Strings *)

Lemma coerce_valid s : valid_utf8 (coerce s).
Proof. unfold valid_utf8, coerce. by rewrite runes_of_runes by apply runes_valid. Qed.

Lemma coerce_of_runes l : Forall valid_rune l -> coerce (of_runes l) = of_runes l.
Proof. intros H. unfold coerce. by rewrite runes_of_runes. Qed.

Lemma valid_ascii s : Forall (fun c => byte_val c < 128) (chars s) -> valid_utf8 s.
Proof.
  intros H. unfold valid_utf8, coerce. rewrite runes_ascii by done. rewrite <-list_fmap_compose.
  induction s as [| c s IH]; [done |]. apply Forall_cons in H as [Hc Hs].
  cbn [chars String.list_ascii_of_string fmap list_fmap of_runes foldr compose fst].
  fold (of_runes (fst ∘ (fun c => (byte_val c, String c "")) <$> chars s)). rewrite (IH Hs).
  rewrite utf8_valid, ltb_t by (unfold valid_rune; pose proof (byte_val_range c); lia). by rewrite (byte_at_of c).
Qed.

Lemma emit_nil r : emit [] r = r.
Proof. by destruct r as [[t l] |]. Qed.

Lemma emit_emit a b r : emit a (emit b r) = emit (a ++ b) r.
Proof. destruct r as [[t l] |]; [| done]. cbn. by rewrite app_assoc. Qed.

(** A byte that stands for itself between quotes. *)
Definition rawc (c : ascii) : Prop := c <> QUOTE /\ c <> BACKSLASH /\ 32 <= byte_val c.

Lemma read_str_raw k l : Forall rawc k -> read_str (k ++ l) = emit k (read_str l).
Proof.
  induction 1 as [| c k (Hq & Hb & H32) _ IH]; [by rewrite emit_nil |]. cbn [app read_str].
  rewrite !decide_False by done. rewrite ltb_f by done. rewrite IH. apply emit_emit.
Qed.

Lemma unhex_hex_digit n : 0 <= n < 16 -> unhex_uri (hex_digit n) = Some n.
Proof.
  intros Hn. unfold unhex_uri. rewrite (proj1 (hex_digit_val n Hn)).
  destruct (n <? 10) eqn:E; breflect.
  - rewrite (proj2 (Z.leb_le _ _)), (proj2 (Z.leb_le _ _)) by lia. cbn. f_equal. lia.
  - rewrite (proj2 (Z.leb_le 48 _)), (proj2 (Z.leb_gt _ 57)) by lia. cbn [andb].
    rewrite (proj2 (Z.leb_le 97 _)), (proj2 (Z.leb_le _ 102)) by lia. cbn [andb]. f_equal. lia.
Qed.

Lemma read_unicode r l : 0 <= r < 65536 -> (r < 55296 \/ 57344 <= r) ->
  read_str (unicode_escape r ++ l) = emit (chars (utf8 r)) (read_str l).
Proof.
  intros Hr Hs. unfold unicode_escape. cbn [hex app read_str]. rewrite decide_False by done. rewrite decide_True by done.
  rewrite (decide_True (P := "u"%char = "u"%char)) by done.
  change (unletter_json "u") with (@None ascii). cbv iota.
  assert (hex4 (hex_digit (r / 16 / 16 / 16 mod 16)) (hex_digit (r / 16 / 16 mod 16)) (hex_digit (r / 16 mod 16)) (hex_digit (r mod 16))
    = Some r) as ->.
  { unfold hex4. rewrite !unhex_hex_digit by (apply Z.mod_pos_bound; lia). cbn. f_equal. divmod. }
  assert (forall v, decode_pair r v = None) as Hp.
  { intros v. unfold decode_pair. destruct (_ && _) eqn:E; [breflect; lia | done]. }
  do 6 (destruct l as [| ? l]; [done |]). case_decide as E; [| done].
  destruct (hex4 _ _ _ _); cbn [mbind option_bind]; by rewrite ?Hp.
Qed.

Lemma utf8_rawc r : valid_rune r -> 32 <= r -> r <> 34 -> r <> 92 -> Forall rawc (chars (utf8 r)).
Proof.
  intros Hv H32 Hq Hb. eapply Forall_impl; [apply utf8_bytes, Hv |]. intros c Hc. cbn in Hc.
  split_and!; [intros -> | intros -> |]; [| | lia];
    (destruct Hc as [Hc | [Hc _]]; [| by vm_compute in Hc]); apply Hq + apply Hb; rewrite <-Hc; done.
Qed.

Lemma letter_json r c : json_letter r = Some c -> unletter_json c = Some (byte_at r) /\ 0 <= r < 128 /\ c <> "u"%char.
Proof.
  unfold json_letter. intros H.
  repeat match type of H with (if ?b then _ else _) = _ => destruct b eqn:?; breflect end; simplify_eq;
    split_and!; done || lia.
Qed.

Lemma utf8_ascii r : 0 <= r < 128 -> chars (utf8 r) = [byte_at r].
Proof. intros H. rewrite utf8_valid, ltb_t by (unfold valid_rune; lia). done. Qed.

Lemma read_escape r l : valid_rune r -> read_str (json_escape r ++ l) = emit (chars (utf8 r)) (read_str l).
Proof.
  intros Hv. unfold json_escape. destruct ((r =? 34) || (r =? 92)) eqn:E1.
  { apply orb_true_iff in E1 as [-> %Z.eqb_eq | -> %Z.eqb_eq]; done. }
  breflect. destruct (json_letter r) as [c |] eqn:E2.
  - apply letter_json in E2 as (Hu & Hr & Hc). cbn [app read_str]. rewrite decide_False by done. rewrite decide_True by done.
    rewrite Hu, utf8_ascii by done. done.
  - destruct (_ || (r =? 8233)) eqn:E3.
    + apply read_unicode; repeat (apply orb_true_iff in E3 as [E3 | E3]); breflect; unfold valid_rune in Hv; lia.
    + breflect. apply read_str_raw, utf8_rawc; [done | lia | done | done].
Qed.

Lemma read_rune p l : decoded p -> read_str (json_rune p ++ l) = emit (chars (utf8 (fst p))) (read_str l).
Proof.
  intros Hd. unfold json_rune. destruct p as [r b]. cbn [fst snd].
  assert (valid_rune r) as Hv.
  { destruct Hd as [[E _] | [H _]]; cbn in *; [rewrite E; unfold valid_rune, rune_error; lia | done]. }
  pose proof (read_escape r l Hv) as He.
  destruct (chars b) as [| c [| d k]]; [exact He | | exact He]. destruct (r =? rune_error) eqn:E; [| exact He]. breflect. subst r.
  apply read_unicode; unfold rune_error; lia.
Qed.

Lemma read_print_str s l : 
  read_str (mjoin (json_rune <$> runes s) ++ QUOTE :: l) = Some (chars (coerce s), l).
Proof.
  unfold coerce. pose proof (proj2 (runes_decoded s)) as Hd. induction Hd as [| p ps Hp _ IH]; [done |].
  cbn [fmap list_fmap]. change (mjoin (json_rune p :: ?k)) with (json_rune p ++ mjoin k). rewrite <-app_assoc, read_rune by done.
  change (mjoin (json_rune <$> ps)) with (mjoin (json_rune <$> ps)) in IH. rewrite IH. cbn. by rewrite chars_app.
Qed.

(** ** Numbers *)

(** What may follow a value that ends with a digit. *)
Definition delim (l : list ascii) : Prop :=
  match l with
  | [] => True
  | c :: _ => is_digit c = false /\ c ∉ ["."; "e"; "E"; "+"; "-"]%char
  end.

Lemma span_app {A} (f : A -> bool) l a t k :
  span f l = (a, t) -> match k with c :: _ => f c = false | [] => True end -> span f (l ++ k) = (a, t ++ k).
Proof.
  revert a t. induction l as [| x l IH]; intros a t; cbn [span app].
  - intros [= <- <-] Hk. destruct k as [| c k]; [done |]. cbn. by rewrite Hk.
  - destruct (f x) eqn:Ef; [| by intros [= <- <-]]. destruct (span f l) as [a' t'] eqn:E. intros [= <- <-] Hk.
    by rewrite (IH a' t' eq_refl Hk).
Qed.

Lemma delim_digit k : delim k -> match k with c :: _ => is_digit c = false | [] => True end.
Proof. by destruct k as [| c k]; [| intros [? _]]. Qed.

Lemma some_digits_app l a t k : some_digits l = Some (a, t) -> delim k -> some_digits (l ++ k) = Some (a, t ++ k).
Proof.
  unfold some_digits. destruct (span is_digit l) as [b r] eqn:E. case_decide as Eb; [done |]. intros [= <- <-] Hk.
  rewrite (span_app _ _ _ _ _ E) by by apply delim_digit. by rewrite decide_False.
Qed.

Lemma read_int_app l a t k : read_int l = Some (a, t) -> delim k -> read_int (l ++ k) = Some (a, t ++ k).
Proof.
  destruct l as [| c l]; [done |]. cbn [read_int app]. case_decide; [by intros [= <- <-] |].
  intros Hd Hk. exact (some_digits_app (c :: l) a t k Hd Hk).
Qed.

Lemma emit_some s r t l : emit s r = Some (t, l) -> exists t', r = Some (t', l) /\ t = s ++ t'.
Proof. destruct r as [[t' l'] |]; [| done]. cbn. intros [= <- <-]. eauto. Qed.

Lemma read_frac_app l a t k : read_frac l = Some (a, t) -> delim k -> read_frac (l ++ k) = Some (a, t ++ k).
Proof.
  destruct l as [| c l]; cbn [read_frac app].
  - intros [= <- <-] Hk. destruct k as [| c k]; [done |]. cbn. destruct Hk as [_ Hk]. rewrite decide_False by set_solver. done.
  - case_decide; [| by intros [= <- <-]]. intros (t' & Hd & ->)%emit_some Hk. by rewrite (some_digits_app l t' t k).
Qed.

Lemma read_sign_app ok l s t k : read_sign ok l = (s, t) ->
  match k with c :: _ => ok c = false | [] => True end -> read_sign ok (l ++ k) = (s, t ++ k).
Proof.
  destruct l as [| c l]; cbn [read_sign app].
  - intros [= <- <-] Hk. destruct k as [| c k]; [done |]. cbn. by rewrite Hk.
  - destruct (ok c); by intros [= <- <-].
Qed.

Lemma read_exp_app l a t k : read_exp l = Some (a, t) -> delim k -> read_exp (l ++ k) = Some (a, t ++ k).
Proof.
  destruct l as [| c l]; cbn [read_exp app].
  - intros [= <- <-] Hk. destruct k as [| c k]; [done |]. cbn. destruct Hk as [_ Hk]. rewrite decide_False by set_solver. done.
  - case_decide; [| by intros [= <- <-]]. destruct (read_sign is_sign l) as [s r1] eqn:Es.
    intros (t' & Hd & ->)%emit_some Hk. rewrite (read_sign_app is_sign l s r1 k Es).
    + by rewrite (some_digits_app r1 t' t k).
    + destruct k as [| d k]; [done |]. destruct Hk as [_ Hk]. unfold is_sign. rewrite !bool_decide_eq_false_2 by set_solver. done.
Qed.

Lemma read_num_app l a t k : read_num l = Some (a, t) -> delim k -> read_num (l ++ k) = Some (a, t ++ k).
Proof.
  unfold read_num. intros H Hk. destruct (read_sign is_minus l) as [s l1] eqn:Es.
  rewrite (read_sign_app is_minus l s l1 k Es).
  2: { destruct k as [| d k]; [done |]. destruct Hk as [_ Hk]. unfold is_minus. by rewrite bool_decide_eq_false_2 by set_solver. }
  destruct (read_int l1) as [[i l2] |] eqn:Ei; [| done]. cbn [mbind option_bind] in H.
  destruct (read_frac l2) as [[f l3] |] eqn:Ef; [| done]. cbn [mbind option_bind] in H.
  destruct (read_exp l3) as [[e l4] |] eqn:Ee; [| done]. cbn [mbind option_bind] in H. injection H as <- <-.
  rewrite (read_int_app _ _ _ _ Ei Hk). cbn [mbind option_bind]. rewrite (read_frac_app _ _ _ _ Ef Hk). cbn [mbind option_bind].
  by rewrite (read_exp_app _ _ _ _ Ee Hk).
Qed.

(** ** Values *)

Lemma strip_app p l : strip p (p ++ l) = Some l.
Proof. unfold strip. by rewrite take_app_length, drop_app_length, decide_True. Qed.

Lemma strip_head c l : strip [c] (c :: l) = Some l.
Proof. apply (strip_app [c]). Qed.

Lemma strip_ne c d l : c <> d -> strip [c] (d :: l) = None.
Proof. intros H. unfold strip. cbn. rewrite decide_False; [done | congruence]. Qed.

Lemma skip_ws_id c l : is_ws c = false -> skip_ws (c :: l) = c :: l.
Proof. intros H. unfold skip_ws. cbn. by rewrite H. Qed.

Lemma delim_punct c l : c ∈ [","; "]"; "}"]%char -> delim (c :: l).
Proof. intros H. split; [set_solver | revert H; rewrite !elem_of_cons; intros [-> | [-> | [-> | []%not_elem_of_nil]]]; set_solver]. Qed.

(** A number starts with a digit or a minus. *)
Lemma num_head l a t : read_num l = Some (a, t) -> exists c r, l = c :: r /\ (is_digit c = true \/ c = "-"%char).
Proof.
  unfold read_num. destruct l as [| c r]; [done |]. intros H. exists c, r. split; [done |]. cbn [read_sign] in H.
  destruct (is_minus c) eqn:Em; [unfold is_minus in Em; breflect; by right |]. left. cbn [read_int] in H. case_decide as E0; [by subst |].
  unfold some_digits in H. cbn [span] in H. by destruct (is_digit c).
Qed.

Lemma number_head n : is_number n = true ->
  exists c r, chars n = c :: r /\ is_ws c = false /\ c ∉ ["]"; "{"; "["; QUOTE; "n"; "t"; "f"]%char.
Proof.
  intros H. unfold is_number in H. apply bool_decide_eq_true_1 in H.
  destruct (num_head _ _ _ H) as (c & r & -> & Hc). exists c, r. split; [done |].
  destruct Hc as [Hc | ->]; [| split; [done | by apply (bool_decide_unpack _)]].
  split; [unfold is_digit in Hc; breflect; unfold is_ws; lia |].
  intros Hin. repeat (apply elem_of_cons in Hin as [-> | Hin]; [by vm_compute in Hc |]). by apply not_elem_of_nil in Hin.
Qed.

Lemma print_head v k : wf k v = true -> exists c l, print v = c :: l /\ is_ws c = false /\ c <> "]"%char.
Proof.
  destruct v as [| [] | n | s | l | fs]; cbn [print wf]; intros H; try (eexists _, _; split; [reflexivity |]; done).
  destruct (number_head n H) as (c & r & -> & Hw & Hc). exists c, r. set_solver.
Qed.

Definition print_field (f : string * value) : list ascii := print_str (fst f) ++ ":"%char :: print (snd f).
Definition norm_field (f : string * value) : string * value := (coerce (fst f), norm (snd f)).

Lemma separated_print {A B} (item : list ascii -> option (B * list ascii)) (pr : A -> list ascii) (g : A -> B) close l n rest :
  close ∈ ["]"; "}"]%char -> l <> [] -> (length l <= n)%nat ->
  Forall (fun x => forall rest, delim rest -> item (pr x ++ rest) = Some (g x, rest)) l ->
  separated item close n (commas (List.map pr l) ++ close :: rest) = Some (List.map g l, rest).
Proof.
  intros Hc Hne Hn HF. assert (is_ws close = false /\ delim (close :: rest) /\ close <> ","%char) as (Hws & Hd & Hnc).
  { assert (close = "]"%char \/ close = "}"%char) as [-> | ->] by set_solver; (split; [done |]); (split; [apply delim_punct; set_solver | done]). }
  revert n Hn. induction HF as [| x l Hx _ IH]; intros [| n] Hn; [done | done | cbn in Hn; lia |].
  destruct l as [| y l]; cbn [List.map commas separated].
  - rewrite Hx by done. cbn [mbind option_bind]. rewrite skip_ws_id by done. by rewrite strip_head.
  - rewrite <-app_assoc. cbn [app]. rewrite Hx by (apply delim_punct; set_solver). cbn [mbind option_bind].
    rewrite skip_ws_id by done. rewrite strip_ne by done. rewrite strip_head. cbn [mbind option_bind].
    change (pr y :: List.map pr l) with (List.map pr (y :: l)). rewrite IH by (done || cbn in *; lia). done.
Qed.

Lemma commas_length {A} (pr : A -> list ascii) l : (length l <= S (length (commas (List.map pr l))))%nat.
Proof.
  induction l as [| x l IH]; [cbn; lia |]. destruct l as [| y l]; [cbn; lia |].
  change (commas (List.map pr (x :: y :: l))) with (pr x ++ ","%char :: commas (List.map pr (y :: l))).
  rewrite length_app. cbn [length] in *. lia.
Qed.

Lemma commas_item {A} (pr : A -> list ascii) l x : x ∈ l -> (length (pr x) <= length (commas (List.map pr l)))%nat.
Proof.
  induction l as [| y l IH]; [by intros ?%not_elem_of_nil |]. intros [<- | Hx]%elem_of_cons.
  - destruct l; cbn; rewrite ?length_app; lia.
  - specialize (IH Hx). destruct l as [| z l]; [by apply not_elem_of_nil in Hx |].
    change (commas (List.map pr (y :: z :: l))) with (pr y ++ ","%char :: commas (List.map pr (z :: l))).
    rewrite length_app. cbn [length]. lia.
Qed.

Lemma read_member_print val s v rest : val (print v ++ rest) = Some (norm v, rest) ->
  read_member val (print_field (s, v) ++ rest) = Some (norm_field (s, v), rest).
Proof.
  intros Hv. unfold read_member, print_field, print_str. cbn [fst snd app]. rewrite skip_ws_id by done.
  rewrite <-!app_assoc. cbn [app]. rewrite strip_head. cbn [mbind option_bind].
  rewrite read_print_str. cbn [mbind option_bind]. rewrite skip_ws_id by done. rewrite strip_head.
  cbn [mbind option_bind]. rewrite Hv. cbn [mbind option_bind]. by rewrite of_chars_chars, coerce_valid.
Qed.

(** What is printed is read back, inside any text. *)
Lemma read_print v : forall k n d rest,
  wf k v = true -> (length (print v) <= n)%nat -> d + Z.of_nat k <= max_depth -> delim rest ->
  read_value n d (print v ++ rest) = Some (norm v, rest).
Proof.
  induction v as [| b | m | s | l IH | fs IH] using value_ind; intros k n d rest Hwf Hn Hd Hdel.
  - destruct n; [cbn in Hn; lia | done].
  - destruct b, n; cbn in Hn; lia || done.
  - cbn [print wf norm] in *. destruct (number_head m Hwf) as (c & r & Em & Hw & Hc).
    rewrite Em in Hn. destruct n as [| n]; [cbn in Hn; lia |]. rewrite Em. cbn [read_value app]. rewrite skip_ws_id by done.
    rewrite !decide_False by set_solver. unfold is_number in Hwf. apply bool_decide_eq_true_1 in Hwf. rewrite Em in Hwf.
    change (c :: r ++ rest) with ((c :: r) ++ rest). rewrite (read_num_app _ _ _ rest Hwf Hdel).
    cbn [mbind option_bind app]. by rewrite <-Em, of_chars_chars.
  - destruct n as [| n]; [cbn in Hn; lia |]. cbn [print]. unfold print_str. cbn [app read_value]. rewrite skip_ws_id by done.
    rewrite !decide_False, decide_True by done. rewrite <-app_assoc. cbn [app]. rewrite read_print_str.
    cbn. by rewrite of_chars_chars, coerce_valid.
  - destruct k as [| k]; [done |]. cbn [wf print length] in *. destruct n as [| n]; [lia |].
    cbn [app read_value]. rewrite skip_ws_id by done. rewrite decide_False, decide_True, (proj2 (Z.leb_gt _ _)) by (done || lia).
    destruct l as [| v l]; [by cbn |].
    assert (strip ["]"%char] (skip_ws ((commas (List.map print (v :: l)) ++ ["]"%char]) ++ rest)) = None) as ->.
    { cbn [forallb] in Hwf. apply andb_prop in Hwf as [Hv _]. destruct (print_head v k Hv) as (c & r & E & Hw & Hc).
      destruct l; cbn [List.map commas]; rewrite E; cbn [app]; rewrite skip_ws_id by done; by rewrite strip_ne. }
    rewrite <-app_assoc. cbn [app]. rewrite length_app in Hn. cbn [length] in Hn.
    rewrite (separated_print _ print norm); [done | set_solver | done | pose proof (commas_length print (v :: l)); lia |].
    rewrite Forall_forall in IH |- *. intros x Hx rest' Hdel'. rewrite forallb_forall in Hwf.
    apply (IH x Hx k); [apply Hwf; by apply list_elem_of_In | pose proof (commas_item print (v :: l) x Hx); lia | lia | done].
  - destruct k as [| k]; [done |]. cbn [wf print length] in *. destruct n as [| n]; [lia |].
    cbn [app read_value]. rewrite skip_ws_id by done. rewrite decide_True, (proj2 (Z.leb_gt _ _)) by (done || lia).
    destruct fs as [| f fs]; [by cbn |].
    change (S (length (commas (List.map print_field (f :: fs)) ++ ["}"%char])) <= S n)%nat in Hn.
    change (fun f => print_str f.1 ++ ":"%char :: print f.2) with print_field.
    assert (strip ["}"%char] (skip_ws ((commas (List.map print_field (f :: fs)) ++ ["}"%char]) ++ rest)) = None) as ->.
    { destruct fs; cbn [List.map commas]; unfold print_field, print_str; cbn [app]; rewrite skip_ws_id by done; by rewrite strip_ne. }
    rewrite <-app_assoc. cbn [app]. rewrite length_app in Hn. cbn [length] in Hn.
    rewrite (separated_print _ print_field norm_field);
      [done | set_solver | done | pose proof (commas_length print_field (f :: fs)); lia |].
    rewrite Forall_forall in IH |- *. intros [s v] Hx rest' Hdel'. rewrite forallb_forall in Hwf.
    apply read_member_print, (IH (s, v) Hx k); [apply (Hwf (s, v)); by apply list_elem_of_In | | lia | done].
    pose proof (commas_item print_field (f :: fs) (s, v) Hx) as Hle.
    change (print_field (s, v)) with (print_str s ++ ":"%char :: print v) in Hle. rewrite length_app in Hle. cbn [length snd] in *. lia.
Qed.

(** [Unmarshal] of what [Marshal] writes, with a line end as an encoder adds or without. *)
Lemma parse_text k v tail : wf k v = true -> Z.of_nat k <= max_depth -> Forall (fun c => is_ws c = true) (chars tail) ->
  parse (text v +:+ tail) = Some (norm v).
Proof.
  intros Hwf Hk Ht. unfold parse, text. rewrite chars_app, chars_of_chars.
  rewrite (read_print v k); [| done | rewrite length_app; lia | done |].
  - cbn [mbind option_bind]. assert (skip_ws (chars tail) = []) as ->; [| done].
    induction Ht as [| c l Hc _ IH]; [done |]. unfold skip_ws in *. cbn. by rewrite Hc.
  - destruct Ht as [| c l Hc _]; [done |]. unfold is_ws in Hc. split; [unfold is_digit; lia |].
    intros Hin. repeat (apply elem_of_cons in Hin as [-> | Hin]; [by vm_compute in Hc |]). by apply not_elem_of_nil in Hin.
Qed.

(** ** Fuel

    Every item read takes at least a character, so [parse] never runs out. *)

Definition shortens {A} (read : list ascii -> option (A * list ascii)) : Prop :=
  forall l x r, read l = Some (x, r) -> (length r < length l)%nat.

Lemma skip_ws_length l : (length (skip_ws l) <= length l)%nat.
Proof. unfold skip_ws. induction l as [| c l IH]; [done |]. cbn. destruct (is_ws c); cbn; lia. Qed.

Lemma strip_length p l r : strip p l = Some r -> (length r = length l - length p)%nat.
Proof. unfold strip. case_decide; [| done]. intros [= <-]. apply length_drop. Qed.

Lemma strip_one_length c l r : strip [c] l = Some r -> (length r < length l)%nat.
Proof. intros H. pose proof (strip_length _ _ _ H) as E. destruct l; [done |]. cbn in *. lia. Qed.

Lemma span_length {A} (f : A -> bool) l a t : span f l = (a, t) -> length l = (length a + length t)%nat.
Proof.
  revert a t. induction l as [| x l IH]; intros a t; cbn; [by intros [= <- <-] |].
  destruct (f x); [| by intros [= <- <-]]. destruct (span f l) as [b k] eqn:E. intros [= <- <-]. cbn. f_equal. by apply IH.
Qed.

Lemma some_digits_shortens : shortens some_digits.
Proof.
  intros l a t. unfold some_digits. destruct (span is_digit l) as [b k] eqn:E. case_decide as Hb; [done |]. intros [= <- <-].
  apply span_length in E. destruct b; [done |]. cbn in *. lia.
Qed.

Lemma read_num_shortens : shortens read_num.
Proof.
  intros l a t. unfold read_num. destruct (read_sign is_minus l) as [s l1] eqn:Es.
  assert (length l1 <= length l)%nat as H1.
  { destruct l as [| c l]; cbn in Es; [by injection Es as <- <- |]. destruct (is_minus c); injection Es as <- <-; cbn; lia. }
  destruct (read_int l1) as [[i l2] |] eqn:Ei; [| done]. cbn [mbind option_bind].
  assert (length l2 < length l1)%nat as H2.
  { unfold read_int in Ei. destruct l1 as [| c l1]; [done |]. case_decide; [injection Ei as <- <-; cbn; lia |].
    by apply some_digits_shortens in Ei. }
  destruct (read_frac l2) as [[f l3] |] eqn:Ef; [| done]. cbn [mbind option_bind].
  assert (length l3 <= length l2)%nat as H3.
  { unfold read_frac in Ef. destruct l2 as [| c l2]; [by injection Ef as <- <- |]. case_decide; [| by injection Ef as <- <-].
    apply emit_some in Ef as (t' & Ef & _). apply some_digits_shortens in Ef. cbn. lia. }
  destruct (read_exp l3) as [[e l4] |] eqn:Ee; [| done]. cbn [mbind option_bind]. intros [= <- <-].
  assert (length l4 <= length l3)%nat; [| lia].
  unfold read_exp in Ee. destruct l3 as [| c l3]; [by injection Ee as <- <- |]. case_decide; [| by injection Ee as <- <-].
  destruct (read_sign is_sign l3) as [s' r1] eqn:Er. apply emit_some in Ee as (t' & Ee & _). apply some_digits_shortens in Ee.
  destruct l3 as [| d l3]; cbn in Er; [injection Er as <- <-; cbn in *; lia |]. destruct (is_sign d); injection Er as <- <-; cbn in *; lia.
Qed.

Lemma read_str_shortens : shortens read_str.
Proof.
  intros l. remember (length l) as n eqn:Hn. revert l Hn. induction n as [n IH] using lt_wf_ind. intros [| c l] -> x r; [done |].
  assert (forall s k, (length k <= length l)%nat -> emit s (read_str k) = Some (x, r) -> (length r < S (length l))%nat) as Hk.
  { intros s k Hle (t & H & _)%emit_some. apply (IH (length k) ltac:(cbn; lia) k eq_refl) in H. lia. }
  cbn [read_str length]. case_decide; [intros [= <- <-]; lia |]. case_decide.
  - destruct l as [| d l]; [done |]. destruct (unletter_json d); [apply Hk; cbn; lia |]. case_decide; [| done].
    do 4 (destruct l as [| ? l]; [done |]). destruct (hex4 _ _ _ _); [| done].
    do 6 (destruct l as [| ? l]; [apply Hk; cbn; lia |]). destruct (if decide _ then _ else _); apply Hk; cbn; lia.
  - destruct (_ <? 32); [done |]. by apply Hk.
Qed.

Lemma read_member_shortens val : shortens val -> shortens (read_member val).
Proof.
  intros Hv l x r. unfold read_member. pose proof (skip_ws_length l).
  destruct (strip [QUOTE] (skip_ws l)) as [r1 |] eqn:E1; [| done]. cbn [mbind option_bind]. apply strip_one_length in E1.
  destruct (read_str r1) as [[k r2] |] eqn:E2; [| done]. cbn [mbind option_bind]. apply read_str_shortens in E2.
  destruct (strip [":"%char] (skip_ws r2)) as [r3 |] eqn:E3; [| done]. cbn [mbind option_bind]. apply strip_one_length in E3.
  pose proof (skip_ws_length r2). destruct (val r3) as [[v r4] |] eqn:E4; [| done]. cbn [mbind option_bind]. apply Hv in E4.
  intros [= <- <-]. lia.
Qed.

Lemma separated_shortens {A} (item : list ascii -> option (A * list ascii)) close n :
  shortens item -> shortens (separated item close n).
Proof.
  intros Hi. induction n as [| n IH]; intros l x r; [done |]. cbn [separated].
  destruct (item l) as [[y r1] |] eqn:E1; [| done]. cbn [mbind option_bind]. apply Hi in E1. pose proof (skip_ws_length r1).
  destruct (strip [close] (skip_ws r1)) as [r2 |] eqn:E2; [apply strip_one_length in E2; intros [= <- <-]; lia |].
  destruct (strip [","%char] (skip_ws r1)) as [r3 |] eqn:E3; [| done]. cbn [mbind option_bind]. apply strip_one_length in E3.
  destruct (separated item close n r3) as [[xs r4] |] eqn:E4; [| done]. cbn [mbind option_bind]. apply IH in E4. intros [= <- <-]. lia.
Qed.

Lemma read_value_shortens n d : shortens (read_value n d).
Proof.
  revert d. induction n as [| n IH]; intros d l v r; [done |]. cbn [read_value]. pose proof (skip_ws_length l).
  destruct (skip_ws l) as [| c r0]; [done |]. cbn [length] in *. pose proof (skip_ws_length r0).
  assert (forall A (item : list ascii -> option (A * list ascii)) close (f : list A -> value) (v0 : value),
    shortens item -> (if max_depth <=? d then None else match strip [close] (skip_ws r0) with
      | Some r' => Some (v0, r') | None => '(fs, r') ← separated item close n r0; Some (f fs, r') end) = Some (v, r) ->
    (length r < length l)%nat) as Hsep.
  { intros A item close f v0 Hi. destruct (_ <=? _); [done |].
    destruct (strip [close] (skip_ws r0)) as [r' |] eqn:E; [apply strip_one_length in E; intros [= <- <-]; lia |].
    destruct (separated item close n r0) as [[fs r'] |] eqn:Es; [| done]. apply separated_shortens in Es; [| done].
    intros [= <- <-]. lia. }
  case_decide; [by apply Hsep, read_member_shortens |]. case_decide; [by apply Hsep |]. clear Hsep. case_decide.
  { destruct (read_str r0) as [[s r1] |] eqn:E; [| done]. apply read_str_shortens in E. intros [= <- <-]. lia. }
  assert (forall p w, (r' ← strip p r0; Some (w, r')) = Some (v, r) -> (length r < length l)%nat) as Hlit.
  { intros p w. destruct (strip p r0) as [r' |] eqn:E; [| done]. apply strip_length in E. intros [= <- <-]. lia. }
  do 3 (case_decide; [apply Hlit |]). destruct (read_num (c :: r0)) as [[m r1] |] eqn:E; [| done].
  apply read_num_shortens in E. cbn [length] in E. intros [= <- <-]. lia.
Qed.

Lemma read_member_ext val val' l : (forall k, (length k <= length l)%nat -> val k = val' k) -> read_member val l = read_member val' l.
Proof.
  intros Hv. unfold read_member. pose proof (skip_ws_length l).
  destruct (strip [QUOTE] (skip_ws l)) as [r1 |] eqn:E1; [| done]. cbn [mbind option_bind]. apply strip_one_length in E1.
  destruct (read_str r1) as [[k r2] |] eqn:E2; [| done]. cbn [mbind option_bind]. apply read_str_shortens in E2.
  destruct (strip [":"%char] (skip_ws r2)) as [r3 |] eqn:E3; [| done]. cbn [mbind option_bind]. apply strip_one_length in E3.
  pose proof (skip_ws_length r2). by rewrite Hv by lia.
Qed.

Lemma separated_ext {A} (item item' : list ascii -> option (A * list ascii)) close n n' l :
  shortens item -> (forall k, (length k <= length l)%nat -> item k = item' k) -> (length l < n)%nat -> (length l < n')%nat ->
  separated item close n l = separated item' close n' l.
Proof.
  intros Hi. revert n' l. induction n as [| n IH]; intros [| n'] l He Hn Hn'; [done || lia .. |]. cbn [separated].
  rewrite <-He by done. destruct (item l) as [[y r1] |] eqn:E1; [| done]. cbn [mbind option_bind]. apply Hi in E1.
  destruct (strip [close] (skip_ws r1)) as [r2 |]; [done |]. pose proof (skip_ws_length r1).
  destruct (strip [","%char] (skip_ws r1)) as [r3 |] eqn:E3; [| done]. cbn [mbind option_bind]. apply strip_one_length in E3.
  rewrite (IH n') by (lia || (intros; apply He; lia)). done.
Qed.

(** More fuel changes nothing. *)
Lemma read_value_fuel n n' d l : (length l < n)%nat -> (length l < n')%nat -> read_value n d l = read_value n' d l.
Proof.
  revert n' d l. induction n as [| n IH]; intros [| n'] d l Hn Hn'; [lia .. |]. cbn [read_value]. pose proof (skip_ws_length l).
  destruct (skip_ws l) as [| c r0]; [done |]. cbn [length] in *.
  rewrite (separated_ext (read_member (read_value n (d + 1))) (read_member (read_value n' (d + 1))) "}" n n' r0);
    [| apply read_member_shortens, read_value_shortens | intros k Hk; apply read_member_ext; intros; apply IH; lia | lia | lia].
  rewrite (separated_ext (read_value n (d + 1)) (read_value n' (d + 1)) "]" n n' r0);
    [done | apply read_value_shortens | intros k Hk; apply IH; lia | lia | lia].
Qed.
