(* ===== verification/GoJson.v ===== *)
(** * encoding/json and the types of Go

    How [Marshal] and [Unmarshal] treat the types the program stores and sends:
    integers of a width, booleans, strings, slices, maps with their nil value,
    pointers and structs. A decoder takes the variable it decodes into, since what
    the text leaves out stays as it was, and says whether there was no error, since
    a value that does not fit is skipped and the rest decoded. [Lawful] is the
    interface of a type: its values are read back as they were, and whatever is
    read fits it. Not modelled: what a slice that one object names three times or more
    keeps beyond its length. *)

From Stdlib Require Import DecimalPos DecimalString.
From stdpp Require Import sorting.
From S2P Require Export Json.

Record codec (A : Type) := Codec { zero_of : A; enc : A -> value; dec : value -> A -> A * bool }.
Arguments Codec {A}.
Arguments zero_of {A}.
Arguments enc {A}.
Arguments dec {A}.

(** ** Types *)

(** The digits of [ParseUint], below [2^w]. *)
Definition parse_uint (w : Z) (s : string) : option Z :=
  n ← digits s; if n <? 2 ^ w then Some n else None.

Definition dec_scalar {A} (get : value -> option A) (v : value) (x : A) : A * bool :=
  match v with
  | JNull => (x, true)
  | _ => match get v with Some y => (y, true) | None => (x, false) end
  end.

Definition go_int : codec Z :=
  Codec 0 (fun z => JNum (itoa z)) (dec_scalar (fun v => match v with JNum lit => atoi lit | _ => None end)).

Definition go_uint (w : Z) : codec Z :=
  Codec 0 (fun z => JNum (itoa z)) (dec_scalar (fun v => match v with JNum lit => parse_uint w lit | _ => None end)).

Definition go_bool : codec bool :=
  Codec false JBool (dec_scalar (fun v => match v with JBool b => Some b | _ => None end)).

Definition go_string : codec string :=
  Codec "" JStr (dec_scalar (fun v => match v with JStr s => Some s | _ => None end)).

(** The elements, each decoded into the old one at its place. *)
Fixpoint dec_items {A} (c : codec A) (vs : list value) (old : list A) : list A * bool :=
  match vs with
  | [] => ([], true)
  | v :: vs' =>
      let '(x, ok) := dec c v (default (zero_of c) (head old)) in
      let '(xs, ok') := dec_items c vs' (tail old) in
      (x :: xs, ok && ok')
  end.

(** A slice, [None] when nil. *)
Definition go_slice {A} (c : codec A) : codec (option (list A)) :=
  Codec None (fun x => match x with Some l => JArr (enc c <$> l) | None => JNull end)
    (fun v x => match v with
     | JNull => (None, true)
     | JArr vs => let '(l, ok) := dec_items c vs (default [] x) in (Some l, ok)
     | _ => (x, false)
     end).

(** A slice of which nothing tells nil from empty. *)
Definition go_list {A} (c : codec A) : codec (list A) :=
  Codec [] (fun l => match l with [] => JNull | _ => JArr (enc c <$> l) end)
    (fun v l => let '(x, ok) := dec (go_slice c) v (Some l) in (default [] x, ok)).

(** A pointer, [None] when nil. *)
Definition go_ptr {A} (c : codec A) : codec (option A) :=
  Codec None (fun x => match x with Some a => enc c a | None => JNull end)
    (fun v x => match v with
     | JNull => (None, true)
     | _ => let '(a, ok) := dec c v (default (zero_of c) x) in (Some a, ok)
     end).

(** The keys of a map: strings, or numbers written as strings. *)
Record map_key (K : Type) := MapKey { key_text : K -> string; key_of : string -> option K }.
Arguments MapKey {K}.
Arguments key_text {K}.
Arguments key_of {K}.

Definition string_key : map_key string := MapKey id Some.
Definition uint_key (w : Z) : map_key Z := MapKey itoa (parse_uint w).

(** Members in the order of their keys. *)
Definition field_le (a b : string * value) : Prop := String.le a.1 b.1.
#[export] Instance field_le_dec : RelDecision field_le.
Proof. intros a b. unfold field_le. apply _. Defined.

Definition dec_entry {K A} `{Countable K} (key : map_key K) (c : codec A) (acc : gmap K A * bool) (f : string * value)
    : gmap K A * bool :=
  let '(a, ok) := dec c f.2 (zero_of c) in
  match key_of key f.1 with
  | Some k => (<[k := a]> acc.1, acc.2 && ok)
  | None => (acc.1, false)
  end.

(** A map, [None] when nil. Entries are added to those it has. *)
Definition go_map {K A} `{Countable K} (key : map_key K) (c : codec A) : codec (option (gmap K A)) :=
  Codec None
    (fun x => match x with
     | Some m => JObj (merge_sort field_le ((fun p => (key_text key p.1, enc c p.2)) <$> map_to_list m))
     | None => JNull
     end)
    (fun v x => match v with
     | JNull => (None, true)
     | JObj fs => let '(m, ok) := foldl (dec_entry key c) (default ∅ x, true) fs in (Some m, ok)
     | _ => (x, false)
     end).

(** A map of which nothing tells nil from empty. *)
Definition go_dict {K A} `{Countable K} (key : map_key K) (c : codec A) : codec (gmap K A) :=
  Codec ∅ (fun m => enc (go_map key c) (if decide (m = ∅) then None else Some m))
    (fun v m => let '(x, ok) := dec (go_map key c) v (Some m) in (default ∅ x, ok)).

(** *** Structs *)

(** A member with the [omitempty] option. *)
Definition unless (empty : bool) (name : string) (v : value) : list (string * value) := if empty then [] else [(name, v)].

Record field (R : Type) := Field { f_name : string; f_dec : value -> R -> R * bool }.
Arguments Field {R}.
Arguments f_name {R}.
Arguments f_dec {R}.

Definition member {R A} (name : string) (c : codec A) (get : R -> A) (set : A -> R -> R) : field R :=
  Field name (fun v r => let '(a, ok) := dec c v (get r) in (set a r, ok)).

(** [foldName]: the case of ASCII does not matter; the runes above it that fold to
    an ASCII letter are U+017F and U+212A. *)
Definition fold_rune (r : Z) : Z := if r =? 383 then 83 else if r =? 8490 then 75 else upper_rune id r.
Definition fold_name (s : string) : list Z := fold_rune <$> (runes s).*1.

(** The field a key names: exactly, or else up to case. *)
Definition field_named {R} (fs : list (field R)) (k : string) : option (field R) :=
  match list_find (fun f => f_name f = k) fs with
  | Some (_, f) => Some f
  | None => snd <$> list_find (fun f => fold_name (f_name f) = fold_name k) fs
  end.

Definition dec_field {R} (fs : list (field R)) (acc : R * bool) (kv : string * value) : R * bool :=
  match field_named fs kv.1 with
  | Some f => let '(r, ok) := f_dec f kv.2 acc.1 in (r, acc.2 && ok)
  | None => acc
  end.

Definition dec_struct {R} (fs : list (field R)) (v : value) (r : R) : R * bool :=
  match v with
  | JNull => (r, true)
  | JObj kvs => foldl (dec_field fs) (r, true) kvs
  | _ => (r, false)
  end.

Definition go_struct {R} (zero : R) (write : R -> list (string * value)) (fs : list (field R)) : codec R :=
  Codec zero (fun r => JObj (write r)) (dec_struct fs).

(** *** Documents *)

Definition Marshal {A} (c : codec A) (a : A) : string := text (enc c a).

(** What is left in the variable that held [x], and whether there was no error: a
    text that is not JSON leaves it as it was. *)
Definition Unmarshal {A} (c : codec A) (data : string) (x : A) : A * bool :=
  match parse data with Some v => dec c v x | None => (x, false) end.

(** ** Laws *)

(** Values read from a text hold valid UTF-8 only. *)
Definition utf8_only (v : value) : Prop := norm v = v.

Class Lawful {A} (c : codec A) (fits : A -> Prop) (k : nat) : Prop := {
  law_wf a : fits a -> wf k (enc c a) = true;
  law_round a : fits a -> dec c (norm (enc c a)) (zero_of c) = (a, true);
  law_fits v x : utf8_only v -> fits x -> fits (dec c v x).1;
  law_zero : fits (zero_of c);
}.

(** A type whose values are not written as null. *)
Class NonNull {A} (c : codec A) : Prop := non_null a : norm (enc c a) <> JNull.

Class LawfulKey {K} (key : map_key K) (okey : K -> Prop) : Prop := {
  key_round k : okey k -> key_of key (coerce (key_text key k)) = Some k;
  key_fits s k : valid_utf8 s -> key_of key s = Some k -> okey k;
}.

Lemma wf_mono k k' v : (k <= k')%nat -> wf k v = true -> wf k' v = true.
Proof.
  revert k k'. induction v as [| | | | l IH | fs IH] using value_ind; intros [| k] [| k'] Hk; cbn [wf]; try done; try lia;
    rewrite !forallb_forall; intros H x Hx; rewrite Forall_forall in IH;
    (eapply IH; [by apply list_elem_of_In | | by apply H]; lia).
Qed.

Lemma utf8_only_arr l : utf8_only (JArr l) -> Forall utf8_only l.
Proof. unfold utf8_only. cbn. intros [= H]. induction l as [| v l IH]; [done |]. cbn in H. injection H as H1 H2. by constructor; auto. Qed.

Lemma utf8_only_obj fs : utf8_only (JObj fs) -> Forall (fun f => valid_utf8 f.1 /\ utf8_only f.2) fs.
Proof.
  unfold utf8_only, valid_utf8. cbn. intros [= H]. induction fs as [| [s v] fs IH]; [done |]. cbn in H.
  injection H as H1 H2 H3. constructor; [done | by apply IH].
Qed.

(** *** Numbers *)

Lemma nzhead_not_zero u v : Decimal.nzhead u <> Decimal.D0 v.
Proof. by induction u. Qed.

Lemma to_uint_not_zero p v : Pos.to_uint p <> Decimal.D0 v.
Proof.
  intros E. pose proof (DecimalPos.Unsigned.to_of (Pos.to_uint p)) as H. rewrite DecimalPos.Unsigned.of_to in H.
  cbn [N.to_uint] in H. unfold Decimal.unorm in H. destruct (Decimal.nzhead (Pos.to_uint p)) eqn:En; try congruence.
  - apply (DecimalPos.Unsigned.to_uint_nonzero p). rewrite H. done.
  - by apply nzhead_not_zero in En.
Qed.

Lemma itoa_neg p : itoa (Zneg p) = String "-" (itoa (Zpos p)).
Proof. done. Qed.

(** The digits of a positive number, without a zero in front. *)
Lemma itoa_pos p : exists c l, chars (itoa (Zpos p)) = c :: l /\ c <> "0"%char /\ Forall (fun c => is_digit c = true) (c :: l).
Proof.
  pose proof (itoa_digits (Zpos p) ltac:(lia)) as Hd. pose proof (to_uint_not_zero p) as H0. pose proof (DecimalPos.Unsigned.to_uint_nonnil p) as Hn.
  unfold itoa in *. cbn [Z.to_int NilZero.string_of_int] in *.
  destruct (Pos.to_uint p) as [| u | u | u | u | u | u | u | u | u | u]; [done | by destruct (H0 u) | ..];
    (eexists _, _; split; [reflexivity |]; split; [done | exact Hd]).
Qed.

Lemma span_all {A} (f : A -> bool) l : Forall (fun x => f x = true) l -> span f l = (l, []).
Proof. induction 1 as [| x l Hx _ IH]; [done |]. cbn. by rewrite Hx, IH. Qed.

Lemma is_number_itoa z : is_number (itoa z) = true.
Proof.
  unfold is_number. apply bool_decide_eq_true_2. destruct z as [| p | p]; [done | |].
  - destruct (itoa_pos p) as (c & l & -> & H0 & Hd). unfold read_num. cbn [read_sign].
    assert (is_minus c = false) as ->.
    { apply bool_decide_eq_false_2. intros ->. by apply Forall_cons in Hd as [Hd _]. }
    cbn [read_int]. rewrite decide_False by done. unfold some_digits. rewrite span_all, decide_False by done. cbn. by rewrite app_nil_r.
  - rewrite itoa_neg. destruct (itoa_pos p) as (c & l & E & H0 & Hd). cbn [chars String.list_ascii_of_string].
    fold (chars (itoa (Z.pos p))). rewrite E. unfold read_num. cbn [read_sign]. change (is_minus "-") with true.
    cbn [read_int]. rewrite decide_False by done. unfold some_digits. rewrite span_all, decide_False by done. cbn. by rewrite app_nil_r.
Qed.

Lemma atoi_itoa_i64 z : is_i64 z -> atoi (itoa z) = Some z.
Proof.
  unfold is_i64. intros Hz. destruct z as [| p | p]; [done | apply atoi_itoa; lia |].
  rewrite itoa_neg. cbn [atoi]. rewrite digits_itoa by lia. cbn. rewrite (proj2 (Z.leb_le _ _)) by lia. done.
Qed.

Lemma parse_uint_itoa w n : 0 <= n < 2 ^ w -> parse_uint w (itoa n) = Some n.
Proof. intros Hn. unfold parse_uint. rewrite digits_itoa by lia. cbn. by rewrite (proj2 (Z.ltb_lt _ _)) by lia. Qed.

Lemma parse_uint_range w s n : parse_uint w s = Some n -> 0 <= n < 2 ^ w.
Proof.
  unfold parse_uint. destruct (digits s) as [k |] eqn:E; [| done]. cbn. apply digits_nonneg in E.
  destruct (k <? 2 ^ w) eqn:Hk; [| done]. intros [= <-]. breflect. lia.
Qed.

Definition ascii_only (s : string) : Prop := Forall (fun c => byte_val c < 128) (chars s).

Lemma ascii_append s t : ascii_only s -> ascii_only t -> ascii_only (s +:+ t).
Proof. unfold ascii_only. intros Hs Ht. rewrite chars_app. by apply Forall_app. Qed.

Lemma ascii_itoa z : ascii_only (itoa z).
Proof.
  unfold ascii_only. destruct z as [| p | p]; [repeat constructor | |];
    [| rewrite itoa_neg; cbn [chars String.list_ascii_of_string]; constructor; [done |]];
    (eapply Forall_impl; [apply itoa_digits; lia |]); intros c Hc; cbn in Hc; unfold is_digit in Hc; breflect; lia.
Qed.

Lemma valid_itoa z : valid_utf8 (itoa z).
Proof. apply valid_ascii, ascii_itoa. Qed.

(** *** The types *)

Lemma dec_scalar_fits {A} (fits : A -> Prop) get v x :
  (forall y, get v = Some y -> fits y) -> fits x -> fits (dec_scalar get v x).1.
Proof. intros Hg Hx. unfold dec_scalar. destruct v; try done; destruct (get _) as [y |] eqn:E; try done; by apply Hg. Qed.

#[export] Instance lawful_int : Lawful go_int is_i64 0.
Proof.
  split.
  - intros a _. apply is_number_itoa.
  - intros a Ha. cbn. by rewrite atoi_itoa_i64.
  - intros v x _ Hx. cbn [go_int go_uint dec]. apply dec_scalar_fits; [| done]. intros y. destruct v; try done. apply atoi_range.
  - done.
Qed.

#[export] Instance lawful_uint w `{!TCEq (0 <=? w) true} : Lawful (go_uint w) (fun z => 0 <= z < 2 ^ w) 0.
Proof.
  match goal with H : TCEq _ _ |- _ => apply TCEq_eq in H end. breflect. split.
  - intros a _. apply is_number_itoa.
  - intros a Ha. cbn. by rewrite parse_uint_itoa.
  - intros v x _ Hx. cbn [go_int go_uint dec]. apply dec_scalar_fits; [| done]. intros y. destruct v; try done. apply parse_uint_range.
  - cbn. pose proof (Z.pow_pos_nonneg 2 w). lia.
Qed.

#[export] Instance lawful_bool : Lawful go_bool (fun _ => True) 0.
Proof. by split. Qed.

#[export] Instance lawful_string : Lawful go_string valid_utf8 0.
Proof.
  split; [done | | | done].
  - intros a Ha. cbn. by rewrite Ha.
  - intros v x Hv Hx. cbn [go_string dec]. apply dec_scalar_fits; [| done]. intros y. destruct v; try done. intros [= ->]. by injection Hv.
Qed.

#[export] Instance non_null_int : NonNull go_int.
Proof. by intros a. Qed.
#[export] Instance non_null_struct {R} zero write (fs : list (field R)) : NonNull (go_struct zero write fs).
Proof. by intros a. Qed.

Section combinators.
Context {A : Type} (c : codec A) (fits : A -> Prop) (k : nat) `{!Lawful c fits k}.

Lemma dec_items_round l : Forall fits l -> dec_items c (List.map norm (enc c <$> l)) [] = (l, true).
Proof.
  induction 1 as [| a l Ha _ IH]; [done |]. cbn [fmap list_fmap List.map dec_items head tail default].
  change (enc c <$> l) with (enc c <$> l) in IH. cbn. rewrite law_round by done. cbn. by rewrite IH.
Qed.

Lemma dec_items_fits vs old : Forall utf8_only vs -> Forall fits old -> Forall fits (dec_items c vs old).1.
Proof.
  intros Hvs. revert old. induction Hvs as [| v vs Hv _ IH]; intros old Ho; [constructor |]. cbn [dec_items].
  assert (fits (default (zero_of c) (head old))) as Hx by (destruct Ho; [apply law_zero | done]).
  assert (Forall fits (tail old)) as Ht by (by destruct Ho).
  pose proof (law_fits v _ Hv Hx) as H1. specialize (IH _ Ht).
  destruct (dec c v _) as [x ok]. destruct (dec_items c vs (tail old)) as [xs ok']. by constructor.
Qed.

#[export] Instance lawful_slice : Lawful (go_slice c) (from_option (Forall fits) True) (S k).
Proof.
  split; [| | | done].
  - intros [l |] Hl; [| done]. cbn in Hl |- *. apply forallb_forall. intros v (a & -> & Ha)%list_elem_of_In%list_elem_of_fmap.
    rewrite Forall_forall in Hl. apply law_wf. by apply Hl.
  - intros [l |] Hl; [| done]. cbn in Hl |- *. by rewrite dec_items_round.
  - intros v x Hv Hx. destruct v; try done. cbn. apply utf8_only_arr in Hv.
    assert (Forall fits (default [] x)) as Ho by (destruct x; [done | constructor]).
    pose proof (dec_items_fits l _ Hv Ho) as H. by destruct (dec_items c l _).
Qed.

#[export] Instance lawful_list : Lawful (go_list c) (Forall fits) (S k).
Proof.
  split; [| | | constructor].
  - intros [| a l] Hl; [done |]. exact (law_wf (c := go_slice c) (Some (a :: l)) Hl).
  - intros [| a l] Hl; [done |]. cbn [enc go_list dec zero_of]. pose proof (dec_items_round (a :: l) Hl) as E.
    change ((let '(x, ok) := (let '(xs, ok) := dec_items c (List.map norm (enc c <$> a :: l)) [] in (Some xs, ok)) in
      (default [] x, ok)) = (a :: l, true)). by rewrite E.
  - intros v l Hv Hl. cbn [dec go_list]. pose proof (law_fits (c := go_slice c) v (Some l) Hv Hl) as H.
    destruct (dec (go_slice c) v (Some l)) as [[x |] ok]; [done | constructor].
Qed.

#[export] Instance lawful_ptr `{!NonNull c} : Lawful (go_ptr c) (from_option fits True) k.
Proof.
  split; [| | | done].
  - intros [a |] Ha; [cbn in *; by apply law_wf | done].
  - intros [a |] Ha; [| done]. cbn in Ha |- *. pose proof (non_null a) as Hn. pose proof (law_round a Ha) as Hr.
    destruct (norm (enc c a)) eqn:E; try done; by rewrite Hr.
  - intros v x Hv Hx. assert (fits (default (zero_of c) x)) as Ho by (destruct x; [done | apply law_zero]).
    pose proof (law_fits v _ Hv Ho) as H. cbn. destruct v; try done; by destruct (dec c _ _).
Qed.
End combinators.

#[export] Instance lawful_string_key : LawfulKey string_key valid_utf8.
Proof. split; [intros k Hk; cbn [string_key key_of key_text]; unfold id; by rewrite Hk | by intros s k Hs [= <-]]. Qed.

#[export] Instance lawful_uint_key w : LawfulKey (uint_key w) (fun z => 0 <= z < 2 ^ w).
Proof.
  split; [| intros s k _; apply parse_uint_range]. intros k Hk. cbn [uint_key key_of key_text].
  by rewrite valid_itoa, parse_uint_itoa.
Qed.

Section maps.
Context `{Countable K} {A : Type} (key : map_key K) (okey : K -> Prop) `{!LawfulKey key okey}.
Context (c : codec A) (fits : A -> Prop) (k : nat) `{!Lawful c fits k}.

Definition entry (p : K * A) : string * value := (key_text key p.1, enc c p.2).

Definition map_fits (m : gmap K A) : Prop := map_Forall (fun k a => okey k /\ fits a) m.

Lemma dec_entries_round ps m ok : Forall (fun p => okey p.1 /\ fits p.2) ps ->
  foldl (dec_entry key c) (m, ok) (List.map norm_field (entry <$> ps)) = (foldl (fun m p => <[p.1 := p.2]> m) m ps, ok).
Proof.
  intros Hps. revert m ok. induction Hps as [| [j a] ps [Hj Ha] _ IH]; intros m ok; [done |]. cbn [fmap list_fmap List.map foldl].
  assert (dec_entry key c (m, ok) (norm_field (entry (j, a))) = (<[j := a]> m, ok)) as ->; [| apply IH].
  unfold dec_entry, norm_field, entry. cbn [fst snd] in *. rewrite law_round by done. rewrite key_round by done. by rewrite andb_true_r.
Qed.

Lemma foldl_insert (ps : list (K * A)) (m : gmap K A) :
  ps ≡ₚ map_to_list m -> foldl (fun m p => <[p.1 := p.2]> m) ∅ ps = m.
Proof.
  intros Hp. assert (foldl (fun m p => <[p.1 := p.2]> m) ∅ ps = list_to_map (M := gmap K A) (reverse ps)) as ->.
  { clear Hp. induction ps as [| p ps IH] using rev_ind; [done |]. rewrite foldl_app, reverse_snoc. cbn. by rewrite IH. }
  rewrite <-(list_to_map_to_list m). apply list_to_map_proper; [| by rewrite reverse_Permutation].
  rewrite reverse_Permutation, Hp. apply NoDup_fst_map_to_list.
Qed.

Lemma dec_entry_fits acc f : valid_utf8 f.1 -> utf8_only f.2 -> map_fits acc.1 -> map_fits (dec_entry key c acc f).1.
Proof.
  intros H1 H2 Hm. unfold dec_entry. pose proof (law_fits f.2 _ H2 law_zero) as Ha. destruct (dec c f.2 _) as [a ok].
  destruct (key_of key f.1) as [j |] eqn:E; [| done]. apply map_Forall_insert_2; [| done]. split; [by eapply key_fits | done].
Qed.

#[export] Instance lawful_map : Lawful (go_map key c) (from_option map_fits True) (S k).
Proof.
  assert (forall m, exists ps, merge_sort field_le (entry <$> map_to_list m) = entry <$> ps /\ ps ≡ₚ map_to_list m) as Hs.
  { intros m. destruct (Permutation_map_inv entry (map_to_list m) (merge_sort_Permutation field_le (entry <$> map_to_list m))) as (ps & E & P). by exists ps. }
  assert (forall m ps, map_fits m -> ps ≡ₚ map_to_list m -> Forall (fun p => okey p.1 /\ fits p.2) ps) as Hf.
  { intros m ps Hm P. rewrite P. apply Forall_forall. intros [j a] Hin%elem_of_map_to_list. by apply (Hm j a). }
  split; [| | | done].
  - intros [m |] Hm; [| done]. cbn [enc go_map wf from_option] in *. change (fun p => (key_text key p.1, enc c p.2)) with entry.
    destruct (Hs m) as (ps & -> & P). specialize (Hf m ps Hm P). apply forallb_forall.
    intros f (p & -> & Hp)%list_elem_of_In%list_elem_of_fmap. rewrite Forall_forall in Hf. apply law_wf. by apply Hf.
  - intros [m |] Hm; [| done]. cbn [enc go_map norm from_option dec zero_of default] in *.
    change (fun p => (key_text key p.1, enc c p.2)) with entry. change (fun f => (coerce f.1, norm f.2)) with norm_field.
    destruct (Hs m) as (ps & -> & P). rewrite dec_entries_round by exact (Hf m ps Hm P). by rewrite (foldl_insert ps m P).
  - intros v x Hv Hx. destruct v as [| | | | | fs]; try done. cbn [dec go_map].
    assert (map_fits (default ∅ x)) as Ho by (destruct x; [done | apply map_Forall_empty]).
    apply utf8_only_obj in Hv. assert (map_fits (foldl (dec_entry key c) (default ∅ x, true) fs).1) as Hm; [| by destruct (foldl _ _ fs)].
    assert (forall acc, map_fits acc.1 -> map_fits (foldl (dec_entry key c) acc fs).1) as Hall; [| by apply Hall].
    induction Hv as [| f fs [H1 H2] _ IH]; intros acc Hacc; [done |]. cbn [foldl]. by apply IH, dec_entry_fits.
Qed.
End maps.

(** *** Structs *)

Lemma dec_struct_fits {R} (fs : list (field R)) (ok : R -> Prop) v r :
  (forall f v r, f ∈ fs -> utf8_only v -> ok r -> ok (f_dec f v r).1) -> utf8_only v -> ok r -> ok (dec_struct fs v r).1.
Proof.
  intros Hfs Hv Hr. destruct v as [| | | | | kvs]; try done. cbn [dec_struct]. apply utf8_only_obj in Hv.
  assert (forall acc, ok acc.1 -> ok (foldl (dec_field fs) acc kvs).1) as H; [| by apply H].
  induction Hv as [| [s v] kvs [_ H2] _ IH]; intros acc Ha; [done |]. cbn [foldl]. apply IH.
  unfold dec_field. cbn [fst snd] in *. destruct (field_named fs s) as [f |] eqn:E; [| done].
  assert (f ∈ fs) as Hin.
  { unfold field_named in E. destruct (list_find _ fs) as [[i g] |] eqn:E1.
    - injection E as ->. by apply list_find_Some in E1 as (?%list_elem_of_lookup_2 & _).
    - destruct (list_find (fun f => fold_name (f_name f) = fold_name s) fs) as [[i g] |] eqn:E2; [| done].
      injection E as ->. by apply list_find_Some in E2 as (?%list_elem_of_lookup_2 & _). }
  pose proof (Hfs f v acc.1 Hin H2 Ha). by destruct (f_dec f v acc.1).
Qed.

Lemma member_fits {R A} (name : string) (c : codec A) (get : R -> A) (set : A -> R -> R) fits k `{!Lawful c fits k} (ok : R -> Prop) v r :
  (forall r, ok r -> fits (get r)) -> (forall a r, fits a -> ok r -> ok (set a r)) -> utf8_only v -> ok r ->
  ok (f_dec (member name c get set) v r).1.
Proof.
  intros Hg Hs Hv Hr. cbn. pose proof (law_fits v _ Hv (Hg r Hr)) as H. destruct (dec c v (get r)). by apply Hs.
Qed.

(** One member of an object, and one that no field has. *)
Lemma dec_step {R A} (fs : list (field R)) (name : string) (c : codec A) (get : R -> A) (set : A -> R -> R) (a : A) (r : R) v rest :
  field_named fs (coerce name) = Some (member name c get set) -> dec c v (get r) = (a, true) ->
  foldl (dec_field fs) (r, true) ((coerce name, v) :: rest) = foldl (dec_field fs) (set a r, true) rest.
Proof. intros Hf Ha. cbn [foldl]. unfold dec_field at 2. cbn [fst snd]. rewrite Hf. cbn. by rewrite Ha. Qed.

Lemma dec_skip {R} (fs : list (field R)) (name : string) acc v rest :
  field_named fs (coerce name) = None -> foldl (dec_field fs) acc ((coerce name, v) :: rest) = foldl (dec_field fs) acc rest.
Proof. intros Hf. cbn [foldl]. unfold dec_field at 2. cbn [fst snd]. by rewrite Hf. Qed.

Lemma dec_member {R A} (fs : list (field R)) (name : string) (c : codec A) (get : R -> A) (set : A -> R -> R) fits k
    `{!Lawful c fits k} (a : A) (r : R) rest :
  field_named fs (coerce name) = Some (member name c get set) -> get r = zero_of c -> fits a ->
  foldl (dec_field fs) (r, true) ((coerce name, norm (enc c a)) :: rest) = foldl (dec_field fs) (set a r, true) rest.
Proof. intros Hf Hg Ha. apply (dec_step fs name c get set); [done |]. rewrite Hg. by apply law_round. Qed.

(** One value that does not fit is an error of the whole. *)
Lemma dec_struct_bad {R} (fs : list (field R)) kvs k v f r :
  (k, v) ∈ kvs -> field_named fs k = Some f -> (forall r, (f_dec f v r).2 = false) -> (dec_struct fs (JObj kvs) r).2 = false.
Proof.
  intros Hin Hf Hbad. cbn [dec_struct]. generalize (r, true). revert Hin.
  assert (forall l acc, acc.2 = false -> (foldl (dec_field fs) acc l).2 = false) as Hstay.
  { intros l. induction l as [| [k' v'] l IH]; intros acc Ha; [done |]. cbn [foldl]. apply IH. unfold dec_field. cbn [fst snd].
    destruct (field_named fs k') as [g |]; [| done]. destruct (f_dec g v' acc.1). cbn. by rewrite Ha. }
  induction kvs as [| [k' v'] kvs IH]; intros Hin acc; [by apply not_elem_of_nil in Hin |]. cbn [foldl].
  apply elem_of_cons in Hin as [[= <- <-] | Hin]; [| by apply IH]. apply Hstay. unfold dec_field. cbn [fst snd]. rewrite Hf.
  pose proof (Hbad acc.1) as Hb. destruct (f_dec f v acc.1) as [r' ok]. cbn in *. by rewrite Hb, andb_false_r.
Qed.

(** A scalar replaces what was there. *)
Lemma dec_int z x : is_i64 z -> dec go_int (JNum (itoa z)) x = (z, true).
Proof. intros Hz. cbn. by rewrite atoi_itoa_i64. Qed.

(** ** Documents *)

Lemma read_value_utf8 n d l v r : read_value n d l = Some (v, r) -> utf8_only v.
Proof.
  revert d l v r. unfold utf8_only. induction n as [| n IH]; intros d l v r; [done |]. cbn [read_value].
  destruct (skip_ws l) as [| c r0]; [done |].
  assert (forall A (item : list ascii -> option (A * list ascii)) (f : A -> A) close m l xs r,
    (forall l x r, item l = Some (x, r) -> f x = x) -> separated item close m l = Some (xs, r) -> List.map f xs = xs) as Hsep.
  { intros A item f close m. induction m as [| m IHm]; intros l' xs r' Hi; [done |]. cbn [separated].
    destruct (item l') as [[x r1] |] eqn:E; [| done]. cbn [mbind option_bind]. apply Hi in E.
    destruct (strip [close] _); [intros [= <- _]; cbn; by rewrite E |]. destruct (strip [","%char] _) as [r2 |]; [| done].
    cbn [mbind option_bind]. destruct (separated item close m r2) as [[ys r3] |] eqn:Es; [| done]. intros [= <- _].
    cbn. by rewrite E, (IHm _ _ _ Hi Es). }
  case_decide.
  { destruct (_ <=? _); [done |]. destruct (strip _ _); [by intros [= <- _] |].
    destruct (separated _ _ _ _) as [[fs r'] |] eqn:E; [| done]. intros [= <- _]. cbn [norm]. f_equal. eapply Hsep; [| exact E].
    intros l' [s w] r1. unfold read_member. destruct (strip _ _); [| done]. cbn [mbind option_bind].
    destruct (read_str _) as [[k r2] |]; [| done]. cbn [mbind option_bind]. destruct (strip _ _); [| done]. cbn [mbind option_bind].
    destruct (read_value n (d + 1) _) as [[w' r3] |] eqn:Ew; [| done]. intros [= <- <- _]. cbn [fst snd].
    by rewrite coerce_valid, (IH _ _ _ _ Ew). }
  case_decide.
  { destruct (_ <=? _); [done |]. destruct (strip _ _); [by intros [= <- _] |].
    destruct (separated _ _ _ _) as [[vs r'] |] eqn:E; [| done]. intros [= <- _]. cbn [norm]. f_equal. eapply Hsep; [| exact E].
    intros l' w r1 Hw. by eapply IH. }
  clear Hsep. case_decide; [destruct (read_str _) as [[s r1] |]; [| done]; intros [= <- _]; cbn; by rewrite coerce_valid |].
  do 3 (case_decide; [destruct (strip _ _); [by intros [= <- _] | done] |]).
  destruct (read_num _) as [[m r1] |]; [by intros [= <- _] | done].
Qed.

Lemma parse_utf8 s v : parse s = Some v -> utf8_only v.
Proof.
  unfold parse. destruct (read_value _ _ _) as [[w r] |] eqn:E; [| done]. cbn. case_decide; [| done].
  intros [= <-]. by eapply read_value_utf8.
Qed.

Section documents.
Context {A : Type} (c : codec A) (fits : A -> Prop) (k : nat) `{!Lawful c fits k}.

(** What is marshalled is unmarshalled, whether or not a line end follows. *)
Lemma unmarshal_marshal a tail : Z.of_nat k <= max_depth -> Forall (fun c => is_ws c = true) (chars tail) -> fits a ->
  Unmarshal c (Marshal c a +:+ tail) (zero_of c) = (a, true).
Proof. intros Hk Ht Ha. unfold Unmarshal, Marshal. rewrite (parse_text k) by (done || by apply law_wf). by apply law_round. Qed.

(** Whatever the text is, what is left fits the type. *)
Lemma unmarshal_fits data x : fits x -> fits (Unmarshal c data x).1.
Proof. intros Hx. unfold Unmarshal. destruct (parse data) as [v |] eqn:E; [| done]. apply law_fits; [by eapply parse_utf8 | done]. Qed.
End documents.

(** ** Proving the laws of a struct *)

(** Every member is well formed. *)
Ltac struct_wf :=
  cbn [enc go_struct wf forallb snd];
  repeat (apply andb_true_intro; split); try done;
  (eapply wf_mono; cycle 1; [apply law_wf | lia]).

(** The members in order. *)
Ltac struct_round :=
  repeat (etrans; [eapply dec_member; [apply _ | reflexivity | reflexivity | done] |]); try done.

(** Every member keeps what its value must satisfy. *)
Ltac struct_fits fits :=
  intros ? ? ? ?;
  match goal with |- ?P (dec _ ?v ?x).1 => eapply (dec_struct_fits _ P v x); [| done | done] end;
  let Hf := fresh "Hf" in intros ? ? ? Hf ? ?;
  match type of Hf with ?f ∈ ?l => let l' := eval hnf in l in change (f ∈ l') in Hf end;
  repeat (apply elem_of_cons in Hf as [-> | Hf]; [eapply member_fits; [apply _ | | | done | done]; unfold fits; cbn; tauto |]);
  by apply not_elem_of_nil in Hf.
