(* ===== verification/Bytes.v ===== *)
(** * Byte slices

    A Go [[]byte] is a list of 8-bit characters, so that the bytes of a string
    [s] are [chars s]; [encoding/binary]'s big-endian integers are defined on them. *)

From S2P Require Export GoStr.

Abbreviation bytes := (list ascii).

(** [byte(z)]: the low eight bits. *)
Definition byte_of (z : Z) : ascii := ascii_of_N (Z.to_N (z mod 256)).

Lemma byte_val_of z : byte_val (byte_of z) = z mod 256.
Proof.
  unfold byte_val, byte_of. pose proof (Z.mod_pos_bound z 256 ltac:(done)).
  rewrite N_ascii_embedding; lia.
Qed.

Lemma byte_of_val c : byte_of (byte_val c) = c.
Proof.
  apply byte_val_inj. rewrite byte_val_of. apply Z.mod_small, byte_val_range.
Qed.

#[export] Hint Rewrite byte_val_of byte_of_val : go_rw.

(** [binary.BigEndian]: [n] bytes of [z], and the value of a byte slice. *)
Fixpoint be_bytes (n : nat) (z : Z) : bytes :=
  match n with
  | O => []
  | S n' => byte_of (z / 256 ^ Z.of_nat n') :: be_bytes n' z
  end.

Definition be_val (l : bytes) : Z := foldl (fun a c => a * 256 + byte_val c) 0 l.

Lemma length_be_bytes n z : length (be_bytes n z) = n.
Proof. induction n as [| n IH]; simpl; auto. Qed.

Lemma be_val_go a l :
  foldl (fun a c => a * 256 + byte_val c) a l = a * 256 ^ Z.of_nat (length l) + be_val l.
Proof.
  unfold be_val. revert a. induction l as [| c l IH]; intros a; [simpl; lia |].
  cbn [foldl length]. rewrite (IH (a * 256 + byte_val c)), (IH (0 * 256 + byte_val c)).
  rewrite Nat2Z.inj_succ, Z.pow_succ_r by lia. lia.
Qed.

Lemma be_val_cons c l : be_val (c :: l) = byte_val c * 256 ^ Z.of_nat (length l) + be_val l.
Proof. unfold be_val at 1. cbn [foldl]. rewrite be_val_go. lia. Qed.

Lemma be_val_range l : 0 <= be_val l < 256 ^ Z.of_nat (length l).
Proof.
  induction l as [| c l IH]; [done |]. rewrite be_val_cons. cbn [length].
  rewrite Nat2Z.inj_succ, Z.pow_succ_r by lia. pose proof (byte_val_range c). nia.
Qed.

Lemma be_val_bytes n z : be_val (be_bytes n z) = z mod 256 ^ Z.of_nat n.
Proof.
  induction n as [| n IH]; [by rewrite Z.mod_1_r |].
  cbn [be_bytes]. rewrite be_val_cons, length_be_bytes, byte_val_of, IH.
  rewrite Nat2Z.inj_succ, Z.pow_succ_r by lia.
  set (m := 256 ^ Z.of_nat n). assert (0 < m) by (apply Z.pow_pos_nonneg; lia).
  rewrite (Z.mul_comm 256 m), Z.rem_mul_r by lia. lia.
Qed.

Lemma be_bytes_mod n z : be_bytes n (z mod 256 ^ Z.of_nat n) = be_bytes n z.
Proof.
  assert (forall k m, (m <= k)%nat ->
    be_bytes m (z mod 256 ^ Z.of_nat k) = be_bytes m z) as H; [| by apply H].
  intros k m. induction m as [| m IH]; [done |]. intros Hm. cbn [be_bytes].
  rewrite IH by lia. f_equal. unfold byte_of. do 2 f_equal.
  set (p := 256 ^ Z.of_nat m). assert (0 < p) by (apply Z.pow_pos_nonneg; lia).
  replace (256 ^ Z.of_nat k) with (p * (256 * 256 ^ (Z.of_nat k - Z.of_nat m - 1))).
  2:{ unfold p. rewrite <-(Z.pow_succ_r 256) by lia. rewrite <-Z.pow_add_r by lia. f_equal. lia. }
  set (q := 256 ^ (Z.of_nat k - Z.of_nat m - 1)).
  assert (0 < q) by (apply Z.pow_pos_nonneg; lia).
  rewrite Z.rem_mul_r by lia.
  rewrite (Z.mul_comm p), Z.div_add, (Z.div_small (z mod p)), Z.add_0_l
    by (first [lia | apply Z.mod_pos_bound; lia]).
  rewrite (Z.rem_mul_r _ 256) by lia.
  rewrite (Z.mul_comm 256), Z.mod_add by lia. by rewrite Z.mod_mod by lia.
Qed.

Lemma be_bytes_val l : be_bytes (length l) (be_val l) = l.
Proof.
  induction l as [| c l IH]; [done |]. cbn [length be_bytes].
  pose proof (be_val_range l) as Hl. rewrite be_val_cons.
  set (m := 256 ^ Z.of_nat (length l)) in *.
  f_equal.
  - rewrite Z.add_comm, Z.div_add, (Z.div_small (be_val l)) by lia.
    rewrite Z.add_0_l. apply byte_of_val.
  - rewrite <-be_bytes_mod. fold m. rewrite Z.add_comm, Z.mod_add by lia.
    rewrite Z.mod_small by done. exact IH.
Qed.
