(* ===== verification/Crypto.v ===== *)
(** * The standard-library cryptography tunnelkit calls

    [crypto/sha256] (FIPS 180-4) and [crypto/hmac] (RFC 2104) over any hash that
    satisfies the [hash.Hash] interface of Go. They are
    executable: the published test vectors evaluate below. *)

From S2P Require Export Bytes.

(** ** hash.Hash *)

Class Hash := {
  hash_sum : bytes -> bytes;
  hash_size : nat;
  hash_block : nat;
  length_hash_sum m : length (hash_sum m) = hash_size;
}.

(** [hmac.New h key], [Write msg], [Sum nil]. *)
Section hmac.
Context (H : Hash).

Definition hmac_key (key : bytes) : bytes :=
  let key := if decide (hash_block < length key)%nat then hash_sum key else key in
  key ++ replicate (hash_block - length key) (byte_of 0).

Definition xor_pad (pad : Z) (k : bytes) : bytes :=
  (fun c => byte_of (Z.lxor (byte_val c) pad)) <$> k.

Definition hmac (key msg : bytes) : bytes :=
  let k := hmac_key key in
  hash_sum (xor_pad 92 k ++ hash_sum (xor_pad 54 k ++ msg)).

Lemma length_hmac key msg : length (hmac key msg) = hash_size.
Proof. apply length_hash_sum. Qed.
End hmac.

(** ** SHA-256 *)

Module Sha256.
Definition add32 (a b : Z) : Z := (a + b) mod 2 ^ 32.
Definition rotr (n x : Z) : Z :=
  Z.lor (Z.shiftr x n) (Z.land (Z.shiftl x (32 - n)) (Z.ones 32)).

Definition bsig0 x := Z.lxor (Z.lxor (rotr 2 x) (rotr 13 x)) (rotr 22 x).
Definition bsig1 x := Z.lxor (Z.lxor (rotr 6 x) (rotr 11 x)) (rotr 25 x).
Definition ssig0 x := Z.lxor (Z.lxor (rotr 7 x) (rotr 18 x)) (Z.shiftr x 3).
Definition ssig1 x := Z.lxor (Z.lxor (rotr 17 x) (rotr 19 x)) (Z.shiftr x 10).
Definition ch x y z := Z.lxor (Z.land x y) (Z.land (Z.lxor x (Z.ones 32)) z).
Definition maj x y z := Z.lxor (Z.lxor (Z.land x y) (Z.land x z)) (Z.land y z).

(** The constants: the first 32 bits of the fractional parts of the cube roots
    (round constants) and square roots (initial state) of the first primes,
    computed from that definition. *)
Definition primes : list Z :=
  filter (fun p => forallb (fun d => negb (p mod d =? 0)) (filter (fun d => d < p) (seqZ 2 16)))
         (seqZ 2 310).

(** The integer cube root, by bits from the top. *)
Fixpoint cbrt_bits (n : nat) (acc x : Z) : Z :=
  match n with
  | O => acc
  | S n' =>
      let c := acc + 2 ^ Z.of_nat n' in
      cbrt_bits n' (if c * c * c <=? x then c else acc) x
  end.

Definition K : list Z :=
  Eval vm_compute in (fun p => cbrt_bits 36 0 (Z.shiftl p 96) mod 2 ^ 32) <$> primes.

(** The eight working variables. *)
Record state := St { sa : Z; sb : Z; sc : Z; sd : Z; se : Z; sf : Z; sg : Z; sh : Z }.

Definition init : state :=
  Eval vm_compute in
  match (fun p => Z.sqrt (Z.shiftl p 64) mod 2 ^ 32) <$> primes with
  | a :: b :: c :: d :: e :: f :: g :: h :: _ => St a b c d e f g h
  | _ => St 0 0 0 0 0 0 0 0
  end.

Definition round (s : state) (kw : Z * Z) : state :=
  let t1 := add32 (add32 (add32 (add32 (sh s) (bsig1 (se s))) (ch (se s) (sf s) (sg s)))
                         (fst kw)) (snd kw) in
  let t2 := add32 (bsig0 (sa s)) (maj (sa s) (sb s) (sc s)) in
  St (add32 t1 t2) (sa s) (sb s) (sc s) (add32 (sd s) t1) (se s) (sf s) (sg s).

(** The message schedule, newest word first. *)
Fixpoint expand (n : nat) (w : list Z) : list Z :=
  match n with
  | O => w
  | S n' =>
      let at_ i := nth i w 0 in
      expand n' (add32 (add32 (ssig1 (at_ 1%nat)) (at_ 6%nat))
                       (add32 (ssig0 (at_ 14%nat)) (at_ 15%nat)) :: w)
  end.

(** Cut a byte string into pieces of [n] bytes. *)
Fixpoint chunks (fuel n : nat) (l : bytes) : list bytes :=
  match fuel with
  | O => []
  | S f => match l with [] => [] | _ => take n l :: chunks f n (drop n l) end
  end.

Definition add_state (s t : state) : state :=
  St (add32 (sa s) (sa t)) (add32 (sb s) (sb t)) (add32 (sc s) (sc t)) (add32 (sd s) (sd t))
     (add32 (se s) (se t)) (add32 (sf s) (sf t)) (add32 (sg s) (sg t)) (add32 (sh s) (sh t)).

Definition compress (s : state) (block : bytes) : state :=
  let w := reverse (expand 48 (reverse (be_val <$> chunks 16 4 block))) in
  add_state s (foldl round s (combine K w)).

Definition pad (m : bytes) : bytes :=
  let z := Z.to_nat ((55 - Z.of_nat (length m)) mod 64) in
  m ++ byte_of 128 :: replicate z (byte_of 0) ++ be_bytes 8 (8 * Z.of_nat (length m)).

Definition digest (s : state) : bytes :=
  be_bytes 4 (sa s) ++ be_bytes 4 (sb s) ++ be_bytes 4 (sc s) ++ be_bytes 4 (sd s)
  ++ be_bytes 4 (se s) ++ be_bytes 4 (sf s) ++ be_bytes 4 (sg s) ++ be_bytes 4 (sh s).

Definition sum (m : bytes) : bytes :=
  let p := pad m in digest (foldl compress init (chunks (length p) 64 p)).

Lemma length_sum m : length (sum m) = 32%nat.
Proof. unfold sum, digest. by rewrite !length_app, !length_be_bytes. Qed.
End Sha256.

Definition sha256 : Hash :=
  {| hash_sum := Sha256.sum; hash_size := 32; hash_block := 64;
     length_hash_sum := Sha256.length_sum |}.

Example sha256_abc :
  be_val (Sha256.sum (chars "abc"))
  = 0xba7816bf8f01cfea414140de5dae2223b00361a396177a9cb410ff61f20015ad.
Proof. vm_compute. reflexivity. Qed.

(** RFC 4231, test case 2. *)
Example hmac_sha256_rfc4231 :
  be_val (hmac sha256 (chars "Jefe") (chars "what do ya want for nothing?"))
  = 0x5bdcc146bf60754e6a042426089575c75a003f089d2739839dec58b964ec3843.
Proof. vm_compute. reflexivity. Qed.
