(* ===== verification/Packet.v ===== *)
(** * The heartbeat packet

    Models src/core/internal/heartbeat/packet.go: the fixed-size layout, its
    HMAC-SHA256 signature, [encode] and [decode]. The buffer is built by the
    same sequence of writes as in the code; [encode_layout] then gives it in
    closed form. *)

From S2P Require Export Crypto.

(** ** Buffers: Go's [copy(b[off:], src)] and [b[off:off+n]] *)

Definition copy_at (off : nat) (src b : bytes) : bytes :=
  take off b ++ take (length b - off) src ++ drop (off + length src) b.

Definition slice (off n : nat) (b : bytes) : bytes := take n (drop off b).

Definition NUL : ascii := byte_of 0.

Lemma copy_at_app a m c src :
  length m = length src -> copy_at (length a) src (a ++ m ++ c) = a ++ src ++ c.
Proof.
  intros Hm. unfold copy_at. rewrite take_app_length.
  rewrite !length_app, take_ge by lia.
  rewrite drop_app, drop_ge by lia.
  replace (length a + length src - length a)%nat with (length m) by lia.
  by rewrite drop_app_length.
Qed.

Lemma slice_app a m c off n :
  length a = off -> length m = n -> slice off n (a ++ m ++ c) = m.
Proof. intros <- <-. unfold slice. by rewrite drop_app_length, take_app_length. Qed.

Lemma insert_app_mid (a : bytes) x y c off :
  length a = off -> <[off := x]> (a ++ y :: c) = a ++ x :: c.
Proof. intros <-. induction a as [| z a IH]; [done |]. cbn. by f_equal. Qed.

Lemma length_slice off n b : (off + n <= length b)%nat -> length (slice off n b) = n.
Proof. intros H. unfold slice. rewrite length_take, length_drop. lia. Qed.

Lemma slice_one off b :
  (off < length b)%nat -> slice off 1 b = [b !!! off].
Proof.
  intros H. unfold slice. destruct (lookup_lt_is_Some_2 b off H) as [x Hx].
  rewrite (drop_S b x off) by done. simpl. by rewrite (list_lookup_total_correct _ _ _ Hx).
Qed.

Lemma slice_cat off n m b : slice off n b ++ slice (off + n) m b = slice off (n + m) b.
Proof. unfold slice. by rewrite <-drop_drop, take_take_drop. Qed.

(** ** Constants *)

Definition magic : string := "TKHB".
Definition version : Z := 1.
Definition typeReq : Z := 1.
Definition typeRep : Z := 2.
Definition nameLen : nat := 32.
Definition macLen : nat := 16.
Definition headLen : nat := 4 + 1 + 1 + 4 + 8 + nameLen.
Definition PacketSz : nat := headLen + macLen.

(** The decoded heartbeat: [TS] is the sender's unix nanoseconds. *)
Record packet := Packet { Reply : bool; Seq : Z; TS : Z; Name : string }.

#[export] Instance packet_eq_dec : EqDecision packet.
Proof. solve_decision. Defined.

(** The Go types of the fields. *)
Definition packet_wt (p : packet) : Prop := is_u32 (Seq p) /\ is_i64 (TS p).

(** ** Operations *)

Definition sign (key head : bytes) : bytes := take macLen (hmac sha256 key head).

Definition name_rune (r : Z) : bool :=
  (97 <=? r) && (r <=? 122) || (65 <=? r) && (r <=? 90) || (48 <=? r) && (r <=? 57)
  || bool_decide (r ∈ byte_val <$> chars "-_.@").

Definition validName (n : string) : bool :=
  negb (bool_decide (n = "") || bool_decide (nameLen < length (chars n))%nat)
  && forallb (name_rune ∘ fst) (runes n).

Local Open Scope go_scope.

Definition encode (key : bytes) (p : packet) : result bytes :=
  guard* validName (Name p) else "heartbeat: invalid client name" in
  let b := replicate PacketSz NUL in
  let b := copy_at 0 (chars magic) b in
  let b := <[4%nat := byte_of version]> b in
  let b := <[5%nat := byte_of typeReq]> b in
  let b := if Reply p then <[5%nat := byte_of typeRep]> b else b in
  let b := copy_at 6 (be_bytes 4 (Seq p)) b in
  let b := copy_at 10 (be_bytes 8 (u64 (TS p))) b in
  let b := copy_at 18 (take nameLen (chars (Name p))) b in
  let b := copy_at headLen (sign key (take headLen b)) b in
  Ok b.

Definition decode (key b : bytes) : result packet :=
  guard* bool_decide (length b = PacketSz) && bool_decide (slice 0 4 b = chars magic)
         && (byte_val (b !!! 4%nat) =? version)
  else "heartbeat: not a heartbeat packet" in
  guard* bool_decide (drop headLen b = sign key (take headLen b))
  else "heartbeat: bad signature" in
  let name := trim_right NUL (of_chars (slice 18 nameLen b)) in
  let ty := byte_val (b !!! 5%nat) in
  guard* validName name && ((ty =? typeReq) || (ty =? typeRep))
  else "heartbeat: malformed packet" in
  Ok {| Reply := ty =? typeRep;
        Seq := be_val (slice 6 4 b);
        TS := i64 (be_val (slice 10 8 b));
        Name := name |}.

(** ** Names *)

Lemma cont_true b lo hi : cont b lo hi = true -> lo <= b <= hi.
Proof. unfold cont. intros H. breflect. lia. Qed.

Lemma runes_head_big c s p l :
  128 <= byte_val c -> runes (String c s) = p :: l -> 128 <= fst p.
Proof.
  intros Hc. cbn. rewrite (proj2 (Z.ltb_ge _ _)) by done.
  destruct (cont (byte_val c) 194 244) eqn:E0; cbn [negb]; [| by intros [= <- _]].
  apply cont_true in E0.
  destruct s as [| c1 s]; [by intros [= <- _] |].
  destruct (cont (byte_val c1) _ _) eqn:E1; cbn [negb]; [| by intros [= <- _]].
  apply cont_true in E1. revert E1. unfold second_lo.
  destruct (byte_val c <? 224) eqn:E2; breflect.
  { intros E1 [= <- _]. cbn. repeat case_match; breflect; lia. }
  destruct s as [| c2 s]; [by intros _ [= <- _] |].
  destruct (cont (byte_val c2) _ _) eqn:E3; cbn [negb]; [| by intros _ [= <- _]].
  apply cont_true in E3.
  destruct (byte_val c <? 240) eqn:E4; breflect.
  { intros E1 [= <- _]. cbn. revert E1. repeat case_match; breflect; lia. }
  destruct s as [| c3 s]; [by intros _ [= <- _] |].
  destruct (cont (byte_val c3) _ _) eqn:E5; cbn [negb]; [| by intros _ [= <- _]].
  apply cont_true in E5.
  intros E1 [= <- _]. cbn. revert E1. repeat case_match; breflect; lia.
Qed.

Lemma runes_cons_nonempty c s : exists p l, runes (String c s) = p :: l.
Proof. cbn. repeat case_match; eauto. Qed.

Lemma runes_small s :
  Forall (fun p => fst p < 128) (runes s) -> Forall (fun c => byte_val c < 128) (chars s).
Proof.
  induction s as [| c s IH]; [constructor |]. intros H.
  destruct (Z.lt_ge_cases (byte_val c) 128) as [Hc | Hc].
  - cbn in H. rewrite (proj2 (Z.ltb_lt _ _)) in H by done.
    apply Forall_cons in H as [_ H]. constructor; [done | by apply IH].
  - destruct (runes_cons_nonempty c s) as (p & l & E).
    pose proof (runes_head_big c s p l Hc E). rewrite E in H.
    apply Forall_cons in H as [? _]. lia.
Qed.

(** A valid name is at most 32 ASCII bytes, none of them NUL. *)
Lemma validName_spec n :
  validName n = true ->
  n <> "" /\ (length (chars n) <= nameLen)%nat
  /\ Forall (fun c => bool_decide (c = NUL) = false) (chars n).
Proof.
  unfold validName. intros H. breflect.
  repeat match goal with H : _ |- _ => progress breflect end.
  assert (Forall (fun p => fst p < 128 /\ fst p <> 0) (runes n)) as Hr.
  { apply Forall_forall. intros p Hp.
    match goal with H : forallb _ _ = true |- _ =>
      pose proof (proj1 (forallb_forall _ _) H p (proj1 (list_elem_of_In _ _) Hp)) as Hn end.
    unfold compose, name_rune in Hn.
    repeat (apply orb_prop in Hn as [Hn | Hn]); breflect; try lia.
    revert Hn. generalize (fst p). intros z Hz.
    cbn in Hz. repeat (apply elem_of_cons in Hz as [-> | Hz]; [vm_compute; done |]).
    by apply elem_of_nil in Hz. }
  split; [done |]. split; [lia |].
  assert (Forall (fun c => byte_val c < 128) (chars n)) as Ha.
  { apply runes_small. eapply Forall_impl; [done |]. naive_solver. }
  rewrite runes_ascii in Hr by done. apply Forall_fmap in Hr.
  eapply Forall_impl; [exact Hr |]. cbn. intros c [_ Hc].
  apply bool_decide_eq_false_2. intros ->. by apply Hc.
Qed.

(** ** Layout *)

Definition type_byte (reply : bool) : Z := if reply then typeRep else typeReq.

(** The signed part of a packet. *)
Definition head_of (p : packet) : bytes :=
  chars magic ++ [byte_of version] ++ [byte_of (type_byte (Reply p))]
  ++ be_bytes 4 (Seq p) ++ be_bytes 8 (u64 (TS p))
  ++ chars (Name p) ++ replicate (nameLen - length (chars (Name p))) NUL.

Lemma length_sign key h : length (sign key h) = macLen.
Proof. unfold sign. rewrite length_take, length_hmac. done. Qed.

Lemma length_head_of p :
  (length (chars (Name p)) <= nameLen)%nat -> length (head_of p) = headLen.
Proof.
  intros H. unfold head_of. rewrite !length_app, !length_be_bytes, length_replicate.
  change (length (chars magic)) with 4%nat. unfold headLen. cbn [length]. lia.
Qed.

Lemma encode_layout key p :
  validName (Name p) = true -> encode key p = Ok (head_of p ++ sign key (head_of p)).
Proof.
  intros Hv. unfold encode. rewrite Hv. destruct (validName_spec _ Hv) as (_ & Hlen & _).
  f_equal. cbv zeta.
  set (b0 := (if Reply p then _ else _)).
  assert (b0 = (chars magic ++ [byte_of version] ++ [byte_of (type_byte (Reply p))])
               ++ replicate 4 NUL ++ (replicate 8 NUL ++ replicate nameLen NUL ++ replicate macLen NUL))
    as -> by (unfold b0; destruct (Reply p); vm_compute; reflexivity).
  rewrite (copy_at_app (chars magic ++ [_] ++ [_])) by by rewrite length_be_bytes.
  set (h1 := chars magic ++ [_] ++ [_]).
  rewrite (app_assoc h1), (copy_at_app (h1 ++ be_bytes 4 (Seq p))) by by rewrite length_be_bytes.
  rewrite (app_assoc (h1 ++ _)), (take_ge (chars (Name p))) by done.
  set (n := length (chars (Name p))) in *.
  replace (replicate nameLen NUL) with (replicate n NUL ++ replicate (nameLen - n) NUL)
    by (rewrite <-replicate_add; f_equal; lia).
  rewrite <-(app_assoc (replicate n NUL)).
  rewrite (copy_at_app ((h1 ++ be_bytes 4 _) ++ be_bytes 8 _)) by by rewrite length_replicate.
  assert (forall tl, ((h1 ++ be_bytes 4 (Seq p)) ++ be_bytes 8 (u64 (TS p))) ++ chars (Name p)
                     ++ replicate (nameLen - n) NUL ++ tl = head_of p ++ tl) as E.
  { intros tl. unfold head_of, h1. by rewrite <-!app_assoc. }
  rewrite E, <-(length_head_of p), take_app_length by done.
  rewrite <-(app_nil_r (replicate macLen NUL)).
  rewrite copy_at_app by by rewrite length_sign. by rewrite app_nil_r.
Qed.

Lemma encode_ok key p b :
  encode key p = Ok b -> validName (Name p) = true /\ b = head_of p ++ sign key (head_of p).
Proof.
  intros H. destruct (validName (Name p)) eqn:Hv.
  - rewrite encode_layout in H by done. by simplify_eq.
  - unfold encode in H. by rewrite Hv in H.
Qed.

Lemma length_encode key p b : encode key p = Ok b -> length b = PacketSz.
Proof.
  intros [Hv ->]%encode_ok. apply validName_spec in Hv as (_ & ? & _).
  by rewrite length_app, length_sign, length_head_of.
Qed.

(** Reading the fields back. *)
Lemma head_slices p tl :
  (length (chars (Name p)) <= nameLen)%nat ->
  let b := head_of p ++ tl in
  take headLen b = head_of p /\ drop headLen b = tl
  /\ slice 0 4 b = chars magic /\ b !!! 4%nat = byte_of version
  /\ b !!! 5%nat = byte_of (type_byte (Reply p))
  /\ slice 6 4 b = be_bytes 4 (Seq p) /\ slice 10 8 b = be_bytes 8 (u64 (TS p))
  /\ slice 18 nameLen b = chars (Name p) ++ replicate (nameLen - length (chars (Name p))) NUL.
Proof.
  intros Hlen b. pose proof (length_head_of p Hlen) as Hh.
  assert (take headLen b = head_of p) as Ht by (unfold b; by rewrite <-Hh, take_app_length).
  assert (drop headLen b = tl) as Hd by (unfold b; by rewrite <-Hh, drop_app_length).
  split; [done |]. split; [done |]. clear Ht Hd. unfold b, head_of.
  split; [done |]. split; [done |]. split; [done |].
  assert (forall l k m o : bytes, l ++ k ++ m ++ o = (l ++ k ++ m) ++ o) as A by (intros; by rewrite <-!app_assoc).
  split; [| split].
  - rewrite <-!app_assoc, A. by apply slice_app; [| rewrite length_be_bytes].
  - rewrite <-!app_assoc, A, (app_assoc _ (be_bytes 4 _)).
    by apply slice_app; rewrite ?length_app, !length_be_bytes.
  - rewrite <-!app_assoc, A, (app_assoc _ (be_bytes 4 _)), (app_assoc _ (be_bytes 8 _)).
    rewrite (app_assoc (chars (Name p))).
    apply slice_app; rewrite ?length_app, ?length_be_bytes, ?length_replicate; [done | lia].
Qed.

Lemma decode_head key p :
  packet_wt p -> validName (Name p) = true ->
  decode key (head_of p ++ sign key (head_of p)) = Ok p.
Proof.
  intros [Hseq Hts] Hv. destruct (validName_spec _ Hv) as (_ & Hlen & Hnul).
  destruct (head_slices p (sign key (head_of p)) Hlen) as (Ht & Hd & Hm & H4 & H5 & Hs & Htime & Hn).
  unfold decode. rewrite Ht, Hd, Hm, H4, H5, Hs, Htime, Hn.
  rewrite length_app, length_head_of, length_sign by done.
  rewrite !bool_decide_eq_true_2 by done. cbn [andb].
  assert (trim_right NUL (of_chars (chars (Name p) ++ replicate (nameLen - length (chars (Name p))) NUL))
          = Name p) as ->.
  { unfold trim_right. rewrite chars_of_chars, drop_while_end_app; [apply of_chars_chars | | done].
    apply Forall_replicate. by apply bool_decide_eq_true_2. }
  assert (byte_val (byte_of (type_byte (Reply p))) = type_byte (Reply p)) as ->
    by (rewrite byte_val_of; by destruct (Reply p)).
  assert ((type_byte (Reply p) =? typeReq) || (type_byte (Reply p) =? typeRep) = true) as ->
    by by destruct (Reply p).
  assert ((type_byte (Reply p) =? typeRep) = Reply p) as -> by by destruct (Reply p).
  rewrite Hv, !be_val_bytes, (Z.mod_small (Seq p)) by done.
  rewrite Z.mod_small, i64_u64 by (done || apply (u64_range (TS p))).
  change (byte_val (byte_of version) =? version) with true. cbn [andb].
  f_equal. by destruct p.
Qed.

Lemma take_slices b :
  length b = PacketSz ->
  take headLen b = slice 0 4 b ++ [b !!! 4%nat] ++ [b !!! 5%nat] ++ slice 6 4 b
                   ++ slice 10 8 b ++ slice 18 nameLen b.
Proof.
  intros Hb. rewrite <-!slice_one by by rewrite Hb; vm_compute; lia.
  rewrite (slice_cat 10 8), (slice_cat 6 4), (slice_cat 5 1), (slice_cat 4 1), (slice_cat 0 4).
  done.
Qed.

Lemma be_bytes_slice off n b :
  (off + n <= length b)%nat -> be_bytes n (be_val (slice off n b)) = slice off n b.
Proof. intros H. rewrite <-(length_slice off n b H) at 1. apply be_bytes_val. Qed.

Lemma decode_inv key b p :
  decode key b = Ok p ->
  packet_wt p /\ validName (Name p) = true /\ b = head_of p ++ sign key (head_of p).
Proof.
  unfold decode. intros H. repeat (case_match; [| done]). simplify_eq. breflect.
  set (name := trim_right NUL _) in *. cbn [Name Reply Seq TS].
  match goal with H : length b = PacketSz |- _ => rename H into Hlen end.
  assert (forall off n, (off + n <= 66)%nat -> be_bytes n (be_val (slice off n b)) = slice off n b)
    as Hbe by (intros; apply be_bytes_slice; by rewrite Hlen).
  assert (is_u64 (be_val (slice 10 8 b))) as Hts.
  { pose proof (be_val_range (slice 10 8 b)) as Hr. rewrite length_slice in Hr; [done |].
    rewrite Hlen. vm_compute; lia. }
  split; [| split; [done |]].
  { split; cbn; [| apply i64_range].
    pose proof (be_val_range (slice 6 4 b)) as Hr. rewrite length_slice in Hr; [done |].
    rewrite Hlen. vm_compute; lia. }
  match goal with H : drop headLen b = _ |- _ => rename H into Hmac end.
  enough (take headLen b = head_of
    {| Reply := byte_val (b !!! 5%nat) =? typeRep; Seq := be_val (slice 6 4 b);
       TS := i64 (be_val (slice 10 8 b)); Name := name |}) as E.
  { rewrite <-E, <-Hmac. by rewrite take_drop. }
  rewrite take_slices by done. unfold head_of. cbn [Name Reply Seq TS].
  rewrite u64_i64, !Hbe by (done || lia).
  match goal with H : slice 0 4 b = _ |- _ => rewrite H end.
  assert (b !!! 4%nat = byte_of version) as ->.
  { match goal with H : byte_val (b !!! 4%nat) = _ |- _ => rewrite <-H end. by rewrite byte_of_val. }
  assert (b !!! 5%nat = byte_of (type_byte (byte_val (b !!! 5%nat) =? typeRep))) as <-.
  { rewrite <-(byte_of_val (b !!! 5%nat)) at 1. f_equal.
    match goal with H : (_ || _)%bool = true |- _ => apply orb_prop in H as [H | H] end;
      breflect; match goal with H : byte_val (b !!! 5%nat) = _ |- _ => rewrite H end; done. }
  do 5 f_equal.
  destruct (drop_while_end_split (fun d => bool_decide (d = NUL)) (slice 18 nameLen b)) as (k & Hk & Hnul).
  unfold name, trim_right. rewrite !chars_of_chars.
  set (m := drop_while_end _ _) in *. rewrite Hk at 1. f_equal.
  assert (length m + length k = nameLen)%nat as Hl.
  { rewrite <-length_app, <-Hk. apply length_slice. rewrite Hlen. vm_compute; lia. }
  replace (nameLen - length m)%nat with (length k) by lia.
  symmetry. apply replicate_as_elem_of. split; [done |]. intros c Hc.
  rewrite Forall_forall in Hnul. by apply Hnul, bool_decide_eq_true in Hc.
Qed.

(** ** Properties *)

(** C7: round trip. Every packet whose name is valid and whose fields fit their
    Go types is encoded into exactly [PacketSz] bytes, and decoding those bytes
    under the same key gives the packet back, field for field. *)
Theorem packet_roundtrip (key : bytes) (p : packet) :
  packet_wt p -> validName (Name p) = true ->
  exists b, encode key p = Ok b /\ length b = PacketSz /\ decode key b = Ok p.
Proof.
  intros Hp Hv. pose proof (encode_layout key p Hv) as E.
  exists (head_of p ++ sign key (head_of p)).
  split; [done |]. split; [by eapply length_encode | by apply decode_head].
Qed.

(** C3: the encoding is canonical. Whatever datagram [decode] accepts under a
    key is byte for byte the encoding, under that key, of the packet it returns;
    its fields are in the range of their Go types and its name is valid. So no
    two datagrams decode to the same packet, and no accepted byte is free. *)
Theorem decode_canonical (key b : bytes) (p : packet) :
  decode key b = Ok p ->
  encode key p = Ok b /\ packet_wt p /\ validName (Name p) = true /\ length b = PacketSz.
Proof.
  intros (Hp & Hv & Hb)%decode_inv.
  assert (encode key p = Ok b) as E by (rewrite encode_layout by done; by rewrite <-Hb).
  eauto using length_encode.
Qed.

(** Rejection. [decode] returns an error for every datagram whose length,
    magic or version is wrong, and for every datagram whose last sixteen bytes
    are not the truncated HMAC-SHA256 of the rest under the server's key,
    whatever the other fields hold; the two are told apart by the error. *)
Theorem decode_rejects (key b : bytes) :
  (length b <> PacketSz \/ slice 0 4 b <> chars magic \/ byte_val (b !!! 4%nat) <> version ->
   decode key b = Err "heartbeat: not a heartbeat packet")
  /\ (length b = PacketSz -> slice 0 4 b = chars magic -> byte_val (b !!! 4%nat) = version ->
      drop headLen b <> sign key (take headLen b) ->
      decode key b = Err "heartbeat: bad signature").
Proof.
  unfold decode. split.
  - intros H. destruct (bool_decide _ && _ && _) eqn:E; [| done].
    breflect. naive_solver.
  - intros Hl Hm Hv Hs. rewrite (bool_decide_eq_true_2 _ Hl), (bool_decide_eq_true_2 _ Hm).
    rewrite (proj2 (Z.eqb_eq _ _) Hv), (bool_decide_eq_false_2 _ Hs). done.
Qed.

(** ** Witnesses *)

Definition sample : packet := Packet false 7 123 "tk-site-web".

Definition sample_bytes : bytes := head_of sample ++ sign (chars "k") (head_of sample).

Lemma sample_wt : packet_wt sample.
Proof. vm_compute. repeat split; congruence. Qed.

Lemma sample_decodes : decode (chars "k") sample_bytes = Ok sample.
Proof. apply decode_head; [exact sample_wt | reflexivity]. Qed.

(** The test of heartbeat_test.go, on the bytes themselves. *)
Example sample_tampered :
  decode (chars "k") (<[20%nat := byte_of 0]> sample_bytes) = Err "heartbeat: bad signature"
  /\ encode [] (Packet false 0 0 "bad name!") = Err "heartbeat: invalid client name".
Proof. vm_compute. done. Qed.

Lemma packet_roundtrip_witness :
  validName (Name sample) = true
  /\ exists b, encode (chars "k") sample = Ok b /\ length b = PacketSz
     /\ decode (chars "k") b = Ok sample.
Proof.
  split; [reflexivity |].
  apply (packet_roundtrip (chars "k") sample); [exact sample_wt | reflexivity].
Defined.

Lemma decode_canonical_witness :
  decode (chars "k") sample_bytes = Ok sample
  /\ encode (chars "k") sample = Ok sample_bytes /\ packet_wt sample
  /\ validName (Name sample) = true /\ length sample_bytes = PacketSz.
Proof.
  split; [exact sample_decodes |].
  exact (decode_canonical (chars "k") sample_bytes sample sample_decodes).
Defined.

(** A well-formed head followed by sixteen zero bytes. *)
Definition forged : bytes := head_of sample ++ replicate macLen NUL.

Lemma decode_rejects_witness :
  decode (chars "k") [] = Err "heartbeat: not a heartbeat packet"
  /\ decode (chars "k") forged = Err "heartbeat: bad signature".
Proof.
  split.
  - apply (proj1 (decode_rejects (chars "k") [])). left. discriminate.
  - apply (proj2 (decode_rejects (chars "k") forged)); [reflexivity.. |].
    vm_compute. discriminate.
Defined.
