(* ===== verification/HbServer.v ===== *)
(** * The heartbeat server

    Models src/core/internal/heartbeat/server.go: the table of last heartbeats,
    the receive loop's handling of one datagram, the periodic check, and the
    interleavings of the two goroutines at the granularity of the mutex. *)

From S2P Require Export GoTime Packet.

Definition LostAfter : duration := 35 * second.

Record seen := Seen { at_ : time; ip : string; alive : bool }.

(** The callbacks [OnLost] and [OnResume] are fields the owner may leave nil;
    what they are called with is an event. *)
Record Server := MkServer {
  key : bytes;
  OnLost : bool;
  OnResume : bool;
  m : gmap string seen;
}.

Inductive event :=
| EvLost (name ip : string) (ago : duration)
| EvResume (name ip : string) (gap : duration).

#[export] Instance seen_eq_dec : EqDecision seen.
Proof. solve_decision. Defined.
#[export] Instance event_eq_dec : EqDecision event.
Proof. solve_decision. Defined.

Definition set_m (s : Server) (m' : gmap string seen) : Server :=
  MkServer (key s) (OnLost s) (OnResume s) m'.

(** [NewServer], before the owner sets the callbacks. *)
Definition NewServer (k : string) : Server := MkServer (chars k) false false ∅.

Definition Last (s : Server) (name : string) : option (time * string) :=
  v ← m s !! name; Some (at_ v, ip v).

(** [hostOf] of the address as [Addr.String] prints it. *)
Definition hostOf (a : string) : string :=
  match split_host_port a with Some (h, _) => h | None => a end.

(** ** note

    A first heartbeat releases the mutex between inserting the entry and filling
    it: two critical sections. For a known name there is only the second. *)

Definition note_insert (s : Server) (name : string) : Server :=
  match m s !! name with
  | Some _ => s
  | None => set_m s (<[name := Seen zero_time "" true]> (m s))
  end.

Definition note_fill (now : time) (s : Server) (name ip' : string) : Server * list event :=
  match m s !! name with
  | None => (s, [])
  | Some v =>
      let resumed := negb (alive v) in
      let gap := sub now (at_ v) in
      (set_m s (<[name := Seen now ip' true]> (m s)),
       if resumed && OnResume s then [EvResume name ip' gap] else [])
  end.

Definition note (now : time) (s : Server) (name from : string) : Server * list event :=
  note_fill now (note_insert s name) name (hostOf from).

(** ** check: one tick, visiting the table in the order [order] *)

Definition check_entry (now : time) (n : string) (v : seen) : seen * list event :=
  if alive v && (LostAfter <=? sub now (at_ v))
  then (Seen (at_ v) (ip v) false, [EvLost n (ip v) (sub now (at_ v))])
  else (v, []).

Fixpoint check_go (now : time) (order : list string) (t : gmap string seen)
    : gmap string seen * list event :=
  match order with
  | [] => (t, [])
  | n :: order' =>
      match t !! n with
      | None => check_go now order' t
      | Some v =>
          let '(v', e) := check_entry now n v in
          let '(t', es) := check_go now order' (<[n := v']> t) in
          (t', e ++ es)
      end
  end.

Definition check (now : time) (order : list string) (s : Server) : Server * list event :=
  let '(t, lost) := check_go now order (m s) in
  (set_m s t, if OnLost s then lost else []).

(** An order in which [range] may visit the table. *)
Definition range_order (t : gmap string seen) (order : list string) : Prop :=
  NoDup order /\ forall n, n ∈ order <-> is_Some (t !! n).

(** ** Serve: one datagram of the receive loop *)

Definition accept (k : bytes) (buf : bytes) : option packet :=
  match decode k (take 2048 buf) with
  | Ok p => if Reply p then None else Some p
  | Err _ => None
  end.

Definition reply_to (k : bytes) (p : packet) : option bytes :=
  match encode k (Packet true (Seq p) (TS p) (Name p)) with
  | Ok rep => Some rep
  | Err _ => None
  end.

Definition receive (now : time) (s : Server) (from : string) (buf : bytes)
    : Server * list event * option (string * bytes) :=
  match accept (key s) buf with
  | None => (s, [], None)
  | Some p =>
      let '(s', es) := note now s (Name p) from in
      (s', es, (fun rep => (from, rep)) <$> reply_to (key s') p)
  end.

(** ** Interleavings: the receive loop and the checker share the table *)

Record config := Config { srv : Server; pending : option (time * string * string) }.

Inductive step : config -> list event -> config -> Prop :=
| step_first now s name ip' :
    m s !! name = None ->
    step (Config s None) [] (Config (note_insert s name) (Some (now, name, ip')))
| step_known now s name ip' s' es :
    is_Some (m s !! name) -> note_fill now s name ip' = (s', es) ->
    step (Config s None) es (Config s' None)
| step_fill now s name ip' s' es :
    note_fill now s name ip' = (s', es) ->
    step (Config s (Some (now, name, ip'))) es (Config s' None)
| step_check now order s p s' es :
    range_order (m s) order -> check now order s = (s', es) ->
    step (Config s p) es (Config s' p).

Inductive steps : config -> list event -> config -> Prop :=
| steps_nil c : steps c [] c
| steps_cons c es c' es' c'' : step c es c' -> steps c' es' c'' -> steps c (es ++ es') c''.

(** ** Lemmas *)

Lemma accept_inv k buf p :
  accept k buf = Some p ->
  Reply p = false /\ packet_wt p /\ validName (Name p) = true /\ length buf = PacketSz
  /\ decode k buf = Ok p.
Proof.
  unfold accept. intros H. destruct (decode k (take 2048 buf)) as [q |] eqn:E; [| done].
  destruct (Reply q) eqn:Hr; [done |]. simplify_eq.
  pose proof (decode_inv _ _ _ E) as (Hwt & Hv & Hb).
  assert (length (take 2048 buf) = PacketSz) as Hl.
  { rewrite Hb, length_app, length_sign, length_head_of; [done |]. by apply validName_spec in Hv as (_ & ? & _). }
  rewrite length_take in Hl. assert (length buf = PacketSz) as Hlen by (unfold PacketSz, headLen, nameLen, macLen in *; lia).
  rewrite take_ge in E by (rewrite Hlen; vm_compute; lia). done.
Qed.

Lemma accept_spec k buf :
  accept k buf = match decode k buf with Ok p => if Reply p then None else Some p | Err _ => None end.
Proof.
  destruct (accept k buf) as [p |] eqn:E.
  - apply accept_inv in E as (Hr & _ & _ & _ & ->). by rewrite Hr.
  - destruct (decode k buf) as [p |] eqn:D; [| done].
    unfold accept in E. pose proof (decode_inv _ _ _ D) as (_ & Hv & Hb).
    apply validName_spec in Hv as (_ & Hn & _).
    assert (length buf = PacketSz) as Hl by by rewrite Hb, length_app, length_sign, length_head_of.
    rewrite take_ge, D in E by (rewrite Hl; vm_compute; lia). by destruct (Reply p).
Qed.

Lemma reply_to_ok k p :
  packet_wt p -> validName (Name p) = true ->
  exists rep, reply_to k p = Some rep /\ length rep = PacketSz
    /\ decode k rep = Ok (Packet true (Seq p) (TS p) (Name p)).
Proof.
  intros Hwt Hv. unfold reply_to.
  pose proof (encode_layout k (Packet true (Seq p) (TS p) (Name p)) Hv) as E.
  rewrite E. eexists. split; [done |]. split; [by eapply length_encode |].
  by apply decode_head.
Qed.

Lemma note_key now s name from s' es : note now s name from = (s', es) -> key s' = key s.
Proof.
  unfold note, note_fill, note_insert. intros H.
  destruct (m s !! name) as [v |] eqn:E; cbn in H; rewrite ?E, ?lookup_insert_eq in H; by simplify_eq.
Qed.

(** What [note] does, whether or not the name was known. *)
Lemma note_spec now s name from :
  note now s name from =
  (set_m s (<[name := Seen now (hostOf from) true]> (m s)),
   match m s !! name with
   | Some v => if negb (alive v) && OnResume s then [EvResume name (hostOf from) (sub now (at_ v))] else []
   | None => []
   end).
Proof.
  unfold note, note_fill, note_insert.
  destruct (m s !! name) as [v |] eqn:E; cbn; rewrite ?E, ?lookup_insert_eq; [done |].
  cbn. by rewrite insert_insert_eq.
Qed.

(** The state of an entry after a tick. *)
Definition checked (now : time) (v : seen) : seen :=
  Seen (at_ v) (ip v) (alive v && negb (LostAfter <=? sub now (at_ v))).

Lemma check_entry_fst now n v : fst (check_entry now n v) = checked now v.
Proof.
  unfold check_entry, checked. destruct v as [a i []]; cbn; [| done].
  by destruct (LostAfter <=? sub now a).
Qed.

Lemma check_go_spec now order t :
  NoDup order ->
  (forall n, fst (check_go now order t) !! n
             = if decide (n ∈ order) then checked now <$> t !! n else t !! n)
  /\ snd (check_go now order t)
     = flat_map (fun n => match t !! n with Some v => snd (check_entry now n v) | None => [] end) order.
Proof.
  intros Hnd. revert t. induction Hnd as [| n order Hn Hnd IH]; intros t.
  { split; [| done]. intros n. case_decide; [| done]. by apply elem_of_nil in H. }
  cbn [check_go flat_map]. destruct (t !! n) as [v |] eqn:E.
  - pose proof (check_entry_fst now n v) as Hf.
    destruct (check_entry now n v) as [v' e] eqn:Ev. cbn in Hf. subst v'.
    destruct (IH (<[n := checked now v]> t)) as [IH1 IH2].
    destruct (check_go now order _) as [t' es]. cbn in *. split.
    + intros n'. rewrite IH1. destruct (decide (n' = n)) as [-> | Hne].
      * rewrite decide_False by done. rewrite decide_True by set_solver.
        by rewrite lookup_insert_eq, E.
      * rewrite lookup_insert_ne by done. repeat case_decide; set_solver.
    + f_equal. rewrite IH2. clear -Hn. induction order as [| n' order IH]; [done |].
      cbn. apply not_elem_of_cons in Hn as [Hne Hn]. rewrite lookup_insert_ne by done.
      f_equal. by apply IH.
  - destruct (IH t) as [IH1 IH2]. split; [| by rewrite IH2].
    intros n'. rewrite IH1. destruct (decide (n' = n)) as [-> | Hne].
    + rewrite E. by repeat case_decide.
    + repeat case_decide; set_solver.
Qed.

Lemma check_spec now order s :
  range_order (m s) order ->
  (forall n, m (fst (check now order s)) !! n = checked now <$> m s !! n)
  /\ snd (check now order s)
     = if OnLost s
       then flat_map (fun n => match m s !! n with Some v => snd (check_entry now n v) | None => [] end) order
       else [].
Proof.
  intros [Hnd Hor]. destruct (check_go_spec now order (m s) Hnd) as [H1 H2].
  unfold check. destruct (check_go now order (m s)) as [t lost]. cbn in *. split.
  - intros n. rewrite H1. case_decide as Hd; [done |].
    destruct (m s !! n) eqn:E; [| done]. exfalso. apply Hd, Hor. by rewrite E.
  - by rewrite H2.
Qed.

(** ** Sequential runs: whole beats and whole ticks on a clock that never goes back *)

Inductive run : time -> Server -> list event -> Server -> Prop :=
| run_nil t s : run t s [] s
| run_beat t now s name from s' es es' s'' :
    t <= now -> note now s name from = (s', es) -> run now s' es' s'' ->
    run t s (es ++ es') s''
| run_tick t now s order s' es es' s'' :
    t <= now -> range_order (m s) order -> check now order s = (s', es) ->
    run now s' es' s'' -> run t s (es ++ es') s''.

Definition ev_name (e : event) : string :=
  match e with EvLost n _ _ | EvResume n _ _ => n end.

Definition events_of (n : string) (es : list event) : list event :=
  filter (fun e => ev_name e = n) es.

(** Lost and Resume strictly alternate, from a client that is [alive]. *)
Fixpoint alternates (alive : bool) (es : list event) : bool :=
  match es with
  | [] => true
  | EvLost _ _ _ :: es' => alive && alternates false es'
  | EvResume _ _ _ :: es' => negb alive && alternates true es'
  end.

(** Both callbacks report a silence of at least [LostAfter]. *)
Definition long_silence (e : event) : Prop :=
  match e with EvLost _ _ d | EvResume _ _ d => LostAfter <= d end.

(** An unknown client counts as alive: its first event can only be Lost. *)
Definition alive_in (s : Server) (n : string) : bool :=
  match m s !! n with Some v => alive v | None => true end.

(** A client flagged lost had been silent for [LostAfter] by time [t]. *)
Definition lost_inv (t : time) (s : Server) : Prop :=
  forall n v, m s !! n = Some v -> alive v = false -> LostAfter <= sub t (at_ v).

Lemma events_of_app n es es' : events_of n (es ++ es') = events_of n es ++ events_of n es'.
Proof. apply filter_app. Qed.

Lemma events_of_one n e : events_of n [e] = if decide (ev_name e = n) then [e] else [].
Proof. unfold events_of. by rewrite filter_cons. Qed.

Lemma events_of_check now order s n :
  NoDup order ->
  events_of n (flat_map (fun k => match m s !! k with Some v => snd (check_entry now k v) | None => [] end) order)
  = if decide (n ∈ order)
    then match m s !! n with Some v => snd (check_entry now n v) | None => [] end else [].
Proof.
  assert (forall k v, k <> n -> events_of n (snd (check_entry now k v)) = []) as Hne.
  { intros k v Hk. unfold check_entry. case_match; [| done]. cbn [snd].
    by rewrite events_of_one, decide_False. }
  assert (forall v, events_of n (snd (check_entry now n v)) = snd (check_entry now n v)) as Heq.
  { intros v. unfold check_entry. case_match; [| done]. cbn [snd].
    by rewrite events_of_one, decide_True. }
  induction 1 as [| k order Hk Hnd IH]; [done |].
  cbn [flat_map]. rewrite events_of_app, IH. destruct (decide (k = n)) as [-> | Hkn].
  - rewrite (decide_False (P := n ∈ order)) by done. rewrite decide_True by set_solver.
    rewrite app_nil_r. by destruct (m s !! n).
  - assert (events_of n (match m s !! k with Some v => snd (check_entry now k v) | None => [] end) = []) as ->
      by (destruct (m s !! k); [by apply Hne | done]).
    cbn. destruct (decide (n ∈ order)); [rewrite decide_True by set_solver | rewrite decide_False by set_solver]; done.
Qed.

Lemma run_alternates t s es s' :
  run t s es s' -> OnLost s = true -> OnResume s = true -> lost_inv t s ->
  Forall long_silence es /\ forall n, alternates (alive_in s n) (events_of n es) = true.
Proof.
  induction 1 as [t s | t now s name from s' es es' s'' Ht Hn Hrun IH
                 | t now s order s' es es' s'' Ht Hor Hc Hrun IH]; intros HL HR Hinv; [done | |].
  - rewrite note_spec in Hn. simplify_eq.
    destruct IH as [IHf IHa]; [done | done | |].
    { intros n v. cbn. destruct (decide (name = n)) as [<- | Hne].
      - rewrite lookup_insert_eq. by intros [= <-].
      - rewrite lookup_insert_ne by done. intros Hv Hal. specialize (Hinv n v Hv Hal).
        pose proof (sub_le_mono t now (at_ v) Ht). lia. }
    rewrite HR, Forall_app. split.
    + split; [| done]. destruct (m s !! name) as [v |] eqn:E; [| done].
      destruct (alive v) eqn:Hal; [done |]. repeat constructor. cbn.
      specialize (Hinv _ _ E Hal). pose proof (sub_le_mono t now (at_ v) Ht). lia.
    + intros n. rewrite events_of_app. specialize (IHa n).
      unfold alive_in in *. cbn in IHa. destruct (decide (name = n)) as [<- | Hne].
      * rewrite lookup_insert_eq in IHa. cbn in IHa. rewrite ?HR.
        destruct (m s !! name) as [v |]; [| done]. destruct (alive v); [done |].
        cbn [negb andb]. by rewrite events_of_one, decide_True.
      * rewrite lookup_insert_ne in IHa by done.
        destruct (m s !! name) as [v |]; [| done]. destruct (alive v); [done |].
        rewrite ?HR. cbn [negb andb]. by rewrite events_of_one, decide_False.
  - destruct (check_spec now order s Hor) as [Hm He]. rewrite Hc, HL in *. cbn in Hm, He. subst es.
    assert (OnLost s' = true /\ OnResume s' = true) as [HL' HR'].
    { unfold check in Hc. destruct (check_go _ _ _). by simplify_eq. }
    destruct IH as [IHf IHa]; [done | done | |].
    { intros n v. rewrite Hm. destruct (m s !! n) as [w |] eqn:E; [| done].
      intros [= <-]. cbn. intros [Hal | Hal]%andb_false_iff; breflect; [| lia].
      specialize (Hinv n w E Hal). pose proof (sub_le_mono t now (at_ w) Ht). lia. }
    rewrite Forall_app. split.
    + split; [| done]. apply Forall_forall. intros e He.
      apply list_elem_of_In, in_flat_map in He as (k & _ & He).
      destruct (m s !! k) as [v |]; [| done]. unfold check_entry in He.
      case_match; [| done]. breflect. destruct He as [<- | []]. done.
    + intros n. rewrite events_of_app, events_of_check by apply Hor.
      specialize (IHa n). unfold alive_in in *. rewrite Hm in IHa.
      destruct (m s !! n) as [v |] eqn:E.
      * rewrite decide_True by (apply Hor; by rewrite E). cbn in IHa.
        unfold check_entry. destruct (alive v); cbn in *; [| done].
        by destruct (LostAfter <=? _).
      * case_decide; done.
Qed.

(** ** Properties *)

Definition with_callbacks (k : string) : Server := MkServer (chars k) true true ∅.

(** C15: one datagram. A datagram that decodes as a request is recorded as the
    last heartbeat of its name, at this instant and from the sender's host,
    without touching any other name, and is answered with exactly one reply: to
    the sender, as long as the request, and decoding under the key to the same
    sequence number, timestamp and name. Every other datagram (not a packet, bad
    signature, malformed, or itself a reply) changes nothing and gets no answer. *)
Theorem receive_spec (now : time) (s : Server) (from : string) (buf : bytes) :
  match decode (key s) buf with
  | Ok p =>
      if Reply p then receive now s from buf = (s, [], None)
      else exists s' es rep,
        receive now s from buf = (s', es, Some (from, rep))
        /\ length rep = length buf
        /\ decode (key s) rep = Ok (Packet true (Seq p) (TS p) (Name p))
        /\ Last s' (Name p) = Some (now, hostOf from)
        /\ forall n, n <> Name p -> m s' !! n = m s !! n
  | Err _ => receive now s from buf = (s, [], None)
  end.
Proof.
  unfold receive. rewrite accept_spec.
  destruct (decode (key s) buf) as [p |] eqn:E; [| done].
  destruct (Reply p) eqn:Hr; [done |]. rewrite note_spec.
  pose proof (decode_inv _ _ _ E) as (Hwt & Hv & Hb).
  destruct (reply_to_ok (key s) p Hwt Hv) as (rep & Hrep & Hl & Hd).
  cbn [key set_m]. rewrite Hrep. do 3 eexists. split; [done |].
  split. { rewrite Hl, Hb, length_app, length_sign, length_head_of; [done |].
           by apply validName_spec in Hv as (_ & ? & _). }
  split; [done |]. split.
  - unfold Last. cbn. by rewrite lookup_insert_eq.
  - intros n Hn. cbn. by rewrite lookup_insert_ne.
Qed.

(** No reflection loop. Whatever a server answers, feeding the answer back
    to a server holding the same key, from any address and at any time, changes
    nothing and is not answered: two servers, or a server and a spoofed source
    address, cannot keep a packet bouncing. *)
Theorem receive_reply_ignored (now now' : time) (s s' s2 : Server) (from from' a : string)
    (buf rep : bytes) (es : list event) :
  receive now s from buf = (s', es, Some (a, rep)) -> key s2 = key s ->
  receive now' s2 from' rep = (s2, [], None).
Proof.
  unfold receive. intros H Hk.
  destruct (accept (key s) buf) as [p |] eqn:E; [| done].
  apply accept_inv in E as (_ & Hwt & Hv & _).
  destruct (note now s (Name p) from) as [s1 es1] eqn:En. apply note_key in En.
  destruct (reply_to_ok (key s1) p Hwt Hv) as (rep' & Hrep & _ & Hd).
  rewrite Hrep in H. cbn in H. simplify_eq.
  rewrite accept_spec, Hk, <-En, Hd. done.
Qed.

(** The check. Whatever order the table is visited in, one tick marks as
    not alive exactly the entries that were alive and silent for [LostAfter],
    changes nothing else, and calls [OnLost] once for each of them, with the IP
    and the silence of that entry. *)
Theorem check_flags_silent (now : time) (order : list string) (s s' : Server) (es : list event) :
  range_order (m s) order -> OnLost s = true -> check now order s = (s', es) ->
  (forall n, m s' !! n
     = (fun v => Seen (at_ v) (ip v) (alive v && (now - at_ v <? LostAfter))) <$> m s !! n)
  /\ NoDup es
  /\ (forall e, e ∈ es <-> exists n v,
        m s !! n = Some v /\ alive v = true /\ LostAfter <= now - at_ v
        /\ e = EvLost n (ip v) (sub now (at_ v))).
Proof.
  intros Hor HL Hc. destruct (check_spec now order s Hor) as [Hm He].
  rewrite Hc, HL in *. cbn in Hm, He. subst es.
  assert (forall t u, (LostAfter <=? sub t u) = (LostAfter <=? t - u)) as Hsub
    by (intros; by apply sub_ge).
  assert (forall n, events_of n (flat_map (fun k => match m s !! k with
            | Some v => snd (check_entry now k v) | None => [] end) order)
          = if decide (n ∈ order) then match m s !! n with
            | Some v => snd (check_entry now n v) | None => [] end else []) as Hev
    by (intros n; apply events_of_check, Hor).
  split; [| split].
  - intros n. rewrite Hm. destruct (m s !! n) as [v |]; [| done]. cbn. unfold checked.
    by rewrite Hsub, Z.ltb_antisym.
  - clear Hev Hm Hc. destruct Hor as [Hnd _]. induction Hnd as [| k order Hk Hnd IH]; [constructor |].
    cbn. apply NoDup_app. split; [| split; [| done]].
    + destruct (m s !! k) as [v |]; [| constructor]. unfold check_entry.
      case_match; repeat constructor. set_solver.
    + intros e He1 (k' & Hk' & He2)%list_elem_of_In%in_flat_map. apply Hk.
      apply list_elem_of_In in Hk'. revert He1 He2. unfold check_entry.
      destruct (m s !! k), (m s !! k'); [| set_solver..]. repeat case_match; cbn; [| set_solver..].
      intros ->%list_elem_of_singleton [[= <-] | []]; done.
  - intros e. rewrite list_elem_of_In, in_flat_map. split.
    + intros (n & Hn & He). destruct (m s !! n) as [v |] eqn:E; [| done].
      unfold check_entry in He. rewrite Hsub in He. case_match; [| done]. breflect.
      destruct He as [<- | []]. eauto 6.
    + intros (n & v & Hv & Hal & Hlong & ->). exists n.
      split; [apply list_elem_of_In, Hor; by rewrite Hv |].
      rewrite Hv. unfold check_entry. rewrite Hsub, Hal, (proj2 (Z.leb_le _ _) Hlong). by left.
Qed.

(** C9: over any sequence of whole beats and ticks on a monotonic clock, from a
    new server, the callbacks for each client strictly alternate, Lost first,
    and each one reports a silence of at least [LostAfter]. *)
Theorem callbacks_alternate (k : string) (t : time) (es : list event) (s : Server) (n : string) :
  run t (with_callbacks k) es s ->
  alternates true (events_of n es) = true /\ Forall long_silence es.
Proof.
  intros H. apply run_alternates in H as [Hf Ha]; [| done..]. split; [apply (Ha n) | done].
Qed.

(** The race between [note] and [check]. Between the two critical sections
    of a client's first heartbeat its entry is alive with the zero time, so a
    tick falling there reports the client lost, with an empty IP and the largest
    duration, and the second section then reports it back after that duration,
    although its only heartbeat has just arrived. *)
Theorem first_heartbeat_race (k name from : string) (now : time) :
  0 <= now ->
  exists s, steps (Config (with_callbacks k) None)
    [EvLost name "" max_i64; EvResume name (hostOf from) max_i64] (Config s None)
    /\ Last s name = Some (now, hostOf from).
Proof.
  intros Hnow.
  assert (sub now zero_time = max_i64) as Hs
    by (unfold sub, zero_time, max_i64, min_i64, second; lia).
  set (s1 := note_insert (with_callbacks k) name).
  assert (m s1 = {[name := Seen zero_time "" true]}) as Hm1 by done.
  assert (check now [name] s1
          = (set_m s1 {[name := Seen zero_time "" false]}, [EvLost name "" max_i64])) as Hc.
  { unfold check. cbn [check_go]. rewrite Hm1, lookup_singleton_eq. unfold check_entry. cbn.
    rewrite Hs. cbn. f_equal. f_equal. by rewrite insert_singleton_eq. }
  set (s2 := set_m s1 {[name := Seen zero_time "" false]}) in *.
  set (s3 := set_m s2 (<[name := Seen now (hostOf from) true]> (m s2))).
  exists s3. split.
  - apply (steps_cons _ [] (Config s1 (Some (now, name, hostOf from)))
             [EvLost name "" max_i64; EvResume name (hostOf from) max_i64]); [by apply step_first |].
    apply (steps_cons _ [EvLost name "" max_i64] (Config s2 (Some (now, name, hostOf from)))
             [EvResume name (hostOf from) max_i64]).
    { eapply step_check; [| exact Hc]. rewrite Hm1. split; [apply NoDup_singleton |].
      intros n. rewrite list_elem_of_singleton. split.
      - intros ->. rewrite lookup_singleton_eq. eauto.
      - intros [v Hv]. by apply lookup_singleton_Some in Hv as [-> _]. }
    apply (steps_cons _ [EvResume name (hostOf from) max_i64] (Config s3 None) []); [| constructor].
    apply step_fill. unfold note_fill. cbn [m s2 set_m]. rewrite lookup_singleton_eq.
    cbn [alive at_ negb andb OnResume s2 s1 set_m]. by rewrite Hs.
  - unfold Last. cbn [m s3 set_m]. by rewrite lookup_insert_eq.
Qed.

(** ** Witnesses *)

Definition demo : Server := with_callbacks "k".

Definition answered : packet := Packet true 7 123 "tk-site-web".

Definition demo_reply : bytes := head_of answered ++ sign (chars "k") (head_of answered).

Lemma demo_receive :
  receive 0 demo "10.0.0.9:5000" sample_bytes
  = (set_m demo (<["tk-site-web" := Seen 0 "10.0.0.9" true]> (m demo)), [],
     Some ("10.0.0.9:5000", demo_reply)).
Proof.
  unfold receive. rewrite accept_spec.
  change (key demo) with (chars "k"). rewrite sample_decodes.
  cbn [Reply sample]. rewrite note_spec. cbn [m demo with_callbacks]. rewrite lookup_empty.
  unfold reply_to. cbn [Seq TS Name]. cbn [key set_m demo with_callbacks].
  change (Packet true (Seq sample) (TS sample) (Name sample)) with answered.
  by rewrite encode_layout.
Qed.

Lemma receive_reply_ignored_witness :
  receive 0 demo "10.0.0.9:5000" sample_bytes
  = (set_m demo (<["tk-site-web" := Seen 0 "10.0.0.9" true]> (m demo)), [],
     Some ("10.0.0.9:5000", demo_reply))
  /\ receive 1 demo "1.2.3.4:1" demo_reply = (demo, [], None).
Proof.
  split; [exact demo_receive |].
  exact (receive_reply_ignored 0 1 demo _ demo "10.0.0.9:5000" "1.2.3.4:1" _ sample_bytes _ _
           demo_receive eq_refl).
Defined.

Definition demo_seen : Server :=
  set_m demo {["tk-a-web" := Seen 0 "10.0.0.9" true; "tk-b-web" := Seen (10 * second) "10.0.0.8" true]}.

Lemma demo_order : range_order (m demo_seen) ["tk-b-web"; "tk-a-web"].
Proof.
  split; [repeat constructor; set_solver |].
  intros n. cbn [m demo_seen set_m]. split.
  - intros [-> | ->%list_elem_of_singleton]%elem_of_cons; by eexists.
  - intros [v [[<- _] | [_ [<- _]%lookup_singleton_Some]]%lookup_insert_Some]; set_solver.
Qed.

Lemma check_flags_silent_witness :
  exists s', check (40 * second) ["tk-b-web"; "tk-a-web"] demo_seen
             = (s', [EvLost "tk-a-web" "10.0.0.9" (40 * second)])
  /\ NoDup [EvLost "tk-a-web" "10.0.0.9" (40 * second)].
Proof.
  eexists. split; [vm_compute; reflexivity |].
  refine (proj1 (proj2 (check_flags_silent (40 * second) _ _ _ _ demo_order _ _)));
    [reflexivity | vm_compute; reflexivity].
Defined.

Definition beat_at (t : time) (s : Server) : Server := fst (note t s "tk-a-web" "10.0.0.9:5000").
Definition demo1 : Server := beat_at 0 demo.
Definition demo2 : Server := fst (check (40 * second) ["tk-a-web"] demo1).
Definition demo3 : Server := beat_at (41 * second) demo2.

Lemma demo1_order : range_order (m demo1) ["tk-a-web"].
Proof.
  assert (m demo1 = {["tk-a-web" := Seen 0 "10.0.0.9" true]}) as -> by (vm_compute; reflexivity).
  split; [apply NoDup_singleton |]. intros n. rewrite list_elem_of_singleton. split.
  - intros ->. eexists. apply lookup_singleton_eq.
  - intros [v Hv]. by apply lookup_singleton_Some in Hv as [-> _].
Qed.

Definition demo_events : list event :=
  [EvLost "tk-a-web" "10.0.0.9" (40 * second); EvResume "tk-a-web" "10.0.0.9" (41 * second)].

Lemma demo_run : run 0 demo demo_events demo3.
Proof.
  apply (run_beat 0 0 demo "tk-a-web" "10.0.0.9:5000" demo1 [] demo_events);
    [lia | vm_compute; reflexivity |].
  apply (run_tick 0 (40 * second) demo1 ["tk-a-web"] demo2 [EvLost "tk-a-web" "10.0.0.9" (40 * second)]
           [EvResume "tk-a-web" "10.0.0.9" (41 * second)]);
    [vm_compute; congruence | exact demo1_order | vm_compute; reflexivity |].
  apply (run_beat (40 * second) (41 * second) demo2 "tk-a-web" "10.0.0.9:5000" demo3
           [EvResume "tk-a-web" "10.0.0.9" (41 * second)] []);
    [vm_compute; congruence | vm_compute; reflexivity | constructor].
Qed.

Lemma callbacks_alternate_witness :
  run 0 (with_callbacks "k") demo_events demo3
  /\ alternates true (events_of "tk-a-web" demo_events) = true.
Proof.
  split; [exact demo_run |].
  exact (proj1 (callbacks_alternate "k" 0 demo_events demo3 "tk-a-web" demo_run)).
Defined.

Lemma first_heartbeat_race_witness :
  exists s, steps (Config (with_callbacks "k") None)
    [EvLost "tk-a-web" "" max_i64; EvResume "tk-a-web" "10.0.0.9" max_i64] (Config s None).
Proof.
  destruct (first_heartbeat_race "k" "tk-a-web" "10.0.0.9:5000" 1700000000000000000) as (s & H & _);
    [lia |]. exists s. exact H.
Defined.
