(* ===== verification/Attempts.v ===== *)
(** * Failed connection attempts

    Models src/core/internal/monitor/attempts.go: the per-IP statistics, the
    ring of recent failures, the log limiter and the diagnosis. [time.Now] is an
    argument; each method holds the mutex throughout, so it is one step. *)

From S2P Require Export GoTime.

Definition ringLen : nat := 50.
Definition logEvery : duration := 5 * minute.

Record Attempt := MkAttempt { At : Z; IP : string; Client : string; Error : string; Millis : Z }.

Record ipStat := MkStat {
  lastAt : time;
  lastOK : time;
  lastErr : string;
  failsSince : Z;
  lastLogged : time;
  suppressed : Z;
}.

Definition zero_stat : ipStat := MkStat zero_time zero_time "" 0 zero_time 0.

Record Attempts := MkAttempts { ips : gmap string ipStat; ring : list Attempt }.

Definition NewAttempts : Attempts := MkAttempts ∅ [].

#[export] Instance Attempt_eq_dec : EqDecision Attempt.
Proof. solve_decision. Defined.
#[export] Instance ipStat_eq_dec : EqDecision ipStat.
Proof. solve_decision. Defined.

(** The limiter: a failure is logged when the caller insists, when none was
    logged from this IP yet, or [logEvery] after the last one. *)
Definition should_log (now : time) (s : ipStat) (always : bool) : bool :=
  always || is_zero (lastLogged s) || (logEvery <=? sub now (lastLogged s)).

(** One call of [Record]: its arguments besides the receiver. *)
Record call := Call {
  c_now : time; c_ip : string; c_client : string; c_dur : duration;
  c_err : option string; c_always : bool; c_trivial : bool;
}.

Definition Record_ (a : Attempts) (c : call) : Attempts * (bool * Z) :=
  let now := c_now c in
  let s := default zero_stat (ips a !! c_ip c) in
  let put s := <[c_ip c := s]> (ips a) in
  match c_err c with
  | None => (MkAttempts (put (MkStat now now "" 0 (lastLogged s) (suppressed s))) (ring a), (false, 0))
  | Some e =>
      if c_trivial c then
        (MkAttempts (put (MkStat now (lastOK s) (lastErr s) (failsSince s) (lastLogged s) (suppressed s)))
           (ring a), (false, 0))
      else
        let r := ring a ++ [MkAttempt (unix now) (c_ip c) (c_client c) e (milliseconds (c_dur c))] in
        let r := if decide (ringLen < length r)%nat then last_n ringLen r else r in
        if should_log now s (c_always c) then
          (MkAttempts (put (MkStat now (lastOK s) e (failsSince s + 1) now 0)) r, (true, suppressed s))
        else
          (MkAttempts (put (MkStat now (lastOK s) e (failsSince s + 1) (lastLogged s) (suppressed s + 1))) r,
           (false, 0))
  end.

(** The loop of [Recent], from index [i - 1] down. *)
Fixpoint recent_go (r : list Attempt) (i n : nat) (out : list Attempt) : list Attempt :=
  match i with
  | O => out
  | S j =>
      if decide (length out < n)%nat
      then match r !! j with Some x => recent_go r j n (out ++ [x]) | None => out end
      else out
  end.

Definition Recent (a : Attempts) (n : nat) : list Attempt := recent_go (ring a) (length (ring a)) n [].

(** What [Diagnose] returns: text, lastAgo, lastErr, fails. *)
Record diagnosis := Diag { d_text : string; d_ago : Q; d_err : string; d_fails : Z }.

Definition none_arrived (ip : string) : string :=
  "no connection from " +:+ ip +:+ " has reached the server since the client went down: "
  +:+ "the client is off, or its packets are not arriving (path/NAT/middlebox)".

Definition connected_again (ip : string) (ago : duration) : string :=
  ip +:+ " connected again " +:+ dur_string (round ago second) +:+ " ago".

Definition arrived_failed (ip : string) (n : Z) (ago : duration) (err : string) : string :=
  itoa n +:+ " connection(s) from " +:+ ip +:+ " reached the server and failed; last "
  +:+ dur_string (round ago second) +:+ " ago: " +:+ err.

Definition Diagnose (now : time) (a : Attempts) (ip : string) (lastSeen : Z) : diagnosis :=
  if bool_decide (ip = "") then
    Diag "no IP known for this client since the server started" (-1) "" 0
  else
    let s := ips a !! ip in
    let st := default zero_stat s in
    let down := of_unix lastSeen in
    if bool_decide (s = None) || ((0 <? lastSeen) && negb (down <? lastAt st)) then
      Diag (none_arrived ip) (-1) "" 0
    else
      let ago := seconds (sub now (lastAt st)) in
      if failsSince st =? 0 then
        Diag (connected_again ip (sub now (lastOK st))) ago "" 0
      else
        Diag (arrived_failed ip (failsSince st) (sub now (lastAt st)) (lastErr st))
             ago (lastErr st) (failsSince st).

(** ** Histories *)

(** The calls of a history, oldest first, with what each returned. *)
Fixpoint run (a : Attempts) (cs : list call) : Attempts * list (call * (bool * Z)) :=
  match cs with
  | [] => (a, [])
  | c :: cs' =>
      let '(a', out) := Record_ a c in
      let '(a'', outs) := run a' cs' in
      (a'', (c, out) :: outs)
  end.

Definition is_failure (c : call) : bool :=
  match c_err c with Some _ => negb (c_trivial c) | None => false end.

(** The entry a failure leaves in the ring. *)
Definition attempt_of (c : call) : Attempt :=
  MkAttempt (unix (c_now c)) (c_ip c) (c_client c) (default "" (c_err c)) (milliseconds (c_dur c)).

Definition failures (cs : list call) : list Attempt := attempt_of <$> filter (fun c => is_failure c = true) cs.

(** Failures from [ip] since its last success. *)
Definition fails_since (ip : string) (cs : list call) : Z :=
  foldl (fun n c => if decide (c_ip c = ip)
                    then match c_err c with
                         | None => 0
                         | Some _ => if c_trivial c then n else n + 1
                         end
                    else n) 0 cs.

(** The time of the last call from [ip] that satisfies [P]. *)
Definition last_time (P : call -> bool) (ip : string) (cs : list call) : option time :=
  foldl (fun o c => if decide (c_ip c = ip) then if P c then Some (c_now c) else o else o) None cs.

Definition is_success (c : call) : bool := match c_err c with None => true | Some _ => false end.

(** ** Lemmas *)

Definition stat_of (a : Attempts) (ip : string) : ipStat := default zero_stat (ips a !! ip).

Lemma run_app a cs cs' :
  run a (cs ++ cs')
  = let '(a1, o1) := run a cs in let '(a2, o2) := run a1 cs' in (a2, o1 ++ o2).
Proof.
  revert a. induction cs as [| c cs IH]; intros a; cbn; [by destruct (run a cs') |].
  destruct (Record_ a c) as [a1 o1]. rewrite IH.
  destruct (run a1 cs) as [a2 o2]. by destruct (run a2 cs') as [a3 o3].
Qed.

Lemma run_snoc a cs c :
  fst (run a (cs ++ [c])) = fst (Record_ (fst (run a cs)) c).
Proof.
  rewrite run_app. destruct (run a cs) as [a1 o1]. cbn. by destruct (Record_ a1 c).
Qed.

Lemma Record_other a c ip : c_ip c <> ip -> ips (fst (Record_ a c)) !! ip = ips a !! ip.
Proof. intros H. unfold Record_. repeat case_match; cbn; by rewrite lookup_insert_ne. Qed.

Lemma Record_stat a c :
  ips (fst (Record_ a c)) !! c_ip c = Some (stat_of (fst (Record_ a c)) (c_ip c)).
Proof.
  unfold stat_of, Record_. repeat case_match; cbn; by rewrite !lookup_insert_eq.
Qed.

Lemma Record_ring a c :
  ring (fst (Record_ a c))
  = if is_failure c then last_n ringLen (ring a ++ [attempt_of c]) else ring a.
Proof.
  unfold Record_, is_failure, attempt_of. destruct (c_err c) as [e |]; cbn; [| done].
  destruct (c_trivial c); cbn; [done |]. rewrite last_n_guard.
  by destruct (should_log _ _ _).
Qed.

Lemma length_ring a c : (length (ring a) <= ringLen)%nat -> (length (ring (fst (Record_ a c))) <= ringLen)%nat.
Proof.
  intros H. rewrite Record_ring. case_match; [| done]. rewrite length_last_n. lia.
Qed.

Lemma run_ring cs : ring (fst (run NewAttempts cs)) = last_n ringLen (failures cs).
Proof.
  induction cs as [| c cs IH] using rev_ind; [done |].
  rewrite run_snoc, Record_ring, IH. unfold failures.
  rewrite filter_app, fmap_app, filter_cons. cbn.
  destruct (is_failure c); cbn.
  - apply last_n_app_last.
  - by rewrite app_nil_r.
Qed.

Lemma recent_go_spec r i n out :
  (i <= length r)%nat -> (length out <= n)%nat ->
  recent_go r i n out = out ++ take (n - length out) (reverse (take i r)).
Proof.
  revert out. induction i as [| j IH]; intros out Hi Hn; cbn [recent_go].
  { by rewrite take_0, reverse_nil, take_nil, app_nil_r. }
  case_decide as Hd.
  - destruct (lookup_lt_is_Some_2 r j) as [x Hx]; [lia |]. rewrite Hx.
    rewrite IH by (rewrite ?length_app; cbn; lia).
    rewrite (take_S_r r j x Hx), reverse_snoc.
    rewrite <-(app_assoc out). f_equal. rewrite length_app. cbn [length].
    replace (n - length out)%nat with (S (n - (length out + 1))) by lia. done.
  - replace (n - length out)%nat with 0%nat by lia. by rewrite take_0, app_nil_r.
Qed.

Lemma Recent_spec a n : Recent a n = take n (reverse (ring a)).
Proof.
  unfold Recent. rewrite recent_go_spec by (cbn; lia).
  cbn [length app]. by rewrite Nat.sub_0_r, (take_ge (ring a)).
Qed.

Lemma run_stat ip cs :
  let a := fst (run NewAttempts cs) in
  failsSince (stat_of a ip) = fails_since ip cs
  /\ (if last_time (fun _ => true) ip cs is Some t then
        is_Some (ips a !! ip) /\ lastAt (stat_of a ip) = t else ips a !! ip = None)
  /\ lastOK (stat_of a ip) = default zero_time (last_time is_success ip cs).
Proof.
  cbn zeta. induction cs as [| c cs IH] using rev_ind; [done |].
  unfold fails_since, last_time in *. rewrite !foldl_app. cbn [foldl].
  rewrite run_snoc. set (a := fst (run NewAttempts cs)) in *.
  case_decide as Hip.
  - subst ip. destruct IH as (IH1 & IH2 & IH3). split; [| split].
    + revert IH1. unfold stat_of, Record_, is_success. repeat case_match; cbn;
        rewrite lookup_insert_eq; cbn; congruence.
    + split; [rewrite Record_stat; eauto |].
      unfold stat_of, Record_. repeat case_match; cbn; by rewrite lookup_insert_eq.
    + revert IH3. unfold stat_of, Record_, is_success. repeat case_match; cbn;
        rewrite lookup_insert_eq; cbn; congruence.
  - unfold stat_of in *. by rewrite Record_other.
Qed.

(** The time of the last logged call from [ip], and the counts of what was
    logged and of the suppressed failures the logs reported. *)
Definition outputs : Type := list (call * (bool * Z)).

Definition last_logged (ip : string) (outs : outputs) : option time :=
  foldl (fun o (x : call * (bool * Z)) => if decide (c_ip (fst x) = ip)
                    then if fst (snd x) then Some (c_now (fst x)) else o else o) None outs.

Definition logged_count (ip : string) (outs : outputs) : Z :=
  foldl (fun (n : Z) (x : call * (bool * Z)) => if decide (c_ip (fst x) = ip) then if fst (snd x) then n + 1 else n else n) 0 outs.

Definition reported_suppressed (ip : string) (outs : outputs) : Z :=
  foldl (fun (n : Z) (x : call * (bool * Z)) => if decide (c_ip (fst x) = ip) then n + snd (snd x) else n) 0 outs.

Definition failure_count (ip : string) (outs : outputs) : Z :=
  foldl (fun (n : Z) (x : call * (bool * Z)) => if decide (c_ip (fst x) = ip) then if is_failure (fst x) then n + 1 else n else n) 0 outs.

Lemma run_snoc_outs a cs c :
  snd (run a (cs ++ [c])) = snd (run a cs) ++ [(c, snd (Record_ (fst (run a cs)) c))].
Proof.
  rewrite run_app. destruct (run a cs) as [a1 o1]. cbn. by destruct (Record_ a1 c).
Qed.

(** One call, seen from the entry of its IP. *)
Lemma Record_limiter a c :
  let s := stat_of a (c_ip c) in
  let s' := stat_of (fst (Record_ a c)) (c_ip c) in
  let out := snd (Record_ a c) in
  fst out = (is_failure c && should_log (c_now c) s (c_always c))
  /\ lastLogged s' = (if fst out then c_now c else lastLogged s)
  /\ (if is_failure c then 1 else 0) + suppressed s = (if fst out then 1 else 0) + snd out + suppressed s'.
Proof.
  cbn zeta. unfold stat_of, Record_, is_failure.
  destruct (c_err c) as [e |]; cbn; [destruct (c_trivial c); cbn |];
    rewrite ?lookup_insert_eq; cbn; [lia | | lia].
  destruct (should_log _ _ _); cbn; rewrite lookup_insert_eq; cbn; lia.
Qed.

Lemma run_limiter ip cs :
  Forall (fun c => zero_time < c_now c) cs ->
  let '(a, outs) := run NewAttempts cs in
  lastLogged (stat_of a ip) = default zero_time (last_logged ip outs)
  /\ (forall t, last_logged ip outs = Some t -> zero_time < t)
  /\ failure_count ip outs = logged_count ip outs + reported_suppressed ip outs + suppressed (stat_of a ip).
Proof.
  intros Hpos. rewrite (surjective_pairing (run NewAttempts cs)).
  induction cs as [| c cs IH] using rev_ind; [done |].
  apply Forall_app in Hpos as [Hpos [Hc _]%Forall_cons_1]. specialize (IH Hpos).
  rewrite run_snoc, run_snoc_outs. set (a := fst (run NewAttempts cs)) in *.
  unfold last_logged, logged_count, reported_suppressed, failure_count in *.
  rewrite !foldl_app. cbn [foldl fst snd]. destruct IH as (IH1 & IH2 & IH3).
  case_decide as Hip; [subst ip | unfold stat_of in *; by rewrite Record_other].
  destruct (Record_limiter a c) as (_ & Hl & Hs). rewrite Hl.
  destruct (fst (snd (Record_ a c))) eqn:E; cbn in Hs |- *.
  - split; [done |]. split; [intros t [= <-]; exact Hc |]. case_match; lia.
  - split; [done |]. split; [done |]. case_match; lia.
Qed.

(** ** Properties *)

(** The ring. After any history of calls, [Recent n] is the [n] newest of
    the last [ringLen] non-trivial failures, newest first, each with its own
    time, IP, client, error and duration; successes and trivial failures leave
    no entry. *)
Theorem recent_is_newest_failures (cs : list call) (n : nat) :
  Recent (fst (run NewAttempts cs)) n = take n (reverse (last_n ringLen (failures cs)))
  /\ (length (ring (fst (run NewAttempts cs))) <= ringLen)%nat.
Proof.
  rewrite Recent_spec, run_ring. split; [done |]. rewrite length_last_n. lia.
Qed.

(** The log limiter. After any history, a call is reported for logging
    exactly when it is a non-trivial failure and either the caller insists, or
    nothing was logged from its IP before, or the last line logged from its IP
    is at least [logEvery] old. *)
Theorem log_limited (cs : list call) (c : call) :
  Forall (fun c => zero_time < c_now c) cs ->
  let '(a, outs) := run NewAttempts cs in
  fst (snd (Record_ a c))
  = is_failure c && (c_always c || match last_logged (c_ip c) outs with
                                   | None => true
                                   | Some t => logEvery <=? c_now c - t
                                   end).
Proof.
  intros Hpos. pose proof (run_limiter (c_ip c) cs Hpos) as H.
  destruct (run NewAttempts cs) as [a outs]. destruct H as (Hl & Hz & _).
  destruct (Record_limiter a c) as (-> & _). unfold should_log, is_zero. rewrite Hl.
  rewrite <-orb_assoc. do 2 f_equal. destruct (last_logged (c_ip c) outs) as [t |]; cbn.
  - rewrite (proj2 (Z.eqb_neq _ _)) by (specialize (Hz t eq_refl); lia).
    by apply sub_ge.
  - done.
Qed.

(** Nothing is lost from the counts. Over any history, the non-trivial
    failures of an IP are the lines logged for it, plus the failures those lines
    reported as suppressed, plus the ones suppressed since the last line. *)
Theorem suppressed_accounted (ip : string) (cs : list call) :
  Forall (fun c => zero_time < c_now c) cs ->
  let '(a, outs) := run NewAttempts cs in
  failure_count ip outs
  = logged_count ip outs + reported_suppressed ip outs + suppressed (stat_of a ip).
Proof.
  intros Hpos. pose proof (run_limiter ip cs Hpos) as H.
  destruct (run NewAttempts cs) as [a outs]. apply H.
Qed.

(** The diagnosis is a function of the history. [Diagnose] says that nothing
    arrived exactly when no call from the IP is later than [lastSeen] (or none
    at all, when [lastSeen] is unknown); otherwise it reports the failures since
    the last success with the last error, and, when there are none, a
    connection as old as the last success. *)
Theorem diagnose_spec (cs : list call) (now : time) (ip : string) (lastSeen : Z) :
  ip <> "" ->
  let a := fst (run NewAttempts cs) in
  let ok := default zero_time (last_time is_success ip cs) in
  Diagnose now a ip lastSeen =
  match last_time (fun _ => true) ip cs with
  | None => Diag (none_arrived ip) (-1) "" 0
  | Some t =>
      if (0 <? lastSeen) && (t <=? of_unix lastSeen) then Diag (none_arrived ip) (-1) "" 0
      else if fails_since ip cs =? 0
      then Diag (connected_again ip (sub now ok)) (seconds (sub now t)) "" 0
      else Diag (arrived_failed ip (fails_since ip cs) (sub now t) (lastErr (stat_of a ip)))
                (seconds (sub now t)) (lastErr (stat_of a ip)) (fails_since ip cs)
  end.
Proof.
  intros Hip. cbn zeta. destruct (run_stat ip cs) as (Hf & Ht & Ho).
  unfold Diagnose. rewrite bool_decide_eq_false_2 by done.
  set (a := fst (run NewAttempts cs)) in *. change (default zero_stat (ips a !! ip)) with (stat_of a ip).
  destruct (last_time (fun _ => true) ip cs) as [t |].
  - destruct Ht as [[s Hs] Ht]. rewrite Hs, bool_decide_eq_false_2 by done.
    rewrite Ht, Hf, Ho, <-Z.leb_antisym. done.
  - by rewrite Ht, bool_decide_eq_true_2.
Qed.

(** A bare TCP connection reads as a reconnection. After one success at
    [t0], a client that goes down at [lastSeen] and whose only later contact is
    a trivial failure at [t2] (a connection closed before any handshake, as a
    port check or a pre-flight probe leaves) is diagnosed as "connected again",
    [now - t0] ago: before it went down. *)
Theorem trivial_attempt_reads_as_reconnect
    (ip client : string) (d d2 : duration) (e : string) (t0 t2 now : time) (lastSeen : Z) (always : bool) :
  ip <> "" -> 0 < lastSeen -> t0 <= of_unix lastSeen -> of_unix lastSeen < t2 ->
  let cs := [Call t0 ip client d None false false; Call t2 ip client d2 (Some e) always true] in
  Diagnose now (fst (run NewAttempts cs)) ip lastSeen
  = Diag (connected_again ip (sub now t0)) (seconds (sub now t2)) "" 0.
Proof.
  intros Hip Hl Ht0 Ht2. unfold Diagnose. rewrite bool_decide_eq_false_2 by done.
  assert (ips (fst (run NewAttempts [Call t0 ip client d None false false;
            Call t2 ip client d2 (Some e) always true])) !! ip
          = Some (MkStat t2 t0 "" 0 zero_time 0)) as ->.
  { cbn. rewrite !lookup_insert_eq. cbn. by rewrite lookup_empty. }
  rewrite bool_decide_eq_false_2 by done. cbn.
  rewrite (proj2 (Z.ltb_lt _ _) Hl), (proj2 (Z.ltb_lt _ _) Ht2). done.
Qed.

(** ** Witnesses *)

Definition t0 : time := of_unix 1700000000.
Definition fail_at (t : time) (always : bool) : call :=
  Call t "8.8.8.8" "" second (Some "x") always false.
Definition demo : list call :=
  [fail_at t0 false; fail_at (t0 + second) false; fail_at (t0 + 2 * second) false;
   fail_at (t0 + 3 * second) true].

Lemma demo_pos : Forall (fun c => zero_time < c_now c) demo.
Proof. repeat constructor. Qed.

Lemma log_limited_witness :
  fst (snd (Record_ (fst (run NewAttempts demo)) (fail_at (t0 + 4 * second) false))) = false
  /\ fst (snd (Record_ (fst (run NewAttempts demo)) (fail_at (t0 + 303 * second) false))) = true.
Proof.
  pose proof (log_limited demo (fail_at (t0 + 4 * second) false) demo_pos) as H1.
  pose proof (log_limited demo (fail_at (t0 + 303 * second) false) demo_pos) as H2.
  vm_compute in H1, H2. vm_compute. exact (conj H1 H2).
Defined.

Lemma suppressed_accounted_witness :
  map snd (snd (run NewAttempts demo)) = [(true, 0); (false, 0); (false, 0); (true, 2)]
  /\ let '(a, outs) := run NewAttempts demo in
     failure_count "8.8.8.8" outs
     = logged_count "8.8.8.8" outs + reported_suppressed "8.8.8.8" outs + suppressed (stat_of a "8.8.8.8").
Proof.
  split; [vm_compute; reflexivity |]. exact (suppressed_accounted "8.8.8.8" demo demo_pos).
Defined.

Lemma diagnose_spec_witness :
  "8.8.8.8" <> ""
  /\ Diagnose (t0 + 43 * second) (fst (run NewAttempts demo)) "8.8.8.8" 1700000000
     = Diag "4 connection(s) from 8.8.8.8 reached the server and failed; last 40s ago: x"
            (seconds (40 * second)) "x" 4.
Proof.
  split; [discriminate |].
  etransitivity; [apply (diagnose_spec demo (t0 + 43 * second) "8.8.8.8" 1700000000); discriminate |].
  vm_compute. reflexivity.
Defined.

Lemma trivial_attempt_reads_as_reconnect_witness :
  Diagnose (t0 + 120 * second) (fst (run NewAttempts
    [Call t0 "1.2.3.4" "tk-x-web" second None false false;
     Call (t0 + 90 * second) "1.2.3.4" "tk-x-web" 0 (Some "EOF") true true])) "1.2.3.4" 1700000060
  = Diag "1.2.3.4 connected again 2m0s ago" (seconds (30 * second)) "" 0.
Proof.
  etransitivity.
  - apply (trivial_attempt_reads_as_reconnect "1.2.3.4" "tk-x-web" second 0 "EOF" t0 (t0 + 90 * second)
             (t0 + 120 * second) 1700000060 true); vm_compute; congruence.
  - vm_compute. reflexivity.
Defined.
