(* ===== verification/Traffic.v ===== *)
(** * The traffic store

    Models src/core/internal/monitor/traffic.go: bytes by client, port and day,
    the last time each client was seen, the log of availability transitions, the
    percentage of uptime computed from it, and the pruning done by the saver.
    Every method holds the mutex throughout, so each is one step; [time.Now] is
    an argument, and so is the offset of the local time zone. *)

From stdpp Require Export sorting.
From S2P Require Export GoTime.

Record pb := Pb { Tx : Z; Rx : Z }.

Record upEvent := UpEvent { T : Z; U : bool }.

Record ct := Ct {
  Ports : gmap Z pb;
  Days : gmap string Z;
  LastSeen : Z;
  Up : list upEvent;
}.

Record TrafficStore := MkStore { path : string; m : gmap string ct; dirty : bool }.

#[export] Instance pb_eq_dec : EqDecision pb.
Proof. solve_decision. Defined.
#[export] Instance upEvent_eq_dec : EqDecision upEvent.
Proof. solve_decision. Defined.
#[export] Instance ct_eq_dec : EqDecision ct.
Proof. solve_decision. Defined.

Definition new_ct : ct := Ct ∅ ∅ 0 [].

(** [loaded] is what was read from the state file, empty without one. *)
Definition NewTrafficStore (now : time) (path : string) (loaded : gmap string ct) : TrafficStore :=
  MkStore path
    ((fun c => if LastSeen c =? 0 then Ct (Ports c) (Days c) (unix now) (Up c) else c) <$> loaded)
    false.

Definition client_of (t : TrafficStore) (name : string) : ct := default new_ct (m t !! name).

Definition put (t : TrafficStore) (name : string) (c : ct) (d : bool) : TrafficStore :=
  MkStore (path t) (<[name := c]> (m t)) d.

Definition Touch (now : time) (t : TrafficStore) (name : string) : TrafficStore :=
  if bool_decide (name = "") then t
  else
    let c := client_of t name in
    put t name (Ct (Ports c) (Days c) (unix now) (Up c)) true.

Definition RecordState (now : time) (t : TrafficStore) (name : string) (up : bool) : TrafficStore :=
  if bool_decide (name = "") then t
  else
    let c := client_of t name in
    match last (Up c) with
    | Some e =>
        if bool_decide (U e = up) then put t name c (dirty t)
        else put t name (Ct (Ports c) (Days c) (LastSeen c) (Up c ++ [UpEvent (unix now) up])) true
    | None => put t name (Ct (Ports c) (Days c) (LastSeen c) (Up c ++ [UpEvent (unix now) up])) true
    end.

Definition uptimeSeries (t : TrafficStore) (name : string) : list upEvent :=
  match m t !! name with Some c => Up c | None => [] end.

(** The state entering the window: the first loop. *)
Fixpoint entering (from : Z) (st : bool) (ev : list upEvent) : bool :=
  match ev with
  | [] => st
  | e :: ev' => if T e <=? from then entering from (U e) ev' else st
  end.

(** The seconds up in the window: the second loop and the line after it. *)
Fixpoint up_dur (from now : Z) (cursor : Z) (cur : bool) (upDur : Z) (ev : list upEvent) : Z :=
  let finish := if cur then upDur + (now - cursor) else upDur in
  match ev with
  | [] => finish
  | e :: ev' =>
      if T e <=? from then up_dur from now cursor cur upDur ev'
      else if now <=? T e then finish
      else up_dur from now (T e) (U e) (if cur then upDur + (T e - cursor) else upDur) ev'
  end.

Definition uptimePct (now : time) (t : TrafficStore) (name : string) (windowSec : Z) : Q :=
  match m t !! name with
  | None => -1
  | Some c =>
      match Up c with
      | [] => -1
      | e0 :: _ =>
          let now := unix now in
          let from := now - windowSec in
          let from := if from <? T e0 then T e0 else from in
          let st := entering from (U e0) (Up c) in
          let upDur := up_dur from now from st 0 (Up c) in
          let cov := now - from in
          if cov <=? 0 then -1
          else (inject_Z upDur / inject_Z cov * 100)%Q
      end
  end.

Definition Seen (t : TrafficStore) : gmap string Z := LastSeen <$> m t.

Record portRow := PortRow { r_port : Z; r_tx : Z; r_rx : Z }.
Record dayRow := DayRow { r_date : string; r_bytes : Z }.

Definition port_le (a b : portRow) : Prop := r_port a <= r_port b.
Definition day_ge (a b : dayRow) : Prop := String.le (r_date b) (r_date a).

#[export] Instance port_le_dec : RelDecision port_le.
Proof. intros a b. unfold port_le. apply _. Defined.
#[export] Instance day_ge_dec : RelDecision day_ge.
Proof. intros a b. unfold day_ge. apply _. Defined.

Definition port_rows (c : ct) : list portRow :=
  (fun x : Z * pb => PortRow (fst x) (Tx (snd x)) (Rx (snd x))) <$> map_to_list (Ports c).
Definition day_rows (c : ct) : list dayRow :=
  (fun x : string * Z => DayRow (fst x) (snd x)) <$> map_to_list (Days c).

Definition breakdown (t : TrafficStore) (name : string) : list portRow * list dayRow :=
  match m t !! name with
  | None => ([], [])
  | Some c =>
      let ports := merge_sort port_le (port_rows c) in
      let days := merge_sort day_ge (day_rows c) in
      (ports, if decide (30 < length days)%nat then take 30 days else days)
  end.

Section zone.
Context (offset : time -> Z).

Definition today (now : time) : string := date_string (unix now + offset now).

Definition Add (now : time) (t : TrafficStore) (name : string) (port tx rx : Z) : TrafficStore :=
  if bool_decide (name = "") then t
  else
    let c := client_of t name in
    let p := default (Pb 0 0) (Ports c !! port) in
    put t name
      (Ct (<[port := Pb (u64 (Tx p + tx)) (u64 (Rx p + rx))]> (Ports c))
          (<[today now := u64 (default 0 (Days c !! today now) + u64 (tx + rx))]> (Days c))
          (LastSeen c) (Up c)) true.

Definition todayTotal (now : time) (t : TrafficStore) (name : string) : Z :=
  match m t !! name with Some c => default 0 (Days c !! today now) | None => 0 end.
End zone.

(** ** The saver *)

Definition prune_days (d : gmap string Z) : gmap string Z :=
  if decide (60 < size d)%nat then
    let ds := merge_sort String.le (map_to_list d).*1 in
    foldl (fun d k => delete k d) d (take (length ds - 60) ds)
  else d.

(** The index of the last of the leading events before [cut]. *)
Fixpoint keep_from (cut : Z) (i keep : nat) (ev : list upEvent) : nat :=
  match ev with
  | [] => keep
  | e :: ev' => if T e <? cut then keep_from cut (S i) i ev' else keep
  end.

Definition prune_up (cut : Z) (ev : list upEvent) : list upEvent :=
  let ev := if decide (1 < length ev)%nat then
              let keep := keep_from cut 0 0 ev in
              if decide (0 < keep)%nat then drop keep ev else ev
            else ev in
  if decide (8000 < Z.of_nat (length ev)) then last_n (Z.to_nat 8000) ev else ev.

Definition prune (cut : Z) (c : ct) : ct :=
  Ct (Ports c) (prune_days (Days c)) (LastSeen c) (prune_up cut (Up c)).

(** One tick: the new state, and what is written to the file, if anything. *)
Definition saver_tick (now : time) (t : TrafficStore) : TrafficStore * option (gmap string ct) :=
  if negb (dirty t) || bool_decide (path t = "") then (t, None)
  else
    let cut := unix (now - 31 * 24 * hour) in
    let m' := prune cut <$> m t in
    (MkStore (path t) m' false, Some m').

(** ** The reference: the state of a client at each second *)

(** The state at second [t]: that of the last event at or before it. *)
Definition state_at (st : bool) (ev : list upEvent) (t : Z) : bool :=
  foldl (fun s e => if T e <=? t then U e else s) st ev.

(** The seconds of [a, b) the client is up. *)
Definition ups (st : bool) (ev : list upEvent) (a b : Z) : Z :=
  Z.of_nat (length (filter (fun t => state_at st ev t = true) (seqZ a (b - a)))).

(** Consecutive events of a log: the times do not go back, the states alternate. *)
Definition next (a b : upEvent) : Prop := T a <= T b /\ U b = negb (U a).
Definition log_ok (now : Z) (ev : list upEvent) : Prop :=
  Sorted next ev /\ forall e, last ev = Some e -> T e <= now.

Definition times_le (a b : upEvent) : Prop := T a <= T b.

(** *** Lemmas *)

Lemma next_times ev : Sorted next ev -> StronglySorted times_le ev.
Proof.
  intros H. apply Sorted_StronglySorted; [intros a b c; unfold times_le; lia |].
  induction H as [| e ev _ IH Hd]; constructor; [done |].
  destruct Hd as [| e' ev [Ht _]]; by constructor.
Qed.

Lemma state_at_cons st e ev t :
  state_at st (e :: ev) t = state_at (if T e <=? t then U e else st) ev t.
Proof. done. Qed.

Lemma state_at_before st ev t : Forall (fun e => t < T e) ev -> state_at st ev t = st.
Proof.
  induction 1 as [| e ev He _ IH]; [done |]. by rewrite state_at_cons, (proj2 (Z.leb_gt _ _) He).
Qed.

Lemma ups_ext st ev st' ev' a b :
  (forall t, a <= t < b -> state_at st ev t = state_at st' ev' t) -> ups st ev a b = ups st' ev' a b.
Proof.
  intros H. unfold ups. do 2 f_equal. apply filter_ext_in.
  intros t Ht%elem_of_seqZ. by rewrite H by lia.
Qed.

Lemma ups_split st ev a b c : a <= b <= c -> ups st ev a c = ups st ev a b + ups st ev b c.
Proof.
  intros H. unfold ups. replace (c - a) with ((b - a) + (c - b)) by lia.
  rewrite seqZ_app, filter_app, length_app by lia. replace (a + (b - a)) with b by lia. lia.
Qed.

Lemma ups_const st ev a b s :
  a <= b -> (forall t, a <= t < b -> state_at st ev t = s) -> ups st ev a b = if s then b - a else 0.
Proof.
  intros Hab H. unfold ups. destruct s.
  - rewrite filter_all; [rewrite length_seqZ; lia |].
    apply Forall_forall. intros t Ht%elem_of_seqZ. apply H. lia.
  - rewrite filter_none; [done |].
    apply Forall_forall. intros t Ht%elem_of_seqZ. rewrite H by lia. done.
Qed.

Lemma ups_bounds st ev a b : a <= b -> 0 <= ups st ev a b <= b - a.
Proof.
  intros H. unfold ups. pose proof (length_filter (fun t => state_at st ev t = true) (seqZ a (b - a))) as Hl.
  rewrite length_seqZ in Hl. lia.
Qed.

(** The first loop: the events at or before [from] decide the entering state. *)
Definition after (from : Z) (ev : list upEvent) : list upEvent := drop_while (fun e => T e <=? from) ev.

Lemma entering_state from st ev t :
  from <= t -> state_at st ev t = state_at (entering from st ev) (after from ev) t.
Proof.
  intros Ht. unfold after. revert st. induction ev as [| e ev IH]; intros st; [done |]. cbn [entering drop_while].
  destruct (T e <=? from) eqn:E; [| done]. breflect.
  rewrite state_at_cons, (proj2 (Z.leb_le _ _)) by lia. apply IH.
Qed.

Lemma up_dur_after from now cursor cur d ev :
  up_dur from now cursor cur d ev = up_dur from now cursor cur d (after from ev).
Proof.
  unfold after. induction ev as [| e ev IH]; [done |]. cbn [drop_while].
  destruct (T e <=? from) eqn:E; [| done]. cbn [up_dur]. by rewrite E.
Qed.

Lemma after_later from ev :
  StronglySorted times_le ev -> Forall (fun e => from < T e) (after from ev) /\ StronglySorted times_le (after from ev).
Proof.
  unfold after. induction 1 as [| e ev Hs IH Hf]; [split; constructor |]. cbn [drop_while].
  destruct (T e <=? from) eqn:E; [done |]. breflect. split; [| by constructor].
  constructor; [done |]. apply (Forall_impl _ _ _ Hf). unfold times_le. cbn. lia.
Qed.

(** The second loop counts the seconds up from the cursor on. *)
Lemma up_dur_spec from now cursor cur d ev :
  StronglySorted times_le ev -> Forall (fun e => from < T e) ev -> Forall (fun e => cursor <= T e) ev ->
  cursor <= now -> up_dur from now cursor cur d ev = d + ups cur ev cursor now.
Proof.
  intros Hs. revert cursor cur d. induction Hs as [| e ev Hs IH Hf]; intros cursor cur d Hfrom Hcur Hle; cbn [up_dur].
  { rewrite (ups_const _ _ _ _ cur) by done. destruct cur; lia. }
  inversion_clear Hfrom as [| ? ? Hfe Hfrom']. inversion_clear Hcur as [| ? ? Hce Hcur'].
  rewrite (proj2 (Z.leb_gt _ _)) by lia.
  assert (forall t, t < T e -> state_at cur (e :: ev) t = cur) as Hbefore.
  { intros t Ht. apply state_at_before. constructor; [lia |].
    apply (Forall_impl _ _ _ Hf). unfold times_le. cbn. lia. }
  destruct (now <=? T e) eqn:E; breflect.
  - rewrite (ups_const _ _ _ _ cur); [destruct cur; lia | lia |]. intros t Ht. apply Hbefore. lia.
  - rewrite IH; [| done | done | lia].
    rewrite (ups_split cur _ cursor (T e) now) by lia.
    rewrite (ups_const cur _ cursor (T e) cur) by (lia || (intros; apply Hbefore; lia)).
    assert (ups cur (e :: ev) (T e) now = ups (U e) ev (T e) now) as ->
      by (apply ups_ext; intros t Ht; rewrite state_at_cons, (proj2 (Z.leb_le _ _)) by lia; done).
    destruct cur; lia.
Qed.

(** *** Pruning the log *)

Lemma keep_from_spec cut i k ev :
  exists n, keep_from cut i k ev = (if decide (n = 0)%nat then k else (i + n - 1)%nat)
    /\ (n <= length ev)%nat /\ Forall (fun e => T e < cut) (take n ev).
Proof.
  revert i k. induction ev as [| e ev IH]; intros i k; cbn [keep_from]; [by exists 0%nat |].
  destruct (T e <? cut) eqn:E; breflect; [| exists 0%nat; cbn; split; [done | split; [lia | constructor]]].
  destruct (IH (S i) i) as (n & -> & Hn & Hf). exists (S n). split.
  - rewrite (decide_False (P := (S n = 0)%nat)) by done. case_decide; lia.
  - cbn. split; [lia | by constructor].
Qed.

(** What is left of the log: a suffix; the events cut are before [cut], and so is
    the first one left, if any is cut. *)
Lemma prune_up_suffix cut ev :
  Z.of_nat (length (prune_up cut ev)) < 8000 ->
  prune_up cut ev = ev
  \/ exists p e ev', ev = p ++ e :: ev' /\ prune_up cut ev = e :: ev' /\ T e < cut.
Proof.
  unfold prune_up. intros H. revert H.
  set (ev1 := if decide (1 < length ev)%nat then _ else ev). intros H.
  assert ((if decide (8000 < Z.of_nat (length ev1)) then last_n (Z.to_nat 8000) ev1 else ev1) = ev1) as E.
  { case_decide as Hd; [| done]. exfalso. rewrite length_last_n in H. lia. }
  rewrite E. clear E H. subst ev1. case_decide; [| by left].
  destruct (keep_from_spec cut 0 0 ev) as (n & Hk & Hn & Hf). rewrite Hk. clear Hk.
  destruct n as [| n]; [by left |]. rewrite (decide_False (P := (S n = 0)%nat)) by done.
  replace (0 + S n - 1)%nat with n by lia. case_decide; [right | by left].
  destruct (lookup_lt_is_Some_2 ev n) as [e He]; [lia |].
  exists (take n ev), e, (drop (S n) ev). rewrite (take_S_r _ _ _ He) in Hf.
  apply Forall_app in Hf as [_ [Hf _]%Forall_cons_1].
  rewrite <-(drop_S _ _ _ He), take_drop. done.
Qed.

Lemma state_at_app st p ev t : state_at st (p ++ ev) t = state_at (state_at st p t) ev t.
Proof. apply foldl_app. Qed.

Lemma Sorted_suffix (ev k : list upEvent) : Sorted next (k ++ ev) -> Sorted next ev.
Proof. induction k as [| e k IH]; [done |]. cbn. intros H. inversion H. auto. Qed.

Lemma Sorted_snoc_next ev e :
  Sorted next ev -> (forall x, last ev = Some x -> next x e) -> Sorted next (ev ++ [e]).
Proof.
  induction 1 as [| x ev Hs IH Hd]; intros Hl; cbn; [by repeat constructor |].
  constructor.
  - apply IH. intros y Hy. apply Hl. destruct ev; [done |]. by cbn in *.
  - destruct ev as [| y ev]; cbn; constructor; [by apply Hl | by inversion Hd].
Qed.

Lemma log_ok_suffix now now' k ev : log_ok now (k ++ ev) -> now <= now' -> log_ok now' ev.
Proof.
  intros [Hs Hl] Hn. split; [by eapply Sorted_suffix |]. intros e He.
  destruct ev as [| x ev]; [done |]. specialize (Hl e). rewrite last_app, He in Hl. specialize (Hl eq_refl). lia.
Qed.

Lemma prune_up_is_suffix cut ev : exists k, ev = k ++ prune_up cut ev.
Proof.
  unfold prune_up. set (ev1 := if decide (1 < length ev)%nat then _ else ev).
  assert (exists k, ev = k ++ ev1) as [k Hk].
  { unfold ev1. repeat case_decide; try by exists [].
    exists (take (keep_from cut 0 0 ev) ev). by rewrite take_drop. }
  case_decide; [| by exists k].
  destruct (last_n_suffix (Z.to_nat 8000) ev1) as [k' Hk']. exists (k ++ k').
  by rewrite <-app_assoc, <-Hk'.
Qed.

(** *** The log of a reachable store *)

Lemma log_ok_mono now now' ev : log_ok now ev -> now <= now' -> log_ok now' ev.
Proof. intros H. by apply (log_ok_suffix now now' [] ev). Qed.

Lemma log_ok_record now ev up :
  log_ok now ev -> (forall e, last ev = Some e -> U e <> up) -> log_ok now (ev ++ [UpEvent now up]).
Proof.
  intros [Hs Hl] Hu. split.
  - apply Sorted_snoc_next; [done |]. intros x Hx. split; [by apply Hl |].
    specialize (Hu x Hx). cbn. destruct (U x), up; done.
  - intros e. rewrite last_snoc. intros [= <-]. cbn. lia.
Qed.

(** ** Histories of a store *)

Inductive op :=
| OTouch (name : string)
| ORecordState (name : string) (up : bool)
| OAdd (name : string) (port tx rx : Z)
| OSave.

Section histories.
Context (offset : time -> Z).

Definition apply_op (t : TrafficStore) (x : time * op) : TrafficStore :=
  match snd x with
  | OTouch name => Touch (fst x) t name
  | ORecordState name up => RecordState (fst x) t name up
  | OAdd name port tx rx => Add offset (fst x) t name port tx rx
  | OSave => fst (saver_tick (fst x) t)
  end.

Definition run (t : TrafficStore) (h : list (time * op)) : TrafficStore := foldl apply_op t h.

(** The clock never goes back, from second [now] on. *)
Fixpoint clocked (now : Z) (h : list (time * op)) : Prop :=
  match h with [] => True | (t, _) :: h' => now <= unix t /\ clocked (unix t) h' end.

Definition logs_ok (now : Z) (t : TrafficStore) : Prop :=
  forall n c, m t !! n = Some c -> log_ok now (Up c).

Lemma logs_ok_client now t n : logs_ok now t -> log_ok now (Up (client_of t n)).
Proof.
  intros H. unfold client_of. destruct (m t !! n) as [c |] eqn:E; cbn; [by eapply H |].
  split; [constructor | done].
Qed.

Lemma logs_ok_put now t n c d : logs_ok now t -> log_ok now (Up c) -> logs_ok now (put t n c d).
Proof.
  intros H Hc n' c'. cbn. intros [[-> <-] | [_ ?]]%lookup_insert_Some; [done | by eapply H].
Qed.

Lemma logs_ok_apply now t x : logs_ok now t -> now <= unix (fst x) -> logs_ok (unix (fst x)) (apply_op t x).
Proof.
  intros H0 Hn. assert (logs_ok (unix (fst x)) t) as H by (intros n c Hc; eapply log_ok_mono; eauto). clear H0.
  pose proof (fun n => logs_ok_client _ _ n H) as Hc.
  destruct x as [tm [name | name up | name port tx rx |]]; cbn [apply_op snd fst] in *.
  - unfold Touch. case_bool_decide; [done |]. by apply logs_ok_put; [| apply Hc].
  - unfold RecordState. case_bool_decide; [done |]. destruct (last _) as [e |] eqn:E; [case_bool_decide |].
    + by apply logs_ok_put; [| apply Hc].
    + apply logs_ok_put; [done |]. apply log_ok_record; [apply Hc |]. intros e'. rewrite E. by intros [= <-].
    + apply logs_ok_put; [done |]. apply log_ok_record; [apply Hc |]. by rewrite E.
  - unfold Add. case_bool_decide; [done |]. by apply logs_ok_put; [| apply Hc].
  - unfold saver_tick. destruct (_ || _); [done |]. intros n c. cbn. rewrite lookup_fmap.
    destruct (m t !! n) as [c0 |] eqn:E; [| done]. intros [= <-]. cbn.
    destruct (prune_up_is_suffix (unix (tm - 31 * 24 * hour)) (Up c0)) as [k Hk].
    apply (log_ok_suffix (unix tm) _ k); [rewrite <-Hk; by eapply H | done].
Qed.

Lemma logs_ok_run now t h : logs_ok now t -> clocked now h -> exists now', logs_ok now' (run t h).
Proof.
  revert now t. induction h as [| x h IH]; intros now t H Hc; [by exists now |].
  destruct x as [tm o]. destruct Hc as [Hn Hc]. cbn.
  apply (IH (unix tm)); [| done]. by apply (logs_ok_apply now t (tm, o)).
Qed.

(** Bytes added for [name] in a history. *)
Definition added (name : string) (h : list (time * op)) : Z :=
  foldr (fun (x : time * op) s => match snd x with
                    | OAdd n _ tx rx => if decide (n = name) then tx + rx + s else s
                    | _ => s
                    end) 0 h.

Definition no_save (h : list (time * op)) : Prop := Forall (fun x => snd x <> OSave) h.

Definition port_bytes (c : ct) : Z := map_sum (fun p => Tx p + Rx p) (Ports c).
Definition day_bytes (c : ct) : Z := map_sum (fun b => b) (Days c).

Lemma client_of_put t n c d n' : client_of (put t n c d) n' = if decide (n' = n) then c else client_of t n'.
Proof.
  unfold client_of. cbn. case_decide as E; [subst; by rewrite lookup_insert_eq | by rewrite lookup_insert_ne].
Qed.

Lemma apply_bytes t x name :
  name <> "" -> snd x <> OSave ->
  exists k l, port_bytes (client_of (apply_op t x) name) = port_bytes (client_of t name) + added name [x] + k * 2 ^ 64
    /\ day_bytes (client_of (apply_op t x) name) = day_bytes (client_of t name) + added name [x] + l * 2 ^ 64.
Proof.
  intros Hne Hs. destruct x as [tm [n | n up | n port tx rx |]]; cbn [apply_op snd fst] in *; [| | | done].
  - exists 0, 0. unfold Touch, port_bytes, day_bytes. case_bool_decide; [cbn; lia |].
    rewrite client_of_put. destruct (decide (name = n)) as [-> | ?]; cbn [Ports Days added foldr snd]; lia.
  - exists 0, 0. unfold RecordState, port_bytes, day_bytes. case_bool_decide; [cbn; lia |].
    destruct (last _); [case_bool_decide |];
      rewrite client_of_put; destruct (decide (name = n)) as [-> | ?]; cbn [Ports Days added foldr snd]; lia.
  - unfold Add. case_bool_decide as Hb.
    { exists 0, 0. cbn. rewrite decide_False by congruence. lia. }
    rewrite client_of_put. cbn [added foldr snd]. destruct (decide (name = n)) as [-> | Hd].
    2: { exists 0, 0. rewrite decide_False by congruence. lia. }
    rewrite decide_True by done. unfold port_bytes, day_bytes. cbn [Ports Days].
    rewrite !map_sum_insert. set (c := client_of t n).
    assert (from_option (fun p => Tx p + Rx p) 0 (Ports c !! port)
            = Tx (default (Pb 0 0) (Ports c !! port)) + Rx (default (Pb 0 0) (Ports c !! port))) as ->
      by by destruct (Ports c !! port).
    assert (from_option (fun b : Z => b) 0 (Days c !! today offset tm) = default 0 (Days c !! today offset tm)) as ->
      by by destruct (Days c !! today offset tm).
    cbn [Tx Rx].
    destruct (u64_eq (Tx (default (Pb 0 0) (Ports c !! port)) + tx)) as [k1 ->].
    destruct (u64_eq (Rx (default (Pb 0 0) (Ports c !! port)) + rx)) as [k2 ->].
    destruct (u64_eq (tx + rx)) as [k3 ->].
    destruct (u64_eq (default 0 (Days c !! today offset tm) + (tx + rx + k3 * 2 ^ 64))) as [k4 ->].
    exists (k1 + k2), (k3 + k4). lia.
Qed.

Lemma run_bytes t h name :
  name <> "" -> no_save h ->
  exists k l, port_bytes (client_of (run t h) name) = port_bytes (client_of t name) + added name h + k * 2 ^ 64
    /\ day_bytes (client_of (run t h) name) = day_bytes (client_of t name) + added name h + l * 2 ^ 64.
Proof.
  intros Hne. revert t. induction h as [| x h IH]; intros t Hs; [exists 0, 0; cbn; lia |].
  apply Forall_cons in Hs as [Hx Hs]. cbn [run foldl].
  destruct (apply_bytes t x name Hne Hx) as (k1 & l1 & H1 & H2).
  destruct (IH (apply_op t x) Hs) as (k2 & l2 & H3 & H4). unfold run in *.
  assert (added name (x :: h) = added name [x] + added name h) as ->
    by (unfold added; cbn; destruct (snd x); [lia | lia | case_decide; lia | lia]).
  exists (k1 + k2), (l1 + l2). lia.
Qed.
End histories.

(** *** Pruning the days *)

Lemma foldl_delete_lookup (d : gmap string Z) l k :
  foldl (fun d k => delete k d) d l !! k = if decide (k ∈ l) then None else d !! k.
Proof.
  revert d. induction l as [| k' l IH]; intros d; cbn [foldl].
  { rewrite decide_False; [done | apply not_elem_of_nil]. }
  rewrite IH. destruct (decide (k = k')) as [-> | Hne].
  - rewrite lookup_delete_eq. rewrite (decide_True (P := k' ∈ k' :: l)) by set_solver. by case_decide.
  - rewrite lookup_delete_ne by done. repeat case_decide; set_solver.
Qed.

Lemma prune_days_sub d k v : prune_days d !! k = Some v -> d !! k = Some v.
Proof.
  unfold prune_days. case_decide; [| done]. rewrite foldl_delete_lookup. by case_decide.
Qed.

Definition day_keys (d : gmap string Z) : list string := merge_sort String.le (map_to_list d).*1.

Lemma day_keys_perm d : day_keys d ≡ₚ (map_to_list d).*1.
Proof. apply merge_sort_Permutation. Qed.

Lemma day_keys_nodup d : NoDup (day_keys d).
Proof. rewrite day_keys_perm. apply NoDup_fst_map_to_list. Qed.

Lemma length_day_keys d : length (day_keys d) = size d.
Proof. by rewrite day_keys_perm, length_fmap, length_map_to_list. Qed.

Lemma elem_of_day_keys d k : k ∈ day_keys d <-> is_Some (d !! k).
Proof.
  rewrite day_keys_perm, list_elem_of_fmap. split.
  - intros ([k' v] & -> & Hx%elem_of_map_to_list). cbn. eauto.
  - intros [v Hv]. exists (k, v). by rewrite elem_of_map_to_list.
Qed.

Lemma prune_days_lookup d k :
  prune_days d !! k = if decide (k ∈ take (size d - 60) (day_keys d)) then None else d !! k.
Proof.
  unfold prune_days. fold (day_keys d). rewrite length_day_keys.
  destruct (decide (60 < size d)%nat) as [H | H]; [apply foldl_delete_lookup |].
  replace (size d - 60)%nat with 0%nat by lia. rewrite take_0, decide_False; [done | apply not_elem_of_nil].
Qed.

Lemma size_prune_days d : size (prune_days d) = Nat.min 60 (size d).
Proof.
  assert ((map_to_list (prune_days d)).*1 ≡ₚ drop (size d - 60) (day_keys d)) as HP.
  { apply NoDup_Permutation; [apply NoDup_fst_map_to_list | |].
    - pose proof (day_keys_nodup d) as Hn. rewrite <-(take_drop (size d - 60)) in Hn. by apply NoDup_app in Hn as (_ & _ & ?).
    - intros k. rewrite <-day_keys_perm, elem_of_day_keys, prune_days_lookup.
      pose proof (day_keys_nodup d) as Hn. pose proof (elem_of_day_keys d k) as He.
      rewrite <-(take_drop (size d - 60) (day_keys d)) in Hn, He.
      apply NoDup_app in Hn as (_ & Hn & _). specialize (Hn k). rewrite elem_of_app in He.
      case_decide; [| tauto]. split; [by intros [? ?] | tauto]. }
  rewrite <-length_map_to_list, <-(length_fmap fst), HP, length_drop, length_day_keys. lia.
Qed.

(** *** The percentage as a function of the log *)

Definition log_pct (n windowSec : Z) (ev : list upEvent) : Q :=
  match ev with
  | [] => -1
  | e0 :: _ =>
      let from := Z.max (n - windowSec) (T e0) in
      if n <=? from then -1 else (inject_Z (ups (U e0) ev from n) / inject_Z (n - from) * 100)%Q
  end.

Lemma uptimePct_log now t name windowSec c :
  m t !! name = Some c -> StronglySorted times_le (Up c) ->
  uptimePct now t name windowSec = log_pct (unix now) windowSec (Up c).
Proof.
  intros Hc Hs. unfold uptimePct, log_pct. rewrite Hc. set (n := unix now).
  destruct (Up c) as [| e0 rest] eqn:Hu; [done |]. rewrite <-Hu in *.
  set (from := Z.max (n - windowSec) (T e0)).
  assert ((if n - windowSec <? T e0 then T e0 else n - windowSec) = from) as ->
    by (unfold from; destruct (Z.ltb_spec (n - windowSec) (T e0)); lia).
  assert ((n - from <=? 0) = (n <=? from)) as ->
    by (destruct (Z.leb_spec n from); [apply Z.leb_le | apply Z.leb_gt]; lia).
  destruct (n <=? from) eqn:E; [done |]. breflect. do 3 f_equal.
  destruct (after_later from (Up c) Hs) as [Hf Hs'].
  rewrite up_dur_after, up_dur_spec; [| done | done | | lia].
  2: { apply (Forall_impl _ _ _ Hf). cbn. lia. }
  rewrite Z.add_0_l. apply ups_ext. intros s Hss. symmetry. apply entering_state. lia.
Qed.

(** Events before the one that carries the state into the window do not count. *)
Lemma log_pct_prefix n windowSec p e ev :
  StronglySorted times_le (p ++ e :: ev) -> T e <= n - windowSec ->
  log_pct n windowSec (p ++ e :: ev) = log_pct n windowSec (e :: ev).
Proof.
  intros Hs He. unfold log_pct. destruct p as [| e0 p]; [done |]. cbn [app].
  assert (T e0 <= T e) as H0.
  { apply (StronglySorted_app_1_elem_of times_le [e0] (p ++ e :: ev) e0 e Hs); set_solver. }
  rewrite !Z.max_l by lia. destruct (n <=? n - windowSec); [done |]. do 3 f_equal.
  apply ups_ext. intros s Hss. rewrite (app_comm_cons p (e :: ev) e0), state_at_app, !state_at_cons.
  by rewrite (proj2 (Z.leb_le (T e) s)) by lia.
Qed.

(** ** Properties *)

(** C11: the percentage is exact. For a client with a log whose times do not go
    back, [uptimePct] is 100 times the number of whole seconds of the window at
    which the client's last recorded state is up, over the seconds of the window
    the log covers; it is between 0 and 100, and -1 exactly when the window holds
    no covered second. *)
Theorem uptime_counts_seconds (now : time) (t : TrafficStore) (name : string) (windowSec : Z)
    (c : ct) (e0 : upEvent) (rest : list upEvent) :
  m t !! name = Some c -> Up c = e0 :: rest -> StronglySorted times_le (Up c) ->
  let n := unix now in
  let from := Z.max (n - windowSec) (T e0) in
  let up := Z.of_nat (length (filter (fun s => state_at (U e0) (Up c) s = true) (seqZ from (n - from)))) in
  uptimePct now t name windowSec
  = (if n <=? from then (-1 : Q) else (inject_Z up / inject_Z (n - from) * 100)%Q)
  /\ (from < n -> 0 <= up <= n - from).
Proof.
  intros Hc Hu Hs n from up. rewrite (uptimePct_log _ _ _ _ c Hc Hs). fold n.
  unfold log_pct. rewrite Hu at 1. split; [done |]. intros H. by apply ups_bounds; lia.
Qed.

(** C18: pruning does not change what is shown. For a window of at most 31 days
    and a log of fewer than 8000 events after pruning, a tick of the saver leaves
    the percentage of every client, then and at any later time, as it was. *)
Theorem prune_keeps_uptime (now now' : time) (t t' : TrafficStore) (w : option (gmap string ct))
    (name : string) (windowSec : Z) (c : ct) :
  m t !! name = Some c -> StronglySorted times_le (Up c) ->
  saver_tick now t = (t', w) ->
  (forall c', m t' !! name = Some c' -> Z.of_nat (length (Up c')) < 8000) ->
  unix now <= unix now' -> windowSec <= 31 * 86400 ->
  uptimePct now' t' name windowSec = uptimePct now' t name windowSec.
Proof.
  intros Hc Hs Ht Hlen Hn Hw. unfold saver_tick in Ht. destruct (_ || _); [by simplify_eq |].
  set (cut := unix (now - 31 * 24 * hour)) in *. simplify_eq.
  assert (m (MkStore (path t) (prune cut <$> m t) false) !! name = Some (prune cut c)) as Hc'
    by (cbn; by rewrite lookup_fmap, Hc).
  specialize (Hlen _ Hc'). cbn [Up prune] in Hlen.
  assert (cut <= unix now' - windowSec) as Hcut.
  { assert (cut = unix now - 31 * 86400); [| lia]. unfold cut, unix.
    change (31 * 24 * hour) with (31 * 86400 * second).
    replace (now - 31 * 86400 * second) with (now + (- (31 * 86400)) * second) by lia.
    by rewrite Z.div_add. }
  destruct (prune_up_suffix cut (Up c) Hlen) as [Heq | (p & e & ev' & Hev & Hp & He)].
  { unfold uptimePct. rewrite Hc', Hc. cbn [Up prune]. by rewrite Heq. }
  rewrite (uptimePct_log _ _ _ _ _ Hc'); cbn [Up prune]; rewrite Hp.
  - rewrite (uptimePct_log _ _ _ _ _ Hc Hs), Hev. rewrite Hev in Hs. symmetry. apply log_pct_prefix; [done | lia].
  - rewrite Hev in Hs. by apply StronglySorted_app_1_r in Hs.
Qed.

(** C28: the logs are well formed. From a state file whose logs are well formed
    (none, at the first start), over any history of calls and saver ticks on a
    clock that does not go back, the log of every client stays compact and
    ordered: the times never decrease and every event changes the state. *)
Theorem logs_well_formed (offset : time -> Z) (t0 : time) (path : string) (loaded : gmap string ct)
    (h : list (time * op)) (name : string) (c : ct) :
  (forall n c, loaded !! n = Some c -> log_ok (unix t0) (Up c)) ->
  clocked (unix t0) h ->
  m (run offset (NewTrafficStore t0 path loaded) h) !! name = Some c ->
  Sorted next (Up c) /\ StronglySorted times_le (Up c).
Proof.
  intros Hl Hc Hm.
  destruct (logs_ok_run offset (unix t0) (NewTrafficStore t0 path loaded) h) as [now' H]; [| done |].
  { intros n c'. cbn. rewrite lookup_fmap. destruct (loaded !! n) as [c0 |] eqn:E; [| done].
    intros [= <-]. specialize (Hl n c0 E). by destruct (LastSeen c0 =? 0). }
  destruct (H name c Hm) as [Hs _]. split; [done | by apply next_times].
Qed.

(** The accounts agree. From an empty store, over any history without a saver
    tick, the bytes of a client summed over its ports and summed over its days
    are both, as 64-bit integers, the bytes added for it: no byte is counted
    twice, or under another client, or lost. *)
Theorem traffic_conserved (offset : time -> Z) (t0 : time) (path : string) (h : list (time * op)) (name : string) :
  name <> "" -> no_save h ->
  let c := client_of (run offset (NewTrafficStore t0 path ∅) h) name in
  u64 (map_sum (fun p => Tx p + Rx p) (Ports c)) = u64 (added name h)
  /\ u64 (map_sum (fun b => b) (Days c)) = u64 (added name h).
Proof.
  intros Hn Hs c. destruct (run_bytes offset (NewTrafficStore t0 path ∅) h name Hn Hs) as (k & l & H1 & H2).
  assert (client_of (NewTrafficStore t0 path ∅) name = new_ct) as E
    by (unfold client_of; cbn; by rewrite fmap_empty, lookup_empty).
  rewrite E in H1, H2. unfold port_bytes, day_bytes in *. cbn [new_ct Ports Days] in *.
  rewrite map_sum_empty in *. fold c in H1, H2. rewrite H1, H2, !Z.add_0_l.
  split; apply u64_shift.
Qed.

(** The breakdown. The rows by port are those of the client, in ascending
    order of port; the rows by day are, newest first, the days of the client when
    there are at most 30 and the 30 newest otherwise. *)
Theorem breakdown_spec (t : TrafficStore) (name : string) (c : ct) :
  m t !! name = Some c ->
  let '(ports, days) := breakdown t name in
  Sorted port_le ports /\ ports ≡ₚ port_rows c
  /\ Sorted day_ge days /\ length days = Nat.min 30 (size (Days c))
  /\ exists older, days ++ older ≡ₚ day_rows c /\ forall x y, x ∈ days -> y ∈ older -> day_ge x y.
Proof.
  intros Hc. unfold breakdown. rewrite Hc.
  set (ps := merge_sort port_le (port_rows c)). set (ds := merge_sort day_ge (day_rows c)).
  assert (ds ≡ₚ day_rows c) as Hp by apply merge_sort_Permutation.
  assert (length ds = size (Days c)) as Hl by (rewrite Hp; unfold day_rows; by rewrite length_fmap, length_map_to_list).
  assert (StronglySorted day_ge ds) as Hss.
  { apply StronglySorted_merge_sort; [intros x y z; unfold day_ge; intros; by etransitivity |].
    intros x y. unfold day_ge. destruct (total String.le (r_date x) (r_date y)); auto. }
  assert ((if decide (30 < length ds)%nat then take 30 ds else ds) = take 30 ds) as ->
    by (case_decide; [done | symmetry; apply take_ge; lia]).
  split. { apply Sorted_merge_sort. intros x y. unfold port_le. lia. }
  split; [apply merge_sort_Permutation |].
  rewrite <-(take_drop 30 ds) in Hss, Hp. split; [apply StronglySorted_Sorted; by apply StronglySorted_app_1_l in Hss |].
  split; [by rewrite length_take, Hl |].
  exists (drop 30 ds). split; [done |]. intros x y Hx Hy. by eapply StronglySorted_app_1_elem_of.
Qed.

(** The saver bounds the days. A tick that saves leaves every client its
    newest 60 days, with their bytes: at most 60 are left, the ones removed are
    older than all the ones left, and none is removed when there were at most 60.
    What it writes is the state it leaves. *)
Theorem saver_keeps_newest_days (now : time) (t t' : TrafficStore) (w : gmap string ct) (name : string) (c : ct) :
  saver_tick now t = (t', Some w) -> m t !! name = Some c ->
  w = m t' /\ dirty t' = false
  /\ exists c', m t' !! name = Some c' /\ Ports c' = Ports c /\ LastSeen c' = LastSeen c
     /\ size (Days c') = Nat.min 60 (size (Days c))
     /\ (forall k, Days c' !! k = None \/ Days c' !! k = Days c !! k)
     /\ (forall k k', is_Some (Days c !! k) -> Days c' !! k = None -> is_Some (Days c' !! k') ->
                      String.le k k' /\ k <> k').
Proof.
  unfold saver_tick. intros Ht Hc. destruct (_ || _); [done |]. simplify_eq. cbn.
  split; [done |]. split; [done |]. eexists. rewrite lookup_fmap, Hc. split; [done |].
  split; [done |]. split; [done |]. cbn [Days prune]. set (d := Days c).
  split; [apply size_prune_days |]. split.
  - intros k. rewrite prune_days_lookup. case_decide; auto.
  - intros k k' Hk. rewrite !prune_days_lookup. case_decide as H1; [| intros E; rewrite E in Hk; by destruct Hk].
    intros _. case_decide as H2; [by intros [? ?] |]. intros Hk'.
    split; [| intros ->; done].
    assert (StronglySorted String.le (day_keys d)) as Hss by (apply StronglySorted_merge_sort; apply _).
    rewrite <-(take_drop (size d - 60) (day_keys d)) in Hss.
    apply (StronglySorted_app_1_elem_of _ _ _ _ _ Hss H1).
    apply elem_of_day_keys in Hk'. rewrite <-(take_drop (size d - 60) (day_keys d)) in Hk'.
    by apply elem_of_app in Hk' as [? | ?].
Qed.

(** ** Witnesses *)

Definition utc (t : time) : Z := 0.

(** Down for the seconds 1003 to 1007 of 1000 to 1010. *)
Definition demo_log : list upEvent := [UpEvent 1000 true; UpEvent 1003 false; UpEvent 1008 true].
Definition demo_ct : ct := Ct {[8022 := Pb 5 7]} {["2024-01-02" := 12]} 1010 demo_log.
Definition demo : TrafficStore := MkStore "traffic.json" {["tk-a-web" := demo_ct]} true.

Lemma demo_log_sorted : StronglySorted times_le demo_log.
Proof. apply next_times. repeat constructor; cbn; lia. Qed.

Lemma uptime_counts_seconds_witness :
  uptimePct (of_unix 1010) demo "tk-a-web" 86400 = (inject_Z 5 / inject_Z 10 * 100)%Q
  /\ uptimePct (of_unix 1010) demo "tk-a-web" 5 = (inject_Z 2 / inject_Z 5 * 100)%Q.
Proof.
  split; (etransitivity;
    [apply (uptime_counts_seconds (of_unix 1010) demo "tk-a-web" _ demo_ct _ _ eq_refl eq_refl demo_log_sorted)
    | reflexivity]).
Defined.

(** Saved 31 days and five seconds after the log began. *)
Definition demo_save : time := of_unix (1005 + 31 * 86400).

Lemma prune_keeps_uptime_witness :
  uptimeSeries (fst (saver_tick demo_save demo)) "tk-a-web" = [UpEvent 1003 false; UpEvent 1008 true]
  /\ uptimePct demo_save (fst (saver_tick demo_save demo)) "tk-a-web" (31 * 86400)
     = uptimePct demo_save demo "tk-a-web" (31 * 86400).
Proof.
  split; [vm_compute; reflexivity |].
  apply (prune_keeps_uptime demo_save demo_save demo _ (snd (saver_tick demo_save demo)) "tk-a-web" _ demo_ct);
    [reflexivity | exact demo_log_sorted | apply surjective_pairing | | lia | lia].
  intros c' Hc'. vm_compute in Hc'. injection Hc' as <-. vm_compute. reflexivity.
Defined.

Definition demo_history : list (time * op) :=
  [(of_unix 10, OTouch "a"); (of_unix 10, ORecordState "a" true); (of_unix 11, OAdd "a" 8022 5 7);
   (of_unix 11, ORecordState "a" true); (of_unix 86411, OAdd "a" 8023 1 (2 ^ 64 - 1));
   (of_unix 86412, ORecordState "a" false)].

Lemma logs_well_formed_witness :
  exists c, m (run utc (NewTrafficStore 0 "" ∅) demo_history) !! "a" = Some c
    /\ Up c = [UpEvent 10 true; UpEvent 86412 false]
    /\ Sorted next (Up c) /\ StronglySorted times_le (Up c).
Proof.
  eexists. split; [reflexivity |]. split; [vm_compute; reflexivity |].
  eapply (logs_well_formed utc 0 "" ∅ demo_history "a"); [| vm_compute; repeat split; congruence | reflexivity].
  intros n c H. rewrite lookup_empty in H. discriminate H.
Defined.

Lemma traffic_conserved_witness :
  let c := client_of (run utc (NewTrafficStore 0 "" ∅) demo_history) "a" in
  u64 (map_sum (fun p => Tx p + Rx p) (Ports c)) = u64 (2 ^ 64 + 12)
  /\ u64 (map_sum (fun b => b) (Days c)) = u64 (2 ^ 64 + 12).
Proof.
  apply (traffic_conserved utc 0 "" demo_history "a"); [discriminate |].
  repeat constructor; discriminate.
Defined.

Lemma breakdown_spec_witness :
  breakdown demo "tk-a-web" = ([PortRow 8022 5 7], [DayRow "2024-01-02" 12])
  /\ Sorted port_le (fst (breakdown demo "tk-a-web")).
Proof.
  split; [vm_compute; reflexivity |].
  pose proof (breakdown_spec demo "tk-a-web" demo_ct eq_refl) as H.
  destruct (breakdown demo "tk-a-web") as [ps ds]. exact (proj1 H).
Defined.

Lemma saver_keeps_newest_days_witness :
  exists w c', snd (saver_tick demo_save demo) = Some w
    /\ m (fst (saver_tick demo_save demo)) !! "tk-a-web" = Some c' /\ size (Days c') = 1%nat.
Proof.
  pose proof (saver_keeps_newest_days demo_save demo (fst (saver_tick demo_save demo))
    (prune (unix (demo_save - 31 * 24 * hour)) <$> m demo) "tk-a-web" demo_ct eq_refl eq_refl) as H.
  destruct H as (_ & _ & c' & H1 & _ & _ & H2 & _).
  do 2 eexists. split; [reflexivity |]. split; [exact H1 |]. rewrite H2. vm_compute. reflexivity.
Defined.
