(* ===== verification/Persist.v ===== *)
(** * The traffic file over restarts

    Models what of src/core/internal/monitor/traffic.go touches the disk: the JSON
    of the store, the loading by NewTrafficStore and the writing by the saver,
    through a temporary file and a rename, with writes that fail and a server that
    is restarted at any time. A file may hold nil where the store has maps and
    records; [loaded] tells these files apart, since the methods of the store, and
    NewTrafficStore itself, then dereference nil. *)

From S2P Require Import GoJson Traffic.

(** ** The file *)

Definition pb_fields : list (field pb) :=
  [member "tx" (go_uint 64) Tx (fun v p => Pb v (Rx p)); member "rx" (go_uint 64) Rx (fun v p => Pb (Tx p) v)].
Definition pb_json : codec pb :=
  go_struct (Pb 0 0) (fun p => [("tx", enc (go_uint 64) (Tx p)); ("rx", enc (go_uint 64) (Rx p))]) pb_fields.

Definition up_fields : list (field upEvent) :=
  [member "t" go_int T (fun v e => UpEvent v (U e)); member "u" go_bool U (fun v e => UpEvent (T e) v)].
Definition up_json : codec upEvent :=
  go_struct (UpEvent 0 false) (fun e => [("t", enc go_int (T e)); ("u", enc go_bool (U e))]) up_fields.

(** A [ct] as the decoder leaves it. *)
Record raw_ct := RawCt {
  rw_Ports : option (gmap Z (option pb)); rw_Days : option (gmap string Z); rw_LastSeen : Z; rw_Up : list upEvent;
}.

Definition ports_json : codec (option (gmap Z (option pb))) := go_map (uint_key 32) (go_ptr pb_json).
Definition days_json : codec (option (gmap string Z)) := go_map string_key (go_uint 64).

Definition ct_fields : list (field raw_ct) :=
  [member "ports" ports_json rw_Ports (fun v c => RawCt v (rw_Days c) (rw_LastSeen c) (rw_Up c));
   member "days" days_json rw_Days (fun v c => RawCt (rw_Ports c) v (rw_LastSeen c) (rw_Up c));
   member "last_seen" go_int rw_LastSeen (fun v c => RawCt (rw_Ports c) (rw_Days c) v (rw_Up c));
   member "up" (go_list up_json) rw_Up (fun v c => RawCt (rw_Ports c) (rw_Days c) (rw_LastSeen c) v)].
Definition ct_json : codec raw_ct :=
  go_struct (RawCt None None 0 [])
    (fun c => [("ports", enc ports_json (rw_Ports c)); ("days", enc days_json (rw_Days c));
               ("last_seen", enc go_int (rw_LastSeen c))]
              ++ (if decide (rw_Up c = []) then [] else [("up", enc (go_list up_json) (rw_Up c))])) ct_fields.

Definition store_json : codec (option (gmap string (option raw_ct))) := go_map string_key (go_ptr ct_json).

(** A map without nil. *)
Definition all_some `{Countable K} {A : Type} (m : gmap K (option A)) : option (gmap K A) :=
  if decide (map_Forall (fun _ x => is_Some x) m) then Some (omap id m) else None.

Definition solid (r : raw_ct) : option ct :=
  ps ← rw_Ports r; ps ← all_some ps; ds ← rw_Days r; Some (Ct ps ds (rw_LastSeen r) (rw_Up r)).
Definition raw (c : ct) : raw_ct := RawCt (Some (Some <$> Ports c)) (Some (Days c)) (LastSeen c) (Up c).

(** What the saver writes. *)
Definition marshalled (m : gmap string ct) : string := Marshal store_json (Some (Some ∘ raw <$> m)).

(** What [NewTrafficStore] finds in the file, whose errors it ignores: [None] when
    there is nil in it. *)
Definition unmarshalled (data : string) : option (gmap string ct) :=
  m ← (Unmarshal store_json data (Some ∅)).1; all_some ((fun x => r ← x; solid r) <$> m).

(** [None] is a file that cannot be read. *)
Definition loaded (file : option string) : option (gmap string ct) :=
  match file with Some data => unmarshalled data | None => Some ∅ end.

Section persist.
Context (offset : time -> Z).

(** A server's store and the file at its path. *)
Record persisted := Persisted { p_store : TrafficStore; p_file : option string }.

(** [None] when a nil in the file is met. *)
Definition load (now : time) (path : string) (file : option string) : option TrafficStore :=
  NewTrafficStore now path <$> loaded file.

(** One tick of [saver]: [ok] says that the write and the rename succeed. *)
Definition saver_io (now : time) (ok : bool) (p : persisted) : persisted :=
  let '(t, written) := saver_tick now (p_store p) in
  Persisted t (match written with
               | Some m => if ok then Some (marshalled m) else p_file p
               | None => p_file p
               end).

Inductive event :=
| EOp (now : time) (o : op)           (* a method of the store *)
| ETick (now : time) (ok : bool)
| ERestart (now : time).

Definition happens (p : persisted) (e : event) : option persisted :=
  match e with
  | EOp now OSave => Some p
  | EOp now o => Some (Persisted (apply_op offset (p_store p) (now, o)) (p_file p))
  | ETick now ok => Some (saver_io now ok p)
  | ERestart now => t ← load now (path (p_store p)) (p_file p); Some (Persisted t (p_file p))
  end.

Fixpoint lives (p : persisted) (es : list event) : option persisted :=
  match es with [] => Some p | e :: es' => p' ← happens p e; lives p' es' end.

Definition boot (now : time) (path : string) (file : option string) : option persisted :=
  t ← load now path file; Some (Persisted t file).
End persist.

(** ** The file read back *)

Definition pb_fits (p : pb) : Prop := 0 <= Tx p < 2 ^ 64 /\ 0 <= Rx p < 2 ^ 64.
Definition up_fits (e : upEvent) : Prop := is_i64 (T e) /\ True.
Definition days_fits : option (gmap string Z) -> Prop := from_option (map_fits valid_utf8 (fun n => 0 <= n < 2 ^ 64)) True.
Definition ports_fits : option (gmap Z (option pb)) -> Prop :=
  from_option (map_fits (fun p => 0 <= p < 2 ^ 32) (from_option pb_fits True)) True.
Definition raw_fits (r : raw_ct) : Prop :=
  ports_fits (rw_Ports r) /\ days_fits (rw_Days r) /\ is_i64 (rw_LastSeen r) /\ Forall up_fits (rw_Up r).

#[export] Instance lawful_pb : Lawful pb_json pb_fits 1.
Proof.
  split; [| | struct_fits pb_fits | done].
  - intros p [H1 H2]. struct_wf; done.
  - intros [a b] [H1 H2]. change (dec pb_json _ _)
      with (foldl (dec_field pb_fields) (Pb 0 0, true) [(coerce "tx", norm (enc (go_uint 64) a)); (coerce "rx", norm (enc (go_uint 64) b))]).
    struct_round.
Qed.

#[export] Instance lawful_up : Lawful up_json up_fits 1.
Proof.
  split; [| | struct_fits up_fits | done].
  - intros e [H1 H2]. struct_wf; done.
  - intros [a b] [H1 H2]. change (dec up_json _ _)
      with (foldl (dec_field up_fields) (UpEvent 0 false, true) [(coerce "t", norm (enc go_int a)); (coerce "u", norm (enc go_bool b))]).
    struct_round.
Qed.

#[export] Instance lawful_ports : Lawful ports_json ports_fits 2.
Proof. apply _. Qed.

#[export] Instance lawful_days : Lawful days_json days_fits 1.
Proof. apply _. Qed.

#[export] Instance lawful_ct : Lawful ct_json raw_fits 3.
Proof.
  split; [| | struct_fits raw_fits | repeat split; try done; constructor].
  - intros r (H1 & H2 & H3 & H4). cbn [enc ct_json go_struct]. case_decide; struct_wf; done.
  - intros [ps ds l up] (H1 & H2 & H3 & H4). cbn [rw_Ports rw_Days rw_LastSeen rw_Up] in *.
    change (dec ct_json (norm (enc ct_json (RawCt ps ds l up))) (zero_of ct_json))
      with (foldl (dec_field ct_fields) (RawCt None None 0 [], true)
        ((coerce "ports", norm (enc ports_json ps)) :: (coerce "days", norm (enc days_json ds))
         :: (coerce "last_seen", norm (enc go_int l))
         :: List.map norm_field (if decide (up = []) then [] else [("up", enc (go_list up_json) up)]))).
    struct_round. case_decide as Hu; [by subst |]. cbn [List.map]. unfold norm_field. cbn [fst snd]. struct_round.
Qed.

#[export] Instance lawful_store : Lawful store_json (from_option (map_fits valid_utf8 (from_option raw_fits True)) True) 4.
Proof. apply _. Qed.

(** A client's record that fits its Go types. *)
Definition ct_fits (c : ct) : Prop :=
  map_fits (fun p => 0 <= p < 2 ^ 32) pb_fits (Ports c) /\ map_fits valid_utf8 (fun n => 0 <= n < 2 ^ 64) (Days c)
  /\ is_i64 (LastSeen c) /\ Forall up_fits (Up c).
Definition storable (m : gmap string ct) : Prop := map_fits valid_utf8 ct_fits m.

Lemma all_some_fmap `{Countable K} {A B : Type} (f : A -> option B) (g : A -> B) (m : gmap K A) :
  (forall a, f a = Some (g a)) -> all_some (f <$> m) = Some (g <$> m).
Proof.
  intros Hf. unfold all_some. rewrite decide_True.
  - f_equal. apply map_eq. intros k. rewrite lookup_omap, !lookup_fmap. destruct (m !! k); cbn; [by rewrite Hf | done].
  - intros k x. rewrite lookup_fmap. destruct (m !! k); cbn; [| done]. intros [= <-]. rewrite Hf. eauto.
Qed.

Lemma all_some_lookup `{Countable K} {A : Type} (m : gmap K (option A)) (m' : gmap K A) k a :
  all_some m = Some m' -> m' !! k = Some a -> m !! k = Some (Some a).
Proof.
  unfold all_some. case_decide as H0; [| done]. intros [= <-]. rewrite lookup_omap. destruct (m !! k) as [[b |] |]; cbn; [| done ..].
  by intros [= <-].
Qed.

Lemma solid_raw c : solid (raw c) = Some c.
Proof.
  unfold solid, raw. cbn [rw_Ports rw_Days rw_LastSeen rw_Up mbind option_bind].
  rewrite (all_some_fmap Some id) by done. cbn. rewrite map_fmap_id. by destruct c.
Qed.

Lemma raw_fits_ct c : ct_fits c -> raw_fits (raw c).
Proof.
  intros (H1 & H2 & H3 & H4). split; [| done]. intros p x. rewrite lookup_fmap. destruct (Ports c !! p) eqn:E; [| done].
  intros [= <-]. by apply (H1 p).
Qed.

Lemma solid_fits r c : solid r = Some c -> raw_fits r -> ct_fits c.
Proof.
  unfold solid. intros H (H1 & H2 & H3 & H4). destruct (rw_Ports r) as [ps |]; [| done]. cbn [mbind option_bind] in H.
  destruct (all_some ps) as [ps' |] eqn:Eps; [| done]. cbn [mbind option_bind] in H.
  destruct (rw_Days r) as [ds |]; [| done]. injection H as <-. split; [| done]. intros p b Hb.
  pose proof (all_some_lookup _ _ _ _ Eps Hb) as Hp. by apply (H1 p (Some b)).
Qed.

(** The file the saver writes brings the store back. *)
Lemma unmarshalled_marshalled m : storable m -> unmarshalled (marshalled m) = Some m.
Proof.
  intros Hm. unfold unmarshalled, marshalled, Unmarshal, Marshal.
  assert (map_fits valid_utf8 (from_option raw_fits True) (Some ∘ raw <$> m)) as Hr.
  { intros n x. rewrite lookup_fmap. destruct (m !! n) as [c |] eqn:E; [| done]. intros [= <-].
    destruct (Hm n c E). split; [done | by apply raw_fits_ct]. }
  rewrite <-(append_nil_r (text _)), (parse_text 4) by (done || by apply law_wf).
  change (dec store_json ?v (Some ∅)) with (dec store_json v (zero_of store_json)).
  rewrite law_round by done. cbn [fst mbind option_bind]. rewrite <-map_fmap_compose.
  rewrite (all_some_fmap _ id); [by rewrite map_fmap_id | intros c; cbn; apply solid_raw].
Qed.

(** Whatever the file is, what is loaded from it fits. *)
Lemma unmarshalled_storable data m : unmarshalled data = Some m -> storable m.
Proof.
  unfold unmarshalled. pose proof (unmarshal_fits store_json _ 4 data (Some ∅)) as Hf. specialize (Hf (map_Forall_empty _)).
  destruct (Unmarshal store_json data (Some ∅)).1 as [m0 |]; [| done]. cbn [mbind option_bind from_option] in *.
  intros H n c Hc. pose proof (all_some_lookup _ _ _ _ H Hc) as Hn. rewrite lookup_fmap in Hn.
  destruct (m0 !! n) as [x |] eqn:E; [| done]. destruct (Hf n x E) as [H1 H2]. split; [done |].
  destruct x as [r |]; [| done]. cbn in Hn, H2. injection Hn as Hn. by eapply solid_fits.
Qed.

Lemma loaded_storable file m : loaded file = Some m -> storable m.
Proof. destruct file as [data |]; [apply unmarshalled_storable |]. intros [= <-]. apply map_Forall_empty. Qed.

(** ** What the operations keep *)

(** A time whose seconds are an int64, as all the clock gives. *)
Definition readable (now : time) : Prop := is_i64 (unix now).

Definition op_name (o : op) : string :=
  match o with OTouch n => n | ORecordState n _ => n | OAdd n _ _ _ => n | OSave => "" end.
Definition op_port (o : op) : Z := match o with OAdd _ p _ _ => p | _ => 0 end.

(** The names are text, the ports uint32, and the clock can be read. *)
Definition event_ok (e : event) : Prop :=
  match e with
  | EOp now o => readable now /\ valid_utf8 (op_name o) /\ 0 <= op_port o < 2 ^ 32
  | ETick _ _ => True
  | ERestart now => readable now
  end.

Lemma storable_client t n : storable (m t) -> ct_fits (client_of t n).
Proof.
  intros H. unfold client_of. destruct (m t !! n) as [c |] eqn:E; cbn; [by apply (H n) |].
  split; [apply map_Forall_empty |]. split; [apply map_Forall_empty |]. by split; [| constructor].
Qed.

Lemma storable_put t n c d : storable (m t) -> valid_utf8 n -> ct_fits c -> storable (m (put t n c d)).
Proof. intros H Hn Hc. apply map_Forall_insert_2; [by split | done]. Qed.

Lemma valid_date z : valid_utf8 (date_string z).
Proof.
  apply valid_ascii. unfold date_string, pad4, pad2. destruct (civil _) as [[y mo] d].
  repeat (apply ascii_append); try apply ascii_itoa; repeat case_match; repeat constructor.
Qed.

Section kept.
Context (offset : time -> Z).

Lemma storable_apply t now o : event_ok (EOp now o) -> o <> OSave -> storable (m t) -> storable (m (apply_op offset t (now, o))).
Proof.
  intros (Hnow & Hn & Hp) Ho H. pose proof (fun n => storable_client t n H) as Hc.
  destruct o as [n | n up | n port a b |]; unfold apply_op; cbn [snd fst op_name op_port] in *; [| | | done].
  - unfold Touch. case_bool_decide; [done |]. destruct (Hc n) as (H1 & H2 & H3 & H4). by apply storable_put.
  - unfold RecordState. case_bool_decide; [done |]. destruct (Hc n) as (H1 & H2 & H3 & H4).
    assert (Forall up_fits (Up (client_of t n) ++ [UpEvent (unix now) up])) as Hup by (apply Forall_app; repeat constructor; apply H4 || apply Hnow).
    destruct (last _); [case_bool_decide |]; by apply storable_put.
  - unfold Add. case_bool_decide; [done |]. destruct (Hc n) as (H1 & H2 & H3 & H4). apply storable_put; [done | done |].
    split; [| split; [| done]]; apply map_Forall_insert_2; try done.
    + split; [done |]. split; apply u64_range.
    + split; [apply valid_date | apply u64_range].
Qed.

Lemma storable_prune cut t : storable t -> storable (prune cut <$> t).
Proof.
  intros H n c. rewrite lookup_fmap. destruct (t !! n) as [c0 |] eqn:E; [| done]. intros [= <-].
  destruct (H n c0 E) as (Hn & H1 & H2 & H3 & H4). split; [done |]. split; [done |]. split; [| split; [done |]].
  - intros k b Hb%prune_days_sub. by apply (H2 k).
  - cbn. destruct (prune_up_is_suffix cut (Up c0)) as [k Hk]. rewrite Hk in H4. by apply Forall_app in H4 as [_ H4].
Qed.

Lemma storable_new now path l : readable now -> storable l -> storable (m (NewTrafficStore now path l)).
Proof.
  intros Hnow H n c. unfold NewTrafficStore. cbn [m]. rewrite lookup_fmap. destruct (l !! n) as [c0 |] eqn:E; [| done]. intros [= <-].
  destruct (H n c0 E) as (Hn & H1 & H2 & H3 & H4). split; [done |]. by destruct (LastSeen c0 =? 0).
Qed.

(** What a record holds besides the time the client was last seen. *)
Definition core (c : ct) : gmap Z pb * gmap string Z * list upEvent := (Ports c, Days c, Up c).
Definition cores (m : gmap string ct) : gmap string (gmap Z pb * gmap string Z * list upEvent) := core <$> m.

Lemma new_cores now path l : cores (m (NewTrafficStore now path l)) = cores l.
Proof.
  unfold cores, NewTrafficStore. cbn [m]. rewrite <-map_fmap_compose. apply map_fmap_ext. intros n c _. cbn.
  by destruct (LastSeen c =? 0).
Qed.

Lemma apply_path t x : path (apply_op offset t x) = path t.
Proof.
  destruct x as [now [n | n up | n port a b |]]; unfold apply_op; cbn [snd fst].
  - unfold Touch. by case_bool_decide.
  - unfold RecordState. case_bool_decide; [done |]. destruct (last _); [by case_bool_decide | done].
  - unfold Add. by case_bool_decide.
  - unfold saver_tick. by destruct (_ || _).
Qed.

(** A method that leaves the store clean has changed nothing. *)
Lemma apply_clean t now o :
  o <> OSave -> dirty (apply_op offset t (now, o)) = false ->
  dirty t = false /\ cores (m (apply_op offset t (now, o))) = cores (m t).
Proof.
  destruct o as [n | n up | n port a b |]; intros Ho; unfold apply_op; cbn [snd fst]; [| | | done].
  - unfold Touch. case_bool_decide; done.
  - unfold RecordState. case_bool_decide; [done |]. destruct (last (Up (client_of t n))) as [e |] eqn:El; [| done].
    case_bool_decide; [| done]. cbn. intros Hd. split; [done |]. unfold cores. rewrite fmap_insert.
    unfold client_of in *. destruct (m t !! n) as [c |] eqn:En; [| done]. cbn. apply insert_id.
    by rewrite lookup_fmap, En.
  - unfold Add. case_bool_decide; done.
Qed.

(** The file can be loaded, the store can be saved, and a clean store is what its file says. *)
Definition durable (pth : string) (p : persisted) : Prop :=
  path (p_store p) = pth /\ storable (m (p_store p))
  /\ exists l, loaded (p_file p) = Some l /\ (dirty (p_store p) = false -> cores (m (p_store p)) = cores l).

Lemma boot_durable now pth file p : readable now -> boot now pth file = Some p -> durable pth p.
Proof.
  intros Hnow. unfold boot, load. destruct (loaded file) as [l |] eqn:E; [| done]. intros [= <-].
  split; [done |]. split; [apply storable_new; [done | by eapply loaded_storable] |]. exists l. split; [done |].
  intros _. apply new_cores.
Qed.

Lemma durable_happens pth p e :
  event_ok e -> (forall now ok, e = ETick now ok -> ok = true) -> pth <> "" -> durable pth p ->
  exists p', happens offset p e = Some p' /\ durable pth p'.
Proof.
  intros He Hok Hpath (Hp & Hs & l & Hl & Hd). destruct e as [now o | now ok | now]; cbn [happens].
  - assert (o = OSave \/ o <> OSave) as [-> | Ho] by (destruct o; (by left) || (by right)); [eexists; split; [done |]; split; eauto |].
    exists (Persisted (apply_op offset (p_store p) (now, o)) (p_file p)). split; [by destruct o |].
    split; [cbn [p_store]; by rewrite apply_path |]. split; [by apply storable_apply |]. exists l. split; [done |]. cbn [p_store].
    intros [Hc ->]%apply_clean; [by apply Hd | done].
  - rewrite (Hok now ok eq_refl). eexists. split; [done |]. unfold saver_io, saver_tick.
    rewrite Hp, (bool_decide_eq_false_2 _ Hpath), orb_false_r.
    destruct (dirty (p_store p)) eqn:Ed; cbn [negb]; [| split; eauto].
    split; [done |]. pose proof (storable_prune (unix (now - 31 * 24 * hour)) _ Hs) as Hs'. split; [done |].
    eexists. split; [by apply unmarshalled_marshalled | done].
  - unfold load. rewrite Hl. cbn [mbind option_bind fmap option_fmap option_map]. eexists. split; [done |].
    split; [done |]. split; [apply storable_new; [done | by eapply loaded_storable] |]. exists l. split; [done |].
    intros _. apply new_cores.
Qed.

Lemma durable_lives pth p es :
  Forall event_ok es -> Forall (fun e => forall now ok, e = ETick now ok -> ok = true) es -> pth <> "" -> durable pth p ->
  exists p', lives offset p es = Some p' /\ durable pth p'.
Proof.
  intros He Hes Hpath. revert p. induction He as [| e es He _ IH]; intros p Hd; [by exists p |].
  apply Forall_cons in Hes as [Hok Hes]. destruct (durable_happens pth p e He Hok Hpath Hd) as (p1 & H1 & Hd1).
  destruct (IH Hes p1 Hd1) as (p2 & H2 & Hd2). exists p2. cbn [lives]. by rewrite H1.
Qed.

Lemma lives_app p es es' : lives offset p (es ++ es') = p' ← lives offset p es; lives offset p' es'.
Proof. revert p. induction es as [| e es IH]; intros p; [done |]. cbn. destruct (happens offset p e); [apply IH | done]. Qed.

(** The saver finds nothing to do in a clean store. *)
Lemma clean_ticks p ticks : dirty (p_store p) = false -> lives offset p ((fun n => ETick n true) <$> ticks) = Some p.
Proof.
  intros Hd. induction ticks as [| n ticks IH]; [done |]. cbn [fmap list_fmap lives happens].
  unfold saver_io, saver_tick. rewrite Hd. cbn [negb orb mbind option_bind]. by destruct p.
Qed.

Lemma tick_cleans now p : path (p_store p) <> "" -> dirty (p_store (saver_io now true p)) = false.
Proof.
  intros Hp. unfold saver_io, saver_tick. rewrite (bool_decide_eq_false_2 _ Hp), orb_false_r. by destruct (dirty (p_store p)) eqn:E.
Qed.
End kept.

(** ** Properties *)

(** C16: what is saved survives. A server starts on any file, whatever its bytes, in
    which no nil stands for a map or a record, with clients whose names are valid
    UTF-8. If no write fails, then no history of the store, saver ticks and restarts makes
    it meet a nil, and a tick of the saver after it makes the whole state durable: the
    JSON in the file, read by a server started right after, gives back the same
    bytes by port and by day and the same availability log of every client, whether
    or not the tick had anything to write. *)
Theorem saves_are_durable (offset : time -> Z) (now0 now now' : time) (file : option string) (pth : string) (es : list event)
    (p0 : persisted) (Hboot : boot now0 pth file = Some p0) (Hpath : pth <> "") (Hnow0 : readable now0) (Hnow' : readable now')
    (Hes : Forall event_ok es) (Hok : Forall (fun e => forall t ok, e = ETick t ok -> ok = true) es) :
  exists p p', lives offset p0 (es ++ [ETick now true]) = Some p
    /\ happens offset p (ERestart now') = Some p'
    /\ cores (m (p_store p')) = cores (m (p_store p)) /\ dirty (p_store p) = false.
Proof.
  destruct (durable_lives offset pth p0 es Hes Hok Hpath (boot_durable _ _ _ _ Hnow0 Hboot)) as (p1 & H1 & Hd1).
  destruct (durable_happens offset pth p1 (ETick now true)) as (p & H2 & Hd); [done | by intros ? ? [= _ ->] | done | done |].
  exists p. rewrite lives_app, H1. cbn [lives happens mbind option_bind] in *. injection H2 as <-.
  pose proof (tick_cleans now p1) as Hc. rewrite (proj1 Hd1) in Hc. specialize (Hc Hpath).
  destruct Hd as (Hp & _ & l & Hl & Hcl). unfold load. rewrite Hl. cbn. eexists. split; [done |]. split; [done |].
  split; [| done]. cbn [p_store]. rewrite new_cores. symmetry. by apply Hcl.
Qed.

(** A save that fails is not tried again. The saver marks the store clean before it
    writes and ignores the error, so when a write fails the next ticks do nothing,
    even if the disk could be written again; unless something changes in between, a
    restart comes back with the old file, and all that was counted since is lost. *)
Theorem failed_save_forgotten (offset : time -> Z) (t : TrafficStore) (file : option string) (now : time) (ticks : list time)
    (now' : time) (Hdirty : dirty t = true) (Hpath : path t <> "") :
  exists p, lives offset (Persisted t file) (ETick now false :: ((fun n => ETick n true) <$> ticks)) = Some p
  /\ p_file p = file /\ p_store <$> happens offset p (ERestart now') = load now' (path t) file.
Proof.
  set (p1 := Persisted (MkStore (path t) (prune (unix (now - 31 * 24 * hour)) <$> m t) false) file).
  assert (happens offset (Persisted t file) (ETick now false) = Some p1) as E.
  { cbn [happens]. unfold saver_io, saver_tick. cbn [p_store p_file]. rewrite Hdirty, (bool_decide_eq_false_2 _ Hpath). done. }
  exists p1. cbn [lives]. rewrite E. cbn [mbind option_bind]. rewrite clean_ticks by done. split; [done |]. split; [done |].
  cbn [happens p_store p_file p1 path]. unfold load. by destruct (loaded file).
Qed.

(** ** Witnesses *)

(** A file of the code, and one from an older version, in any order and with white space. *)
Definition demo_text : string :=
  html "{`tk-a-web`:{`ports`:{`8022`:{`tx`:5,`rx`:7}},`days`:{`1970-01-01`:12},`last_seen`:3,`up`:[{`t`:2,`u`:true}]}}".
Definition older_text : string :=
  html " { `tk-a-web` : { `days`:{}, `PORTS`:{ `8022`:{`rx`:7, `tx`:5, `note`:[1.5e3]} } } } ".

Definition demo_ct : ct := Ct {[8022 := Pb 5 7]} {["1970-01-01" := 12]} 3 [UpEvent 2 true].

Example demo_written : marshalled {["tk-a-web" := demo_ct]} = demo_text.
Proof. vm_compute. reflexivity. Qed.

Example demo_read : unmarshalled demo_text = Some {["tk-a-web" := demo_ct]}
  /\ unmarshalled older_text = Some {["tk-a-web" := Ct {[8022 := Pb 5 7]} ∅ 0 []]}.
Proof. split; vm_compute; reflexivity. Qed.

(** What is cut short is not read at all; a value that does not fit is skipped; nil is met. *)
Example odd_files :
  unmarshalled (html "{`tk-a-web`:{`ports`:{}") = Some ∅
  /\ unmarshalled (html "{`a`:{`ports`:{`80`:{`tx`:-1,`rx`:7}},`days`:{},`last_seen`:1e3}}") = Some {["a" := Ct {[80 := Pb 0 7]} ∅ 0 []]}
  /\ unmarshalled (html "{`a`:null}") = None /\ unmarshalled (html "{`a`:{`days`:{}}}") = None /\ unmarshalled "null" = None.
Proof. split_and!; vm_compute; reflexivity. Qed.

Lemma saves_are_durable_witness :
  exists p0 p p', boot 0 "traffic.json" (Some older_text) = Some p0
  /\ lives utc p0 ([EOp 10 (OAdd "tk-a-web" 8022 5 7)] ++ [ETick 20 true]) = Some p
  /\ happens utc p (ERestart 30) = Some p' /\ cores (m (p_store p')) = cores (m (p_store p)).
Proof.
  assert (readable 0 /\ readable 30 /\ readable 10) as (R0 & R30 & R10) by (unfold readable, is_i64; vm_compute; done).
  assert (Forall event_ok [EOp 10 (OAdd "tk-a-web" 8022 5 7)]) as He.
  { apply Forall_singleton. split; [exact R10 |]. split; [vm_compute; reflexivity | cbn; lia]. }
  assert (Forall (fun e => forall t ok, e = ETick t ok -> ok = true) [EOp 10 (OAdd "tk-a-web" 8022 5 7)]) as Hk by by apply Forall_singleton.
  assert (match boot 0 "traffic.json" (Some older_text) with Some _ => true | None => false end = true) as Hb by (vm_compute; reflexivity).
  destruct (boot 0 "traffic.json" (Some older_text)) as [p0 |] eqn:H0; [clear Hb | discriminate Hb].
  destruct (saves_are_durable utc 0 20 30 (Some older_text) "traffic.json" _ p0 H0 ltac:(discriminate) R0 R30 He Hk)
    as (p & p' & H1 & H2 & H3 & _).
  exists p0, p, p'. split; [reflexivity |]. split; [exact H1 |]. split; [exact H2 | exact H3].
Defined.

Lemma failed_save_forgotten_witness :
  exists p, lives utc (Persisted Traffic.demo None) (ETick 10 false :: ((fun n => ETick n true) <$> [20; 30])) = Some p
  /\ p_store <$> happens utc p (ERestart 40) = load 40 "traffic.json" None.
Proof.
  destruct (failed_save_forgotten utc Traffic.demo None 10 [20; 30] 40 eq_refl ltac:(discriminate)) as (p & H1 & _ & H2).
  exists p. split; [exact H1 | exact H2].
Defined.
