(* ===== verification/Probe.v ===== *)
(** * Probing a forwarded port

    Models src/core/internal/monitor/probe.go: how the outcome of an HTTP or TCP
    probe is classified, and the gate that limits how often a port is probed. The
    network is an argument: what the request or the connection ended in. Parsing
    of URLs is an argument too. *)

From stdpp Require Import sorting.
From S2P Require Export GoTime.

Record probeResult := MkResult {
  Kind : string; Level : string; Message : string; Status : Z; LatencyMS : Q;
}.

Definition httpProbeTimeout : duration := 6 * second.
Definition tcpProbeTimeout : duration := 3 * second.
Definition tcpProbeWait : duration := 1500 * millisecond.

(** [float64(d.Microseconds()) / 1000]. *)
Definition in_ms (d : duration) : Q := Qmake (microseconds d) 1000.

(** ASCII lower case: scheme names are ASCII. *)
Definition lower_ascii (c : ascii) : ascii :=
  let n := N_of_ascii c in
  if ((65 <=? n) && (n <=? 90))%N then ascii_of_N (n + 32) else c.
Definition to_lower (s : string) : string := of_chars (lower_ascii <$> chars s).

(** An error of the HTTP client: its text, and whether it is the deadline. *)
Record http_error := HttpError { e_text : string; e_deadline : bool }.

Definition explainErr (e : http_error) (scheme : string) : string :=
  let s := e_text e in
  if contains s "first record does not look like a TLS handshake"
     || contains s "server gave HTTP response to HTTPS client"
  then "the URL says https but the service speaks plain HTTP"
  else if contains s "EOF" || contains s "connection reset"
          || contains s "server closed idle connection" || contains s "broken pipe"
  then "the tunnel closed the connection at once: the client could not reach its local service"
  else if contains s "tls:" && bool_decide (to_lower scheme = "http")
  then "TLS error on an http URL: " +:+ s
  else if e_deadline e || contains s "timeout" || contains s "deadline"
  then "no answer within " +:+ dur_string httpProbeTimeout
  else if contains s "refused"
  then "the port is not listening on the server"
  else s.

Inductive http_outcome :=
| HBadURL (err : string)
| HFailed (e : http_error)
| HStatus (code : Z).

Definition probeHTTP (scheme : string) (took : duration) (o : http_outcome) : probeResult :=
  let ms := in_ms took in
  match o with
  | HBadURL err => MkResult "http" "fail" ("bad URL: " +:+ err) 0 0
  | HFailed e => MkResult "http" "fail" (explainErr e scheme) 0 ms
  | HStatus code =>
      let r level msg := MkResult "http" level ("the service answered HTTP " +:+ itoa code +:+ msg) code ms in
      if code <? 400 then r "ok" ""
      else if (code =? 401) || (code =? 403) then r "ok" " (it is up, login required)"
      else if 500 <=? code then r "warn" ": reached, but it reports an error"
      else r "warn" ": reached, but not the expected page"
  end.

Inductive tcp_outcome :=
| TNotListening (err : string)
| TData
| TTimeout
| TClosed.

Definition probeTCP (took : duration) (o : tcp_outcome) : probeResult :=
  let ms := in_ms took in
  match o with
  | TNotListening err =>
      MkResult "tcp" "fail" ("the port is not listening on the server: " +:+ err) 0 0
  | TData => MkResult "tcp" "ok" "the service sent data: it is up" 0 ms
  | TTimeout =>
      MkResult "tcp" "ok"
        "connection accepted and held open: the service is up (it waits for the client to speak first)" 0 ms
  | TClosed =>
      MkResult "tcp" "fail"
        "the tunnel closed the connection at once: the client could not reach its local service" 0 ms
  end.

Section probe.
(** The scheme of a URL that parses. *)
Context (parse_scheme : string -> option string).

Definition probe (rawURL : string) (took : duration) (http : http_outcome) (tcp : tcp_outcome) : probeResult :=
  match parse_scheme rawURL with
  | Some sch =>
      if negb (bool_decide (rawURL = ""))
         && (bool_decide (to_lower sch = "http") || bool_decide (to_lower sch = "https"))
      then probeHTTP sch took http
      else probeTCP took tcp
  | None => probeTCP took tcp
  end.
End probe.

(** ** The gate *)

Record probeGate := MkGate { last_ : gmap string time; min : duration }.

Definition newProbeGate (min : duration) : probeGate := MkGate ∅ min.

Definition too_soon (now : time) (g : probeGate) (key : string) : bool :=
  match last_ g !! key with
  | Some t => sub now t <? min g
  | None => false
  end.

Definition allow (now : time) (g : probeGate) (key : string) : probeGate * bool :=
  if too_soon now g key then (g, false)
  else
    let l := <[key := now]> (last_ g) in
    let l := if decide (1024 < Z.of_nat (size l))
             then filter (fun kt : string * time => ~ minute < sub now kt.2) l else l in
    (MkGate l (min g), true).

(** ** Histories *)

(** Calls, oldest first, with what each returned. *)
Fixpoint run (g : probeGate) (cs : list (time * string)) : probeGate * list (time * string * bool) :=
  match cs with
  | [] => (g, [])
  | (now, key) :: cs' =>
      let '(g1, ok) := allow now g key in
      let '(g2, out) := run g1 cs' in
      (g2, (now, key, ok) :: out)
  end.

Definition last_allowed (key : string) (out : list (time * string * bool)) : option time :=
  foldl (fun o x => let '(t, k, ok) := x in
                    if ok && bool_decide (k = key) then Some t else o) None out.

(** The clock of the calls does not go back. *)
Definition ordered (cs : list (time * string)) : Prop :=
  StronglySorted (fun x y => fst x <= fst y) cs.

(** What the table remembers: the last time a key was allowed, except that an
    entry more than a minute old may have been dropped. *)
Definition remembers (now : time) (g : probeGate) (out : list (time * string * bool)) : Prop :=
  forall key, match last_ g !! key with
              | Some t => last_allowed key out = Some t
              | None => forall t, last_allowed key out = Some t -> minute < now - t
              end.

Lemma remembers_mono now now' g out : remembers now g out -> now <= now' -> remembers now' g out.
Proof.
  intros H Hn key. specialize (H key). destruct (last_ g !! key); [done |].
  intros t Ht. specialize (H t Ht). lia.
Qed.

Lemma last_allowed_snoc key out t k ok :
  last_allowed key (out ++ [(t, k, ok)]) = if ok && bool_decide (k = key) then Some t else last_allowed key out.
Proof. unfold last_allowed. by rewrite foldl_app. Qed.

Lemma allow_spec now g key out :
  0 <= min g <= minute -> remembers now g out ->
  snd (allow now g key) = match last_allowed key out with
                          | None => true
                          | Some t => min g <=? now - t
                          end.
Proof.
  intros Hmin H. specialize (H key). unfold allow, too_soon.
  assert (min g <= max_i64) as Hm by (unfold minute, second, max_i64 in *; lia).
  destruct (last_ g !! key) as [t |].
  - rewrite H, sub_lt by lia. rewrite Z.ltb_antisym. by destruct (min g <=? now - t).
  - cbn [snd]. destruct (last_allowed key out) as [t |]; [| done]. specialize (H t eq_refl).
    symmetry. apply Z.leb_le. lia.
Qed.

Lemma allow_remembers now g key out :
  remembers now g out ->
  remembers now (fst (allow now g key)) (out ++ [(now, key, snd (allow now g key))]).
Proof.
  intros H. unfold allow. destruct (too_soon now g key); cbn [fst snd].
  { intros k. rewrite last_allowed_snoc. apply H. }
  intros k. rewrite last_allowed_snoc. cbn [andb last_].
  assert (match <[key := now]> (last_ g) !! k with
          | Some t => (if bool_decide (key = k) then Some now else last_allowed k out) = Some t
          | None => forall t, (if bool_decide (key = k) then Some now else last_allowed k out) = Some t -> minute < now - t
          end) as HI.
  { case_bool_decide as Hk; [subst; by rewrite lookup_insert_eq |].
    rewrite lookup_insert_ne by done. apply H. }
  destruct (decide (1024 < _)); [| exact HI].
  destruct (filter _ _ !! k) as [t |] eqn:E.
  - apply map_lookup_filter_Some in E as [E _]. by rewrite E in HI.
  - destruct (<[key := now]> (last_ g) !! k) as [t |] eqn:E'; [| exact HI].
    intros t' Ht'. rewrite HI in Ht'. injection Ht' as <-.
    apply map_lookup_filter_None in E as [E | E]; [congruence |].
    specialize (E t E'). cbn in E. unfold sub, minute, second, max_i64, min_i64 in *. lia.
Qed.

Lemma gate_run_snoc g cs now key :
  run g (cs ++ [(now, key)])
  = let '(g1, out) := run g cs in
    let '(g2, ok) := allow now g1 key in (g2, out ++ [(now, key, ok)]).
Proof.
  revert g. induction cs as [| [t k] cs IH]; intros g; cbn; [by destruct (allow now g key) |].
  destruct (allow t g k) as [g1 ok]. rewrite IH. destruct (run g1 cs) as [g2 out].
  by destruct (allow now g2 key).
Qed.

Lemma allow_min now g key : min (fst (allow now g key)) = min g.
Proof. unfold allow. by destruct (too_soon now g key). Qed.

Lemma ordered_snoc cs x :
  ordered (cs ++ [x]) -> ordered cs /\ forall y, y ∈ cs -> fst y <= fst x.
Proof.
  intros (H & Hs & _)%StronglySorted_app. split; [done |]. intros y Hy. apply H; set_solver.
Qed.

Lemma run_remembers d cs :
  ordered cs ->
  min (fst (run (newProbeGate d) cs)) = d
  /\ forall now, (forall x, x ∈ cs -> fst x <= now) ->
       remembers now (fst (run (newProbeGate d) cs)) (snd (run (newProbeGate d) cs)).
Proof.
  induction cs as [| [t k] cs IH] using rev_ind; intros Ho.
  { split; [done |]. intros now _ key. cbn. by rewrite lookup_empty. }
  apply ordered_snoc in Ho as [Ho Hle]. destruct (IH Ho) as [Hm Hr].
  rewrite gate_run_snoc. destruct (run (newProbeGate d) cs) as [g out]. cbn [fst snd] in *.
  pose proof (allow_min t g k) as Hm'. pose proof (allow_remembers t g k out (Hr t Hle)) as Hr'.
  destruct (allow t g k) as [g' ok]. cbn [fst snd] in *. split; [congruence |].
  intros now Hnow. apply (remembers_mono t); [done |]. apply (Hnow (t, k)). set_solver.
Qed.

(** ** Properties *)

(** The gate is exact. On a clock that does not go back and with a minimum
    of at most a minute, a probe is allowed exactly when the same key was never
    allowed before, or was last allowed at least [min] ago: dropping old entries
    from the table never lets a probe through early nor holds one back. *)
Theorem gate_exact (d : duration) (cs : list (time * string)) (now : time) (key : string) :
  0 <= d <= minute -> ordered (cs ++ [(now, key)]) ->
  let '(g, out) := run (newProbeGate d) cs in
  snd (allow now g key) = match last_allowed key out with
                          | None => true
                          | Some t => d <=? now - t
                          end.
Proof.
  intros Hd Ho. apply ordered_snoc in Ho as [Ho Hle]. destruct (run_remembers d cs Ho) as [Hm Hr].
  specialize (Hr now Hle). destruct (run (newProbeGate d) cs) as [g out]. cbn [fst snd] in *.
  rewrite <-Hm in *. by apply allow_spec.
Qed.

(** The gate is bounded. After a call that was allowed, the table holds at
    most 1024 keys, or only keys allowed within the last minute. *)
Theorem gate_bounded (now : time) (g g' : probeGate) (key : string) :
  allow now g key = (g', true) ->
  Z.of_nat (size (last_ g')) <= 1024
  \/ forall k t, last_ g' !! k = Some t -> sub now t <= minute.
Proof.
  unfold allow. destruct (too_soon now g key); [done |].
  case_decide as Hd; intros [= <-]; cbn [last_]; [right | left; lia].
  intros k t [_ H]%map_lookup_filter_Some. cbn in H. lia.
Qed.

(** The verdict of a probe. An HTTP probe is good exactly when the service
    answered below 400 or asked for a login, fails exactly when no answer came,
    and otherwise warns; a TCP probe is good exactly when the connection was held
    open or brought data. *)
Theorem probe_levels (scheme : string) (took : duration) (h : http_outcome) (t : tcp_outcome) :
  Level (probeHTTP scheme took h)
  = match h with
    | HStatus c => if (c <? 400) || (c =? 401) || (c =? 403) then "ok" else "warn"
    | _ => "fail"
    end
  /\ (Status (probeHTTP scheme took h) = match h with HStatus c => c | _ => 0 end)
  /\ Level (probeTCP took t) = match t with TData | TTimeout => "ok" | _ => "fail" end.
Proof.
  split; [| split].
  - destruct h as [| | c]; [done..|]. cbn. destruct (c <? 400), (c =? 401), (c =? 403), (500 <=? c); done.
  - destruct h as [| | c]; [done..|]. cbn. destruct (c <? 400), ((c =? 401) || (c =? 403)), (500 <=? c); done.
  - by destruct t.
Qed.

(** ** Witnesses *)

Definition demo : list (time * string) :=
  [(0, "a:80"); (500 * millisecond, "a:80"); (600 * millisecond, "b:80")].

Lemma demo_ordered : ordered (demo ++ [(second, "a:80")]).
Proof. repeat constructor; vm_compute; congruence. Qed.

Lemma gate_exact_witness :
  snd (run (newProbeGate second) demo)
  = [(0, "a:80", true); (500 * millisecond, "a:80", false); (600 * millisecond, "b:80", true)]
  /\ snd (allow second (fst (run (newProbeGate second) demo)) "a:80") = true.
Proof.
  split; [vm_compute; reflexivity |].
  pose proof (gate_exact second demo second "a:80") as H.
  specialize (H ltac:(vm_compute; split; congruence) demo_ordered).
  rewrite (surjective_pairing (run (newProbeGate second) demo)) in H.
  etransitivity; [exact H | vm_compute; reflexivity].
Defined.

Lemma gate_bounded_witness :
  let g := fst (run (newProbeGate second) demo) in
  Z.of_nat (size (last_ (fst (allow second g "c:80")))) <= 1024
  \/ forall k t, last_ (fst (allow second g "c:80")) !! k = Some t -> sub second t <= minute.
Proof.
  intros g. apply (gate_bounded second g (fst (allow second g "c:80")) "c:80"). reflexivity.
Defined.
