(* ===== verification/Auth.v ===== *)
(** * Authorized keys and the ports they permit

    Models the authentication part of src/core/internal/tunnelserver/server.go:
    reading authorized_keys, the ports of the permitlisten options, the store
    that reloads the file when its modification time changes, and what the
    public-key callback grants. The line parser and the fingerprint of
    golang.org/x/crypto/ssh are arguments, as are the file and its time. *)

From S2P Require Export GoTime.

Record keyInfo := KeyInfo { Ports : string; KName : string }.

#[export] Instance keyInfo_eq_dec : EqDecision keyInfo.
Proof. solve_decision. Defined.

(** One option of a line: the port of a permitlisten that is a number, as text. *)
Definition permit_port (o : string) : option string :=
  if has_prefix o "permitlisten=" then
    let v := trim QUOTE (trim_prefix o "permitlisten=") in
    let v := match split_host_port v with Some (_, ps) => ps | None => v end in
    match atoi v with Some _ => Some v | None => None end
  else None.

Definition parsePorts (csv : string) : gset Z :=
  list_to_set (omap (fun p => u32 <$> atoi (trim_space p)) (split "," csv)).

Definition keys (m : gset Z) : list Z := elements m.

Section auth.
Context {K : Type}.

(** What [ssh.ParseAuthorizedKey] returns when it finds a key. *)
Record authorized_key := AuthKey { k_key : K; k_comment : string; k_options : list string; k_rest : string }.

Context (ParseAuthorizedKey : string -> option authorized_key).
Context (FingerprintSHA256 : K -> string).

Definition info_of (a : authorized_key) : keyInfo :=
  KeyInfo (join "," (omap permit_port (k_options a))) (k_comment a).

(** The loop of [loadAuthorized]; running out of fuel is [None]. *)
Fixpoint load_go (fuel : nat) (data : string) (out : gmap string keyInfo) : option (gmap string keyInfo) :=
  match fuel with
  | O => None
  | S fuel' =>
      if bool_decide (data = "") then Some out
      else match ParseAuthorizedKey data with
           | None => Some out
           | Some a => load_go fuel' (k_rest a) (<[FingerprintSHA256 (k_key a) := info_of a]> out)
           end
  end.

(** Each line read leaves a shorter rest: as much fuel as there are bytes is enough. *)
Definition load (data : string) : option (gmap string keyInfo) := load_go (S (String.length data)) data ∅.

(** The file as the process sees it: its modification time and its contents,
    either of which may fail to be read. *)
Record file := File { f_mtime : option time; f_data : option string }.

Definition loadAuthorized (f : file) : option (gmap string keyInfo) :=
  match f_data f with Some data => load data | None => None end.

Record authStore := MkAuth { mtime : time; a_keys : option (gmap string keyInfo) }.

Definition new_store : authStore := MkAuth zero_time None.

Inductive reloaded := Unchanged | Changed | Failed.

Definition reload (f : file) (a : authStore) : authStore * reloaded :=
  match f_mtime f with
  | None => (a, Failed)
  | Some t =>
      if negb (bool_decide (a_keys a = None)) && (t =? mtime a) then (a, Unchanged)
      else match loadAuthorized f with
           | None => (a, Failed)
           | Some m => (MkAuth t (Some m), Changed)
           end
  end.

Definition lookup_ (f : file) (a : authStore) (fp : string) : authStore * option keyInfo :=
  let a' := fst (reload f a) in
  (a', m ← a_keys a'; m !! fp).

(** The public-key callback, and the set of ports the session then allows. *)
Definition PublicKeyCallback (f : file) (a : authStore) (key : K) : authStore * result keyInfo :=
  let '(a', v) := lookup_ f a (FingerprintSHA256 key) in
  (a', match v with Some info => Ok info | None => Err "unauthorized key" end).

Definition allowed_ports (info : keyInfo) : gset Z := parsePorts (Ports info).

(** ** Specification *)

(** The lines of the file the parser finds, in order. *)
Inductive lines_of : string -> list authorized_key -> Prop :=
| lines_end : lines_of "" []
| lines_stop data : data <> "" -> ParseAuthorizedKey data = None -> lines_of data []
| lines_cons data a l :
    data <> "" -> ParseAuthorizedKey data = Some a -> lines_of (k_rest a) l -> lines_of data (a :: l).

(** The last line of a key decides. *)
Definition granted (l : list authorized_key) (fp : string) : option keyInfo :=
  info_of <$> last (filter (fun a => FingerprintSHA256 (k_key a) = fp) l).

(** The port number a permitlisten option names. *)
Definition permit_number (o : string) : option Z := v ← permit_port o; atoi v.
End auth.

(** A permitlisten option as it is written in the file. *)
Definition permitlisten (v : string) : string := "permitlisten=" +:+ String QUOTE (v +:+ String QUOTE "").

(** ** Lemmas *)

Lemma permit_port_num o v : permit_port o = Some v -> exists n, atoi v = Some n.
Proof.
  unfold permit_port. destruct (has_prefix _ _); [| done].
  destruct (split_host_port _) as [[h ps] |]; destruct (atoi _) eqn:E; intros; simplify_eq; eauto.
Qed.

Lemma num_chars_free v n : atoi v = Some n -> free_of "," v.
Proof.
  intros H%atoi_chars. unfold free_of. intros Hin.
  rewrite Forall_forall in H. by specialize (H _ Hin).
Qed.

Lemma trim_space_num v n : atoi v = Some n -> trim_space v = v.
Proof.
  intros H%atoi_chars. apply trim_space_graph. apply (Forall_impl _ _ _ H). apply num_char_graph.
Qed.

Lemma parse_join vs :
  Forall (fun v => is_Some (atoi v)) vs ->
  parsePorts (join "," vs) = list_to_set (omap (fun v => u32 <$> atoi v) vs).
Proof.
  intros H. unfold parsePorts. destruct vs as [| v vs]; [done |].
  rewrite split_join; [| done |].
  - f_equal. induction H as [| v' vs' [n Hn] _ IH]; [done |]. cbn.
    rewrite (trim_space_num v' n Hn). destruct (u32 <$> atoi v'); [by rewrite IH | done].
  - apply (Forall_impl _ _ _ H). intros v' [n Hn]. by eapply num_chars_free.
Qed.

Section auth_lemmas.
Context {K : Type} (Parse : string -> option (@authorized_key K)) (fingerprint : K -> string).

Lemma load_go_lines fuel data out :
  (forall d a, Parse d = Some a -> (String.length (k_rest a) < String.length d)%nat) ->
  (String.length data < fuel)%nat ->
  exists l, lines_of Parse data l
    /\ load_go Parse fingerprint fuel data out
       = Some (foldl (fun m a => <[fingerprint (k_key a) := info_of a]> m) out l).
Proof.
  intros Hrest. revert data out. induction fuel as [| fuel IH]; intros data out Hf; [lia |].
  cbn [load_go]. case_bool_decide as Hd.
  { subst. exists []. split; [constructor | done]. }
  destruct (Parse data) as [a |] eqn:E.
  - specialize (Hrest data a E) as Hlt.
    destruct (IH (k_rest a) (<[fingerprint (k_key a) := info_of a]> out)) as (l & Hl & ->); [lia |].
    exists (a :: l). split; [by econstructor | done].
  - exists []. split; [by constructor | done].
Qed.

(** Without an assumption on the parser: what is loaded comes from the lines. *)
Lemma load_go_sound fuel data out m :
  load_go Parse fingerprint fuel data out = Some m ->
  exists l, lines_of Parse data l /\ m = foldl (fun m a => <[fingerprint (k_key a) := info_of a]> m) out l.
Proof.
  revert data out. induction fuel as [| fuel IH]; intros data out; [done |]. cbn [load_go]. case_bool_decide as Hd.
  { intros [= <-]. subst. exists []. split; [constructor | done]. }
  destruct (Parse data) as [a |] eqn:E.
  - intros (l & Hl & ->)%IH. exists (a :: l). split; [by econstructor | done].
  - intros [= <-]. exists []. split; [by constructor | done].
Qed.

Lemma foldl_granted l (m : gmap string keyInfo) fp :
  foldl (fun m (a : @authorized_key K) => <[fingerprint (k_key a) := info_of a]> m) m l !! fp
  = match granted fingerprint l fp with Some i => Some i | None => m !! fp end.
Proof.
  induction l as [| a l IH] using rev_ind; [done |].
  rewrite foldl_app. cbn. unfold granted in *. rewrite filter_app, filter_cons, filter_nil.
  case_decide as Hd.
  - subst fp. by rewrite last_snoc, lookup_insert_eq.
  - by rewrite app_nil_r, lookup_insert_ne.
Qed.

Lemma load_granted data :
  (forall d a, Parse d = Some a -> (String.length (k_rest a) < String.length d)%nat) ->
  exists l m, lines_of Parse data l /\ load Parse fingerprint data = Some m
    /\ forall fp, m !! fp = granted fingerprint l fp.
Proof.
  intros Hrest. destruct (load_go_lines (S (String.length data)) data ∅ Hrest) as (l & Hl & E); [lia |].
  eexists l, _. split; [done |]. split; [exact E |]. intros fp. rewrite foldl_granted.
  destruct (granted fingerprint l fp); [done | apply lookup_empty].
Qed.

Lemma load_sound data m fp info :
  load Parse fingerprint data = Some m -> m !! fp = Some info ->
  exists l a, lines_of Parse data l /\ a ∈ l /\ fingerprint (k_key a) = fp /\ info = info_of a.
Proof.
  intros (l & Hl & ->)%load_go_sound. rewrite foldl_granted, lookup_empty. unfold granted.
  destruct (last _) as [a |] eqn:E; [| done]. intros [= <-]. exists l, a. split; [done |].
  assert (a ∈ filter (fun a => fingerprint (k_key a) = fp) l) as [? ?]%list_elem_of_filter
    by (apply last_Some in E as [k ->]; set_solver). done.
Qed.

Lemma lines_of_det data l l' : lines_of Parse data l -> lines_of Parse data l' -> l = l'.
Proof.
  intros H. revert l'. induction H as [| data Hd E | data a l Hd E _ IH]; intros l' H'; inversion H'; simplify_eq; try done.
  f_equal. by apply IH.
Qed.

End auth_lemmas.

(** The ports a line of the file permits. *)
Lemma elem_allowed_ports {K : Type} (a : @authorized_key K) (p : Z) :
  p ∈ allowed_ports (info_of a) <-> exists o n, o ∈ k_options a /\ permit_number o = Some n /\ p = u32 n.
Proof.
  unfold allowed_ports, info_of. cbn [Ports].
  rewrite parse_join.
  2: { apply Forall_forall. intros v (o & _ & Ho)%list_elem_of_omap.
       apply permit_port_num in Ho as [n Hn]. by exists n. }
  rewrite elem_of_list_to_set, list_elem_of_omap. unfold permit_number. split.
  - intros (v & (o & Ho & Hv)%list_elem_of_omap & (n & Hn & ->)%fmap_Some). exists o, n.
    split; [done |]. by rewrite Hv.
  - intros (o & n & Ho & (v & Hv & Hn)%bind_Some & ->). exists v. split; [| by rewrite Hn].
    apply list_elem_of_omap. eauto.
Qed.

(** ** Properties *)

(** C30: permitlisten, end to end. The ports a session allows are exactly the
    numbers of its key's permitlisten options, reduced to 32 bits: writing them
    to the comma-separated text that travels in the SSH permissions and parsing
    it back neither adds nor loses one, and a key without such options (or with
    none that is a number) allows nothing. *)
Theorem allowed_ports_exact {K : Type} (a : @authorized_key K) (p : Z) :
  p ∈ allowed_ports (info_of a) <-> exists o n, o ∈ k_options a /\ permit_number o = Some n /\ p = u32 n.
Proof. apply elem_allowed_ports. Qed.

(** Loading terminates and the last line of a key wins. When the parser
    always leaves less than it was given, reading the file always ends, and each
    fingerprint is mapped to the ports and name of its last line among the lines
    found before the first stretch the parser rejects. *)
Theorem load_authorized_spec {K : Type} (Parse : string -> option (@authorized_key K)) (fingerprint : K -> string)
    (data : string) :
  (forall d a, Parse d = Some a -> (String.length (k_rest a) < String.length d)%nat) ->
  exists l m, lines_of Parse data l /\ loadAuthorized Parse fingerprint (File None (Some data)) = Some m
    /\ forall fp, m !! fp = granted fingerprint l fp.
Proof. apply load_granted. Qed.

(** The callback. A key is accepted exactly when the store knows it after
    the reload: the store follows the file when its time differs from the one
    remembered and the file can be read, and otherwise keeps what it had, so a
    vanished or unreadable file never locks out (nor lets in) anybody. *)
Theorem callback_spec {K : Type} (Parse : string -> option (@authorized_key K)) (fingerprint : K -> string)
    (f : file) (a : authStore) (old : gmap string keyInfo) (k : K) :
  (forall d x, Parse d = Some x -> (String.length (k_rest x) < String.length d)%nat) ->
  a_keys a = Some old ->
  let '(a', r) := PublicKeyCallback Parse fingerprint f a k in
  match f_mtime f, f_data f with
  | Some t, Some data =>
      if t =? mtime a then a' = a /\ r = from_option Ok (Err "unauthorized key") (old !! fingerprint k)
      else mtime a' = t /\ exists l, lines_of Parse data l
           /\ r = from_option Ok (Err "unauthorized key") (granted fingerprint l (fingerprint k))
  | _, _ => a' = a /\ r = from_option Ok (Err "unauthorized key") (old !! fingerprint k)
  end.
Proof.
  intros Hrest Ha. unfold PublicKeyCallback, lookup_, reload. rewrite bool_decide_eq_false_2 by by rewrite Ha.
  cbn [negb andb].
  assert (forall x : option keyInfo, match x with Some i => Ok i | None => Err "unauthorized key" end
          = from_option Ok (Err "unauthorized key") x) as Hx by by intros [].
  destruct (f_mtime f) as [t |]; [| cbn; by rewrite Ha, Hx].
  destruct (t =? mtime a) eqn:Et; [destruct (f_data f); cbn; by rewrite Ha, Hx |].
  unfold loadAuthorized. destruct (f_data f) as [data |]; [| cbn; by rewrite Ha, Hx].
  destruct (load_granted Parse fingerprint data Hrest) as (l & m & Hl & -> & Hm). cbn.
  split; [done |]. exists l. split; [done |]. by rewrite Hm, Hx.
Qed.

(** Permitlisten values are taken modulo 2^32. A value above the range of
    ports is not refused: 4294967376 allows port 80. *)
Theorem permitlisten_wraps {K : Type} (k : K) (c rest : string) :
  allowed_ports (info_of (AuthKey k c [permitlisten "4294967376"] rest)) = {[80]}.
Proof. reflexivity. Qed.

(** ** Witnesses: a parser of one-letter lines *)

Definition demo_parse (s : string) : option (@authorized_key string) :=
  match s with
  | String "a" r => Some (AuthKey "ka" "tk-a-web" [permitlisten "8022"; permitlisten "localhost:9090"] r)
  | String "b" r => Some (AuthKey "kb" "tk-b-web" ["no-pty"] r)
  | String "c" r => Some (AuthKey "ka" "tk-a2-web" [] r)
  | _ => None
  end.

Lemma demo_rest d a : demo_parse d = Some a -> (String.length (k_rest a) < String.length d)%nat.
Proof.
  destruct d as [| [[] [] [] [] [] [] [] []] r]; cbn; intros; simplify_eq; cbn; lia.
Qed.

Lemma load_authorized_spec_witness :
  exists m, loadAuthorized demo_parse (fun k => k) (File None (Some "abc")) = Some m
    /\ m !! "ka" = Some (KeyInfo "" "tk-a2-web").
Proof.
  destruct (load_authorized_spec demo_parse (fun k => k) "abc" demo_rest) as (l & m & Hl & Hm & H).
  exists m. split; [exact Hm |]. rewrite H.
  vm_compute in Hm. injection Hm as <-. rewrite <-H. vm_compute. reflexivity.
Defined.

Lemma callback_spec_witness :
  PublicKeyCallback demo_parse (fun k => k) (File (Some 2) (Some "a"))
    (MkAuth 1 (Some ∅)) "ka" = (MkAuth 2 (Some {["ka" := KeyInfo "8022,9090" "tk-a-web"]}), Ok (KeyInfo "8022,9090" "tk-a-web"))
  /\ mtime (fst (PublicKeyCallback demo_parse (fun k => k) (File (Some 2) (Some "a")) (MkAuth 1 (Some ∅)) "ka")) = 2.
Proof.
  split; [vm_compute; reflexivity |].
  pose proof (callback_spec demo_parse (fun k => k) (File (Some 2) (Some "a")) (MkAuth 1 (Some ∅)) ∅ "ka" demo_rest eq_refl) as H.
  destruct (PublicKeyCallback _ _ _ _ _) as [a' r]. exact (proj1 H).
Defined.
