(* ===== verification/Registry.v ===== *)
(** * The registry of connected clients

    Models the shared state of src/core/internal/monitor/monitor.go: the Registry
    and its Clients, their counters and the scraping of their metrics. A Client is
    an object shared by the registry, the session that feeds its counters and the
    sampler, so clients live in a store indexed by pointers. The HTTP client is an
    argument. *)

From stdpp Require Export sorting.
From S2P Require Import GoJson.
From S2P Require Export GoTime Attempts.

Definition histLen : nat := 120.

Record sample := Sample { Ts : Z; TxRate : Q; RxRate : Q; Active : Z; Latency : Q; Rec : Z }.

Record metrics := Metrics { Reconnects : Z; SpeedtestPort : Z; LastError : string }.
Definition zero_metrics : metrics := Metrics 0 0 "".

Record Client := MkClient {
  Name : string; CIP : string; Since : time;
  tx : Z; rx : Z; active : Z;
  ports : list Z;
  scraped : metrics;
  hist : list sample;
  prevTx : Z; prevRx : Z; prevAt : time;
  lastDown : Q; lastUp : Q; speedHist : list Q;
}.

(** [&monitor.Client{Name: name, IP: ip, Since: now}]. *)
Definition new_client (name ip : string) (since : time) : Client :=
  MkClient name ip since 0 0 0 [] zero_metrics [] 0 0 zero_time 0 0 [].

Definition set_counters (c : Client) (t r a : Z) : Client :=
  MkClient (Name c) (CIP c) (Since c) t r a (ports c) (scraped c) (hist c)
    (prevTx c) (prevRx c) (prevAt c) (lastDown c) (lastUp c) (speedHist c).
Definition set_ports (c : Client) (ps : list Z) : Client :=
  MkClient (Name c) (CIP c) (Since c) (tx c) (rx c) (active c) ps (scraped c) (hist c)
    (prevTx c) (prevRx c) (prevAt c) (lastDown c) (lastUp c) (speedHist c).
Definition set_scraped (c : Client) (m : metrics) (h : list sample) (now : time) (t r : Z) : Client :=
  MkClient (Name c) (CIP c) (Since c) (tx c) (rx c) (active c) (ports c) m h
    t r now (lastDown c) (lastUp c) (speedHist c).
Definition set_speed (c : Client) (down up : Q) (h : list Q) : Client :=
  MkClient (Name c) (CIP c) (Since c) (tx c) (rx c) (active c) (ports c) (scraped c) (hist c)
    (prevTx c) (prevRx c) (prevAt c) down up h.

(** A pointer to a Client. *)
Definition ptr : Type := nat.

Record Registry := MkRegistry {
  heap : gmap ptr Client;
  m : gmap string ptr;
  lastIP : gmap string string;
  att : Attempts.Attempts;
  hb : bool;
}.

Definition NewRegistry : Registry := MkRegistry ∅ ∅ ∅ NewAttempts false.

Definition set_heap (r : Registry) (h : gmap ptr Client) : Registry :=
  MkRegistry h (m r) (lastIP r) (att r) (hb r).
Definition set_m (r : Registry) (m' : gmap string ptr) : Registry :=
  MkRegistry (heap r) m' (lastIP r) (att r) (hb r).

(** [Add id c], where the Client [c] is allocated by the caller. *)
Definition Add (r : Registry) (id : string) (c : Client) : Registry :=
  let p := fresh (dom (heap r)) in
  MkRegistry (<[p := c]> (heap r)) (<[id := p]> (m r))
    (if negb (bool_decide (Name c = "")) && negb (bool_decide (CIP c = ""))
     then <[Name c := CIP c]> (lastIP r) else lastIP r)
    (att r) (hb r).

Definition SetHeartbeat (r : Registry) : Registry := MkRegistry (heap r) (m r) (lastIP r) (att r) true.

Definition Del (r : Registry) (id : string) : Registry := set_m r (delete id (m r)).

Definition Get (r : Registry) (id : string) : option ptr := m r !! id.

Definition LastIP (r : Registry) (name : string) : string := default "" (lastIP r !! name).

Definition ClientAt (r : Registry) (ip : string) : string :=
  join "/" (merge_sort String.le (map_to_list (filter (fun x : string * string => x.2 = ip) (lastIP r))).*1).

(** Any change of a Client through its pointer. *)
Definition update (r : Registry) (p : ptr) (f : Client -> Client) : Registry := set_heap r (alter f p (heap r)).

Definition AddPort (r : Registry) (id : string) (port : Z) : Registry :=
  match m r !! id with
  | Some p => update r p (fun c => set_ports c (ports c ++ [port]))
  | None => r
  end.

(** What [list] may return: the clients in order of name, in any order within a name. *)
Definition name_le (a b : Client) : Prop := String.le (Name a) (Name b).

Definition listing (r : Registry) (l : list ptr) : Prop :=
  l ≡ₚ (map_to_list (m r)).*2
  /\ exists cs, Forall2 (fun p c => heap r !! p = Some c) l cs /\ Sorted name_le cs.

(** [byName], given what [list] returned. *)
Fixpoint byName (r : Registry) (l : list ptr) (name : string) : option ptr :=
  match l with
  | [] => None
  | p :: l' =>
      match heap r !! p with
      | Some c => if bool_decide (Name c = name) then Some p else byName r l' name
      | None => byName r l' name
      end
  end.

Definition Connected (r : Registry) (l : list ptr) (name : string) : bool :=
  bool_decide (is_Some (byName r l name)).

(** [heartbeat], where [f] is what the plugged source answers now. *)
Definition heartbeat (now : time) (r : Registry) (f : string -> option (time * string)) (name : string)
    : option Q * string :=
  if hb r then
    match f name with
    | Some (at_, ip) => (Some (seconds (sub now at_)), ip)
    | None => (None, "")
    end
  else (None, "").

(** ** Counters *)

Definition AddTx (n : Z) (c : Client) : Client := set_counters c (u64 (tx c + u64 n)) (rx c) (active c).
Definition AddRx (n : Z) (c : Client) : Client := set_counters c (tx c) (u64 (rx c + u64 n)) (active c).
Definition ConnOpen (c : Client) : Client := set_counters c (tx c) (rx c) (i64 (active c + 1)).
Definition ConnClose (c : Client) : Client := set_counters c (tx c) (rx c) (i64 (active c + -1)).

(** ** Scraping *)

Definition metrics_fields : list (field metrics) :=
  [member "reconnects" go_int Reconnects (fun v m => Metrics v (SpeedtestPort m) (LastError m));
   member "speedtest_port" go_int SpeedtestPort (fun v m => Metrics (Reconnects m) v (LastError m));
   member "last_error" go_string LastError (fun v m => Metrics (Reconnects m) (SpeedtestPort m) v)].

Definition metrics_json : codec metrics :=
  go_struct zero_metrics
    (fun m => [("reconnects", enc go_int (Reconnects m)); ("speedtest_port", enc go_int (SpeedtestPort m));
               ("last_error", enc go_string (LastError m))]) metrics_fields.

(** [json.Unmarshal body &m]: the value left in [m], and whether there was no error. *)
Definition read_metrics : string -> metrics -> metrics * bool := Unmarshal metrics_json.


(** The loop over the ports: [get p] is the body read from port [p], with the
    time it took, or nothing if the request failed. *)
Fixpoint scrape_http (get : Z -> option (string * duration)) (ps : list Z) (mt : metrics) : metrics * Q :=
  match ps with
  | [] => (mt, 0%Q)
  | p :: ps' =>
      match get p with
      | None => scrape_http get ps' mt
      | Some (body, took) =>
          let '(mt', ok) := read_metrics body mt in
          if ok then (mt', Qmake (microseconds took) 1000) else scrape_http get ps' mt'
      end
  end.

(** The rate of a counter between two samples. *)
Definition rate (now prev : time) (cur old : Z) : Q :=
  if is_zero prev then 0
  else
    let dt := seconds (sub now prev) in
    if Qnum dt <=? 0 then 0 else (inject_Z (u64 (cur - old)) / dt)%Q.

Definition scrape_store (now : time) (mt : metrics) (lat : Q) (c : Client) : Client :=
  let s := Sample (unix now) (rate now (prevAt c) (tx c) (prevTx c)) (rate now (prevAt c) (rx c) (prevRx c))
             (active c) lat (Reconnects mt) in
  let h := hist c ++ [s] in
  set_scraped c mt (if decide (histLen < length h)%nat then last_n histLen h else h) now (tx c) (rx c).

(** A whole scrape: the ports are read first, the sample is stored at the end, and
    the counters may move in between ([c'] is the client then). *)
Definition scrape (now : time) (get : Z -> option (string * duration)) (c c' : Client) : Client :=
  let '(mt, lat) := scrape_http get (ports c) zero_metrics in
  scrape_store now mt lat c'.

(** [mainPort]: the lowest port. *)
Definition mainPort (c : Client) : Z :=
  foldl (fun mp p => if (mp =? 0) || (p <? mp) then p else mp) 0 (ports c).
