(* ===== verification/Sessions.v ===== *)
(** * Tunnel sessions

    Models the session machine of src/core/internal/tunnelserver/server.go: the
    life of a session in [handleConn], its forwards, and the session manager that
    evicts the stale session of a client that reconnects. The goroutines of all
    connections interleave: every critical section, and every point where a
    goroutine waits, is one action. The operating system's part in [net.Listen]
    is the outcome given with the action. *)

From S2P Require Export Registry Auth.

Definition sid : Type := nat.
Definition lid : Type := nat.

(** Where [handleConn] is. The connection may be closed in any phase; only the
    end of the request loop waits for it. *)
Inductive phase :=
| Added                 (* authenticated and in the registry *)
| Swapped (old : sid)   (* [register]: took the name over, has yet to close the old session *)
| Waiting (old : sid)   (* [register]: waits for the old session's done *)
| Serving               (* in the request loop *)
| Released              (* [closeAll] has run *)
| Done                  (* [close(s.done)] *)
| Unregistered          (* [mgr.unregister] *)
| Gone.                 (* [reg.Del] *)

Record session := Sess {
  id : string; name : string; allowed : gset Z;
  fwds : gmap Z lid;
  isOpen : bool;
  ph : phase;
}.

(** A listener, open or closed. [l_owner] and [l_req] (the session and the port
    it asked for) are for the statements only. *)
Record listener := Lst { l_port : Z; l_open : bool; l_owner : sid; l_req : Z }.

Record world := World {
  sessions : gmap sid session;
  byName_ : gmap string sid;
  lsts : gmap lid listener;
  reg : Registry;
}.

#[export] Instance phase_eq_dec : EqDecision phase.
Proof. solve_decision. Defined.
#[export] Instance listener_eq_dec : EqDecision listener.
Proof. solve_decision. Defined.

Definition newSessionManager : world := World ∅ ∅ ∅ NewRegistry.

Definition set_phase (s : session) (p : phase) : session := Sess (id s) (name s) (allowed s) (fwds s) (isOpen s) p.
Definition set_closed (s : session) : session := Sess (id s) (name s) (allowed s) (fwds s) false (ph s).
Definition set_fwds (s : session) (f : gmap Z lid) : session := Sess (id s) (name s) (allowed s) f (isOpen s) (ph s).

Definition upd (w : world) (s : sid) (ss : session) : world :=
  World (<[s := ss]> (sessions w)) (byName_ w) (lsts w) (reg w).

Definition close_lst (l : lid) (ls : gmap lid listener) : gmap lid listener :=
  alter (fun x => Lst (l_port x) false (l_owner x) (l_req x)) l ls.

Definition close_conn (w : world) (s : sid) : world :=
  World (alter set_closed s (sessions w)) (byName_ w) (lsts w) (reg w).

(** A port some open listener holds. *)
Definition port_taken (w : world) (p : Z) : bool :=
  existsb (fun x : lid * listener => l_open x.2 && (l_port x.2 =? p)) (map_to_list (lsts w)).

(** What [net.Listen] may answer for port [p]: an error, or a listener on [p],
    or on a free port chosen by the system when [p] is 0. *)
Definition listen_ok (w : world) (p : Z) (bound : option Z) : bool :=
  match bound with
  | None => true
  | Some q => negb (port_taken w q) && ((p =? 0) || (q =? p))
  end.

(** ** Requests: the new state and the reply *)

Definition startForward (w : world) (s : sid) (ss : session) (payload : option Z) (bound : option Z)
    : world * bool :=
  match payload with
  | None => (w, false)
  | Some p =>
      if bool_decide (p ∈ allowed ss) then
        match bound with
        | None => (w, false)
        | Some q =>
            let l := fresh (dom (lsts w)) in
            (World (<[s := set_fwds ss (<[p := l]> (fwds ss))]> (sessions w)) (byName_ w)
                   (<[l := Lst q true s p]> (lsts w)) (AddPort (reg w) (id ss) p), true)
        end
      else (w, false)
  end.

(** [ssh.Unmarshal]'s error is ignored: the port is then 0. *)
Definition cancelForward (w : world) (s : sid) (ss : session) (payload : option Z) : world * bool :=
  let p := default 0 payload in
  match fwds ss !! p with
  | Some l => (World (<[s := set_fwds ss (delete p (fwds ss))]> (sessions w)) (byName_ w)
                     (close_lst l (lsts w)) (reg w), true)
  | None => (w, true)
  end.

(** Closing the listeners in the order [range] visits them. *)
Definition closeAll (w : world) (s : sid) (ss : session) : world :=
  World (<[s := set_phase (set_fwds ss ∅) Released]> (sessions w)) (byName_ w)
        (foldr close_lst (lsts w) (map_to_list (fwds ss)).*2) (reg w).

(** ** The session manager *)

Definition register_swap (w : world) (s : sid) (ss : session) : world :=
  if bool_decide (name ss = "") then upd w s (set_phase ss Serving)
  else
    let next := match byName_ w !! name ss with
                | Some old => if bool_decide (old = s) then Serving else Swapped old
                | None => Serving
                end in
    World (<[s := set_phase ss next]> (sessions w)) (<[name ss := s]> (byName_ w)) (lsts w) (reg w).

Definition unregister (w : world) (s : sid) (ss : session) : world :=
  World (<[s := set_phase ss Unregistered]> (sessions w))
        (if negb (bool_decide (name ss = "")) && bool_decide (byName_ w !! name ss = Some s)
         then delete (name ss) (byName_ w) else byName_ w)
        (lsts w) (reg w).

(** [s.done] is closed. *)
Definition is_done (ss : session) : bool :=
  match ph ss with Done | Unregistered | Gone => true | _ => false end.

(** ** The keepalive *)

Definition KeepaliveInterval : duration := 20 * second.
Definition KeepaliveTimeout : duration := 30 * second.
Definition EvictWait : duration := 5 * second.

(** How the [select] of [probe] ends. *)
Inductive probe_end := Answered (ok : bool) | Unanswered | Ending.

Definition probe (e : probe_end) : bool :=
  match e with Answered ok => ok | Unanswered => false | Ending => true end.

(** One tick of [keepalive]. *)
Definition keepalive (w : world) (s : sid) (e : probe_end) : world :=
  if probe e then w else close_conn w s.

(** ** Actions *)

Inductive action :=
| Accept (now : time) (id ip : string) (info : keyInfo)  (* a connection authenticates *)
| Swap (s : sid)
| CloseOld (s : sid)
| EvictDone (s : sid)                                    (* [<-old.done] *)
| EvictTimeout (s : sid)                                 (* [<-time.After(ew)] *)
| Forward (s : sid) (payload : option Z) (bound : option Z)
| Cancel (s : sid) (payload : option Z)
| Tick (s : sid) (e : probe_end)                         (* a tick of [keepalive] *)
| Drop (s : sid)                                         (* the peer or the network ends it *)
| EndLoop (s : sid)
| CloseDone (s : sid)
| Unregister (s : sid)
| Del (s : sid).

(** The state after an action; [None] when the action is not possible. *)
Definition exec (w : world) (a : action) : option world :=
  match a with
  | Accept now id' ip info =>
      let s := fresh (dom (sessions w)) in
      Some (World (<[s := Sess id' (KName info) (allowed_ports info) ∅ true Added]> (sessions w)) (byName_ w) (lsts w)
                  (Registry.Add (reg w) id' (new_client (KName info) ip now)))
  | Swap s =>
      ss ← sessions w !! s; if bool_decide (ph ss = Added) then Some (register_swap w s ss) else None
  | CloseOld s =>
      ss ← sessions w !! s;
      match ph ss with
      | Swapped old => Some (close_conn (upd w s (set_phase ss (Waiting old))) old)
      | _ => None
      end
  | EvictDone s =>
      ss ← sessions w !! s;
      match ph ss with
      | Waiting old =>
          so ← sessions w !! old;
          if is_done so then Some (upd w s (set_phase ss Serving)) else None
      | _ => None
      end
  | EvictTimeout s =>
      ss ← sessions w !! s;
      match ph ss with Waiting _ => Some (upd w s (set_phase ss Serving)) | _ => None end
  | Forward s payload bound =>
      ss ← sessions w !! s;
      if bool_decide (ph ss = Serving) && listen_ok w (default 0 payload) bound
      then Some (fst (startForward w s ss payload bound)) else None
  | Cancel s payload =>
      ss ← sessions w !! s;
      if bool_decide (ph ss = Serving) then Some (fst (cancelForward w s ss payload)) else None
  | Tick s e =>
      ss ← sessions w !! s;
      if bool_decide (ph ss = Serving) || bool_decide (ph ss = Released) then Some (keepalive w s e) else None
  | Drop s =>
      ss ← sessions w !! s; Some (close_conn w s)
  | EndLoop s =>
      ss ← sessions w !! s;
      if bool_decide (ph ss = Serving) && negb (isOpen ss) then Some (closeAll w s ss) else None
  | CloseDone s =>
      ss ← sessions w !! s;
      if bool_decide (ph ss = Released) then Some (upd w s (set_phase ss Done)) else None
  | Unregister s =>
      ss ← sessions w !! s;
      if bool_decide (ph ss = Done) then Some (unregister w s ss) else None
  | Del s =>
      ss ← sessions w !! s;
      if bool_decide (ph ss = Unregistered)
      then Some (World (<[s := set_phase ss Gone]> (sessions w)) (byName_ w) (lsts w) (Registry.Del (reg w) (id ss)))
      else None
  end.

Fixpoint run (w : world) (acts : list action) : option world :=
  match acts with
  | [] => Some w
  | a :: acts' => w' ← exec w a; run w' acts'
  end.

Definition reachable (w : world) : Prop := exists acts, run newSessionManager acts = Some w.

(** ** The listeners *)

(** What the listeners depend on of the sessions. *)
Definition core (ss : session) : gset Z * gmap Z lid := (allowed ss, fwds ss).
Definition cores (w : world) (s : sid) : option (gset Z * gmap Z lid) := core <$> sessions w !! s.

Record linv (F : sid -> option (gset Z * gmap Z lid)) (L : gmap lid listener) : Prop := {
  (** a forward is an open listener of the session *)
  linv_fwds s a f p l : F s = Some (a, f) -> f !! p = Some l -> exists q, L !! l = Some (Lst q true s p);
  (** an open listener was asked for on an allowed port, and, unless that was 0,
      is on that port and among the forwards of its session *)
  linv_open l x : L !! l = Some x -> l_open x = true ->
    exists a f, F (l_owner x) = Some (a, f) /\ l_req x ∈ a
      /\ (l_req x = 0 \/ l_port x = l_req x /\ f !! l_req x = Some l);
  (** a port is held by one listener *)
  linv_port l l' x x' : L !! l = Some x -> L !! l' = Some x' -> l_open x = true -> l_open x' = true ->
    l_port x = l_port x' -> l = l';
}.

Lemma linv_ext F F' L : (forall s, F' s = F s) -> linv F L -> linv F' L.
Proof.
  intros E [H1 H2 H3]. split; [| | done].
  - intros s a f p l. rewrite E. apply H1.
  - intros l x Hx Ho. rewrite E. by apply H2.
Qed.

Lemma linv_new F F' L s a :
  F s = None -> F' s = Some (a, ∅) -> (forall t, t <> s -> F' t = F t) -> linv F L -> linv F' L.
Proof.
  intros Hn Hs E [H1 H2 H3]. split; [| | done].
  - intros t b f p l Ht. destruct (decide (t = s)) as [-> | Hne].
    + rewrite Hs in Ht. by simplify_eq.
    + rewrite E in Ht by done. by eapply H1.
  - intros l x Hx Ho. destruct (H2 l x Hx Ho) as (b & f & Hb & Hr). exists b, f.
    rewrite E; [done |]. intros He. by rewrite He, Hn in Hb.
Qed.

Lemma linv_forward F F' L s a f p q l :
  F s = Some (a, f) -> p ∈ a -> L !! l = None ->
  (forall l' x, L !! l' = Some x -> l_open x = true -> l_port x <> q) -> (p = 0 \/ q = p) ->
  F' s = Some (a, <[p := l]> f) -> (forall t, t <> s -> F' t = F t) ->
  linv F L -> linv F' (<[l := Lst q true s p]> L).
Proof.
  intros Hs Hp Hl Hfree Hq Hs' E [H1 H2 H3]. split.
  - intros t b g r k Ht Hk. destruct (decide (t = s)) as [-> | Hne].
    + rewrite Hs' in Ht. simplify_eq. apply lookup_insert_Some in Hk as [[-> ->] | [Hne Hk]].
      * exists q. by rewrite lookup_insert_eq.
      * destruct (H1 s b f r k Hs Hk) as [q' Hq']. exists q'. rewrite lookup_insert_ne; [done | congruence].
    + rewrite E in Ht by done. destruct (H1 t b g r k Ht Hk) as [q' Hq']. exists q'.
      rewrite lookup_insert_ne; [done | congruence].
  - intros k x Hx Ho. apply lookup_insert_Some in Hx as [[<- <-] | [Hne Hx]]; cbn.
    + exists a, (<[p := l]> f). rewrite lookup_insert_eq. split; [done |]. split; [done |]. naive_solver.
    + destruct (H2 k x Hx Ho) as (b & g & Hb & Hin & Hr). destruct (decide (l_owner x = s)) as [Heq | Hne'].
      * rewrite Heq in *. rewrite Hs in Hb. simplify_eq. exists b, (<[p := l]> g). split; [done |].
        split; [done |]. destruct (decide (l_req x = 0)) as [? | Hnz]; [by left |]. right.
        destruct Hr as [? | [Hr1 Hr2]]; [done |]. split; [done |].
        rewrite lookup_insert_ne; [done |]. intros ->. destruct Hq as [? | ->]; [done |].
        by apply (Hfree k x).
      * exists b, g. by rewrite E.
  - intros k k' x x' Hx Hx' Ho Ho' Hpp.
    apply lookup_insert_Some in Hx as [[<- <-] | [Hne Hx]];
      apply lookup_insert_Some in Hx' as [[<- <-] | [Hne' Hx']]; cbn in *; [done | | | by eapply H3].
    + by destruct (Hfree _ _ Hx' Ho').
    + by destruct (Hfree _ _ Hx Ho).
Qed.

(** Closing some listeners of [s] and removing the forwards they are, keeping the
    others: what [cancelForward] and [closeAll] do. *)
Lemma linv_close F F' L L' s a f f' (gone : lid -> Prop) :
  F s = Some (a, f) -> F' s = Some (a, f') -> (forall t, t <> s -> F' t = F t) ->
  (forall p l, f' !! p = Some l -> f !! p = Some l /\ ~ gone l) ->
  (forall p l, f !! p = Some l -> f' !! p = None -> gone l) ->
  (forall l, gone l -> exists p, f !! p = Some l) ->
  (forall l x, L' !! l = Some x -> l_open x = true -> L !! l = Some x /\ ~ gone l) ->
  (forall l x, L !! l = Some x -> ~ gone l -> L' !! l = Some x) ->
  linv F L -> linv F' L'.
Proof.
  intros Hs Hs' E Hf Hf' Hg HL HL' [H1 H2 H3]. split.
  - intros t b g p l Ht Hl. destruct (decide (t = s)) as [-> | Hne].
    + rewrite Hs' in Ht. simplify_eq. destruct (Hf p l Hl) as [Hl' Hn].
      destruct (H1 s b f p l Hs Hl') as [q Hq]. eauto.
    + rewrite E in Ht by done. destruct (H1 t b g p l Ht Hl) as [q Hq]. exists q. apply HL'; [done |].
      intros Hgone. destruct (Hg l Hgone) as [p' Hp']. destruct (H1 s a f p' l Hs Hp') as [q' Hq']. congruence.
  - intros l x Hx Ho. destruct (HL l x Hx Ho) as [Hx' Hn].
    destruct (H2 l x Hx' Ho) as (b & g & Hb & Hin & Hr). destruct (decide (l_owner x = s)) as [Heq | Hne].
    + rewrite Heq in *. rewrite Hs in Hb. simplify_eq. exists b, f'. split; [done |]. split; [done |].
      destruct Hr as [? | [? Hr]]; [by left |]. right. split; [done |].
      destruct (f' !! l_req x) as [l' |] eqn:E'; [| by destruct Hn; eapply Hf'].
      destruct (Hf _ _ E') as [E'' _]. congruence.
    + exists b, g. by rewrite E.
  - intros l l' x x' Hx Hx' Ho Ho' Hpp.
    destruct (HL l x Hx Ho) as [? _], (HL l' x' Hx' Ho') as [? _]. by eapply H3.
Qed.

Lemma foldr_close_lookup L ls l :
  foldr close_lst L ls !! l
  = (fun x => if bool_decide (l ∈ ls) then Lst (l_port x) false (l_owner x) (l_req x) else x) <$> L !! l.
Proof.
  induction ls as [| k ls IH]; cbn.
  { rewrite bool_decide_eq_false_2 by apply not_elem_of_nil. by destruct (L !! l). }
  unfold close_lst at 1. destruct (decide (l = k)) as [-> | Hne].
  - rewrite lookup_alter_eq, IH. rewrite (bool_decide_eq_true_2 (k ∈ k :: ls)) by set_solver.
    destruct (L !! k); [| done]. cbn. by case_bool_decide.
  - rewrite lookup_alter_ne by done. rewrite IH. destruct (L !! l); [| done]. cbn.
    f_equal. repeat case_bool_decide; set_solver.
Qed.

(** *** Every action preserves the listener invariant *)

(** Take an action that happened apart: its session and the guards it passed. *)
Ltac invert_exec H :=
  cbn [exec] in H;
  try (apply bind_Some in H as (? & ? & H));
  repeat match type of H with
  | (match ?x with _ => _ end) = Some _ => destruct x eqn:?; try discriminate H
  | mbind _ _ = Some _ => apply bind_Some in H as (? & ? & H)
  end;
  try injection H as <-; breflect.

Definition quiet (w w' : world) : Prop := lsts w' = lsts w /\ forall t, cores w' t = cores w t.

Lemma quiet_linv w w' : quiet w w' -> linv (cores w) (lsts w) -> linv (cores w') (lsts w').
Proof. intros [-> E]. by apply linv_ext. Qed.

Lemma cores_insert w s ss b l r t :
  cores (World (<[s := ss]> (sessions w)) b l r) t = if decide (t = s) then Some (core ss) else cores w t.
Proof.
  unfold cores. cbn. case_decide; [subst; by rewrite lookup_insert_eq | by rewrite lookup_insert_ne].
Qed.

Lemma quiet_put w s ss ss' b r :
  sessions w !! s = Some ss -> core ss' = core ss -> quiet w (World (<[s := ss']> (sessions w)) b (lsts w) r).
Proof.
  intros Hs Hc. split; [done |]. intros t. rewrite cores_insert. case_decide; [| done].
  subst. unfold cores. by rewrite Hs, Hc.
Qed.

Lemma quiet_close w s : quiet w (close_conn w s).
Proof.
  split; [done |]. intros t. unfold cores. cbn.
  destruct (decide (t = s)) as [-> |]; [rewrite lookup_alter_eq | by rewrite lookup_alter_ne].
  by destruct (sessions w !! s).
Qed.

Lemma quiet_trans w1 w2 w3 : quiet w1 w2 -> quiet w2 w3 -> quiet w1 w3.
Proof. intros [E1 F1] [E2 F2]. split; [congruence |]. intros t. by rewrite F2. Qed.

Definition noisy (a : action) : bool :=
  match a with Accept _ _ _ _ | Forward _ _ _ | Cancel _ _ | EndLoop _ => true | _ => false end.

Lemma exec_quiet w a w' : noisy a = false -> exec w a = Some w' -> quiet w w'.
Proof.
  intros Hn H. destruct a; try done; invert_exec H.
  - unfold register_swap. case_bool_decide; by eapply quiet_put.
  - eapply quiet_trans; [| apply quiet_close]. by eapply quiet_put.
  - by eapply quiet_put.
  - by eapply quiet_put.
  - unfold keepalive. destruct (probe e); [done | apply quiet_close].
  - apply quiet_close.
  - by eapply quiet_put.
  - by eapply quiet_put.
  - by eapply quiet_put.
Qed.

Lemma port_free w q l x :
  port_taken w q = false -> lsts w !! l = Some x -> l_open x = true -> l_port x <> q.
Proof.
  intros Hf Hx Ho Hq. assert (port_taken w q = true) as E; [| congruence].
  apply existsb_exists. exists (l, x). rewrite <-list_elem_of_In, elem_of_map_to_list. cbn. split; [done |].
  rewrite Ho. by apply Z.eqb_eq.
Qed.

(** Cancelling a forward closes its listener and no other. *)
Lemma linv_cancel w s ss payload :
  linv (cores w) (lsts w) -> sessions w !! s = Some ss ->
  linv (cores (fst (cancelForward w s ss payload))) (lsts (fst (cancelForward w s ss payload))).
Proof.
  intros Hi Hs. assert (cores w s = Some (allowed ss, fwds ss)) as Hc by (unfold cores; by rewrite Hs).
  unfold cancelForward. set (p := default 0 payload). destruct (fwds ss !! p) as [l |] eqn:E; [| done].
  cbn [fst lsts].
  assert (forall p' l', fwds ss !! p' = Some l' -> l' = l -> p' = p) as Hinj.
  { intros p' l' Hp' ->. destruct (linv_fwds _ _ Hi _ _ _ _ _ Hc Hp') as [q1 Hq1].
    destruct (linv_fwds _ _ Hi _ _ _ _ _ Hc E) as [q2 Hq2]. congruence. }
  apply (linv_close (cores w) _ (lsts w) _ s (allowed ss) (fwds ss) (delete p (fwds ss)) (fun l' => l' = l));
    [exact Hc | | | | | | | | done].
  - rewrite cores_insert. by rewrite decide_True.
  - intros t Ht. rewrite cores_insert. by rewrite decide_False.
  - intros p' l' [Hne Hp']%lookup_delete_Some. split; [done |]. intros Hl. by destruct Hne; symmetry; eapply Hinj.
  - intros p' l' Hp' [-> | Hd]%lookup_delete_None; congruence.
  - intros l' ->. eauto.
  - intros l' x. unfold close_lst. destruct (decide (l' = l)) as [-> | Hne].
    + rewrite lookup_alter_eq. destruct (lsts w !! l); [| done]. by intros [= <-].
    + by rewrite lookup_alter_ne.
  - intros l' x Hx Hne. unfold close_lst. by rewrite lookup_alter_ne.
Qed.

Lemma linv_exec w a w' :
  linv (cores w) (lsts w) -> exec w a = Some w' -> linv (cores w') (lsts w').
Proof.
  intros Hi H. destruct (noisy a) eqn:Hn; [| by eapply quiet_linv, Hi; eapply exec_quiet].
  destruct a; try done; invert_exec H.
  - apply (linv_new (cores w) _ _ (fresh (dom (sessions w))) (allowed_ports info)); [| | | done].
    + unfold cores. by rewrite (not_elem_of_dom_1 _ _ (is_fresh (dom (sessions w)))).
    + rewrite cores_insert. by rewrite decide_True.
    + intros t Ht. rewrite cores_insert. by rewrite decide_False.
  - rename x into ss. assert (cores w s = Some (allowed ss, fwds ss)) as Hc by (unfold cores; by rewrite H0).
    unfold startForward. destruct payload as [p |]; [| done].
    case_bool_decide as Hp; [| done]. destruct bound as [q |]; [| done]. cbn [fst lsts default listen_ok] in *.
    breflect. eapply (linv_forward (cores w)); [exact Hc | done | | | | | | done].
    + apply (not_elem_of_dom_1 _ _ (is_fresh (dom (lsts w)))).
    + intros l' x. by apply port_free.
    + match goal with H : _ || _ = true |- _ => apply orb_prop in H as [H | H]; breflect; auto end.
    + rewrite cores_insert. by rewrite decide_True.
    + intros t Ht. rewrite cores_insert. by rewrite decide_False.
  - by apply linv_cancel.
  - rename x into ss. assert (cores w s = Some (allowed ss, fwds ss)) as Hc by (unfold cores; by rewrite H0).
    unfold closeAll. cbn [lsts].
    apply (linv_close (cores w) _ (lsts w) _ s (allowed ss) (fwds ss) ∅ (fun l' => l' ∈ (map_to_list (fwds ss)).*2));
      [exact Hc | | | | | | | | done].
    + rewrite cores_insert. by rewrite decide_True.
    + intros t Ht. rewrite cores_insert. by rewrite decide_False.
    + intros p l Hl. by rewrite lookup_empty in Hl.
    + intros p l Hl _. apply elem_of_values. eauto.
    + intros l Hl. by apply elem_of_values.
    + intros l x. rewrite foldr_close_lookup. destruct (lsts w !! l) as [y |]; [| done]. cbn.
      case_bool_decide; intros [= <-]; [done |]. by destruct y.
    + intros l x Hx Hl. rewrite foldr_close_lookup, Hx. cbn. by rewrite bool_decide_eq_false_2.
Qed.

(** ** One live session per name *)

Definition registered (p : phase) : bool :=
  match p with Swapped _ | Waiting _ | Serving => true | _ => false end.

Definition holds_name (p : phase) : bool :=
  match p with Added | Unregistered | Gone => false | _ => true end.

Record ninv (w : world) : Prop := {
  (** a session whose loop has ended holds no forward and its connection is closed *)
  ninv_released s ss : sessions w !! s = Some ss ->
    match ph ss with Released | Done | Unregistered | Gone => fwds ss = ∅ /\ isOpen ss = false | _ => True end;
  (** the manager maps a name to a session of that name that is not yet unregistered *)
  ninv_name n s : byName_ w !! n = Some s ->
    exists ss, sessions w !! s = Some ss /\ name ss = n /\ n <> "" /\ holds_name (ph ss) = true;
  (** a registered session that has lost its name is closed, or about to be *)
  ninv_live s ss : sessions w !! s = Some ss -> registered (ph ss) = true -> name ss <> "" ->
    byName_ w !! name ss = Some s \/ isOpen ss = false
    \/ exists s' ss', sessions w !! s' = Some ss' /\ ph ss' = Swapped s;
}.

(** What [ninv] asks of a session on its own. *)
Definition settled (ss : session) : Prop :=
  match ph ss with Released | Done | Unregistered | Gone => fwds ss = ∅ /\ isOpen ss = false | _ => True end.

(** Replacing a session by one that keeps its name and its rank in [register]. *)
Lemma ninv_put w s ss ss' L R :
  ninv w -> sessions w !! s = Some ss -> name ss' = name ss -> settled ss' ->
  (holds_name (ph ss) = true -> holds_name (ph ss') = true) ->
  (registered (ph ss') = true -> registered (ph ss) = true) ->
  (isOpen ss = false -> isOpen ss' = false) ->
  (forall old so, ph ss = Swapped old -> <[s := ss']> (sessions w) !! old = Some so ->
     ph ss' = Swapped old \/ isOpen so = false) ->
  ninv (World (<[s := ss']> (sessions w)) (byName_ w) L R).
Proof.
  intros [H1 H2 H3] Hs Hn Hset Hh Hr Ho Hsw. split; cbn [sessions byName_].
  - intros t st [[<- <-] | [_ Ht]]%lookup_insert_Some; [done | by apply (H1 t)].
  - intros n t Ht. destruct (H2 n t Ht) as (st & Hst & Hnm & Hne & Hhold).
    destruct (decide (t = s)) as [-> | Hts].
    + rewrite lookup_insert_eq. rewrite Hs in Hst. simplify_eq. exists ss'. auto.
    + rewrite lookup_insert_ne by done. eauto.
  - intros t st Ht Hrt Hnt.
    assert (exists st0, sessions w !! t = Some st0 /\ registered (ph st0) = true /\ name st0 = name st
            /\ (isOpen st0 = false -> isOpen st = false)) as (st0 & Ht0 & Hr0 & Hn0 & Ho0).
    { apply lookup_insert_Some in Ht as [[<- <-] | [_ Ht]]; [exists ss; auto | exists st; auto]. }
    rewrite <-Hn0 in *. destruct (H3 t st0 Ht0 Hr0 Hnt) as [? | [? | (s' & st' & Hs' & Hp')]]; [auto..|].
    destruct (decide (s' = s)) as [-> | Hne].
    + rewrite Hs in Hs'. simplify_eq. destruct (Hsw t st Hp' Ht) as [Hp'' | ?]; [| auto].
      do 2 right. exists s, ss'. by rewrite lookup_insert_eq.
    + do 2 right. exists s', st'. by rewrite lookup_insert_ne.
Qed.

(** Closing a connection. *)
Lemma ninv_close w s : ninv w -> ninv (close_conn w s).
Proof.
  intros [H1 H2 H3]. unfold close_conn. split; cbn [sessions byName_].
  - intros t st [ (<- & st0 & Hst & ->) | [Hne Ht] ]%lookup_alter_Some; [| by apply (H1 t)].
    specialize (H1 _ _ Hst). cbn. destruct (ph st0); naive_solver.
  - intros n t Ht. destruct (H2 n t Ht) as (st & Hst & ?). destruct (decide (t = s)) as [-> | Hne].
    + rewrite lookup_alter_eq, Hst. cbn. eexists. split; [done |]. done.
    + rewrite lookup_alter_ne by done. eauto.
  - assert (forall t, (exists s' st', sessions w !! s' = Some st' /\ ph st' = Swapped t) ->
        exists s' st', alter set_closed s (sessions w) !! s' = Some st' /\ ph st' = Swapped t) as Hsw.
    { intros t (s' & st' & Hs' & Hp). destruct (decide (s' = s)) as [-> | Hne].
      - exists s, (set_closed st'). rewrite lookup_alter_eq, Hs'. done.
      - exists s', st'. by rewrite lookup_alter_ne. }
    intros t st [ (<- & st0 & Hst & ->) | [Hne Ht] ]%lookup_alter_Some Hr Hn; [by auto |].
    destruct (H3 t st Ht Hr Hn) as [? | [? | ?]]; auto.
Qed.

Lemma ninv_swap w s ss :
  ninv w -> sessions w !! s = Some ss -> ph ss = Added -> ninv (register_swap w s ss).
Proof.
  intros [H1 H2 H3] Hs Hp. unfold register_swap.
  case_bool_decide as Hn.
  { split; cbn [upd sessions byName_].
    - intros t st [[<- <-] | [_ Ht]]%lookup_insert_Some; [done | by apply (H1 t)].
    - intros n t Ht. destruct (H2 n t Ht) as (st & Hst & ? & ? & Hh).
      assert (t <> s) by (intros ->; rewrite Hs in Hst; simplify_eq; by rewrite Hp in Hh).
      rewrite lookup_insert_ne by done. eauto.
    - intros t st [[<- <-] | [Hne Ht]]%lookup_insert_Some Hr Hnt; [done |].
      destruct (H3 t st Ht Hr Hnt) as [? | [? | (s' & st' & Hs' & Hp')]]; [auto..|].
      do 2 right. exists s', st'. rewrite lookup_insert_ne; [done |]. intros <-. congruence. }
  set (next := match byName_ w !! name ss with Some old => _ | None => _ end).
  assert (holds_name next = true /\ registered next = true
          /\ forall t, byName_ w !! name ss = Some t -> t <> s -> next = Swapped t) as (Hh & Hreg & Hsw).
  { unfold next. destruct (byName_ w !! name ss) as [old |]; [| done].
    case_bool_decide; (split; [done |]; split; [done |]); intros t [= <-]; done. }
  split; cbn [sessions byName_].
  - intros t st [[<- <-] | [_ Ht]]%lookup_insert_Some; [| by apply (H1 t)]. cbn. by destruct next.
  - intros n t [[<- <-] | [Hne Ht]]%lookup_insert_Some.
    + rewrite lookup_insert_eq. eexists. split; [done |]. done.
    + destruct (H2 n t Ht) as (st & Hst & ? & ? & Hh').
      assert (t <> s) by (intros ->; rewrite Hs in Hst; simplify_eq; by rewrite Hp in Hh').
      rewrite lookup_insert_ne by done. eauto.
  - intros t st [[<- <-] | [Hne Ht]]%lookup_insert_Some Hr Hnt; [left; apply lookup_insert_eq |].
    destruct (decide (name st = name ss)) as [Heq | Hnn].
    + rewrite Heq in *. destruct (H3 t st Ht Hr ltac:(by rewrite Heq)) as [Hb | [? | (s' & st' & Hs' & Hp')]]; [| auto |].
      * do 2 right. exists s. eexists. rewrite lookup_insert_eq. split; [done |]. apply Hsw; [by rewrite <-Heq | done].
      * do 2 right. exists s', st'. rewrite lookup_insert_ne; [done |]. intros <-. congruence.
    + rewrite lookup_insert_ne by done. destruct (H3 t st Ht Hr Hnt) as [? | [? | (s' & st' & Hs' & Hp')]]; [auto..|].
      do 2 right. exists s', st'. rewrite lookup_insert_ne; [done |]. intros <-. congruence.
Qed.

Lemma ninv_close_old w s ss old :
  ninv w -> sessions w !! s = Some ss -> ph ss = Swapped old ->
  ninv (close_conn (upd w s (set_phase ss (Waiting old))) old).
Proof.
  intros Hi Hs Hp. set (ssx := if decide (s = old) then set_closed ss else ss).
  assert (sessions (close_conn w old) !! s = Some ssx) as Hsx.
  { unfold ssx, close_conn. cbn. case_decide; [subst; by rewrite lookup_alter_eq, Hs | by rewrite lookup_alter_ne]. }
  assert (close_conn (upd w s (set_phase ss (Waiting old))) old
          = World (<[s := set_phase ssx (Waiting old)]> (sessions (close_conn w old)))
                  (byName_ (close_conn w old)) (lsts w) (reg w)) as ->.
  { unfold close_conn, upd, ssx. cbn. f_equal. apply map_eq. intros t.
    destruct (decide (t = s)) as [-> | Hts].
    - rewrite lookup_insert_eq. case_decide; [subst; by rewrite lookup_alter_eq, lookup_insert_eq |].
      rewrite lookup_alter_ne by done. apply lookup_insert_eq.
    - rewrite (lookup_insert_ne _ s t) by done. destruct (decide (t = old)) as [-> |];
        [rewrite !lookup_alter_eq | rewrite !lookup_alter_ne by done]; by rewrite lookup_insert_ne. }
  apply (ninv_put _ _ ssx); [by apply ninv_close | done | by destruct (decide (s = old)) | done | done | | done |].
  - intros _. unfold ssx. case_decide; cbn; by rewrite Hp.
  - intros old' so. assert (ph ssx = Swapped old) as -> by (unfold ssx; case_decide; cbn; done).
    intros [= <-]. right. apply lookup_insert_Some in H as [[<- <-] | [Hne Ho]].
    + unfold ssx. by rewrite decide_True.
    + unfold close_conn in Ho. cbn in Ho. rewrite lookup_alter_eq in Ho.
      destruct (sessions w !! old); [| done]. by simplify_eq/=.
Qed.

Lemma ninv_unregister w s ss :
  ninv w -> sessions w !! s = Some ss -> ph ss = Done -> ninv (unregister w s ss).
Proof.
  intros [H1 H2 H3] Hs Hp.
  assert (forall n, byName_ w !! n = Some s ->
            negb (bool_decide (name ss = "")) && bool_decide (byName_ w !! name ss = Some s) = true /\ n = name ss) as Hown.
  { intros n Hn. destruct (H2 n s Hn) as (st & Hst & Hnm & Hne & _). rewrite Hs in Hst. simplify_eq.
    by rewrite bool_decide_eq_false_2, bool_decide_eq_true_2. }
  assert (forall n t, byName_ (unregister w s ss) !! n = Some t -> byName_ w !! n = Some t /\ t <> s) as Hb.
  { intros n t. unfold unregister. cbn. intros Hn. split.
    - destruct (_ && _) in Hn; [by apply lookup_delete_Some in Hn as [_ ?] | done].
    - intros ->. destruct (_ && _) eqn:E in Hn.
      + apply lookup_delete_Some in Hn as [Hne Hn]. by destruct (Hown n Hn).
      + destruct (Hown n Hn) as [E' _]. congruence. }
  assert (forall n t, byName_ w !! n = Some t -> t <> s -> byName_ (unregister w s ss) !! n = Some t) as Hb'.
  { intros n t Hn Hts. unfold unregister. cbn. destruct (_ && _) eqn:E; [| done].
    rewrite lookup_delete_ne; [done |]. intros <-. breflect. congruence. }
  split; cbn [unregister sessions].
  - intros t st [[<- <-] | [_ Ht]]%lookup_insert_Some; [| by apply (H1 t)]. specialize (H1 _ _ Hs). by rewrite Hp in H1.
  - intros n t [Hn Hts]%Hb. rewrite lookup_insert_ne by done. by apply H2.
  - intros t st [[<- <-] | [Hne Ht]]%lookup_insert_Some Hr Hnt; [done |].
    destruct (H3 t st Ht Hr Hnt) as [? | [? | (s' & st' & Hs' & Hp')]]; [left; by apply Hb' | auto |].
    do 2 right. exists s', st'. rewrite lookup_insert_ne; [done |]. intros <-. congruence.
Qed.

Ltac by_phase :=
  cbn; unfold settled; cbn; intros;
  repeat match goal with H : ph _ = _ |- _ => rewrite H in * end; cbn in *; first [done | congruence].

Lemma ninv_exec w a w' : ninv w -> exec w a = Some w' -> ninv w'.
Proof.
  intros Hi H. destruct a; invert_exec H; try match goal with H : sessions _ !! _ = Some ?x |- _ => rename x into ss end.
  - (* Accept *)
    pose proof (not_elem_of_dom_1 _ _ (is_fresh (dom (sessions w)))) as Hf. set (s := fresh _) in *.
    destruct Hi as [H1 H2 H3]. split; cbn [sessions byName_].
    + intros t st [[<- <-] | [_ Ht]]%lookup_insert_Some; [done | by apply (H1 t)].
    + intros n t Ht. destruct (H2 n t Ht) as (st & Hst & ?).
      rewrite lookup_insert_ne; [eauto |]. intros <-. congruence.
    + intros t st [[<- <-] | [Hne Ht]]%lookup_insert_Some Hr Hnt; [done |].
      destruct (H3 t st Ht Hr Hnt) as [? | [? | (s' & st' & Hs' & Hp')]]; [auto..|].
      do 2 right. exists s', st'. rewrite lookup_insert_ne; [done |]. intros <-. congruence.
  - by apply ninv_swap.
  - by apply ninv_close_old.
  - eapply ninv_put; by_phase.
  - eapply ninv_put; by_phase.
  - (* Forward *)
    unfold startForward. destruct payload as [p |]; [| done]. case_bool_decide; [| done].
    destruct bound as [q |]; [| done]. cbn [fst].
    eapply ninv_put; by_phase.
  - unfold cancelForward. destruct (fwds ss !! _); [| done]. cbn [fst].
    eapply ninv_put; by_phase.
  - unfold keepalive. destruct (probe e); [done | by apply ninv_close].
  - by apply ninv_close.
  - eapply ninv_put; by_phase.
  - pose proof (ninv_released _ Hi _ _ H0) as Hset. eapply ninv_put; by_phase.
  - by apply ninv_unregister.
  - pose proof (ninv_released _ Hi _ _ H0) as Hset. eapply ninv_put; by_phase.
Qed.

(** ** Reachable states *)

Record inv (w : world) : Prop := { inv_l : linv (cores w) (lsts w); inv_n : ninv w }.

Lemma inv_start : inv newSessionManager.
Proof. split; split; intros *; cbn; unfold cores; cbn; rewrite ?lookup_empty; cbn; intros; rewrite ?lookup_empty in *; done. Qed.

Lemma inv_run w acts w' : inv w -> run w acts = Some w' -> inv w'.
Proof.
  revert w. induction acts as [| a acts IH]; intros w Hi H; cbn in H; [by simplify_eq |].
  destruct (exec w a) as [w1 |] eqn:E; [| done]. apply (IH w1); [| done]. destruct Hi.
  split; [by eapply linv_exec | by eapply ninv_exec].
Qed.

Lemma reachable_inv w : reachable w -> inv w.
Proof. intros [acts H]. eapply inv_run; [apply inv_start | done]. Qed.

(** ** The registry lists only permitted ports *)

(** Some session of address [i] is permitted [port]. *)
Definition permitted (w : world) (i : string) (port : Z) : Prop :=
  exists s ss, sessions w !! s = Some ss /\ id ss = i /\ port ∈ allowed ss.

Record rinv_of (ok : string -> Z -> Prop) (r : Registry) : Prop := {
  rinv_heap i p : m r !! i = Some p -> is_Some (heap r !! p);
  rinv_inj i j p : m r !! i = Some p -> m r !! j = Some p -> i = j;
  rinv_ports i p c port : m r !! i = Some p -> heap r !! p = Some c -> port ∈ ports c -> ok i port;
}.

Definition rinv (w : world) : Prop := rinv_of (permitted w) (reg w).

Lemma rinv_mono (ok ok' : string -> Z -> Prop) r :
  (forall i p, ok i p -> ok' i p) -> rinv_of ok r -> rinv_of ok' r.
Proof. intros Hk [H1 H2 H3]. split; eauto. Qed.

Lemma rinv_add ok r i name ip now : rinv_of ok r -> rinv_of ok (Registry.Add r i (new_client name ip now)).
Proof.
  intros [H1 H2 H3]. set (p0 := fresh (dom (heap r))).
  assert (heap r !! p0 = None) as Hf by apply (not_elem_of_dom_1 _ _ (is_fresh (dom (heap r)))).
  assert (forall j p, m r !! j = Some p -> p <> p0) as Hne by (intros j p Hj ->; destruct (H1 j p0 Hj); congruence).
  split; cbn [Registry.Add heap m]; fold p0.
  - intros j p [[<- <-] | [_ Hp]]%lookup_insert_Some; [rewrite lookup_insert_eq; eauto |].
    rewrite lookup_insert_ne by (symmetry; by eapply Hne). eauto.
  - intros j k p [[<- <-] | [_ Hp]]%lookup_insert_Some [[<- Hq] | [_ Hq]]%lookup_insert_Some; [done | | | by eapply H2].
    + by destruct (Hne _ _ Hq).
    + subst. by destruct (Hne _ _ Hp).
  - intros j p c port [[<- <-] | [_ Hp]]%lookup_insert_Some.
    + rewrite lookup_insert_eq. intros [= <-]. cbn. by intros ?%elem_of_nil.
    + rewrite lookup_insert_ne by (symmetry; by eapply Hne). eauto.
Qed.

Lemma rinv_add_port ok r i port : ok i port -> rinv_of ok r -> rinv_of ok (AddPort r i port).
Proof.
  intros Hok [H1 H2 H3]. unfold AddPort. destruct (m r !! i) as [p0 |] eqn:E; [| done].
  split; cbn [update set_heap heap m]; [| done |].
  - intros j p Hp. destruct (H1 j p Hp) as [c Hc]. destruct (decide (p = p0)) as [-> |].
    + rewrite lookup_alter_eq, Hc. cbn. eauto.
    + rewrite lookup_alter_ne by done. eauto.
  - intros j p c q Hj [(<- & c0 & Hc0 & ->) | [Hne Hc]]%lookup_alter_Some Hq; [| by eapply H3].
    cbn in Hq. apply elem_of_app in Hq as [Hq | ->%list_elem_of_singleton]; [by eapply H3 |].
    by rewrite (H2 _ _ _ Hj E).
Qed.

Lemma rinv_del ok r i : rinv_of ok r -> rinv_of ok (Registry.Del r i).
Proof.
  intros [H1 H2 H3]. split; cbn [Registry.Del set_m heap m]; intros *; rewrite ?lookup_delete_Some; naive_solver.
Qed.

(** No action changes the address or the permissions of a session, or removes one. *)
Definition keeps (w w' : world) : Prop :=
  forall s ss, sessions w !! s = Some ss ->
    exists ss', sessions w' !! s = Some ss' /\ id ss' = id ss /\ allowed ss' = allowed ss /\ name ss' = name ss.

Lemma keeps_put w s ss ss' b l r :
  sessions w !! s = Some ss -> id ss' = id ss -> allowed ss' = allowed ss -> name ss' = name ss ->
  keeps w (World (<[s := ss']> (sessions w)) b l r).
Proof.
  intros Hs H1 H2 H3 t st Ht. cbn. destruct (decide (t = s)) as [-> | Hne].
  - rewrite lookup_insert_eq. rewrite Hs in Ht. simplify_eq. eauto 6.
  - rewrite lookup_insert_ne by done. eauto 6.
Qed.

Lemma keeps_close w s : keeps w (close_conn w s).
Proof.
  intros t st Ht. cbn. destruct (decide (t = s)) as [-> | Hne].
  - rewrite lookup_alter_eq, Ht. cbn. eexists. split; [done |]. done.
  - rewrite lookup_alter_ne by done. eauto 6.
Qed.

Lemma keeps_refl w : keeps w w.
Proof. intros s ss H. eauto 6. Qed.

Lemma keeps_exec w a w' : exec w a = Some w' -> keeps w w'.
Proof.
  intros H. destruct a; invert_exec H;
    try match goal with H : sessions _ !! _ = Some ?x |- _ => rename x into ss end.
  - intros t st Ht. cbn. rewrite lookup_insert_ne; [eauto 6 |].
    intros <-. by rewrite (not_elem_of_dom_1 _ _ (is_fresh (dom (sessions w)))) in Ht.
  - unfold register_swap. case_bool_decide; by eapply keeps_put.
  - intros t st Ht. destruct (keeps_put w s ss (set_phase ss (Waiting old)) (byName_ w) (lsts w) (reg w)
      H0 eq_refl eq_refl eq_refl t st Ht) as (st1 & Ht1 & E1 & E2 & E3).
    destruct (keeps_close (upd w s (set_phase ss (Waiting old))) old t st1 Ht1) as (st2 & Ht2 & F1 & F2 & F3).
    exists st2. split; [done |]. split; [congruence |]. split; congruence.
  - by eapply keeps_put.
  - by eapply keeps_put.
  - unfold startForward. destruct payload as [p |]; [| apply keeps_refl].
    case_bool_decide; [| apply keeps_refl]. destruct bound; [| apply keeps_refl]. by eapply keeps_put.
  - unfold cancelForward. destruct (fwds ss !! _); [| apply keeps_refl]. by eapply keeps_put.
  - unfold keepalive. destruct (probe e); [apply keeps_refl | apply keeps_close].
  - apply keeps_close.
  - by eapply keeps_put.
  - by eapply keeps_put.
  - by eapply keeps_put.
  - by eapply keeps_put.
Qed.

Definition is_accept (a : action) : bool := match a with Accept _ _ _ _ => true | _ => false end.

Lemma dom_put w s ss ss' : sessions w !! s = Some ss -> dom (<[s := ss']> (sessions w)) = dom (sessions w).
Proof. intros Hs. apply dom_insert_lookup_L. eauto. Qed.

(** Only [Accept] adds a session. *)
Lemma dom_exec w a w' : is_accept a = false -> exec w a = Some w' -> dom (sessions w') = dom (sessions w).
Proof.
  intros Ha H. destruct a; try done; invert_exec H.
  - unfold register_swap. case_bool_decide; by eapply dom_put.
  - cbn. rewrite dom_alter_L. by eapply dom_put.
  - by eapply dom_put.
  - by eapply dom_put.
  - unfold startForward. destruct payload as [p |]; [| done]. case_bool_decide; [| done].
    destruct bound; [| done]. by eapply dom_put.
  - unfold cancelForward. destruct (fwds x !! _); [| done]. by eapply dom_put.
  - unfold keepalive. destruct (probe e); [done |]. cbn. by rewrite dom_alter_L.
  - cbn. by rewrite dom_alter_L.
  - by eapply dom_put.
  - by eapply dom_put.
  - by eapply dom_put.
  - by eapply dom_put.
Qed.

Lemma exec_origin w a w' s ss' :
  is_accept a = false -> exec w a = Some w' -> sessions w' !! s = Some ss' ->
  exists ss, sessions w !! s = Some ss /\ allowed ss' = allowed ss /\ name ss' = name ss.
Proof.
  intros Ha H Hs. pose proof (dom_exec w a w' Ha H) as Hd.
  assert (s ∈ dom (sessions w)) as [ss Hss]%elem_of_dom by (rewrite <-Hd; by apply elem_of_dom_2 in Hs).
  destruct (keeps_exec w a w' H s ss Hss) as (st & Hst & _ & E1 & E2). simplify_eq. eauto.
Qed.

(** A port is listed only when a session that may have it asks for it. *)
Lemma exec_ports w a w' p c port :
  exec w a = Some w' -> heap (reg w') !! p = Some c -> port ∈ ports c ->
  (exists c0, heap (reg w) !! p = Some c0 /\ port ∈ ports c0)
  \/ exists s ss, sessions w !! s = Some ss /\ port ∈ allowed ss.
Proof.
  intros H Hp Hin. destruct a; invert_exec H; try (left; by eauto).
  - cbn in Hp. apply lookup_insert_Some in Hp as [[<- <-] | [_ Hp]]; [by apply elem_of_nil in Hin | left; eauto].
  - left. unfold register_swap in Hp. case_bool_decide; eauto.
  - unfold startForward in Hp. destruct payload as [q |]; [| left; eauto].
    case_bool_decide as Hq; [| left; eauto]. destruct bound; [| left; eauto]. cbn in Hp.
    unfold AddPort in Hp. destruct (m (reg w) !! id x); [| left; eauto].
    cbn in Hp. apply lookup_alter_Some in Hp as [(<- & c0 & Hc0 & ->) | [_ Hp]]; [| left; eauto].
    cbn in Hin. apply elem_of_app in Hin as [Hin | ->%list_elem_of_singleton]; [left; eauto | right; eauto].
  - left. unfold cancelForward in Hp. destruct (fwds x !! _); eauto.
  - left. unfold keepalive in Hp. destruct (probe e); eauto.
Qed.

Lemma permitted_keeps w w' i p : keeps w w' -> permitted w i p -> permitted w' i p.
Proof.
  intros Hk (s & ss & Hs & Hid & Hp). destruct (Hk s ss Hs) as (ss' & Hs' & Hid' & Ha & _).
  exists s, ss'. rewrite Ha. split; [done |]. split; [congruence | done].
Qed.

Lemma rinv_exec w a w' : rinv w -> exec w a = Some w' -> rinv w'.
Proof.
  intros Hi H. pose proof (keeps_exec w a w' H) as Hk.
  apply (rinv_mono _ (permitted w')) in Hi; [| intros; by eapply permitted_keeps].
  unfold rinv. destruct a; invert_exec H; try done.
  - by apply rinv_add.
  - replace (reg (register_swap w s x)) with (reg w) by (unfold register_swap; by case_bool_decide). done.
  - unfold startForward in *. destruct payload as [p |]; [| done].
    case_bool_decide; [| done]. destruct bound; [| done]. cbn [fst reg] in *.
    apply rinv_add_port; [| done]. destruct (Hk _ _ H0) as (ss' & Hs' & ? & Ha & _).
    exists s, ss'. by rewrite Ha.
  - replace (reg (cancelForward w s x payload).1) with (reg w) by (unfold cancelForward; by destruct (fwds x !! _)). done.
  - unfold keepalive in *. by destruct (probe e).
  - by apply rinv_del.
Qed.

Lemma reachable_rinv w : reachable w -> rinv w.
Proof.
  intros [acts H]. assert (rinv newSessionManager) as H0 by (split; intros *; cbn; by rewrite lookup_empty).
  revert H0 H. generalize newSessionManager. induction acts as [| a acts IH]; intros w0 Hi H; cbn in H; [by simplify_eq |].
  destruct (exec w0 a) as [w1 |] eqn:E; [| done]. apply (IH w1); [by eapply rinv_exec | done].
Qed.

Lemma open_held w l x :
  inv w -> lsts w !! l = Some x -> l_open x = true ->
  exists ss, sessions w !! l_owner x = Some ss /\ l_req x ∈ allowed ss
    /\ (l_req x = 0 \/ l_port x = l_req x /\ fwds ss !! l_req x = Some l).
Proof.
  intros [Hl _] Hx Ho. destruct (linv_open _ _ Hl l x Hx Ho) as (a & f & Hc & Hin & Hf). unfold cores in Hc.
  destruct (sessions w !! l_owner x) as [ss |] eqn:E; [| done]. cbn in Hc. injection Hc as <- <-. exists ss. done.
Qed.

(** A finished session holds no listener, unless one it asked for on port 0. *)
Lemma done_closed w s ss l x :
  inv w -> sessions w !! s = Some ss -> is_done ss = true -> 0 ∉ allowed ss ->
  lsts w !! l = Some x -> l_owner x = s -> l_open x = false.
Proof.
  intros Hi Hs Hd H0 Hx Hw. destruct (l_open x) eqn:Ho; [| done].
  destruct (open_held w l x Hi Hx Ho) as (st & Hst & Hin & Hf). rewrite Hw, Hs in Hst. simplify_eq.
  pose proof (ninv_released w (inv_n w Hi) _ _ Hs) as Hrel. unfold is_done in Hd.
  assert (fwds st = ∅) as Hempty by (destruct (ph st); naive_solver).
  rewrite Hempty, lookup_empty in Hf. destruct Hf as [E | [_ ?]]; [rewrite E in Hin; done | done].
Qed.

(** ** Properties *)

(** C8: permitlisten is enforced and a port has one holder. In every state the
    interleaved actions can reach, an open listener belongs to a session whose
    key permits the port it asked for; unless that was 0 the listener is on that
    very port and among the forwards of its session; and no two open listeners
    are on the same port. *)
Theorem listeners_confined (w : world) (l : lid) (x : listener) :
  reachable w -> lsts w !! l = Some x -> l_open x = true ->
  (exists ss, sessions w !! l_owner x = Some ss /\ l_req x ∈ allowed ss
     /\ (l_req x = 0 \/ l_port x = l_req x /\ fwds ss !! l_req x = Some l))
  /\ forall l' x', lsts w !! l' = Some x' -> l_open x' = true -> l_port x' = l_port x -> l' = l.
Proof.
  intros Hr Hx Ho. pose proof (reachable_inv w Hr) as Hi. split.
  - by apply open_held.
  - intros l' x' Hx' Ho' Hp. by eapply (linv_port _ _ (inv_l w Hi)).
Qed.

(** C19: a finished session has released its ports. In every reachable state, once
    the request loop of a session has ended and its listeners have been closed,
    no open listener belongs to it, whatever else is going on, provided its key
    does not permit port 0. *)
Theorem done_frees_ports (w : world) (s : sid) (ss : session) (l : lid) (x : listener) :
  reachable w -> sessions w !! s = Some ss -> is_done ss = true -> 0 ∉ allowed ss ->
  lsts w !! l = Some x -> l_owner x = s -> l_open x = false.
Proof. intros Hr. by apply done_closed, reachable_inv. Qed.

(** C12: one live session per client. In every reachable state, two registered
    sessions of the same name cannot both be live: all but the one the manager
    knows are closed, or the session that took the name over is about to close
    them. *)
Theorem one_live_session (w : world) (s t : sid) (ss st : session) :
  reachable w -> sessions w !! s = Some ss -> sessions w !! t = Some st -> s <> t ->
  name ss = name st -> name ss <> "" -> registered (ph ss) = true -> registered (ph st) = true ->
  isOpen ss = true -> isOpen st = true ->
  exists u su, sessions w !! u = Some su /\ (ph su = Swapped s \/ ph su = Swapped t).
Proof.
  intros Hr Hs Ht Hne Hn Hnn Hrs Hrt Hos Hot. destruct (reachable_inv w Hr) as [_ Hi].
  destruct (ninv_live w Hi s ss Hs Hrs Hnn) as [Hb | [? | (u & su & Hu & Hp)]]; [| congruence | eauto].
  destruct (ninv_live w Hi t st Ht Hrt ltac:(by rewrite <-Hn)) as [Hb' | [? | (u & su & Hu & Hp)]]; [| congruence | eauto].
  rewrite Hn, Hb' in Hb. congruence.
Qed.

(** C20: a reconnecting client reclaims its ports. When a session that waits for
    the one it evicted sees it done, and nobody else holds one of its ports (not
    0, and the old key did not permit 0), asking for that port then succeeds: the
    system is free to grant it, the reply is positive and the port is held by the
    new session. *)
Theorem eviction_hands_over (w w1 : world) (s old : sid) (ss so : session) (p : Z) :
  reachable w -> sessions w !! s = Some ss -> ph ss = Waiting old -> sessions w !! old = Some so ->
  exec w (EvictDone s) = Some w1 -> 0 ∉ allowed so -> p ∈ allowed ss -> p <> 0 ->
  (forall l x, lsts w !! l = Some x -> l_open x = true -> l_port x = p -> l_owner x = old) ->
  exists w2 ss1 l, sessions w1 !! s = Some ss1
    /\ startForward w1 s ss1 (Some p) (Some p) = (w2, true)
    /\ exec w1 (Forward s (Some p) (Some p)) = Some w2
    /\ lsts w2 !! l = Some (Lst p true s p).
Proof.
  intros Hr Hs Hp Ho He H0 Hpa Hnz Hhold. cbn [exec] in He. rewrite Hs in He. cbn in He.
  rewrite Hp, Ho in He. cbn in He. destruct (is_done so) eqn:Hd; [| done]. simplify_eq.
  assert (port_taken w p = false) as Hfree.
  { destruct (port_taken w p) eqn:E; [| done]. apply existsb_exists in E as ([l x] & Hin & Hx). cbn in Hx. breflect.
    apply list_elem_of_In, elem_of_map_to_list in Hin.
    pose proof (done_closed w old so l x (reachable_inv w Hr) Ho Hd H0 Hin (Hhold l x Hin ltac:(done) ltac:(done))).
    congruence. }
  set (w1 := upd w s (set_phase ss Serving)). set (ss1 := set_phase ss Serving).
  assert (sessions w1 !! s = Some ss1) as Hs1 by apply lookup_insert_eq.
  assert (startForward w1 s ss1 (Some p) (Some p)
          = (fst (startForward w1 s ss1 (Some p) (Some p)), true)) as Hst.
  { unfold startForward. by rewrite bool_decide_eq_true_2. }
  eexists _, ss1, (fresh (dom (lsts w))). split; [done |]. split; [exact Hst |]. split.
  - cbn [exec]. rewrite Hs1. cbn [mbind option_bind ph ss1 set_phase]. rewrite bool_decide_eq_true_2 by done.
    cbn [andb default]. unfold listen_ok. change (port_taken w1 p) with (port_taken w p). rewrite Hfree, Z.eqb_refl.
    by rewrite orb_true_r.
  - unfold startForward. rewrite bool_decide_eq_true_2 by done. cbn. apply lookup_insert_eq.
Qed.

(** What the panel may probe. In every reachable state, every port listed for
    a registered client is one that the key of a session of that same remote
    address permits. *)
Theorem registered_ports_permitted (w : world) (i : string) (p : ptr) (c : Client) (port : Z) :
  reachable w -> m (reg w) !! i = Some p -> heap (reg w) !! p = Some c -> port ∈ ports c ->
  exists s ss, sessions w !! s = Some ss /\ id ss = i /\ port ∈ allowed ss.
Proof. intros Hr Hi Hc Hp. exact (rinv_ports _ _ (reachable_rinv w Hr) i p c port Hi Hc Hp). Qed.

(** *** Two executions that show limits of the code *)

Definition zero_key : keyInfo := KeyInfo "0" "tk-a-web".
Definition web_key : keyInfo := KeyInfo "8022" "tk-a-web".

(** The first session. *)
Definition s0 : sid := 0%nat.

Definition leak : list action :=
  [Accept 0 "1.2.3.4:5" "1.2.3.4" zero_key; Swap s0;
   Forward s0 (Some 0) (Some 40000); Forward s0 (Some 0) (Some 40001);
   Drop s0; EndLoop s0; CloseDone s0; Unregister s0; Del s0].

Definition cancelled : list action :=
  [Accept 0 "1.2.3.4:5" "1.2.3.4" web_key; Swap s0;
   Forward s0 (Some 8022) (Some 8022); Cancel s0 (Some 8022);
   Forward s0 (Some 8022) (Some 8022); Cancel s0 (Some 8022)].

(** A client comes back from the same address before its old session is deleted. *)
Definition reused : list action :=
  [Accept 0 "1.2.3.4:5" "1.2.3.4" web_key; Swap s0; Drop s0; EndLoop s0; CloseDone s0; Unregister s0;
   Accept 10 "1.2.3.4:5" "1.2.3.4" web_key; Swap 1%nat; Forward 1%nat (Some 8022) (Some 8022); Del s0].

Definition after_ (acts : list action) : world := default newSessionManager (run newSessionManager acts).

Definition leak_start : world := Eval vm_compute in after_ (take 2 leak).
Definition leak_end : world := Eval vm_compute in after_ leak.
Definition reused_end : world := Eval vm_compute in after_ reused.
Definition cancelled_end : world := Eval vm_compute in after_ cancelled.

Lemma lsts_fresh w : lsts w !! fresh (dom (lsts w)) = None.
Proof. apply (not_elem_of_dom_1 _ _ (is_fresh (dom (lsts w)))). Qed.

(** A listener that no session's forwards lead to, and so nothing closes. *)
Definition orphan (w : world) (l : lid) (x : listener) : Prop :=
  lsts w !! l = Some x /\ forall s ss p, sessions w !! s = Some ss -> fwds ss !! p <> Some l.

Lemma orphan_cores w l x :
  orphan w l x <-> lsts w !! l = Some x /\ forall s a f p, cores w s = Some (a, f) -> f !! p <> Some l.
Proof.
  unfold orphan, cores. split; intros [Hx H]; (split; [done |]).
  - intros s a f p Hc. destruct (sessions w !! s) as [ss |] eqn:E; [| done]. injection Hc as <- <-. by apply (H s ss).
  - intros s ss p Hs. apply (H s (allowed ss) (fwds ss)). by rewrite Hs.
Qed.

Lemma orphan_exec w a w' l x : orphan w l x -> exec w a = Some w' -> orphan w' l x.
Proof.
  intros Ho H. destruct (noisy a) eqn:Hn.
  2: { destruct (exec_quiet _ _ _ Hn H) as [El Ec]. apply orphan_cores in Ho as [Hx Ho]. apply orphan_cores.
       rewrite El. split; [done |]. intros s ? ? p. rewrite Ec. by apply Ho. }
  destruct Ho as [Hx Ho]. destruct a; try done; invert_exec H.
  - split; [done |]. cbn. intros s st p [[<- <-] | [_ Hs]]%lookup_insert_Some; [by cbn; rewrite lookup_empty | by eapply Ho].
  - unfold startForward. destruct payload as [p |]; [| done]. case_bool_decide; [| done]. destruct bound as [q |]; [| done].
    assert (fresh (dom (lsts w)) <> l) as Hl by (intros E; by rewrite <-E, lsts_fresh in Hx).
    split; cbn; [by rewrite lookup_insert_ne |].
    intros t st p' [[<- <-] | [_ Ht]]%lookup_insert_Some; [| by eapply Ho]. cbn.
    intros [[_ E] | [_ Hp']]%lookup_insert_Some; [done | by eapply Ho].
  - unfold cancelForward. destruct (fwds _ !! _) as [k |] eqn:E; [| done]. split; cbn.
    + unfold close_lst. rewrite lookup_alter_ne; [done |]. intros ->. by eapply Ho.
    + intros t st p' [[<- <-] | [_ Ht]]%lookup_insert_Some; [| by eapply Ho]. cbn.
      intros [_ Hp']%lookup_delete_Some. by eapply Ho.
  - split; cbn.
    + rewrite foldr_close_lookup, Hx. cbn. rewrite bool_decide_eq_false_2; [done |].
      intros (p & Hp)%elem_of_values. by eapply Ho.
    + intros t st p' [[<- <-] | [_ Ht]]%lookup_insert_Some; [by cbn; rewrite lookup_empty | by eapply Ho].
Qed.

Lemma orphan_run w acts w' l x : orphan w l x -> run w acts = Some w' -> orphan w' l x.
Proof.
  revert w. induction acts as [| a acts IH]; intros w Ho H; cbn in H; [by injection H as <- |].
  apply bind_Some in H as (w1 & E & H). eapply IH; [by eapply orphan_exec | done].
Qed.

(** A granted forward. *)
Lemma forward_granted w s ss p q :
  sessions w !! s = Some ss -> ph ss = Serving -> p ∈ allowed ss -> listen_ok w p (Some q) = true ->
  exec w (Forward s (Some p) (Some q)) = Some (World (<[s := set_fwds ss (<[p := fresh (dom (lsts w))]> (fwds ss))]> (sessions w))
    (byName_ w) (<[fresh (dom (lsts w)) := Lst q true s p]> (lsts w)) (AddPort (reg w) (id ss) p)).
Proof.
  intros Hs Hph Hp Hq. cbn [exec]. rewrite Hs. cbn [mbind option_bind]. change (default 0 (Some p)) with p. rewrite Hph, Hq. cbn [andb].
  rewrite bool_decide_eq_true_2 by done. unfold startForward. by rewrite bool_decide_eq_true_2.
Qed.

(** A forward of a port that is forwarded already takes the place of the first. *)
Lemma replaced_orphan w s ss p q l x :
  linv (cores w) (lsts w) -> sessions w !! s = Some ss -> ph ss = Serving -> p ∈ allowed ss -> listen_ok w p (Some q) = true ->
  fwds ss !! p = Some l -> lsts w !! l = Some x ->
  exists w', exec w (Forward s (Some p) (Some q)) = Some w' /\ orphan w' l x.
Proof.
  intros Hi Hs Hph Hp Hq Hl Hx. eexists. split; [by apply forward_granted |]. pose proof (lsts_fresh w) as Hf.
  assert (l <> fresh (dom (lsts w))) as Hne by congruence.
  assert (cores w s = Some (allowed ss, fwds ss)) as Hc by (unfold cores; by rewrite Hs).
  destruct (linv_fwds _ _ Hi _ _ _ _ _ Hc Hl) as [q0 Hq0].
  split; cbn; [by rewrite lookup_insert_ne |].
  intros t st p' [[<- <-] | [Hts Ht]]%lookup_insert_Some; cbn.
  - intros [[_ E] | [Hpp Hin]]%lookup_insert_Some; [by destruct Hne |].
    destruct (linv_fwds _ _ Hi _ _ _ _ _ Hc Hin) as [q1 Hq1]. congruence.
  - intros Hin. assert (cores w t = Some (allowed st, fwds st)) as Hct by (unfold cores; by rewrite Ht).
    destruct (linv_fwds _ _ Hi _ _ _ _ _ Hct Hin) as [q1 Hq1]. congruence.
Qed.

(** C37: port 0 leaks a listener. In any reachable state, a session whose key permits
    port 0 can ask for it twice, and the system answers with any two free ports:
    the second forward takes the place of the first in the session's table, and
    from then on, whatever any session does or asks for, its own end included, the
    first listener stays open and its port taken. *)
Theorem port_zero_leaks (w : world) (s : sid) (ss : session) (q1 q2 : Z)
    (Hr : reachable w) (Hs : sessions w !! s = Some ss) (Hph : ph ss = Serving) (H0 : 0 ∈ allowed ss)
    (H1 : port_taken w q1 = false) (H2 : port_taken w q2 = false) (Hq : q1 <> q2) :
  exists w2 l, run w [Forward s (Some 0) (Some q1); Forward s (Some 0) (Some q2)] = Some w2
  /\ forall acts w', run w2 acts = Some w' ->
       lsts w' !! l = Some (Lst q1 true s 0) /\ port_taken w' q1 = true.
Proof.
  assert (forall w q, port_taken w q = false -> listen_ok w 0 (Some q) = true) as Hlo by (intros ? ? E; unfold listen_ok; by rewrite E).
  pose proof (forward_granted w s ss 0 q1 Hs Hph H0 (Hlo _ _ H1)) as Hw1.
  set (l := fresh (dom (lsts w))) in *. set (w1 := World _ _ _ _) in Hw1.
  assert (port_taken w1 q2 = false) as H2'.
  { apply not_true_is_false. intros ([k x] & Hin & Hx)%existsb_exists. cbn in Hx. breflect.
    apply list_elem_of_In, elem_of_map_to_list in Hin. unfold w1 in Hin. cbn [lsts] in Hin.
    apply lookup_insert_Some in Hin as [[_ <-] | [_ Hin]]; [done |]. by eapply (port_free w q2). }
  destruct (replaced_orphan w1 s (set_fwds ss (<[0 := l]> (fwds ss))) 0 q2 l (Lst q1 true s 0)) as (w2 & Hw2 & Ho);
    [by eapply linv_exec, Hw1; apply reachable_inv | apply lookup_insert_eq | done | done | by apply Hlo | apply lookup_insert_eq.. |].
  exists w2, l. split; [cbn [run]; rewrite Hw1; cbn [mbind option_bind]; by rewrite Hw2 |].
  intros acts w' Hrun. destruct (orphan_run _ _ _ _ _ Ho Hrun) as [Hx _]. split; [done |].
  apply existsb_exists. exists (l, Lst q1 true s 0). rewrite <-list_elem_of_In, elem_of_map_to_list. cbn. by rewrite Z.eqb_refl.
Qed.

(** A cancelled forward stays listed. After cancel-tcpip-forward the port is
    closed, but it stays among the ports of the client in the registry, the ones
    /api/probe accepts; forwarding it again lists it twice. *)
Theorem cancelled_port_stays_listed :
  exists ss c, run newSessionManager cancelled = Some cancelled_end
    /\ sessions cancelled_end !! s0 = Some ss /\ fwds ss = ∅
    /\ port_taken cancelled_end 8022 = false
    /\ heap (reg cancelled_end) !! 0%nat = Some c /\ ports c = [8022; 8022].
Proof. do 2 eexists. split; [reflexivity |]. split; [reflexivity |]. repeat split. Qed.

(** A late deletion hides the successor. The registry is keyed by the remote
    address and Del does not look at whose entry it removes: when a client comes
    back from the same address and port before the goroutine of its old session
    has finished, the old one deletes the new entry. The new session is served and
    its port is open, but the panel shows the client disconnected, none of its
    ports can be probed, and its bytes are not counted for it. *)
Theorem late_del_hides_successor :
  exists ss, run newSessionManager reused = Some reused_end
    /\ sessions reused_end !! 1%nat = Some ss /\ ph ss = Serving /\ isOpen ss = true /\ name ss = "tk-a-web"
    /\ port_taken reused_end 8022 = true
    /\ m (reg reused_end) = ∅ /\ Get (reg reused_end) (id ss) = None.
Proof. eexists. split; [reflexivity |]. split; [reflexivity |]. repeat split. Qed.

(** ** Witnesses: a client that reconnects *)

Definition s1 : sid := 1%nat.

(** The old session forwards 8022, the new one evicts it and waits; the old one
    ends. *)
Definition takeover : list action :=
  [Accept 0 "1.2.3.4:5" "1.2.3.4" web_key; Swap s0; Forward s0 (Some 8022) (Some 8022);
   Accept 10 "1.2.3.4:6" "1.2.3.4" web_key; Swap s1; CloseOld s1; EndLoop s0; CloseDone s0].

Definition before_swap : list action := take 4 takeover.

(** Between taking the name over and closing the old session both are live. *)
Definition both : list action := take 5 takeover.

Definition takeover_end : world := Eval vm_compute in after_ takeover.
Definition before_end : world := Eval vm_compute in after_ before_swap.
Definition both_end : world := Eval vm_compute in after_ both.

Lemma reached acts w : run newSessionManager acts = Some w -> reachable w.
Proof. intros H. by exists acts. Qed.

Definition session_of (w : world) (s : sid) : session :=
  default (Sess "" "" ∅ ∅ false Gone) (sessions w !! s).

Lemma listeners_confined_witness :
  lsts before_end !! 0%nat = Some (Lst 8022 true s0 8022)
  /\ exists ss, sessions before_end !! s0 = Some ss /\ 8022 ∈ allowed ss.
Proof.
  split; [reflexivity |].
  destruct (listeners_confined before_end 0%nat (Lst 8022 true s0 8022) (reached before_swap before_end eq_refl) eq_refl eq_refl)
    as [(ss & H1 & H2 & _) _].
  exists ss. exact (conj H1 H2).
Defined.

Lemma done_frees_ports_witness :
  lsts takeover_end !! 0%nat = Some (Lst 8022 false s0 8022)
  /\ l_open (Lst 8022 false s0 8022) = false.
Proof.
  split; [reflexivity |].
  apply (done_frees_ports takeover_end s0 (session_of takeover_end s0) 0%nat _ (reached takeover takeover_end eq_refl));
    [reflexivity | reflexivity | | reflexivity | reflexivity].
  apply (bool_decide_eq_false_1 (0 ∈ allowed (session_of takeover_end s0))). reflexivity.
Defined.

Lemma one_live_session_witness :
  isOpen (session_of both_end s0) = true
  /\ exists u su, sessions both_end !! u = Some su /\ (ph su = Swapped s0 \/ ph su = Swapped s1).
Proof.
  split; [reflexivity |].
  apply (one_live_session both_end s0 s1 (session_of both_end s0) (session_of both_end s1) (reached both both_end eq_refl));
    first [discriminate | reflexivity].
Defined.

Lemma eviction_hands_over_witness :
  exists w1 w2 ss1 l, exec takeover_end (EvictDone s1) = Some w1
    /\ startForward w1 s1 ss1 (Some 8022) (Some 8022) = (w2, true)
    /\ lsts w2 !! l = Some (Lst 8022 true s1 8022).
Proof.
  set (w := takeover_end).
  destruct (eviction_hands_over w (default w (exec w (EvictDone s1))) s1 s0 (session_of w s1) (session_of w s0) 8022)
    as (w2 & ss1 & l & _ & H2 & _ & H4);
    [exact (reached takeover takeover_end eq_refl) | reflexivity | reflexivity | reflexivity | reflexivity | | | lia | |].
  - apply (bool_decide_eq_false_1 (0 ∈ allowed (session_of w s0))). reflexivity.
  - apply (bool_decide_eq_true_1 (8022 ∈ allowed (session_of w s1))). reflexivity.
  - intros l x Hx Ho _.
    assert (lsts w = {[0%nat := Lst 8022 false s0 8022]}) as E by reflexivity.
    rewrite E in Hx. apply lookup_singleton_Some in Hx as [_ <-]. discriminate Ho.
  - exists (default w (exec w (EvictDone s1))), w2, ss1, l. split; [reflexivity |]. exact (conj H2 H4).
Defined.

(** The session is gone and its first listener is still open. *)
Lemma port_zero_leaks_witness :
  run newSessionManager leak = Some leak_end /\ ph (session_of leak_end s0) = Gone /\ fwds (session_of leak_end s0) = ∅
  /\ port_taken leak_end 40000 = true.
Proof.
  split; [reflexivity |]. split; [reflexivity |]. split; [reflexivity |].
  destruct (port_zero_leaks leak_start s0 (session_of leak_start s0) 40000 40001 (reached (take 2 leak) leak_start eq_refl)
    eq_refl eq_refl ltac:(by apply (bool_decide_eq_true_1 (0 ∈ allowed (session_of leak_start s0)))) eq_refl eq_refl ltac:(lia))
    as (w2 & l & H2 & H).
  exact (proj2 (H (drop 4 leak) leak_end ltac:(injection H2 as <-; reflexivity))).
Defined.

Lemma registered_ports_permitted_witness :
  exists s ss, sessions before_end !! s = Some ss /\ id ss = "1.2.3.4:5" /\ 8022 ∈ allowed ss.
Proof.
  eapply (registered_ports_permitted before_end "1.2.3.4:5" 0%nat _ 8022 (reached before_swap before_end eq_refl));
    [reflexivity | reflexivity | apply list_elem_of_singleton; reflexivity].
Defined.
