(* ===== verification/Shutdown.v ===== *)
(** * The end of a session

    handleConn of src/core/internal/tunnelserver/server.go finishes: once its
    connection is closed, whoever closed it, a session takes a bounded number of
    steps of its own and is never stuck, whatever the other goroutines do. *)

From S2P Require Import Sessions.

(** The steps of the session's own goroutine, other than the requests it serves. *)
Definition own (s : sid) (a : action) : Prop :=
  match a with
  | Swap t | CloseOld t | EvictDone t | EvictTimeout t | EndLoop t | CloseDone t | Unregister t | Del t => t = s
  | _ => False
  end.
#[export] Instance own_dec s a : Decision (own s a).
Proof. destruct a; cbn; apply _. Defined.

(** How many of them are left at most. *)
Definition rank (p : phase) : nat :=
  match p with
  | Added => 7 | Swapped _ => 6 | Waiting _ => 5 | Serving => 4 | Released => 3 | Done => 2 | Unregistered => 1 | Gone => 0
  end.

(** A session after a step of anybody: still closed if it was, and no further from its end. *)
Definition nearer (ss ss' : session) (mine : bool) : Prop :=
  (isOpen ss = false -> isOpen ss' = false) /\ (rank (ph ss') + (if mine then 1 else 0) <= rank (ph ss))%nat.

Lemma nearer_refl ss : nearer ss ss false.
Proof. split; [done | lia]. Qed.

Definition advances (w w' : world) (s : sid) (mine : bool) : Prop :=
  forall ss, sessions w !! s = Some ss -> exists ss', sessions w' !! s = Some ss' /\ nearer ss ss' mine.

Lemma advances_put w s t st st' b l r mine :
  sessions w !! t = Some st -> nearer st st' (mine || bool_decide (t <> s)) -> (mine = true -> t = s) ->
  advances w (World (<[t := st']> (sessions w)) b l r) s mine.
Proof.
  intros Ht Hn Hm ss Hs. cbn. destruct (decide (t = s)) as [-> | Hne].
  - rewrite bool_decide_eq_false_2, orb_false_r in Hn by tauto. simplify_eq. rewrite lookup_insert_eq. eauto.
  - rewrite lookup_insert_ne by done. exists ss. split; [done |]. destruct mine; [by destruct Hne; apply Hm | apply nearer_refl].
Qed.

Lemma advances_close w w' s t mine : advances w w' s mine -> advances w (close_conn w' t) s mine.
Proof.
  intros H ss Hs. destruct (H ss Hs) as (ss' & Hs' & Ho & Hr). cbn. destruct (decide (t = s)) as [-> | Hne].
  - rewrite lookup_alter_eq, Hs'. eexists. split; [reflexivity |]. by split.
  - rewrite lookup_alter_ne by done. exists ss'. by repeat split.
Qed.

Lemma advances_refl w s : advances w w s false.
Proof. intros ss Hs. exists ss. split; [done | apply nearer_refl]. Qed.

(** A step that moves the phase of [t] down. *)
Lemma advances_down w s t st st' b l r :
  sessions w !! t = Some st -> isOpen st' = isOpen st -> (rank (ph st') + 1 <= rank (ph st))%nat ->
  advances w (World (<[t := st']> (sessions w)) b l r) s (bool_decide (t = s)).
Proof.
  intros Ht Ho Hr. eapply advances_put; [done | | by intros ?%bool_decide_eq_true_1].
  split; [by rewrite Ho |]. destruct (bool_decide (t = s) || _); lia.
Qed.

(** A step that moves none. *)
Lemma advances_fwds w s t st b l r f :
  sessions w !! t = Some st -> advances w (World (<[t := set_fwds st f]> (sessions w)) b l r) s false.
Proof.
  intros Ht ss Hs. cbn. destruct (decide (t = s)) as [-> | Hne].
  - simplify_eq. rewrite lookup_insert_eq. eexists. split; [reflexivity |]. split; [done | cbn; lia].
  - rewrite lookup_insert_ne by done. exists ss. split; [done | apply nearer_refl].
Qed.

Lemma exec_advances w a w' s : exec w a = Some w' -> advances w w' s (bool_decide (own s a)).
Proof.
  intros H. destruct a; invert_exec H; cbn [own]; rewrite ?(bool_decide_eq_false_2 False) by tauto;
    try match goal with H : ph _ = _ |- _ => pose proof (f_equal rank H) as Hrk; cbn in Hrk end;
    try match goal with H : sessions _ !! _ = Some ?x |- _ => rename x into ss; rename H into Hs end.
  - intros st Hst. cbn. rewrite lookup_insert_ne; [exists st; split; [done | apply nearer_refl] |].
    intros E. rewrite <-E, (not_elem_of_dom_1 _ _ (is_fresh (dom (sessions w)))) in Hst. done.
  - unfold register_swap. case_bool_decide; (eapply advances_down; [done | done |]); cbn; [lia |].
    destruct (byName_ w !! name ss); [case_bool_decide |]; cbn; lia.
  - apply advances_close. eapply advances_down; [done | done | cbn; lia].
  - eapply advances_down; [done | done | cbn; lia].
  - eapply advances_down; [done | done | cbn; lia].
  - unfold startForward. destruct payload as [p |]; [| apply advances_refl]. case_bool_decide; [| apply advances_refl].
    destruct bound; [| apply advances_refl]. by eapply advances_fwds.
  - unfold cancelForward. destruct (fwds ss !! _); [| apply advances_refl]. by eapply advances_fwds.
  - unfold keepalive. destruct (probe e); [apply advances_refl | apply advances_close, advances_refl].
  - apply advances_close, advances_refl.
  - eapply advances_down; [done | done | cbn; lia].
  - eapply advances_down; [done | done | cbn; lia].
  - eapply advances_down; [done | done | cbn; lia].
  - eapply advances_down; [done | done | cbn; lia].
Qed.

(** A closed session that has not finished can take a step. *)
Lemma own_possible w s ss :
  sessions w !! s = Some ss -> isOpen ss = false -> ph ss <> Gone -> exists a, own s a /\ is_Some (exec w a).
Proof.
  intros Hs Ho Hg. destruct (ph ss) as [| old | old | | | | |] eqn:E; [| | | | | | | done].
  - exists (Swap s). cbn. rewrite Hs. cbn. rewrite bool_decide_eq_true_2; eauto.
  - exists (CloseOld s). cbn. rewrite Hs. cbn. rewrite E. eauto.
  - exists (EvictTimeout s). cbn. rewrite Hs. cbn. rewrite E. eauto.
  - exists (EndLoop s). cbn. rewrite Hs. cbn. rewrite bool_decide_eq_true_2, Ho; eauto.
  - exists (CloseDone s). cbn. rewrite Hs. cbn. rewrite bool_decide_eq_true_2; eauto.
  - exists (Unregister s). cbn. rewrite Hs. cbn. rewrite bool_decide_eq_true_2; eauto.
  - exists (Del s). cbn. rewrite Hs. cbn. rewrite bool_decide_eq_true_2; eauto.
Qed.

(** ** Property *)

(** C6: a closed session ends. From any state in which the connection of a session
    is closed, in any run: the session takes at most seven steps of its own, fewer
    the further it was; it stays closed; and unless it has finished, with its
    listeners released, its name free and its client gone from the registry, a
    step of its own is possible. So the goroutine is never stuck (waiting for an
    evicted session ends by the timeout at the latest) and never runs for ever. *)
Theorem session_ends (w w' : world) (s : sid) (ss : session) (l : list action)
    (Hs : sessions w !! s = Some ss) (Ho : isOpen ss = false) (Hrun : run w l = Some w') :
  exists ss', sessions w' !! s = Some ss' /\ isOpen ss' = false
    /\ (length (filter (own s) l) + rank (ph ss') <= rank (ph ss) <= 7)%nat
    /\ (ph ss' = Gone \/ exists a, own s a /\ is_Some (exec w' a)).
Proof.
  enough (exists ss', sessions w' !! s = Some ss' /\ isOpen ss' = false
    /\ (length (filter (own s) l) + rank (ph ss') <= rank (ph ss))%nat) as (ss' & H1 & H2 & H3).
  { exists ss'. split; [done |]. split; [done |]. split; [split; [done |]; destruct (ph ss); cbn; lia |].
    destruct (decide (ph ss' = Gone)); [by left | right; by eapply own_possible]. }
  revert w ss Hs Ho Hrun. induction l as [| a l IH]; intros w ss Hs Ho Hrun.
  { injection Hrun as <-. exists ss. done. }
  cbn in Hrun. apply bind_Some in Hrun as (w1 & Ha & Hrun).
  destruct (exec_advances _ _ _ s Ha ss Hs) as (s1 & Hs1 & Ho1 & Hr1).
  destruct (IH w1 s1 Hs1 (Ho1 Ho) Hrun) as (ss' & H1 & H2 & H3). exists ss'. split; [done |]. split; [done |].
  rewrite filter_cons. destruct (decide (own s a)) as [Hd | Hd].
  - rewrite bool_decide_eq_true_2 in Hr1 by done. cbn [length]. lia.
  - rewrite bool_decide_eq_false_2 in Hr1 by done. lia.
Qed.

(** ** Witness *)

(** The evicted session of a takeover, closed by its successor. *)
Definition closing : world := Eval vm_compute in after_ (take 6 takeover).

Lemma session_ends_witness :
  exists ss', sessions (default closing (run closing [EndLoop s0; CloseDone s0; Unregister s0; Del s0])) !! s0 = Some ss'
    /\ (length (filter (own s0) [EndLoop s0; CloseDone s0; Unregister s0; Del s0]) + rank (ph ss') <= 4)%nat.
Proof.
  set (w' := default closing (run closing [EndLoop s0; CloseDone s0; Unregister s0; Del s0])).
  destruct (session_ends closing w' s0 (session_of closing s0) [EndLoop s0; CloseDone s0; Unregister s0; Del s0]
    eq_refl eq_refl eq_refl) as (ss' & H1 & _ & [H2 _] & _).
  exists ss'. split; [exact H1 | exact H2].
Defined.
