(* ===== verification/Conn.v ===== *)
(** * A connection, from its handshake to its bytes

    Models what [handleConn] and [pipe] of src/core/internal/tunnelserver/server.go
    do around the session machine: the record and the log line of a failed
    handshake, the registration of a successful one, and the counting of the
    bytes of a forwarded connection. *)

From S2P Require Export Traffic.
From S2P Require Export Registry.

Definition HandshakeTimeout : duration := 15 * second.

(** How [ssh.NewServerConn] failed. *)
Inductive hs_error := HsTimeout (text : string) | HsEOF | HsOther (text : string).

Definition describeHandshakeErr (e : hs_error) : string :=
  match e with
  | HsTimeout _ => "no complete SSH handshake within " +:+ dur_string HandshakeTimeout
                   +:+ " (TCP connected; peer sent nothing or stalled)"
  | HsEOF => "peer closed the connection before the SSH handshake finished"
  | HsOther t => t
  end.

Definition suppressedNote (n : Z) : string :=
  if n =? 0 then "" else " (+" +:+ itoa n +:+ " similar suppressed)".

(** The host of an address, empty when it has no port. *)
Definition host_of (remote : string) : string :=
  match split_host_port remote with Some (h, _) => h | None => "" end.

Definition set_att (r : Registry) (a : Attempts.Attempts) : Registry :=
  MkRegistry (heap r) (m r) (lastIP r) a (hb r).

(** The failure branch of [handleConn]: the registry, and the log line if any. *)
Definition handshake_failed (now : time) (r : Registry) (remote : string) (took : duration) (e : hs_error)
    : Registry * option string :=
  let ip := host_of remote in
  let known := ClientAt r ip in
  let trivial := match e with HsEOF => took <? 2 * second | _ => false end in
  let msg := describeHandshakeErr e in
  let '(a, (logIt, n)) :=
    Record_ (att r) (Call now ip known took (Some msg) (negb (bool_decide (known = ""))) trivial) in
  (set_att r a,
   if logIt then
     let who := if bool_decide (known = "") then "unknown IP" else "known client " +:+ known in
     Some ("tunnelserver: handshake failed from " +:+ remote +:+ " (" +:+ who +:+ ") after "
           +:+ dur_string (round took millisecond) +:+ ": " +:+ msg +:+ suppressedNote n)
   else None).

(** The success branch, up to [reg.Add]. *)
Definition handshake_ok (now : time) (r : Registry) (remote name : string) (took : duration) : Registry :=
  let ip := host_of remote in
  let '(a, _) := Record_ (att r) (Call now ip name took None false false) in
  Registry.Add (set_att r a) remote (new_client name ip now).

(** ** Counting the bytes of a forwarded connection

    [countW.Write] counts what was written, error or not; the connection's client
    is looked up once, when it opens. *)

Inductive dir := Incoming | Outgoing.  (* to the client (rx), from the client (tx) *)

Section pipe.
Context (offset : time -> Z).

Definition count (now : time) (name : string) (port : Z) (cl : option ptr)
    (rs : Registry * option TrafficStore) (d : dir) (n : Z) : Registry * option TrafficStore :=
  let '(r, st) := rs in
  (match cl with
   | Some p => update r p (match d with Incoming => AddRx n | Outgoing => AddTx n end)
   | None => r
   end,
   match st with
   | Some t => Some (match d with
                     | Incoming => Traffic.Add offset now t name port 0 (u64 n)
                     | Outgoing => Traffic.Add offset now t name port (u64 n) 0
                     end)
   | None => None
   end).

Definition opened (r : Registry) (id : string) : Registry * option ptr :=
  match Get r id with
  | Some p => (update r p ConnOpen, Some p)
  | None => (r, None)
  end.

Definition closed (r : Registry) (cl : option ptr) : Registry :=
  match cl with Some p => update r p ConnClose | None => r end.

Fixpoint counts (name : string) (port : Z) (cl : option ptr) (rs : Registry * option TrafficStore)
    (ws : list (time * dir * Z)) : Registry * option TrafficStore :=
  match ws with
  | [] => rs
  | (now, d, n) :: ws' => counts name port cl (count now name port cl rs d n) ws'
  end.

(** A whole forwarded connection whose channel opens, with the writes in the
    order they happen. *)
Definition pipe (id name : string) (port : Z) (r : Registry) (st : option TrafficStore)
    (ws : list (time * dir * Z)) : Registry * option TrafficStore :=
  let '(r1, cl) := opened r id in
  let '(r2, st2) := counts name port cl (r1, st) ws in
  (closed r2 cl, st2).
End pipe.

(** ** Lemmas *)

Definition total (d : dir) (ws : list (time * dir * Z)) : Z :=
  foldr (fun x s => match x.1.2, d with
                    | Incoming, Incoming | Outgoing, Outgoing => x.2 + s
                    | _, _ => s
                    end) 0 ws.

Lemma u64_add_l a b : u64 (u64 a + b) = u64 (a + b).
Proof. apply wrapU_add_l. Qed.

Lemma u64_add_r a b : u64 (a + u64 b) = u64 (a + b).
Proof. apply wrapU_add_r. Qed.

Definition port_of (t : TrafficStore) (name : string) (port : Z) : pb :=
  default (Pb 0 0) (Ports (client_of t name) !! port).

Lemma port_add offset now t name port tx rx :
  name <> "" ->
  port_of (Traffic.Add offset now t name port tx rx) name port
  = Pb (u64 (Tx (port_of t name port) + tx)) (u64 (Rx (port_of t name port) + rx)).
Proof.
  intros Hn. unfold Traffic.Add, port_of. rewrite bool_decide_eq_false_2 by done.
  rewrite client_of_put, decide_True by done. cbn [Ports]. by rewrite lookup_insert_eq.
Qed.

(** What the counters of a connection have to show. *)
Definition shows (out inc : Z) (c c' : Client) : Prop :=
  tx c' = u64 (tx c + out) /\ rx c' = u64 (rx c + inc) /\ active c' = active c /\ ports c' = ports c.

Lemma counts_client offset name port p ws : forall r st c,
  heap r !! p = Some c -> is_u64 (tx c) -> is_u64 (rx c) ->
  exists c', heap (fst (counts offset name port (Some p) (r, st) ws)) !! p = Some c'
    /\ shows (total Outgoing ws) (total Incoming ws) c c'.
Proof.
  induction ws as [| [[now d] n] ws IH]; intros r st c Hc Ht Hr; cbn [counts].
  { exists c. split; [done |]. unfold shows. cbn. by rewrite !Z.add_0_r, !u64_small. }
  set (f := match d with Incoming => AddRx n | Outgoing => AddTx n end).
  unfold count. fold f.
  edestruct (IH (update r p f)) as (c' & Hc' & Ht' & Hr' & Ha' & Hp').
  { cbn. rewrite lookup_alter_eq, Hc. done. }
  { unfold f. destruct d; cbn; [done | apply u64_range]. }
  { unfold f. destruct d; cbn; [apply u64_range | done]. }
  exists c'. split; [exact Hc' |]. unfold shows. rewrite Ht', Hr', Ha', Hp'.
  unfold f. destruct d; cbn; rewrite ?u64_add_l, <-?Z.add_assoc; (split; [| split]); try done.
  - by rewrite Z.add_assoc, <-(u64_add_l (rx c + u64 n)), u64_add_r, u64_add_l, Z.add_assoc.
  - by rewrite Z.add_assoc, <-(u64_add_l (tx c + u64 n)), u64_add_r, u64_add_l, Z.add_assoc.
Qed.

Lemma counts_store offset name port cl ws : forall r t,
  name <> "" -> is_u64 (Tx (port_of t name port)) -> is_u64 (Rx (port_of t name port)) ->
  exists t', snd (counts offset name port cl (r, Some t) ws) = Some t'
    /\ port_of t' name port = Pb (u64 (Tx (port_of t name port) + total Outgoing ws))
                                 (u64 (Rx (port_of t name port) + total Incoming ws)).
Proof.
  induction ws as [| [[now d] n] ws IH]; intros r t Hn Ht Hr; cbn [counts].
  { exists t. split; [done |]. cbn. rewrite !Z.add_0_r, !u64_small by done. by destruct (port_of t name port). }
  unfold count. set (r' := match cl with Some _ => _ | None => _ end).
  destruct d.
  - edestruct (IH r' (Traffic.Add offset now t name port 0 (u64 n)) Hn) as (t' & Ht' & Hp);
      [rewrite port_add by done; apply u64_range | rewrite port_add by done; apply u64_range |].
    exists t'. split; [exact Ht' |]. rewrite Hp, port_add by done. cbn. f_equal.
    + by rewrite Z.add_0_r, u64_add_l.
    + by rewrite u64_add_l, (Z.add_comm _ (u64 n)), <-Z.add_assoc, u64_add_l, Z.add_assoc, (Z.add_comm n), Z.add_assoc.
  - edestruct (IH r' (Traffic.Add offset now t name port (u64 n) 0) Hn) as (t' & Ht' & Hp);
      [rewrite port_add by done; apply u64_range | rewrite port_add by done; apply u64_range |].
    exists t'. split; [exact Ht' |]. rewrite Hp, port_add by done. cbn. f_equal.
    + by rewrite u64_add_l, (Z.add_comm _ (u64 n)), <-Z.add_assoc, u64_add_l, Z.add_assoc, (Z.add_comm n), Z.add_assoc.
    + by rewrite Z.add_0_r, u64_add_l.
Qed.

(** [join] of a list with a non-empty element is not empty. *)
Lemma join_nonempty sep l n : sep <> "" -> n ∈ l -> n <> "" -> join sep l <> "".
Proof.
  intros Hs Hin Hn. destruct l as [| x [| y l]]; [by apply elem_of_nil in Hin | |].
  - apply list_elem_of_singleton in Hin. by subst.
  - cbn. intros E%(f_equal chars). rewrite chars_app in E.
    destruct (chars x); [| done]. cbn in E. rewrite chars_app in E.
    destruct sep; [done |]. cbn in E. done.
Qed.

Lemma ClientAt_known r ip n : lastIP r !! n = Some ip -> n <> "" -> ClientAt r ip <> "".
Proof.
  intros Hl Hn. unfold ClientAt. apply (join_nonempty _ _ n); [done | | done].
  rewrite merge_sort_Permutation. apply list_elem_of_fmap. exists (n, ip). split; [done |].
  apply elem_of_map_to_list, map_lookup_filter_Some. done.
Qed.

(** ** Properties *)

(** Every forwarded byte is counted once in both places. For a connection
    forwarded to a registered client, with the writes of the two directions in
    any order, the counters of the client and of its port in the traffic store
    grow by the same amounts, the bytes sent and received, modulo 2^64, and the
    number of active connections is back where it was. *)
Theorem pipe_accounts (offset : time -> Z) (id name : string) (port : Z) (r : Registry) (t : TrafficStore)
    (p : ptr) (c : Client) (ws : list (time * dir * Z)) :
  Get r id = Some p -> heap r !! p = Some c -> name <> "" ->
  is_u64 (tx c) -> is_u64 (rx c) -> - 2 ^ 63 <= active c < 2 ^ 63 - 1 ->
  is_u64 (Tx (port_of t name port)) -> is_u64 (Rx (port_of t name port)) ->
  exists r' t' c', pipe offset id name port r (Some t) ws = (r', Some t')
    /\ heap r' !! p = Some c'
    /\ tx c' = u64 (tx c + total Outgoing ws) /\ rx c' = u64 (rx c + total Incoming ws)
    /\ active c' = active c
    /\ port_of t' name port = Pb (u64 (Tx (port_of t name port) + total Outgoing ws))
                                 (u64 (Rx (port_of t name port) + total Incoming ws)).
Proof.
  intros Hg Hc Hn Ht Hr Ha HT HR. unfold pipe, opened. rewrite Hg.
  set (r1 := update r p ConnOpen).
  assert (heap r1 !! p = Some (ConnOpen c)) as Hc1 by (cbn; by rewrite lookup_alter_eq, Hc).
  destruct (counts_client offset name port p ws r1 (Some t) _ Hc1 Ht Hr) as (c2 & Hc2 & H1 & H2 & H3 & _).
  destruct (counts_store offset name port (Some p) ws r1 t Hn HT HR) as (t' & Ht' & Hp).
  destruct (counts offset name port (Some p) (r1, Some t) ws) as [r2 st2]. cbn [fst snd] in *. subst st2.
  eexists _, t', (ConnClose c2). split; [done |]. split; [cbn; by rewrite lookup_alter_eq, Hc2 |].
  cbn [ConnClose set_counters tx rx active]. rewrite H1, H2, H3. cbn [ConnOpen set_counters tx rx active].
  split; [done |]. split; [done |]. split; [| done].
  rewrite (i64_small (active c + 1)) by (unfold is_i64; lia). rewrite i64_small by (unfold is_i64; lia). lia.
Qed.

(** A known client's failed handshake is always logged. A connection from the
    address a named client last connected from, that fails for anything but
    closing at once, gets a log line that carries the client's name; a connection
    closed within two seconds without a handshake never does. *)
Theorem known_client_always_logged (now : time) (r : Registry) (remote : string) (took : duration)
    (e : hs_error) (n : string) :
  lastIP r !! n = Some (host_of remote) -> n <> "" ->
  match snd (handshake_failed now r remote took e) with
  | None => e = HsEOF /\ took < 2 * second
  | Some line => (e <> HsEOF \/ 2 * second <= took)
      /\ exists post, line = "tunnelserver: handshake failed from " +:+ remote +:+ " (known client "
                             +:+ ClientAt r (host_of remote) +:+ ") after " +:+ post
  end.
Proof.
  intros Hl Hn. pose proof (ClientAt_known r _ n Hl Hn) as Hk. unfold handshake_failed.
  set (triv := match e with HsEOF => _ | _ => false end).
  pose proof (Record_limiter (att r) (Call now (host_of remote) (ClientAt r (host_of remote)) took
    (Some (describeHandshakeErr e)) (negb (bool_decide (ClientAt r (host_of remote) = ""))) triv)) as (Hlog & _ & _).
  destruct (Record_ _ _) as [a [logIt k]]. cbn [fst snd] in *. rewrite Hlog.
  unfold is_failure, should_log. cbn. rewrite bool_decide_eq_false_2 by done. cbn.
  assert (triv = true <-> e = HsEOF /\ took < 2 * second) as Ht.
  { unfold triv. destruct e; [naive_solver | | naive_solver]. rewrite Z.ltb_lt. naive_solver. }
  destruct triv; cbn; [by apply Ht |]. split.
  - destruct e; [by left | right | by left]. apply Z.nlt_ge. intros Hlt. pose proof (proj2 Ht (conj eq_refl Hlt)). done.
  - eexists. rewrite !append_assoc. reflexivity.
Qed.

(** ** Witnesses *)

Definition demo_reg : Registry := Registry.Add NewRegistry "1.2.3.4:5" (new_client "tk-a-web" "1.2.3.4" 0).

Definition demo_writes : list (time * dir * Z) := [(0, Incoming, 100); (0, Outgoing, 7); (1, Incoming, 5)].

Lemma pipe_accounts_witness :
  exists r' t' c', pipe utc "1.2.3.4:5" "tk-a-web" 8022 demo_reg (Some Traffic.demo) demo_writes = (r', Some t')
    /\ heap r' !! 0%nat = Some c' /\ tx c' = 7 /\ rx c' = 105 /\ active c' = 0
    /\ port_of t' "tk-a-web" 8022 = Pb 12 112.
Proof.
  refine (pipe_accounts utc "1.2.3.4:5" "tk-a-web" 8022 demo_reg Traffic.demo 0%nat
    (new_client "tk-a-web" "1.2.3.4" 0) demo_writes eq_refl eq_refl _ _ _ _ _ _);
    first [discriminate | vm_compute; split; congruence].
Defined.

Lemma known_client_always_logged_witness :
  lastIP demo_reg !! "tk-a-web" = Some (host_of "1.2.3.4:77")
  /\ exists post, snd (handshake_failed (of_unix 100) demo_reg "1.2.3.4:77" second (HsOther "x"))
     = Some ("tunnelserver: handshake failed from 1.2.3.4:77 (known client tk-a-web) after " +:+ post).
Proof.
  split; [reflexivity |].
  pose proof (known_client_always_logged (of_unix 100) demo_reg "1.2.3.4:77" second (HsOther "x") "tk-a-web" eq_refl) as H.
  specialize (H ltac:(discriminate)). revert H.
  destruct (snd _) as [line |]; [| intros [H _]; discriminate H].
  intros [_ [post ->]]. exists post. reflexivity.
Defined.
