(* ===== verification/Links.v ===== *)
(** * Links and host names of the panel

    Models the LinkConfig part of src/core/internal/monitor/monitor.go: the
    operator's templates, the split of a client's name into site and role, the
    subdomain label of its main service and the links offered for it. *)

From S2P Require Export GoStr.

Record LinkConfig := MkLinks { Templates : gmap string string; BackupSuffix : string }.

Record link := MkLink { l_kind : string; l_label : string; l_host : string }.

#[export] Instance link_eq_dec : EqDecision link.
Proof. solve_decision. Defined.

Definition is_alnum_rune (r : Z) : bool := ((97 <=? r) && (r <=? 122)) || ((48 <=? r) && (r <=? 57)).

(** [strings.NewReplacer "{site}" site "{role}" role], applied: one pass from the
    left; [skip] bytes of a placeholder are still to be passed over. *)
Fixpoint replace (site role : string) (skip : nat) (t : string) : string :=
  match t with
  | "" => ""
  | String c t' =>
      match skip with
      | S k => replace site role k t'
      | O =>
          if String.prefix "{site}" t then site +:+ replace site role 5 t'
          else if String.prefix "{role}" t then role +:+ replace site role 5 t'
          else String c (replace site role 0 t')
      end
  end.

Section links.
Context (unicode_lower : Z -> Z).

Definition parse_one (m : gmap string string) (kv : string) : gmap string string :=
  let kv := trim_space kv in
  if bool_decide (kv = "") then m
  else match index_byte "=" (chars kv) with
       | Some (S i) =>
           <[ToLower unicode_lower (trim_space (of_chars (take (S i) (chars kv))))
             := trim_space (of_chars (drop (S (S i)) (chars kv)))]> m
       | _ => m
       end.

Definition ParseLinkConfig (spec backupSuffix : string) : LinkConfig :=
  MkLinks (foldl parse_one ∅ (split "," spec)) backupSuffix.

Definition onlyAlnum (s : string) : string :=
  of_chars (byte_at <$> filter (fun r => is_alnum_rune r = true) (runes (ToLower unicode_lower s)).*1).

Definition splitName (name : string) : option (string * string) :=
  let name := ToLower unicode_lower name in
  if negb (has_prefix name "tk-") then None
  else
    let rest := chars (trim_prefix name "tk-") in
    i ← last_index_byte "-" rest;
    let site := onlyAlnum (of_chars (take i rest)) in
    let role := onlyAlnum (of_chars (drop (i + 1) rest)) in
    if negb (bool_decide (site = "")) && negb (bool_decide (role = "")) then Some (site, role) else None.

Definition mainHost (lc : LinkConfig) (name : string) : string :=
  match splitName name with
  | None => ""
  | Some (site, role) =>
      match Templates lc !! role with
      | None => ""
      | Some t => replace site role 0 t
      end
  end.

Definition linksFor (lc : LinkConfig) (name : string) (known : list string) : list link :=
  let main := mainHost lc name in
  if bool_decide (main = "") then []
  else match splitName name with
       | None => []
       | Some (site, role) =>
           MkLink "main" role main
           :: (if bool_decide (BackupSuffix lc = "") then []
               else omap (fun other =>
                      '(os, orole) ← splitName other;
                      if negb (bool_decide (os = site)) || bool_decide (orole = role) then None
                      else
                        let h := mainHost lc other in
                        if bool_decide (h = "") then None
                        else Some (MkLink "backup" (orole +:+ " via " +:+ role) (h +:+ BackupSuffix lc)))
                    known)
       end.
End links.

Example links_ex :
  let lc := ParseLinkConfig id "Web = web{site}, ssh=ssh-{site}.{role}" "-b" in
  (mainHost id lc "tk-Site1-web", linksFor id lc "tk-site1-web" ["tk-site1-ssh"; "tk-site2-ssh"; "x"])
  = ("website1", [MkLink "main" "web" "website1"; MkLink "backup" "ssh via web" "ssh-site1.ssh-b"]).
Proof. vm_compute. reflexivity. Qed.

(** ** Lemmas *)

Definition is_alnum (c : ascii) : bool := is_alnum_rune (byte_val c).

Lemma byte_at_val r : is_alnum_rune r = true -> byte_val (byte_at r) = r.
Proof.
  intros H. assert (0 <= r < 256) as Hr by (unfold is_alnum_rune in H; apply orb_prop in H as [H | H]; breflect; lia).
  unfold byte_val, byte_at. rewrite N_ascii_embedding; rewrite Z.mod_small by lia; lia.
Qed.

Lemma onlyAlnum_chars lower s : Forall (fun c => is_alnum c = true) (chars (onlyAlnum lower s)).
Proof.
  unfold onlyAlnum. rewrite chars_of_chars. apply Forall_fmap, Forall_forall.
  intros r [Hr _]%list_elem_of_filter. cbn. unfold is_alnum. by rewrite byte_at_val.
Qed.

Lemma splitName_spec lower name site role :
  splitName lower name = Some (site, role) ->
  site <> "" /\ role <> ""
  /\ Forall (fun c => is_alnum c = true) (chars site) /\ Forall (fun c => is_alnum c = true) (chars role).
Proof.
  unfold splitName. destruct (negb _); [done |].
  destruct (last_index_byte _ _) as [i |]; [| done]. cbn.
  case_bool_decide; [done |]. case_bool_decide; [done |]. intros [= <- <-].
  split; [done |]. split; [done |]. split; apply onlyAlnum_chars.
Qed.

Lemma replace_chars site role skip t c :
  c ∈ chars (replace site role skip t) -> c ∈ chars t \/ c ∈ chars site \/ c ∈ chars role.
Proof.
  revert skip. induction t as [| d t IH]; intros skip; [by intros []%elem_of_nil |].
  destruct skip as [| k]; cbn [replace].
  - assert (forall s, c ∈ chars (s +:+ replace site role 5 t) -> c ∈ chars s \/ c ∈ chars t \/ c ∈ chars site \/ c ∈ chars role) as Happ.
    { intros s. rewrite chars_app, elem_of_app. intros [? | ?%IH]; auto. }
    cbn [chars String.list_ascii_of_string].
    destruct (String.prefix _ _); [intros [? | [? | [? | ?]]]%Happ; set_solver |].
    destruct (String.prefix _ _); [intros [? | [? | [? | ?]]]%Happ; set_solver |].
    intros [-> | ?%IH]%elem_of_cons; set_solver.
  - intros ?%IH. cbn. set_solver.
Qed.

(** ** Property *)

(** A client cannot choose its host name. Whatever a client is called, the
    label of its main service consists of characters of the operator's template
    for its role and of lower-case letters and digits: a character that is
    neither in the template nor alphanumeric, such as a dot or a slash, never
    appears in it. *)
Theorem main_host_confined (lower : Z -> Z) (lc : LinkConfig) (name : string) (c : ascii) :
  c ∈ chars (mainHost lower lc name) ->
  is_alnum c = true \/ exists site role t, splitName lower name = Some (site, role)
    /\ Templates lc !! role = Some t /\ c ∈ chars t.
Proof.
  unfold mainHost. destruct (splitName lower name) as [[site role] |] eqn:E; [| by intros []%elem_of_nil].
  destruct (Templates lc !! role) as [t |] eqn:Et; [| by intros []%elem_of_nil].
  apply splitName_spec in E as E'. destruct E' as (_ & _ & Hs & Hr). rewrite Forall_forall in Hs, Hr.
  intros [Hc | [Hc | Hc]]%replace_chars; [right; eauto 6 | left; auto..].
Qed.

Lemma main_host_confined_witness :
  mainHost id (ParseLinkConfig id "web=web{site}" "") "tk-a./b-web" = "webab"
  /\ (is_alnum "b"%char = true
      \/ exists site role t, splitName id "tk-a./b-web" = Some (site, role)
           /\ Templates (ParseLinkConfig id "web=web{site}" "") !! role = Some t /\ "b"%char ∈ chars t).
Proof.
  split; [vm_compute; reflexivity |].
  apply (main_host_confined id (ParseLinkConfig id "web=web{site}" "") "tk-a./b-web" "b").
  apply (bool_decide_eq_true_1 _). vm_compute. reflexivity.
Defined.
