(* ===== verification/Meta.v ===== *)
(** * Presentation metadata

    Models src/core/internal/monitor/meta.go: the store that reloads clients.json
    when it changes, and the sanitizing of what it holds. The URL parser is an
    argument, and so are the file's status and contents at each call, and the order
    in which a map of ports is visited. *)

From stdpp Require Export sorting.
From S2P Require Import GoJson.
From S2P Require Export GoTime Utf8.

Definition maxTitleLen : nat := 100.
Definition maxNameLen : nat := 60.
Definition maxURLLen : nat := 300.

Record PortMeta := MkPort { P_Name : string; P_URL : string }.
Record ClientMeta := MkMeta { Title : string; M_Ports : gmap string PortMeta }.

Definition zero_port : PortMeta := MkPort "" "".
Definition zero_meta : ClientMeta := MkMeta "" ∅.

#[export] Instance PortMeta_eq_dec : EqDecision PortMeta.
Proof. solve_decision. Defined.
#[export] Instance ClientMeta_eq_dec : EqDecision ClientMeta.
Proof. solve_decision. Defined.

(** *** The file's JSON *)

Definition port_fields : list (field PortMeta) :=
  [member "name" go_string P_Name (fun v p => MkPort v (P_URL p)); member "url" go_string P_URL (fun v p => MkPort (P_Name p) v)].
Definition port_json : codec PortMeta :=
  go_struct zero_port
    (fun p => unless (bool_decide (P_Name p = "")) "name" (enc go_string (P_Name p))
              ++ unless (bool_decide (P_URL p = "")) "url" (enc go_string (P_URL p))) port_fields.

Definition client_fields : list (field ClientMeta) :=
  [member "title" go_string Title (fun v c => MkMeta v (M_Ports c));
   member "ports" (go_dict string_key port_json) M_Ports (fun v c => MkMeta (Title c) v)].
Definition client_json : codec ClientMeta :=
  go_struct zero_meta
    (fun c => unless (bool_decide (Title c = "")) "title" (enc go_string (Title c))
              ++ unless (bool_decide (M_Ports c = ∅)) "ports" (enc (go_dict string_key port_json) (M_Ports c))) client_fields.

(** What [json.Unmarshal] gives, a nil map being an empty one; [None] is an error. *)
Definition readClients (raw : string) : option (gmap string ClientMeta) :=
  let '(x, ok) := Unmarshal (go_map string_key client_json) raw None in if ok then Some (default ∅ x) else None.

Definition clip (s : string) (n : nat) : string :=
  let s := trim_space s in
  if decide (n < length (runes s))%nat then of_runes (take n (runes s).*1) else s.

(** What [url.Parse] finds. *)
Record URL := MkURL { u_scheme : string; u_host : string; u_user : bool }.

Section meta.
Context (Parse : string -> option URL).
Context (unicode_lower : Z -> Z).

Definition cleanURL (raw : string) : string :=
  if decide (maxURLLen < String.length raw)%nat then ""
  else match Parse raw with
       | None => ""
       | Some u =>
           if bool_decide (u_host u = "") || u_user u then ""
           else if bool_decide (ToLower unicode_lower (u_scheme u) ∈ ["http"; "https"; "tcp"; "ssh"]) then raw else ""
       end.

(** One port of a client: the ports so far, with the warnings so far. *)
Definition sanitize_port (name : string) (acc : gmap string PortMeta * list string) (kp : string * PortMeta)
    : gmap string PortMeta * list string :=
  let '(ports, warns) := acc in
  let '(key, p) := kp in
  let bad := (ports, warns ++ [name +:+ ": " +:+ String (ascii_of_N 34) key +:+ String (ascii_of_N 34) " is not a valid port, ignored"]) in
  match atoi (trim_space key) with
  | None => bad
  | Some port =>
      if (port <? 1) || (65535 <? port) then bad
      else
        let u := trim_space (P_URL p) in
        let ok := negb (bool_decide (u = "")) && negb (bool_decide (cleanURL u = "")) in
        (<[itoa port := MkPort (clip (P_Name p) maxNameLen) (if ok then u else "")]> ports,
         if negb (bool_decide (u = "")) && bool_decide (cleanURL u = "")
         then warns ++ [name +:+ ": port " +:+ key +:+ ": url must be http://, https://, tcp:// or ssh:// with a host; ignored"]
         else warns)
  end.

Definition sanitize_client (order : gmap string PortMeta -> list (string * PortMeta)) (name : string) (c : ClientMeta)
    : ClientMeta * list string :=
  let t := clip (Title c) maxTitleLen in
  let w := if bool_decide (Title c = t) then [] else
             [name +:+ ": title is longer than " +:+ itoa (Z.of_nat maxTitleLen) +:+ " characters, truncated"] in
  let '(ports, w) := foldl (sanitize_port name) (∅, w) (order (M_Ports c)) in
  (MkMeta t ports, w).

Definition sanitize (order : gmap string PortMeta -> list (string * PortMeta)) (input : gmap string ClientMeta)
    : gmap string ClientMeta * list string :=
  foldl (fun acc name =>
           let '(oc, w) := sanitize_client order name (default zero_meta (input !! name)) in
           (<[name := oc]> (fst acc), snd acc ++ w))
    (∅, []) (merge_sort String.le (map_to_list input).*1).

(** ** The store *)

Record MetaStore := MkMetaStore {
  ms_path : string;
  ms_mtime : time; ms_size : Z;
  data : option (gmap string ClientMeta);
  warned : gset string;
}.

Definition NewMetaStore (path : string) : MetaStore := MkMetaStore path zero_time 0 None ∅.

(** The file now: its modification time and size, and its contents, either of
    which may fail to be read. *)
Record meta_file := MetaFile { mf_stat : option (time * Z); mf_raw : option string }.

(** Log each warning once. *)
Fixpoint warn_new (seen : gset string) (msgs : list string) : gset string * list string :=
  match msgs with
  | [] => (seen, [])
  | msg :: msgs' =>
      if bool_decide (msg ∈ seen) then warn_new seen msgs'
      else let '(seen', l) := warn_new ({[msg]} ∪ seen) msgs' in (seen', msg :: l)
  end.

(** The reload, with the lines it logs (of its own lines the fixed part). *)
Definition refresh (order : gmap string PortMeta -> list (string * PortMeta)) (f : meta_file) (m : MetaStore)
    : MetaStore * list string :=
  if bool_decide (ms_path m = "") then (m, [])
  else match mf_stat f with
  | None =>
      match data m with
      | None => (m, [])
      | Some _ => (MkMetaStore (ms_path m) zero_time 0 None (warned m), ["removed, client metadata cleared"])
      end
  | Some (mt, sz) =>
      if negb (bool_decide (data m = None)) && (mt =? ms_mtime m) && (sz =? ms_size m) then (m, [])
      else match mf_raw f with
      | None => (m, [])
      | Some raw =>
          match readClients raw with
          | None => (MkMetaStore (ms_path m) mt sz (data m) (warned m), ["keeping previous metadata"])
          | Some input =>
              let '(out, warns) := sanitize order input in
              let '(seen, lines) := warn_new (warned m) warns in
              (MkMetaStore (ms_path m) mt sz (Some out) seen, lines ++ ["loaded metadata"])
          end
      end
  end.

Definition Get (order : gmap string PortMeta -> list (string * PortMeta)) (f : meta_file) (m : option MetaStore)
    (name : string) : option MetaStore * ClientMeta :=
  match m with
  | None => (None, zero_meta)
  | Some m =>
      let m' := fst (refresh order f m) in
      (Some m', default zero_meta (d ← data m'; d !! name))
  end.

Definition Port (order : gmap string PortMeta -> list (string * PortMeta)) (f : meta_file) (m : option MetaStore)
    (name : string) (port : Z) : option MetaStore * PortMeta :=
  let '(m', c) := Get order f m name in (m', default zero_port (M_Ports c !! itoa port)).

Definition MTitle (order : gmap string PortMeta -> list (string * PortMeta)) (f : meta_file) (m : option MetaStore)
    (name : string) : option MetaStore * string :=
  let '(m', c) := Get order f m name in (m', if bool_decide (Title c = "") then name else Title c).

(** What may be shown: a described port. *)
Definition clean_port (kp : string * PortMeta) : Prop :=
  (exists n, 1 <= n <= 65535 /\ kp.1 = itoa n)
  /\ (length (runes (P_Name kp.2)) <= maxNameLen)%nat
  /\ (P_URL kp.2 = "" \/ cleanURL (P_URL kp.2) = P_URL kp.2).

Definition clean (c : ClientMeta) : Prop :=
  (length (runes (Title c)) <= maxTitleLen)%nat
  /\ forall k p, M_Ports c !! k = Some p -> clean_port (k, p).

(** The store after the calls that found the given files. *)
Definition after (order : gmap string PortMeta -> list (string * PortMeta)) (fs : list meta_file) (m : MetaStore) : MetaStore :=
  foldl (fun m f => fst (refresh order f m)) m fs.

(** The lines those calls log. *)
Fixpoint logged (order : gmap string PortMeta -> list (string * PortMeta)) (fs : list meta_file) (m : MetaStore) : list string :=
  match fs with
  | [] => []
  | f :: fs' => let '(m', l) := refresh order f m in l ++ logged order fs' m'
  end.

(** ** Lemmas *)

Lemma runes_clip s n : (length (runes (clip s n)) <= n)%nat.
Proof.
  unfold clip. destruct (decide _) as [Hn | Hn]; [| lia].
  rewrite <- (length_fmap fst), runes_of_runes; [rewrite length_take; lia |].
  apply Forall_take, runes_valid.
Qed.

Lemma cleanURL_id u : cleanURL u = "" \/ cleanURL u = u.
Proof. unfold cleanURL. repeat case_match; auto. Qed.

Lemma sanitize_port_clean name ports w kp :
  map_Forall (fun k p => clean_port (k, p)) ports ->
  map_Forall (fun k p => clean_port (k, p)) (fst (sanitize_port name (ports, w) kp)).
Proof.
  intros Hp. destruct kp as [key p]. unfold sanitize_port.
  destruct (atoi _) as [port |]; [| done]. destruct (_ || _) eqn:Hr; [done |]. breflect.
  cbn [fst]. apply map_Forall_insert_2; [| done]. split; [| split]; cbn [fst snd P_Name P_URL].
  - exists port. split; [lia | done].
  - apply runes_clip.
  - destruct (cleanURL_id (trim_space (P_URL p))) as [-> | Hu]; [left | ].
    + rewrite (bool_decide_true ("" = "")) by done. by rewrite andb_false_r.
    + rewrite Hu. destruct (_ && _); auto.
Qed.

Lemma sanitize_ports_clean name l ports w :
  map_Forall (fun k p => clean_port (k, p)) ports ->
  map_Forall (fun k p => clean_port (k, p)) (fst (foldl (sanitize_port name) (ports, w) l)).
Proof.
  revert ports w. induction l as [| kp l IH]; intros ports w Hp; [done |]. cbn [foldl].
  destruct (sanitize_port name (ports, w) kp) as [ports' w'] eqn:E. apply IH.
  change ports' with (fst (ports', w')). rewrite <- E. by apply sanitize_port_clean.
Qed.

Lemma sanitize_client_clean order name c : clean (fst (sanitize_client order name c)).
Proof.
  unfold sanitize_client.
  pose proof (fun w => sanitize_ports_clean name (order (M_Ports c)) ∅ w (map_Forall_empty _)) as Hp.
  destruct (foldl _ _ _) as [ports w'] eqn:E. split; [apply runes_clip |].
  intros k p Hk. cbn in Hk. change ports with (fst (ports, w')) in Hk. rewrite <- E in Hk. by eapply Hp.
Qed.

Lemma sanitize_all_clean order (input : gmap string ClientMeta) : map_Forall (fun _ c => clean c) (fst (sanitize order input)).
Proof.
  unfold sanitize. generalize (merge_sort String.le (map_to_list input).*1) as names. intros names.
  assert (map_Forall (fun _ c => clean c) (fst (∅ : gmap string ClientMeta, [] : list string))) as H0 by apply map_Forall_empty.
  revert H0. generalize (∅ : gmap string ClientMeta, [] : list string) as acc.
  induction names as [| name names IH]; intros acc Hacc; [done |]. cbn [foldl]. apply IH.
  pose proof (sanitize_client_clean order name (default zero_meta (input !! name))) as Hc.
  destruct (sanitize_client order name _) as [oc w]. by apply map_Forall_insert_2.
Qed.

Definition data_ok (m : MetaStore) : Prop := forall d, data m = Some d -> map_Forall (fun _ c => clean c) d.

Lemma refresh_ok order f m : data_ok m -> data_ok (fst (refresh order f m)).
Proof.
  intros Hm. unfold refresh. destruct (bool_decide _); [done |].
  destruct (mf_stat f) as [[mt sz] |].
  - destruct (_ && _); [done |]. destruct (mf_raw f) as [raw |]; [| done].
    destruct (readClients raw) as [input |]; [| done].
    pose proof (sanitize_all_clean order input) as Hc.
    destruct (sanitize order input) as [out warns], (warn_new _ _) as [seen lines].
    intros d [= <-]. done.
  - destruct (data m); [| done]. by intros d [=].
Qed.

Lemma after_ok order fs m : data_ok m -> data_ok (after order fs m).
Proof. revert m. induction fs as [| f fs IH]; intros m Hm; [done |]. cbn. by apply IH, refresh_ok. Qed.

Lemma clean_zero : clean zero_meta.
Proof. split; [cbn; unfold maxTitleLen; lia |]. intros k p Hk. change (M_Ports zero_meta) with (∅ : gmap string PortMeta) in Hk. by apply lookup_empty_Some in Hk. Qed.

Lemma get_clean order path name fs f : clean (snd (Get order f (Some (after order fs (NewMetaStore path))) name)).
Proof.
  cbn [Get snd].
  pose proof (refresh_ok order f _ (after_ok order fs (NewMetaStore path) ltac:(intros d; done))) as H.
  destruct (data _) as [d |] eqn:E; cbn; [| apply clean_zero].
  destruct (d !! name) as [c |] eqn:Ec; cbn; [| apply clean_zero]. by eapply H.
Qed.

(** ** Properties *)

(** C31: whatever the metadata file has held, what the panel is given for a
    client is clean: a title of at most [maxTitleLen] runes, ports in canonical
    decimal between 1 and 65535 with names of at most [maxNameLen] runes, and
    URLs that are empty or accepted by [cleanURL]. *)
Theorem shown_clean (order : gmap string PortMeta -> list (string * PortMeta)) (path name : string)
    (fs : list meta_file) (f : meta_file) :
  clean (snd (Get order f (Some (after order fs (NewMetaStore path))) name)).
Proof. apply get_clean. Qed.

(** A file that cannot be parsed is remembered by its time and size, and
    calls that find the same file again read it no more and log nothing, but
    only when the store held metadata before; when it held none, every call
    reads the file and logs the failure again. *)
Theorem bad_file_relogs (order : gmap string PortMeta -> list (string * PortMeta)) (m : MetaStore)
    (f : meta_file) (mt : time) (sz : Z) (raw : string) (n : nat)
    (Hpath : ms_path m <> "") (Hst : mf_stat f = Some (mt, sz)) (Hraw : mf_raw f = Some raw)
    (Hbad : readClients raw = None) (Hnew : (mt, sz) <> (ms_mtime m, ms_size m)) :
  let m1 := after order [f] m in
  ms_mtime m1 = mt /\ ms_size m1 = sz /\ data m1 = data m
  /\ logged order (replicate (S n) f) m =
       replicate (if bool_decide (data m = None) then S n else 1%nat) "keeping previous metadata".
Proof.
  assert (forall m0, ms_path m0 <> "" ->
    refresh order f m0 = if negb (bool_decide (data m0 = None)) && (mt =? ms_mtime m0) && (sz =? ms_size m0) then (m0, [])
      else (MkMetaStore (ms_path m0) mt sz (data m0) (warned m0), ["keeping previous metadata"])) as Hr.
  { intros m0 H0. unfold refresh. by rewrite bool_decide_false, Hst, Hraw, Hbad. }
  assert (forall k, logged order (replicate k f) (MkMetaStore (ms_path m) mt sz (data m) (warned m)) =
    replicate (if bool_decide (data m = None) then k else O) "keeping previous metadata") as Hk.
  { induction k as [| k IH]; cbn [replicate logged]; [by destruct (bool_decide _) |].
    rewrite Hr by done. cbn [data ms_mtime ms_size ms_path warned].
    rewrite !Z.eqb_refl, !andb_true_r. destruct (bool_decide (data m = None)); cbn; by rewrite IH. }
  assert (refresh order f m = (MkMetaStore (ms_path m) mt sz (data m) (warned m), ["keeping previous metadata"])) as H1.
  { rewrite Hr by done. destruct (negb _ && _ && _) eqn:E; [| done].
    rewrite !andb_true_iff, !Z.eqb_eq in E. destruct E as [[_ ->] ->]. done. }
  cbn [after foldl replicate logged]. rewrite H1. cbn [fst]. repeat split.
  rewrite Hk. by destruct (bool_decide _).
Qed.
End meta.

(** ** Witnesses *)

Example sanitize_ex :
  let get k p := if bool_decide (k = "http://h") then Some (MkURL "http" "h" false) else p in
  let c := MkMeta "  t " {[ "080" := MkPort " web " "http://h"; "0" := zero_port ]} in
  sanitize_client (fun k => get k None) id map_to_list "c" c
  = (MkMeta "t" {[ "80" := MkPort "web" "http://h" ]},
     ["c: title is longer than 100 characters, truncated";
      "c: " +:+ String (ascii_of_N 34) "0" +:+ String (ascii_of_N 34) " is not a valid port, ignored"]).
Proof. vm_compute. reflexivity. Qed.

Example clients_read :
  readClients (html "{`tk-a-web`: {`title`: `Caf\u00e9`, `ports`: {`8022`: {`name`: `ssh`, `url`: `ssh://h`}, `80`: null}}, `b`: {}}")
  = Some {["tk-a-web" := MkMeta "Café" {["8022" := MkPort "ssh" "ssh://h"; "80" := zero_port]}; "b" := zero_meta]}
  /\ readClients (html "{`b`: {`title`: 1}}") = None /\ readClients "null" = Some ∅.
Proof. split_and!; vm_compute; reflexivity. Qed.

Lemma bad_file_relogs_witness :
  let f := MetaFile (Some (5, 1)) (Some "{") in
  logged (fun _ => None) id map_to_list (replicate 3 f) (NewMetaStore "p")
  = replicate 3 "keeping previous metadata".
Proof.
  exact (proj2 (proj2 (proj2 (bad_file_relogs (fun _ => None) id map_to_list (NewMetaStore "p")
    (MetaFile (Some (5, 1)) (Some "{")) 5 1 "{" 2 ltac:(done) eq_refl eq_refl eq_refl ltac:(done))))).
Defined.
