(* ===== verification/HbClient.v ===== *)
(** * The heartbeat client

    Models src/core/internal/heartbeat/client.go: the loop of [RunClient] and
    the goroutine that reads the socket. The loop alternates between sending a
    beat and waiting for the deadline; while it waits it consumes replies from a
    channel of sixteen that the reader fills. Every choice of the environment
    (dialling, the outcome of a write, datagrams, the scheduling of the
    goroutines, the clock) is an input of a step. *)

From S2P Require Export GoTime Packet.

Definition missedBeforeWarn : Z := 3.
Definition window : nat := 30.
Definition replyWait : duration := 5 * second.
Definition chanCap : nat := 16.

Record reply := Rep { r_seq : Z; r_at : time }.

#[export] Instance reply_eq_dec : EqDecision reply.
Proof. solve_decision. Defined.

(** The variables of the loop. *)
Record vars := Vars {
  seq : Z;
  sent : gmap Z time;
  hist : list bool;
  missed : Z;
  downFrom : time;
  lastRTT : duration;
}.

Definition vars0 : vars := Vars 0 ∅ [] 0 zero_time 0.

(** What the loop does to the outside: a datagram handed to the socket, the
    outcome of a beat noted in the history, a call of [Reporter.SetUDP], and its
    two log lines. *)
Inductive output :=
| OSend (s : Z) (b : bytes)
| ORecord (s : Z) (ok : bool)
| OReport (ok : bool) (rtt : duration) (lossPct : Q)
| OAgain (rtt : duration)
| OWarn (missed : Z).

Definition record (ok : bool) (h : list bool) : list bool :=
  let h := h ++ [ok] in
  if decide (window < length h)%nat then last_n window h else h.

Definition count_lost (h : list bool) : Z :=
  foldl (fun (n : Z) (ok : bool) => if ok then n else n + 1) 0 h.

Definition loss (h : list bool) : Q := 100 * inject_Z (count_lost h) / inject_Z (Z.of_nat (length h)).

Section client.
Context (name : string) (key : bytes) (rep : bool).

(** [rep] may be nil. *)
Definition report (ok : bool) (v : vars) : list output :=
  if rep then [OReport ok (lastRTT v) (loss (hist v))] else [].

(** The sending half of an iteration, with a connection: the new variables, the
    packet and whether it was handed to the socket. *)
Definition beat (now : time) (v : vars) : vars * list output :=
  let seq' := u32 (seq v + 1) in
  match encode key (Packet false seq' now name) with
  | Ok b => (Vars seq' (<[seq' := now]> (sent v)) (hist v) (missed v) (downFrom v) (lastRTT v), [OSend seq' b])
  | Err _ => (Vars seq' (sent v) (hist v) (missed v) (downFrom v) (lastRTT v), [])
  end.

(** A reply taken from the channel. *)
Definition on_reply (r : reply) (v : vars) : vars * list output :=
  match sent v !! r_seq r with
  | None => (v, [])
  | Some t0 =>
      let v' := Vars (seq v) (delete (r_seq r) (sent v)) (record true (hist v)) 0 (downFrom v)
                     (sub (r_at r) t0) in
      (v', ORecord (r_seq r) true
           :: (if missedBeforeWarn <=? missed v then [OAgain (lastRTT v')] else [])
           ++ report true v')
  end.

(** One entry visited by the scan after the deadline, at [now]. *)
Definition scan_entry (now : time) (s : Z) (v : vars) : vars * list output :=
  match sent v !! s with
  | None => (v, [])
  | Some t =>
      if (replyWait <=? sub now t) && negb (s =? seq v) then
        let m' := missed v + 1 in
        let first := m' =? missedBeforeWarn in
        let v' := Vars (seq v) (delete s (sent v)) (record false (hist v)) m'
                       (if first then t else downFrom v) (lastRTT v) in
        (v', ORecord s false
             :: (if first then [OWarn m'] else [])
             ++ report (m' <? missedBeforeWarn) v')
      else (v, [])
  end.

(** The scan, visiting the table in a given order, each entry at its own reading
    of the clock. *)
Fixpoint scan (visits : list (Z * time)) (v : vars) : vars * list output :=
  match visits with
  | [] => (v, [])
  | (s, now) :: rest =>
      let '(v1, o1) := scan_entry now s v in
      let '(v2, o2) := scan rest v1 in
      (v2, o1 ++ o2)
  end.

(** The reader's filter. *)
Definition for_us (buf : bytes) : option Z :=
  match decode key (take 2048 buf) with
  | Ok p => if Reply p && bool_decide (Name p = name) then Some (Seq p) else None
  | Err _ => None
  end.

(** ** The two goroutines *)

Record client := MkClient {
  conn : bool;
  waiting : bool;
  replies : list reply;
  vs : vars;
}.

(** [RunClient] returns at once on a name that is not valid. *)
Definition RunClient : option client :=
  if validName name then Some (MkClient false false [] vars0) else None.

Definition effective_interval (interval : duration) : duration :=
  if interval <=? 0 then 10 * second else interval.

Inductive input :=
| IBeat (dialled : bool) (now : time) (wrote : bool)
| IDatagram (now : time) (buf : bytes)
| IReply
| IDeadline (visits : list (Z * time)).

(** A step whose input cannot happen in the state is [None]. *)
Definition step (c : client) (i : input) : option (client * list output) :=
  match i with
  | IBeat dialled now wrote =>
      if waiting c then None
      else if conn c || dialled then
        let '(v, o) := beat now (vs c) in
        Some (MkClient (match o with [] => true | _ => wrote end) true (replies c) v, o)
      else Some (MkClient false true (replies c) (vs c), [])
  | IDatagram now buf =>
      match for_us buf with
      | Some s => Some (MkClient (conn c) (waiting c)
                          (if decide (length (replies c) < chanCap)%nat
                           then replies c ++ [Rep s now] else replies c) (vs c), [])
      | None => Some (c, [])
      end
  | IReply =>
      match waiting c, replies c with
      | true, r :: q =>
          let '(v, o) := on_reply r (vs c) in Some (MkClient (conn c) true q v, o)
      | _, _ => None
      end
  | IDeadline visits =>
      if waiting c && bool_decide (visits.*1 ≡ₚ (map_to_list (sent (vs c))).*1) then
        let '(v, o) := scan visits (vs c) in Some (MkClient (conn c) false (replies c) v, o)
      else None
  end.

Fixpoint run (c : client) (is_ : list input) : option (client * list output) :=
  match is_ with
  | [] => Some (c, [])
  | i :: is' =>
      '(c1, o1) ← step c i; '(c2, o2) ← run c1 is'; Some (c2, o1 ++ o2)
  end.

End client.

(** ** What the outputs say *)

Definition sent_seqs (os : list output) : list Z :=
  omap (fun o => match o with OSend s _ => Some s | _ => None end) os.

Definition recorded (os : list output) : list Z :=
  omap (fun o => match o with ORecord s _ => Some s | _ => None end) os.

Definition outcomes (os : list output) : list bool :=
  omap (fun o => match o with ORecord _ ok => Some ok | _ => None end) os.

Definition reports (os : list output) : list (bool * Q) :=
  omap (fun o => match o with OReport ok _ l => Some (ok, l) | _ => None end) os.

(** The numbers of the beats still waited for. *)
Definition waited (v : vars) : list Z := (map_to_list (sent v)).*1.

(** Unanswered beats at the end of a history. *)
Fixpoint misses_rev (h : list bool) : Z :=
  match h with false :: h' => 1 + misses_rev h' | _ => 0 end.
Definition misses (h : list bool) : Z := misses_rev (reverse h).

(** What is to be reported after each outcome of a history that follows [p]: the
    path works unless the last [missedBeforeWarn] beats were lost, and the loss
    is over the last [window]. *)
Definition verdict (h : list bool) : bool * Q := (misses h <? missedBeforeWarn, loss (last_n window h)).

Fixpoint verdicts (p h : list bool) : list (bool * Q) :=
  match h with
  | [] => []
  | b :: h' => verdict (p ++ [b]) :: verdicts (p ++ [b]) h'
  end.

(** ** Lemmas *)

Lemma misses_snoc h b : misses (h ++ [b]) = if b then 0 else 1 + misses h.
Proof. unfold misses. by rewrite reverse_snoc. Qed.

Lemma misses_nonneg h : 0 <= misses h.
Proof. unfold misses. induction (reverse h) as [| [] l IH]; cbn; lia. Qed.

Lemma record_last_n b rs : record b (last_n window rs) = last_n window (rs ++ [b]).
Proof. unfold record. by rewrite last_n_guard, last_n_app_last. Qed.

Lemma verdicts_app p h k : verdicts p (h ++ k) = verdicts p h ++ verdicts (p ++ h) k.
Proof.
  revert p. induction h as [| b h IH]; intros p; cbn; [by rewrite app_nil_r |].
  by rewrite IH, <-app_assoc.
Qed.

Lemma count_lost_bounds_from h n :
  n <= foldl (fun (n : Z) (ok : bool) => if ok then n else n + 1) n h <= n + Z.of_nat (length h).
Proof.
  revert n. induction h as [| b h IH]; intros n; cbn; [lia |].
  specialize (IH (if b then n else n + 1)). destruct b; lia.
Qed.

Lemma count_lost_bounds h : 0 <= count_lost h <= Z.of_nat (length h).
Proof. unfold count_lost. pose proof (count_lost_bounds_from h 0). lia. Qed.

(** A percentage, never a division by zero. *)
Lemma loss_bounds h : h <> [] -> (0 <= loss h <= 100)%Q.
Proof.
  intros Hh. pose proof (count_lost_bounds h) as [H0 H1].
  assert (0 < Z.of_nat (length h)) as Hl by (destruct h; cbn; [done | lia]).
  unfold loss. destruct (Z.of_nat (length h)) as [| n |] eqn:E; [lia | | lia].
  unfold Qle, Qdiv, Qmult, Qinv, inject_Z. cbn. split; lia.
Qed.

(** *** The history, the counter and the reports follow the outcomes *)

Definition tracks (v : vars) (rs : list bool) : Prop :=
  hist v = last_n window rs /\ missed v = misses rs.

(** A piece of code that turns [v] into [v'] with outputs [os] keeps the
    variables and the reports in step with the outcomes. *)
Definition follows (rep : bool) (v : vars) (os : list output) (v' : vars) : Prop :=
  forall rs, tracks v rs ->
    tracks v' (rs ++ outcomes os)
    /\ reports os = if rep then verdicts rs (outcomes os) else [].

Lemma follows_refl rep v : follows rep v [] v.
Proof. intros rs H. rewrite app_nil_r. by destruct rep. Qed.

Lemma follows_trans rep v1 o1 v2 o2 v3 :
  follows rep v1 o1 v2 -> follows rep v2 o2 v3 -> follows rep v1 (o1 ++ o2) v3.
Proof.
  intros H1 H2 rs H. destruct (H1 rs H) as [T1 R1]. destruct (H2 _ T1) as [T2 R2].
  unfold outcomes, reports in *. rewrite !omap_app, app_assoc, verdicts_app, R1, R2.
  split; [done | by destruct rep].
Qed.

Lemma follows_beat name key rep now v :
  follows rep v (snd (beat name key now v)) (fst (beat name key now v)).
Proof.
  intros rs H. unfold beat. destruct (encode _ _); cbn; rewrite app_nil_r; by destruct rep.
Qed.

(** Recording one outcome and reporting it. *)
Lemma follows_record rep s ok log v v' m' :
  outcomes log = [] -> reports log = [] ->
  hist v' = record ok (hist v) -> missed v' = m' ->
  m' = (if ok then 0 else missed v + 1) ->
  follows rep v (ORecord s ok :: log ++ report rep (if ok then true else m' <? missedBeforeWarn) v') v'.
Proof.
  intros Hlo Hlr Hh Hm Hm' rs [T1 T2].
  assert (outcomes (ORecord s ok :: log ++ report rep (if ok then true else m' <? missedBeforeWarn) v') = [ok]) as ->.
  { cbn. unfold outcomes in *. rewrite omap_app, Hlo. by destruct rep. }
  assert (tracks v' (rs ++ [ok])) as T.
  { split; [by rewrite Hh, T1, record_last_n |]. rewrite Hm, Hm', misses_snoc, T2. destruct ok; lia. }
  split; [done |]. unfold reports in *. cbn. rewrite omap_app, Hlr. destruct T as [T3 T4].
  destruct rep; [| done]. cbn. unfold verdict. rewrite <-T3, <-T4, Hm. do 2 f_equal.
  destruct ok; [by rewrite Hm' | done].
Qed.

Lemma follows_on_reply rep r v : follows rep v (snd (on_reply rep r v)) (fst (on_reply rep r v)).
Proof.
  unfold on_reply. destruct (sent v !! r_seq r) as [t0 |]; [| apply follows_refl].
  cbn [fst snd]. by apply (follows_record rep _ true _ _ _ 0); [case_match | case_match | ..].
Qed.

Lemma follows_scan_entry rep now s v :
  follows rep v (snd (scan_entry rep now s v)) (fst (scan_entry rep now s v)).
Proof.
  unfold scan_entry. destruct (sent v !! s) as [t0 |]; [| apply follows_refl].
  destruct (_ && _); [| apply follows_refl].
  cbn [fst snd]. by apply (follows_record rep _ false _ _ _ (missed v + 1)); [case_match | case_match | ..].
Qed.

Lemma follows_scan rep visits v : follows rep v (snd (scan rep visits v)) (fst (scan rep visits v)).
Proof.
  revert v. induction visits as [| [s now] l IH]; intros v; cbn; [apply follows_refl |].
  pose proof (follows_scan_entry rep now s v) as H1.
  destruct (scan_entry rep now s v) as [v1 o1]. specialize (IH v1).
  destruct (scan rep l v1) as [v2 o2]. by eapply follows_trans.
Qed.

Lemma follows_step name key rep c i c' os :
  step name key rep c i = Some (c', os) -> follows rep (vs c) os (vs c').
Proof.
  intros H. destruct i as [d now w | now buf | | visits]; cbn in H.
  - destruct (waiting c); [done |]. destruct (conn c || d); [| simplify_eq; apply follows_refl].
    pose proof (follows_beat name key rep now (vs c)). destruct (beat _ _ _ _). by simplify_eq.
  - destruct (for_us _ _ _); simplify_eq; apply follows_refl.
  - destruct (waiting c); [| done]. destruct (replies c) as [| r q]; [done |].
    pose proof (follows_on_reply rep r (vs c)). destruct (on_reply _ _ _). by simplify_eq.
  - destruct (_ && _); [| done].
    pose proof (follows_scan rep visits (vs c)). destruct (scan _ _ _). by simplify_eq.
Qed.

Lemma follows_run name key rep c is_ c' os :
  run name key rep c is_ = Some (c', os) -> follows rep (vs c) os (vs c').
Proof.
  revert c os. induction is_ as [| i is_ IH]; intros c os H; cbn in H.
  { simplify_eq. apply follows_refl. }
  destruct (step _ _ _ c i) as [[c1 o1] |] eqn:E1; [| done]. cbn in H.
  destruct (run _ _ _ c1 is_) as [[c2 o2] |] eqn:E2; [| done]. cbn in H. simplify_eq.
  eapply follows_trans; [by eapply follows_step | by eapply IH].
Qed.

(** *** Every beat is waited for or recorded, once *)

(** What a piece of code that sends nothing does to the table. *)
Definition settles (v : vars) (os : list output) (v' : vars) : Prop :=
  seq v' = seq v /\ sent_seqs os = [] /\ recorded os ++ waited v' ≡ₚ waited v.

Lemma settles_refl v : settles v [] v.
Proof. done. Qed.

Lemma settles_trans v1 o1 v2 o2 v3 :
  settles v1 o1 v2 -> settles v2 o2 v3 -> settles v1 (o1 ++ o2) v3.
Proof.
  intros (S1 & T1 & P1) (S2 & T2 & P2). unfold settles, sent_seqs, recorded in *.
  rewrite !omap_app, T1, T2, <-app_assoc, P2. by rewrite S2.
Qed.

Lemma waited_delete (m : gmap Z time) s t :
  m !! s = Some t -> s :: (map_to_list (delete s m)).*1 ≡ₚ (map_to_list m).*1.
Proof.
  intros H. by rewrite <-(map_to_list_delete m s t H).
Qed.

Lemma settles_record rep s ok ok' log v v' t :
  sent v !! s = Some t -> sent_seqs log = [] -> recorded log = [] ->
  seq v' = seq v -> sent v' = delete s (sent v) ->
  settles v (ORecord s ok :: log ++ report rep ok' v') v'.
Proof.
  intros Hs Hl1 Hl2 Hq Hd. unfold settles, waited. rewrite Hd.
  split; [done |]. unfold sent_seqs, recorded in *. cbn. rewrite !omap_app, Hl1, Hl2.
  destruct rep; cbn; (split; [done |]); by apply (waited_delete _ _ t).
Qed.

Lemma settles_on_reply rep r v : settles v (snd (on_reply rep r v)) (fst (on_reply rep r v)).
Proof.
  unfold on_reply. destruct (sent v !! r_seq r) as [t0 |] eqn:E; [| apply settles_refl].
  cbn [fst snd]. eapply settles_record; [done | by case_match | by case_match | done..].
Qed.

Lemma settles_scan_entry rep now s v :
  settles v (snd (scan_entry rep now s v)) (fst (scan_entry rep now s v)).
Proof.
  unfold scan_entry. destruct (sent v !! s) as [t0 |] eqn:E; [| apply settles_refl].
  destruct (_ && _); [| apply settles_refl].
  cbn [fst snd]. eapply settles_record; [done | by case_match | by case_match | done..].
Qed.

Lemma settles_scan rep visits v : settles v (snd (scan rep visits v)) (fst (scan rep visits v)).
Proof.
  revert v. induction visits as [| [s now] l IH]; intros v; cbn; [apply settles_refl |].
  pose proof (settles_scan_entry rep now s v) as H1.
  destruct (scan_entry rep now s v) as [v1 o1]. specialize (IH v1).
  destruct (scan rep l v1) as [v2 o2]. by eapply settles_trans.
Qed.

(** The beats sent so far are numbered from one and each is recorded or waited for. *)
Definition accounted (n : nat) (v : vars) (os : list output) : Prop :=
  seq v = Z.of_nat n /\ sent_seqs os = seqZ 1 (Z.of_nat n) /\ recorded os ++ waited v ≡ₚ seqZ 1 (Z.of_nat n).

Lemma accounted_settles n v os v' os' :
  accounted n v os -> settles v os' v' -> accounted n v' (os ++ os').
Proof.
  intros (A1 & A2 & A3) (S1 & S2 & S3). unfold accounted, sent_seqs, recorded in *.
  rewrite !omap_app, S2, app_nil_r, <-app_assoc, S3. by rewrite S1.
Qed.

Lemma accounted_beat name key now n v os :
  validName name = true -> Z.of_nat n + 1 < 2 ^ 32 -> accounted n v os ->
  accounted (S n) (fst (beat name key now v)) (os ++ snd (beat name key now v)).
Proof.
  intros Hv Hn (A1 & A2 & A3). unfold beat. rewrite A1, u32_small by (unfold is_u32; lia).
  rewrite encode_layout by done. cbn [fst snd].
  assert (seqZ 1 (Z.of_nat (S n)) = seqZ 1 (Z.of_nat n) ++ [Z.of_nat n + 1]) as Hseq.
  { rewrite Nat2Z.inj_succ, <-Z.add_1_r, seqZ_app by lia. f_equal. rewrite seqZ_cons by lia. f_equal. lia. }
  unfold accounted, sent_seqs, recorded, waited in *. cbn [seq sent].
  rewrite !omap_app, A2, Hseq. split; [lia |]. split; [done |]. cbn. rewrite app_nil_r.
  assert (sent v !! (Z.of_nat n + 1) = None) as Hnone.
  { destruct (sent v !! (Z.of_nat n + 1)) as [t |] eqn:E; [| done].
    assert (Z.of_nat n + 1 ∈ seqZ 1 (Z.of_nat n)) as Hin%elem_of_seqZ; [| lia].
    rewrite <-A3, elem_of_app. right. apply list_elem_of_fmap. exists (Z.of_nat n + 1, t).
    split; [done | by apply elem_of_map_to_list]. }
  rewrite map_to_list_insert by done. cbn. rewrite <-Permutation_middle, A3.
  by rewrite Permutation_cons_append.
Qed.

Lemma accounted_step name key rep c i c' os' n os :
  validName name = true -> Z.of_nat n + 1 < 2 ^ 32 ->
  step name key rep c i = Some (c', os') -> accounted n (vs c) os ->
  exists n', (n' <= S n)%nat /\ accounted n' (vs c') (os ++ os').
Proof.
  intros Hv Hn H A. destruct i as [d now w | now buf | | visits]; cbn in H.
  - destruct (waiting c); [done |]. destruct (conn c || d).
    + pose proof (accounted_beat name key now n (vs c) os Hv Hn A).
      destruct (beat _ _ _ _). simplify_eq. eauto.
    + simplify_eq. exists n. split; [lia |]. by rewrite app_nil_r.
  - exists n. split; [lia |]. destruct (for_us _ _ _); simplify_eq; by rewrite app_nil_r.
  - destruct (waiting c); [| done]. destruct (replies c) as [| r q]; [done |].
    pose proof (settles_on_reply rep r (vs c)). destruct (on_reply _ _ _). simplify_eq.
    exists n. split; [lia |]. by eapply accounted_settles.
  - destruct (_ && _); [| done].
    pose proof (settles_scan rep visits (vs c)). destruct (scan _ _ _). simplify_eq.
    exists n. split; [lia |]. by eapply accounted_settles.
Qed.

Lemma accounted_run name key rep is_ : forall c c' os' n os,
  validName name = true -> Z.of_nat (n + length is_) < 2 ^ 32 ->
  run name key rep c is_ = Some (c', os') -> accounted n (vs c) os ->
  exists n', accounted n' (vs c') (os ++ os').
Proof.
  induction is_ as [| i is_ IH]; intros c c' os' n os Hv Hn H A; cbn in H.
  { simplify_eq. exists n. by rewrite app_nil_r. }
  destruct (step _ _ _ c i) as [[c1 o1] |] eqn:E1; [| done]. cbn in H.
  destruct (run _ _ _ c1 is_) as [[c2 o2] |] eqn:E2; [| done]. cbn in H. cbn [length] in Hn. simplify_eq.
  assert (Z.of_nat n + 1 < 2 ^ 32) as Hn1 by lia.
  destruct (accounted_step _ _ _ _ _ _ _ _ _ Hv Hn1 E1 A) as (n1 & ? & A1).
  rewrite app_assoc. apply (IH c1 c' o2 n1 (os ++ o1)); [done | lia | done | done].
Qed.

(** *** The scan *)

(** The entry visited at [now] is a beat, not the last one, that has waited long
    enough. *)
Definition expired (v : vars) (x : Z * time) : bool :=
  match sent v !! fst x with
  | Some t => (replyWait <=? snd x - t) && negb (fst x =? seq v)
  | None => false
  end.

Definition lost_by (v : vars) (visits : list (Z * time)) : list Z :=
  (filter (fun x => expired v x = true) visits).*1.

Lemma lost_by_elem v visits s : s ∈ lost_by v visits -> s ∈ visits.*1.
Proof.
  unfold lost_by. rewrite !list_elem_of_fmap. intros (x & -> & [_ Hx]%list_elem_of_filter). eauto.
Qed.

Lemma lost_by_ext v v' visits :
  seq v' = seq v -> (forall x, x ∈ visits -> sent v' !! fst x = sent v !! fst x) ->
  lost_by v' visits = lost_by v visits.
Proof.
  intros Hs H. unfold lost_by. f_equal. induction visits as [| x l IH]; [done |].
  assert (expired v' x = expired v x) as Hx by (unfold expired; rewrite Hs, H by set_solver; done).
  rewrite !filter_cons, IH by set_solver. by rewrite Hx.
Qed.

Lemma scan_entry_spec rep now s v :
  let '(v', os) := scan_entry rep now s v in
  seq v' = seq v /\ lastRTT v' = lastRTT v
  /\ sent v' = (if expired v (s, now) then delete s (sent v) else sent v)
  /\ recorded os = (if expired v (s, now) then [s] else [])
  /\ outcomes os = (if expired v (s, now) then [false] else []).
Proof.
  unfold scan_entry, expired. cbn [fst snd].
  destruct (sent v !! s) as [t |] eqn:E; [| done].
  rewrite sub_ge by done. destruct (_ && _); [| done].
  split; [done |]. split; [done |]. split; [done |].
  unfold recorded, outcomes. cbn. rewrite !omap_app. by destruct rep, (_ =? _).
Qed.

Lemma scan_spec rep visits v :
  NoDup visits.*1 ->
  let '(v', os) := scan rep visits v in
  seq v' = seq v /\ lastRTT v' = lastRTT v
  /\ (forall s, sent v' !! s = if decide (s ∈ lost_by v visits) then None else sent v !! s)
  /\ recorded os = lost_by v visits
  /\ outcomes os = replicate (length (lost_by v visits)) false.
Proof.
  revert v. induction visits as [| [s now] l IH]; intros v Hnd; cbn [scan].
  { split; [done |]. split; [done |]. split; [| done]. intros s.
    rewrite decide_False; [done | apply not_elem_of_nil]. }
  cbn in Hnd. apply NoDup_cons in Hnd as [Hs Hnd].
  pose proof (scan_entry_spec rep now s v) as H1. destruct (scan_entry rep now s v) as [v1 o1].
  destruct H1 as (Q1 & L1 & S1 & R1 & O1).
  specialize (IH v1 Hnd). destruct (scan rep l v1) as [v2 o2]. destruct IH as (Q2 & L2 & S2 & R2 & O2).
  assert (lost_by v1 l = lost_by v l) as Hl.
  { apply lost_by_ext; [done |]. intros [s' now'] Hx. rewrite S1. cbn.
    destruct (expired v (s, now)); [| done]. rewrite lookup_delete_ne; [done |].
    intros <-. apply Hs, list_elem_of_fmap. by exists (s, now'). }
  rewrite Hl in *. split; [congruence |]. split; [congruence |].
  assert (lost_by v ((s, now) :: l) = if expired v (s, now) then s :: lost_by v l else lost_by v l) as ->.
  { unfold lost_by. rewrite filter_cons. case_decide as Hd; [by rewrite Hd |].
    by destruct (expired v (s, now)). }
  unfold recorded, outcomes in *. rewrite !omap_app, R1, R2, O1, O2. split.
  - intros s'. rewrite S2, S1. destruct (expired v (s, now)); [| done].
    destruct (decide (s' = s)) as [-> | Hne].
    + rewrite lookup_delete_eq. rewrite (decide_True (P := s ∈ s :: _)) by set_solver. by case_decide.
    + rewrite lookup_delete_ne by done. repeat case_decide; set_solver.
  - by destruct (expired v (s, now)).
Qed.

(** *** Answers come from authentic datagrams *)

Lemma for_us_spec name key buf s :
  for_us name key buf = Some s ->
  exists ts, decode key buf = Ok (Packet true s ts name).
Proof.
  unfold for_us. destruct (decode key (take 2048 buf)) as [p |] eqn:E; [| done].
  destruct (Reply p) eqn:Hr; [| done]. case_bool_decide as Hn; [| done]. intros [= <-].
  exists (TS p). pose proof (decode_inv _ _ _ E) as (_ & Hv & Hb). apply validName_spec in Hv as (_ & Hv & _).
  assert (length (take 2048 buf) = PacketSz) as Hl by by rewrite Hb, length_app, length_sign, length_head_of.
  rewrite length_take in Hl.
  assert (length buf = PacketSz) as Hlen by (unfold PacketSz, headLen, nameLen, macLen in *; lia).
  rewrite take_ge in E by (rewrite Hlen; vm_compute; lia).
  rewrite E. destruct p; cbn in *. by subst.
Qed.

Definition authentic (name : string) (key : bytes) (is_ : list input) (s : Z) : Prop :=
  exists now buf ts, IDatagram now buf ∈ is_ /\ decode key buf = Ok (Packet true s ts name).

Lemma scan_no_answer rep visits v s : ORecord s true ∉ snd (scan rep visits v).
Proof.
  revert v. induction visits as [| [s' now] l IH]; intros v; cbn; [apply not_elem_of_nil |].
  assert (ORecord s true ∉ snd (scan_entry rep now s' v)) as H1.
  { unfold scan_entry. destruct (sent v !! s'); [| apply not_elem_of_nil].
    destruct (_ && _); [| apply not_elem_of_nil]. cbn. unfold report.
    repeat case_match; set_solver. }
  destruct (scan_entry rep now s' v) as [v1 o1]. specialize (IH v1).
  destruct (scan rep l v1) as [v2 o2]. cbn in *. set_solver.
Qed.

Lemma on_reply_answer rep r v s : ORecord s true ∈ snd (on_reply rep r v) -> s = r_seq r.
Proof.
  unfold on_reply. destruct (sent v !! r_seq r); [| by intros []%elem_of_nil].
  cbn. unfold report. repeat case_match; set_solver.
Qed.

Lemma beat_no_answer name key now v s : ORecord s true ∉ snd (beat name key now v).
Proof. unfold beat. destruct (encode _ _); cbn; set_solver. Qed.

Lemma step_authentic name key rep c i c' os past :
  step name key rep c i = Some (c', os) ->
  (forall r, r ∈ replies c -> authentic name key past (r_seq r)) ->
  (forall r, r ∈ replies c' -> authentic name key (past ++ [i]) (r_seq r))
  /\ (forall s, ORecord s true ∈ os -> authentic name key (past ++ [i]) s).
Proof.
  intros H Hq.
  assert (forall s, authentic name key past s -> authentic name key (past ++ [i]) s) as Hmono.
  { intros s (now & buf & ts & ? & ?). exists now, buf, ts. set_solver. }
  destruct i as [d now w | now buf | | visits]; cbn in H.
  - destruct (waiting c); [done |]. destruct (conn c || d); [| simplify_eq; cbn; set_solver].
    pose proof (beat_no_answer name key now (vs c)) as Hb.
    destruct (beat _ _ _ _). simplify_eq. cbn in *. split; [eauto |]. intros s Hs. by destruct (Hb s).
  - destruct (for_us name key buf) as [s |] eqn:E; simplify_eq; cbn; [| set_solver].
    apply for_us_spec in E as [ts E]. split; [| set_solver].
    intros r Hr. case_decide; [| by eauto]. apply elem_of_app in Hr as [Hr | ->%list_elem_of_singleton]; [eauto |].
    exists now, buf, ts. set_solver.
  - destruct (waiting c); [| done]. destruct (replies c) as [| r q]; [done |].
    pose proof (on_reply_answer rep r (vs c)) as Ha.
    destruct (on_reply _ _ _). simplify_eq. cbn in *. split; [intros; apply Hmono, Hq; set_solver |].
    intros s ->%Ha. apply Hmono, Hq. set_solver.
  - destruct (_ && _); [| done]. pose proof (scan_no_answer rep visits (vs c)) as Hb.
    destruct (scan _ _ _). simplify_eq. cbn in *. split; [eauto |]. intros s Hs. by destruct (Hb s).
Qed.

Lemma run_authentic name key rep is_ : forall c c' os past,
  run name key rep c is_ = Some (c', os) ->
  (forall r, r ∈ replies c -> authentic name key past (r_seq r)) ->
  forall s, ORecord s true ∈ os -> authentic name key (past ++ is_) s.
Proof.
  induction is_ as [| i is_ IH]; intros c c' os past H Hq s Hs; cbn in H; [simplify_eq; set_solver |].
  destruct (step _ _ _ c i) as [[c1 o1] |] eqn:E1; [| done]. cbn in H.
  destruct (run _ _ _ c1 is_) as [[c2 o2] |] eqn:E2; [| done]. cbn in H. simplify_eq.
  destruct (step_authentic _ _ _ _ _ _ _ _ E1 Hq) as [Hq1 Ho1].
  apply elem_of_app in Hs as [Hs | Hs].
  - destruct (Ho1 s Hs) as (now & buf & ts & ? & ?). exists now, buf, ts. set_solver.
  - specialize (IH c1 c' o2 (past ++ [i]) E2 Hq1 s Hs). by rewrite <-app_assoc in IH.
Qed.

(** *** Single steps, for whole exchanges *)

(** The bytes of the beat numbered [s] sent at [now]. *)
Definition beat_bytes (name : string) (key : bytes) (s : Z) (now : time) : bytes :=
  head_of (Packet false s now name) ++ sign key (head_of (Packet false s now name)).

Lemma step_beat name key rep c d now w :
  validName name = true -> waiting c = false -> conn c || d = true ->
  step name key rep c (IBeat d now w)
  = let s := u32 (seq (vs c) + 1) in
    Some (MkClient w true (replies c)
            (Vars s (<[s := now]> (sent (vs c))) (hist (vs c)) (missed (vs c)) (downFrom (vs c)) (lastRTT (vs c))),
          [OSend s (beat_bytes name key s now)]).
Proof.
  intros Hv Hw Hc. cbn [step]. rewrite Hw, Hc. unfold beat. by rewrite encode_layout.
Qed.

Lemma step_datagram name key rep c now buf s ts :
  decode key buf = Ok (Packet true s ts name) -> (length (replies c) < chanCap)%nat ->
  step name key rep c (IDatagram now buf)
  = Some (MkClient (conn c) (waiting c) (replies c ++ [Rep s now]) (vs c), []).
Proof.
  intros H Hl. cbn [step]. unfold for_us.
  pose proof (decode_inv _ _ _ H) as (_ & Hv & Hb). apply validName_spec in Hv as (_ & Hv & _).
  assert (length buf = PacketSz) as Hlen by by rewrite Hb, length_app, length_sign, length_head_of.
  rewrite take_ge, H by (rewrite Hlen; vm_compute; lia). cbn [Reply Name Seq].
  rewrite bool_decide_eq_true_2 by done. cbn [andb]. by rewrite decide_True.
Qed.

Lemma run_cons name key rep c i is_ c1 o1 c2 o2 os :
  step name key rep c i = Some (c1, o1) -> run name key rep c1 is_ = Some (c2, o2) ->
  os = o1 ++ o2 -> run name key rep c (i :: is_) = Some (c2, os).
Proof. intros H1 H2 ->. cbn [run]. rewrite H1. cbn. by rewrite H2. Qed.

Lemma length_outcomes_perm (l l' : list Z) :
  l ≡ₚ l' -> replicate (length l) false = replicate (length l') false.
Proof. by intros ->. Qed.

(** ** Properties *)

(** The report. Over any run of the client, the history is the outcomes of
    the last [window] beats, and the reporter has been told, after each outcome
    in order, exactly the verdict of the history so far: that the path works
    unless the last [missedBeforeWarn] beats or more were all lost, and the
    percentage lost of the last [window], which lies between 0 and 100. *)
Theorem reports_follow_outcomes (name : string) (key : bytes) (c0 c : client)
    (is_ : list input) (os : list output) :
  RunClient name = Some c0 -> run name key true c0 is_ = Some (c, os) ->
  hist (vs c) = last_n window (outcomes os)
  /\ reports os = verdicts [] (outcomes os)
  /\ forall h b, (0 <= snd (verdict (h ++ [b])) <= 100)%Q.
Proof.
  unfold RunClient. intros H0 H. case_match; [| done]. simplify_eq.
  destruct (follows_run _ _ _ _ _ _ _ H []) as [[Hh _] Hr]; [done |].
  split; [done |]. split; [done |]. intros h b. apply loss_bounds.
  intros Hl%(f_equal length). rewrite length_last_n, length_app in Hl.
  unfold window in Hl. cbn [length] in Hl. lia.
Qed.

(** C13: no beat is lost from the accounts. As long as the 32-bit number has not
    wrapped, the beats sent are numbered from one, and each of them is either
    still waited for or has been recorded, exactly once, as answered or lost. *)
Theorem beats_accounted (name : string) (key : bytes) (rep : bool) (c0 c : client)
    (is_ : list input) (os : list output) :
  RunClient name = Some c0 -> run name key rep c0 is_ = Some (c, os) ->
  Z.of_nat (length is_) < 2 ^ 32 ->
  sent_seqs os = seqZ 1 (seq (vs c))
  /\ recorded os ++ waited (vs c) ≡ₚ seqZ 1 (seq (vs c))
  /\ NoDup (recorded os ++ waited (vs c)).
Proof.
  unfold RunClient. intros H0 H Hn. destruct (validName name) eqn:Hv; [| done]. simplify_eq.
  destruct (accounted_run name key rep is_ _ _ _ 0 [] Hv Hn H) as (n & A1 & A2 & A3); [done |].
  cbn in A2, A3. rewrite A1. split; [done |]. split; [done |]. rewrite A3. apply NoDup_seqZ.
Qed.

(** C36: only an authentic reply counts as an answer. A beat is recorded as
    answered only if a datagram received before decodes, under the key, as a
    reply to this client with that beat's number. *)
Theorem answers_authentic (name : string) (key : bytes) (rep : bool) (c0 c : client)
    (is_ : list input) (os : list output) (s : Z) :
  RunClient name = Some c0 -> run name key rep c0 is_ = Some (c, os) ->
  ORecord s true ∈ os ->
  exists now buf ts, IDatagram now buf ∈ is_ /\ decode key buf = Ok (Packet true s ts name).
Proof.
  unfold RunClient. intros H0 H Hs. case_match; [| done]. simplify_eq.
  apply (run_authentic name key rep is_ _ c os [] H); [| done].
  cbn. by intros r ?%elem_of_nil.
Qed.

(** The deadline. Whatever order the table is visited in, the scan records as
    lost exactly the beats, other than the last one, that have waited
    [replyWait], removes them and no other, and leaves the same history, count
    and reports as any other order. *)
Theorem deadline_spec (name : string) (key : bytes) (rep : bool) (c0 c c' : client)
    (is_ : list input) (os os' : list output) (visits visits' : list (Z * time)) :
  RunClient name = Some c0 -> run name key rep c0 is_ = Some (c, os) ->
  step name key rep c (IDeadline visits) = Some (c', os') -> visits' ≡ₚ visits ->
  recorded os' = (filter (fun x => expired (vs c) x = true) visits).*1
  /\ Forall (fun ok => ok = false) (outcomes os')
  /\ (forall s, sent (vs c') !! s = if decide (s ∈ recorded os') then None else sent (vs c) !! s)
  /\ exists c'' os'', step name key rep c (IDeadline visits') = Some (c'', os'')
     /\ sent (vs c'') = sent (vs c') /\ hist (vs c'') = hist (vs c')
     /\ missed (vs c'') = missed (vs c') /\ reports os'' = reports os'.
Proof.
  unfold RunClient. intros H0 H Hs Hp. case_match; [| done]. simplify_eq.
  destruct (follows_run _ _ _ _ _ _ _ H []) as [T _]; [done |]. cbn in T.
  cbn in Hs |- *. destruct (waiting c); [| done]. cbn in Hs |- *.
  case_bool_decide as Hv; [| done].
  rewrite bool_decide_eq_true_2 by by rewrite Hp.
  assert (NoDup visits.*1) as Hnd by (rewrite Hv; apply NoDup_fst_map_to_list).
  assert (NoDup visits'.*1) as Hnd' by by rewrite Hp.
  pose proof (scan_spec rep visits (vs c) Hnd) as S1.
  pose proof (scan_spec rep visits' (vs c) Hnd') as S2.
  pose proof (follows_scan rep visits (vs c) _ T) as [[F1 F2] F3].
  pose proof (follows_scan rep visits' (vs c) _ T) as [[F1' F2'] F3'].
  destruct (scan rep visits (vs c)) as [v1 o1], (scan rep visits' (vs c)) as [v2 o2].
  simplify_eq. cbn [fst snd vs] in *. destruct S1 as (_ & _ & S1 & R1 & O1), S2 as (_ & _ & S2 & R2 & O2).
  assert (lost_by (vs c) visits' ≡ₚ lost_by (vs c) visits) as HP
    by (unfold lost_by; by rewrite Hp).
  assert (outcomes o2 = outcomes os') as HO by (rewrite O1, O2; by apply length_outcomes_perm).
  split; [done |]. split; [rewrite O1; by apply Forall_replicate |].
  split; [by rewrite R1 |].
  eexists _, _. split; [done |]. cbn [vs]. rewrite HO in F1', F2', F3'.
  split; [| by rewrite F1, F1', F2, F2', F3, F3'].
  apply map_eq. intros s. rewrite S1, S2.
  assert (s ∈ lost_by (vs c) visits' <-> s ∈ lost_by (vs c) visits) as Hiff by by rewrite HP.
  repeat case_decide; naive_solver.
Qed.

(** ** Witnesses: a beat answered, a beat lost *)

Definition demo_name : string := "tk-a-web".
Definition demo_key : bytes := chars "k".
Definition demo0 : client := MkClient false false [] vars0.

(** The server's answer to the second beat. *)
Definition demo_answer : bytes :=
  head_of (Packet true 2 (10 * second) demo_name)
  ++ sign demo_key (head_of (Packet true 2 (10 * second) demo_name)).

Definition demo_inputs : list input :=
  [IBeat true 0 true; IDeadline [(1, 10 * second)]; IBeat false (10 * second) true;
   IDatagram (11 * second) demo_answer; IReply].

Definition demo_outputs : list output :=
  [OSend 1 (beat_bytes demo_name demo_key 1 0);
   OSend 2 (beat_bytes demo_name demo_key 2 (10 * second));
   ORecord 2 true; OReport true second (loss [true])].

Definition demo1 : client :=
  MkClient true true [] (Vars 2 (<[1 := 0]> ∅) [true] 0 zero_time second).

Lemma demo_answer_decodes : decode demo_key demo_answer = Ok (Packet true 2 (10 * second) demo_name).
Proof. apply decode_head; [vm_compute; repeat split; congruence | reflexivity]. Qed.

Lemma answered_run : run demo_name demo_key true demo0 demo_inputs = Some (demo1, demo_outputs).
Proof.
  eapply run_cons; [by apply step_beat | | done].
  eapply (run_cons _ _ _ _ _ _ (MkClient true false [] (Vars 1 (<[1 := 0]> ∅) [] 0 zero_time 0)) []);
    [vm_compute; reflexivity | | done].
  eapply run_cons; [by apply step_beat | | done].
  eapply run_cons; [apply (step_datagram _ _ _ _ _ _ _ _ demo_answer_decodes); vm_compute; lia | | done].
  eapply (run_cons _ _ _ _ _ _ demo1 [ORecord 2 true; OReport true second (loss [true])]);
    [vm_compute; reflexivity | done | done].
Qed.

Lemma reports_follow_outcomes_witness :
  RunClient demo_name = Some demo0
  /\ run demo_name demo_key true demo0 demo_inputs = Some (demo1, demo_outputs)
  /\ hist (vs demo1) = last_n window (outcomes demo_outputs)
  /\ reports demo_outputs = verdicts [] (outcomes demo_outputs).
Proof.
  destruct (reports_follow_outcomes demo_name demo_key demo0 demo1 demo_inputs demo_outputs eq_refl answered_run)
    as (H1 & H2 & _).
  exact (conj eq_refl (conj answered_run (conj H1 H2))).
Defined.

Lemma beats_accounted_witness :
  recorded demo_outputs ++ waited (vs demo1) ≡ₚ seqZ 1 (seq (vs demo1)).
Proof.
  refine (proj1 (proj2 (beats_accounted demo_name demo_key true demo0 demo1 demo_inputs demo_outputs
                          eq_refl answered_run _))).
  vm_compute. reflexivity.
Defined.

Lemma answers_authentic_witness :
  exists now buf ts, IDatagram now buf ∈ demo_inputs
    /\ decode demo_key buf = Ok (Packet true 2 ts demo_name).
Proof.
  refine (answers_authentic demo_name demo_key true demo0 demo1 demo_inputs demo_outputs 2 eq_refl answered_run _).
  apply list_elem_of_In. right. right. left. reflexivity.
Defined.

Definition demo_visits : list (Z * time) := [(1, 20 * second)].

Lemma deadline_spec_witness :
  exists c' os',
    step demo_name demo_key true demo1 (IDeadline demo_visits) = Some (c', os')
    /\ recorded os' = [1]
    /\ exists c'' os'', step demo_name demo_key true demo1 (IDeadline demo_visits) = Some (c'', os'')
         /\ sent (vs c'') = sent (vs c') /\ hist (vs c'') = hist (vs c')
         /\ missed (vs c'') = missed (vs c') /\ reports os'' = reports os'.
Proof.
  eexists (MkClient true false [] (Vars 2 ∅ [true; false] 1 zero_time second)),
    [ORecord 1 false; OReport true second (loss [true; false])].
  assert (step demo_name demo_key true demo1 (IDeadline demo_visits)
          = Some (MkClient true false [] (Vars 2 ∅ [true; false] 1 zero_time second),
                  [ORecord 1 false; OReport true second (loss [true; false])])) as E
    by (vm_compute; reflexivity).
  split; [exact E |]. split; [reflexivity |].
  exact (proj2 (proj2 (proj2 (deadline_spec demo_name demo_key true demo0 demo1 _ demo_inputs demo_outputs _
           demo_visits demo_visits eq_refl answered_run E (Permutation_refl _))))).
Defined.
