(* ===== verification/HbLink.v ===== *)
(** * A heartbeat exchange, end to end

    The client of client.go and the server of server.go with the same key: what
    one sends, the other understands. *)

From S2P Require Export HbServer HbClient.

Lemma on_reply_hit rep s t0 t2 v :
  sent v !! s = Some t0 ->
  exists log, on_reply rep (Rep s t2) v
    = (Vars (seq v) (delete s (sent v)) (record true (hist v)) 0 (downFrom v) (sub t2 t0), ORecord s true :: log).
Proof. intros H. unfold on_reply. cbn [r_seq r_at]. rewrite H. eauto. Qed.

Lemma server_answers now s from buf p :
  decode (HbServer.key s) buf = Ok p -> Reply p = false ->
  exists s' es rep, receive now s from buf = (s', es, Some (from, rep))
    /\ decode (HbServer.key s) rep = Ok (Packet true (Seq p) (TS p) (Name p))
    /\ Last s' (Name p) = Some (now, hostOf from).
Proof.
  intros E Hr. unfold receive. rewrite accept_spec, E, Hr, note_spec.
  pose proof (decode_inv _ _ _ E) as (Hwt & Hv & _).
  destruct (reply_to_ok (HbServer.key s) p Hwt Hv) as (rep & Hrep & _ & Hd).
  cbn [HbServer.key set_m]. rewrite Hrep. do 3 eexists. split; [done |]. split; [done |].
  unfold Last. cbn. by rewrite lookup_insert_eq.
Qed.

(** The client sends a beat at [t0], the server receives it at [t1] from [from],
    and the client reads the answer at [t2]. *)
Definition exchange (name from : string) (k : bytes) (rep : bool) (t0 t1 t2 : time) (c : client) (srv : Server)
    : option (client * Server * list output) :=
  match step name k rep c (IBeat false t0 true) with
  | Some (c1, [OSend s b]) =>
      match receive t1 srv from b with
      | (srv', _, Some (_, answer)) =>
          match HbClient.run name k rep c1 [IDatagram t2 answer; IReply] with
          | Some (c2, os) => Some (c2, srv', os)
          | None => None
          end
      | _ => None
      end
  | _ => None
  end.

(** ** Property *)

(** C33: a heartbeat exchange succeeds. When a connected client sends a beat and
    the datagrams are delivered, a server with the same key records the client's
    heartbeat and answers, and the client records that beat as answered, with
    the time between sending and arrival as its round trip, and forgets any beats
    missed before: the two ends agree on the protocol. *)
Theorem beat_answered (name from : string) (k : bytes) (rep : bool) (c : client) (srv : Server)
    (t0 t1 t2 : time) :
  validName name = true -> HbServer.key srv = k -> is_i64 t0 ->
  waiting c = false -> conn c = true -> replies c = [] ->
  let s := u32 (seq (vs c) + 1) in
  exists c2 srv' os,
    exchange name from k rep t0 t1 t2 c srv = Some (c2, srv', os)
    /\ Last srv' name = Some (t1, hostOf from)
    /\ ORecord s true ∈ os /\ lastRTT (vs c2) = sub t2 t0 /\ missed (vs c2) = 0
    /\ sent (vs c2) !! s = None.
Proof.
  intros Hv Hk Ht Hw Hc Hq s. unfold exchange.
  assert (decode k (beat_bytes name k s t0) = Ok (Packet false s t0 name)) as Hd.
  { apply decode_head; [| done]. split; [apply u32_range | done]. }
  rewrite <-Hk in Hd. destruct (server_answers t1 srv from _ _ Hd eq_refl) as (srv' & es & answer & Hr & Ha & Hl).
  cbn [Seq TS Name] in Ha, Hl. rewrite Hk in *.
  pose proof (step_beat name k rep c false t0 true Hv Hw ltac:(by rewrite Hc)) as E. cbv zeta in E. fold s in E.
  rewrite E, Hr. set (v1 := Vars s _ _ _ _ _).
  assert (sent v1 !! s = Some t0) as Hs by apply lookup_insert_eq.
  destruct (on_reply_hit rep s t0 t2 v1 Hs) as [log Ho].
  erewrite run_cons; [| apply (step_datagram _ _ _ _ _ _ _ _ Ha); rewrite Hq; cbn; unfold chanCap; lia | | done].
  2: { eapply run_cons; [cbn [step waiting replies vs]; rewrite Hq; cbn [app]; rewrite Ho; reflexivity | | done].
       reflexivity. }
  do 3 eexists. split; [done |]. split; [done |]. split; [set_solver |].
  split; [done |]. split; [done |]. apply lookup_delete_eq.
Qed.

(** ** Witness *)

Lemma beat_answered_witness :
  exists c2 srv' os,
    exchange "tk-a-web" "10.0.0.9:5000" (chars "k") true 5 6 7 (MkClient true false [] vars0) (with_callbacks "k")
    = Some (c2, srv', os)
    /\ Last srv' "tk-a-web" = Some (6, "10.0.0.9")
    /\ ORecord 1 true ∈ os /\ lastRTT (vs c2) = sub 7 5 /\ missed (vs c2) = 0
    /\ sent (vs c2) !! 1 = None.
Proof.
  refine (beat_answered "tk-a-web" "10.0.0.9:5000" (chars "k") true (MkClient true false [] vars0)
    (with_callbacks "k") 5 6 7 eq_refl eq_refl _ eq_refl eq_refl eq_refl).
  unfold is_i64. lia.
Defined.
