(* ===== verification/Api.v ===== *)
(** * The sampler and the panel's handlers

    Models the rest of src/core/internal/monitor/monitor.go: one tick of Serve's
    background sampler, the rows of /api/status, /api/traffic, /api/uptime,
    /api/probe, /api/speedtest and the root handler that routes a host name to a
    client. A tick or a request is one step at one clock reading ([Sampler] has the
    tick step by step); [Registry.list]
    is any list that it may return, and so is the order a Go map is visited in.
    Queries are given parsed, and the HTTP server and the measuring
    of speed are not modelled. *)

From stdpp Require Import sorting.
From S2P Require Import Attempts Probe Traffic Links Meta Registry.
From S2P Require Export GoTime.

Definition samplePeriod : duration := 5 * second.
Definition gracePeriod : duration := 30 * second.

(** The clients a list of pointers stands for. *)
Definition clients (r : Registry) (l : list ptr) : list Client := omap (fun p => heap r !! p) l.

(** ** The sampler *)

Section sampler.

(** [Registry.sample]: [get p] is what the ports of the client at [p] answer, and
    [now p] the time its sample is taken. *)
Definition sample_all (get : ptr -> Z -> option (string * duration)) (now : ptr -> time)
    (l : list ptr) (r : Registry) : Registry :=
  foldl (fun r p => update r p (fun c => scrape (now p) (get p) c c)) r l.

(** The two loops over the store; [names] are the keys of [store.Seen()]. *)
Definition touch_all (now : time) (t : TrafficStore) (connected : list string) : TrafficStore :=
  foldl (Traffic.Touch now) t connected.

Definition record_all (now startAt : time) (connected : list string) (names : list string)
    (t : TrafficStore) : TrafficStore :=
  let grace := sub now startAt <? gracePeriod in
  foldl (fun t name =>
           let up := bool_decide (name ∈ connected) in
           if negb up && grace then t else Traffic.RecordState now t name up) t names.

(** What a tick does to the store; [order] visits the names seen. *)
Definition sampler_store (now startAt : time) (order : gmap string Z -> list string) (connected : list string)
    (t : TrafficStore) : TrafficStore :=
  let t := touch_all now t connected in record_all now startAt connected (order (Traffic.Seen t)) t.

(** One tick: [l] and [l'] are the two lists taken. *)
Definition sampler_tick (now startAt : time) (get : ptr -> Z -> option (string * duration)) (at_ : ptr -> time)
    (l l' : list ptr) (order : gmap string Z -> list string)
    (r : Registry) (store : option TrafficStore) : Registry * option TrafficStore :=
  let r := sample_all get at_ l r in
  match store with
  | None => (r, None)
  | Some t => (r, Some (sampler_store now startAt order (Name <$> clients r l') t))
  end.
End sampler.

(** ** Rows *)

Record portInfo := PortInfo { pi_port : Z; pi_name : string; pi_url : string }.

Record row := MkRow {
  r_Name : string; r_Title : string; r_PortInfo : list portInfo; r_Connected : bool; r_IP : string;
  r_Ports : list Z; r_Uptime : Q; r_Reconnects : Z; r_Latency : Q; r_Active : Z;
  r_BytesTx : Z; r_BytesRx : Z; r_LastError : string; r_Hist : list sample;
  r_Speedtest : bool; r_LastDown : Q; r_LastUp : Q; r_SpeedHist : list Q;
  r_TrafficToday : Z; r_OfflineSeconds : Q; r_Uptime24h : Q; r_Links : list link;
  r_LastIP : string; r_LastAttemptAgo : option Q; r_LastAttemptError : string;
  r_FailedAttempts : Z; r_Diagnosis : string; r_UDPSecondsAgo : option Q; r_UDPIP : string;
}.

(** [Client.row]; the fields it does not set are their zero values. *)
Definition row_of (now : time) (c : Client) : row :=
  MkRow (Name c) "" [] true (CIP c) (ports c) (seconds (sub now (Since c)))
    (Reconnects (scraped c)) (match last (hist c) with Some s => Latency s | None => 0 end) (active c)
    (tx c) (rx c) (LastError (scraped c)) (hist c)
    (0 <? SpeedtestPort (scraped c)) (lastDown c) (lastUp c) (speedHist c)
    0 0 0 [] "" None "" 0 "" None "".

(** The fields the status handler adds to a connected client's row. *)
Definition with_status (rw : row) (today : Z) (pct : Q) (links : list link) (udp : option Q * string) : row :=
  MkRow (r_Name rw) (r_Title rw) (r_PortInfo rw) (r_Connected rw) (r_IP rw) (r_Ports rw) (r_Uptime rw)
    (r_Reconnects rw) (r_Latency rw) (r_Active rw) (r_BytesTx rw) (r_BytesRx rw) (r_LastError rw) (r_Hist rw)
    (r_Speedtest rw) (r_LastDown rw) (r_LastUp rw) (r_SpeedHist rw)
    today (r_OfflineSeconds rw) pct links (r_LastIP rw) (r_LastAttemptAgo rw) (r_LastAttemptError rw)
    (r_FailedAttempts rw) (r_Diagnosis rw) (fst udp) (snd udp).

Definition with_meta (rw : row) (title : string) (info : list portInfo) : row :=
  MkRow (r_Name rw) title info (r_Connected rw) (r_IP rw) (r_Ports rw) (r_Uptime rw)
    (r_Reconnects rw) (r_Latency rw) (r_Active rw) (r_BytesTx rw) (r_BytesRx rw) (r_LastError rw) (r_Hist rw)
    (r_Speedtest rw) (r_LastDown rw) (r_LastUp rw) (r_SpeedHist rw)
    (r_TrafficToday rw) (r_OfflineSeconds rw) (r_Uptime24h rw) (r_Links rw) (r_LastIP rw)
    (r_LastAttemptAgo rw) (r_LastAttemptError rw) (r_FailedAttempts rw) (r_Diagnosis rw)
    (r_UDPSecondsAgo rw) (r_UDPIP rw).

(** [fmt.Sscanf k "%d" &n] into a [uint32], for a key without leading spaces, as
    the metadata store's are: the leading digits, if their number fits. *)
Fixpoint leading_digits (k : string) : string :=
  match k with
  | String c k' => if is_digit c then String c (leading_digits k') else ""
  | "" => ""
  end.
Definition sscanf_u32 (k : string) : option Z :=
  n ← digits (leading_digits k); if n <? 2 ^ 32 then Some n else None.

Definition info_le (a b : portInfo) : Prop := pi_port a <= pi_port b.
#[export] Instance info_le_dec : RelDecision info_le.
Proof. intros a b. unfold info_le. apply _. Defined.

Section describe.
Context (Parse : string -> option URL) (unicode_lower : Z -> Z).
Context (order : gmap string PortMeta -> list (string * PortMeta)).

Definition meta_get (f : meta_file) (ms : option MetaStore) (name : string) : option MetaStore * ClientMeta :=
  Meta.Get Parse unicode_lower order f ms name.
Definition meta_port (f : meta_file) (ms : option MetaStore) (name : string) (p : Z) : option MetaStore * PortMeta :=
  Meta.Port Parse unicode_lower order f ms name p.

(** The loop over the forwarded ports, from the [i]th lookup on; [file i] is the
    metadata file as the [i]th lookup finds it. *)
Fixpoint describe_ports (file : nat -> meta_file) (i : nat) (name : string) (ps : list Z)
    (ms : option MetaStore) : option MetaStore * list portInfo :=
  match ps with
  | [] => (ms, [])
  | p :: ps' =>
      let '(ms, pm) := meta_port (file i) ms name p in
      let '(ms, infos) := describe_ports file (S i) name ps' ms in
      (ms, PortInfo p (P_Name pm) (P_URL pm) :: infos)
  end.

(** The described ports that are not forwarded. *)
Definition describe_rest (seen : list Z) (ports : list (string * PortMeta)) : list portInfo :=
  omap (fun kp => n ← sscanf_u32 (fst kp);
                  if bool_decide (n ∈ seen) then None
                  else Some (PortInfo n (P_Name (snd kp)) (P_URL (snd kp)))) ports.

Definition describe (file : nat -> meta_file) (ms : option MetaStore) (rw : row) : option MetaStore * row :=
  let '(ms, m) := meta_get (file 0%nat) ms (r_Name rw) in
  let '(ms, infos) := describe_ports file 1 (r_Name rw) (r_Ports rw) ms in
  let infos := infos ++ describe_rest (r_Ports rw) (order (M_Ports m)) in
  (ms, with_meta rw (Title m) (merge_sort info_le infos)).
End describe.

(** [fmt.Sprintf "%.0f"]: the nearest integer, ties to even. *)
Definition round_even (q : Q) : Z :=
  let n := Qnum q / Zpos (Qden q) in
  let r := 2 * (Qnum q mod Zpos (Qden q)) in
  if r <? Zpos (Qden q) then n
  else if Zpos (Qden q) <? r then n + 1
  else if Z.even n then n else n + 1.
Definition fmt0 (q : Q) : string :=
  if Qnum q <? 0 then "-" +:+ itoa (round_even (Qopp q)) else itoa (round_even q).

Definition udpFresh : Q := 35.

Definition no_heartbeat : string :=
  "; no UDP heartbeat from this client (not configured, or none arrived since the server started)".
Definition heartbeat_alive (ago : Q) (ip : string) : string :=
  "; UDP heartbeat is ALIVE (last " +:+ fmt0 ago +:+ "s ago from " +:+ ip
  +:+ "): UDP reaches the server while the TCP tunnel is down".
Definition heartbeat_silent (ago : Q) (ip : string) : string :=
  "; UDP heartbeat also silent for "
  +:+ dur_string (round (i64 (Z.quot (Qnum ago) (Zpos (Qden ago)) * second)) second)
  +:+ " (last from " +:+ ip +:+ "): UDP is not reaching the server either".

Definition q_lt (a b : Q) : bool := Qnum a * Zpos (Qden b) <? Qnum b * Zpos (Qden a).

Definition udpDiagnosis (ago : option Q) (ip : string) : string :=
  match ago with
  | None => no_heartbeat
  | Some a => if q_lt a udpFresh then heartbeat_alive a ip else heartbeat_silent a ip
  end.

(** ** /api/status *)

Section status.
Context (Parse : string -> option URL) (unicode_lower : Z -> Z).
Context (order : gmap string PortMeta -> list (string * PortMeta)).
Context (offset : time -> Z).

(** What a request reads. [hbs] is what the heartbeat source answers. *)
Record view := View {
  v_now : time; v_reg : Registry; v_list : list ptr; v_store : option TrafficStore;
  v_links : LinkConfig; v_hb : string -> option (time * string);
  v_seen : gmap string Z -> list (string * Z);
  v_file : string -> nat -> meta_file;
}.

Definition known_names (v : view) : list string :=
  let names := Name <$> clients (v_reg v) (v_list v) in
  let seen := match v_store v with Some t => fst <$> v_seen v (Traffic.Seen t) | None => [] end in
  merge_sort String.le (remove_dups (names ++ seen)).

Definition online_row (v : view) (c : Client) : row :=
  let r := row_of (v_now v) c in
  with_status r
    (match v_store v with Some t => todayTotal offset (v_now v) t (Name c) | None => 0 end)
    (match v_store v with Some t => uptimePct (v_now v) t (Name c) 86400 | None => -1 end)
    (linksFor unicode_lower (v_links v) (Name c) (known_names v))
    (heartbeat (v_now v) (v_reg v) (v_hb v) (Name c)).

Definition offline_row (v : view) (t : TrafficStore) (name : string) (lastSeen : Z) : row :=
  let off := unix (v_now v) - lastSeen in
  let ip := LastIP (v_reg v) name in
  let d := Diagnose (v_now v) (att (v_reg v)) ip lastSeen in
  let udp := heartbeat (v_now v) (v_reg v) (v_hb v) name in
  MkRow name "" [] false "" [] 0 0 0 0 0 0 "" [] false 0 0 []
    (todayTotal offset (v_now v) t name) (inject_Z (if off <? 0 then 0 else off))
    (uptimePct (v_now v) t name 86400)
    (linksFor unicode_lower (v_links v) name (known_names v))
    ip (if q_lt (d_ago d) 0 then None else Some (d_ago d)) (d_err d) (d_fails d)
    (d_text d +:+ udpDiagnosis (fst udp) (snd udp)) (fst udp) (snd udp).

(** Describe rows one after another. *)
Fixpoint describe_all (v : view) (rows : list row) (ms : option MetaStore) : option MetaStore * list row :=
  match rows with
  | [] => (ms, [])
  | r :: rows' =>
      let '(ms, r) := describe Parse unicode_lower order (v_file v (r_Name r)) ms r in
      let '(ms, rs) := describe_all v rows' ms in
      (ms, r :: rs)
  end.

Definition online_rows (v : view) : list row := online_row v <$> clients (v_reg v) (v_list v).
Definition offline_rows (v : view) : list row :=
  match v_store v with
  | None => []
  | Some t =>
      let connected := Name <$> clients (v_reg v) (v_list v) in
      omap (fun x => if bool_decide (fst x ∈ connected) then None else Some (offline_row v t (fst x) (snd x)))
        (v_seen v (Traffic.Seen t))
  end.

(** The clients of the answer, and its failed handshakes. *)
Definition api_status (v : view) (ms : option MetaStore) : option MetaStore * list row * list Attempt :=
  let '(ms, rows) := describe_all v (online_rows v ++ offline_rows v) ms in
  (ms, rows, Recent (att (v_reg v)) 20).
End status.

(** ** /api/traffic and /api/uptime *)

(** An answer: a status code and a message, or what goes on. *)
Inductive answer (A : Type) :=
| Refuse (code : Z) (msg : string)
| Answer (a : A).
Arguments Refuse {A} _ _.
Arguments Answer {A} _.

Definition api_traffic (store : option TrafficStore) (client : string) : answer (list portRow * list dayRow) :=
  match store with
  | None => Refuse 404 "no store"
  | Some t => Answer (breakdown t client)
  end.

Definition api_uptime (now : time) (store : option TrafficStore) (client : string)
    : answer (string * Z * list upEvent) :=
  match store with
  | None => Refuse 404 "no store"
  | Some t => Answer (client, unix now, uptimeSeries t client)
  end.

(** ** /api/probe *)

(** The handler up to the probe: the gate, the metadata store, and the address
    and URL to probe. *)
Definition api_probe (get : option MetaStore -> string -> Z -> option MetaStore * PortMeta)
    (now : time) (r : Registry) (l : list ptr) (g : probeGate) (ms : option MetaStore)
    (client port : string) : probeGate * option MetaStore * answer (string * string) :=
  match p ← byName r l client; heap r !! p with
  | None => (g, ms, Refuse 404 "client not connected")
  | Some c =>
      match atoi port with
      | None => (g, ms, Refuse 400 "bad port")
      | Some n =>
          if negb (bool_decide (n ∈ ports c))
          then (g, ms, Refuse 400 "that port is not forwarded by this client")
          else
            let '(g, ok) := allow now g (client +:+ ":" +:+ itoa n) in
            if negb ok then (g, ms, Refuse 429 "probed too recently, wait a second")
            else
              let '(ms, pm) := get ms client n in
              (g, ms, Answer ("127.0.0.1:" +:+ itoa n, P_URL pm))
      end
  end.

(** ** /api/speedtest *)

(** The handler before the measurement: the client and the address to measure. *)
Definition api_speedtest (r : Registry) (l : list ptr) (client : string) : answer (ptr * string) :=
  match p ← byName r l client; c ← heap r !! p; Some (p, c) with
  | None => Refuse 404 "client not found"
  | Some (p, c) =>
      let port := SpeedtestPort (scraped c) in
      if port =? 0 then Refuse 400 "client does not expose speedtest"
      else Answer (p, "127.0.0.1:" +:+ itoa port)
  end.

(** After it: the result is kept. *)
Definition speed_store (down up : Q) (c : Client) : Client :=
  let h := speedHist c ++ [down] in
  set_speed c down up (if decide (30 < length h)%nat then last_n 30 h else h).

Definition speedtest_done (r : Registry) (p : ptr) (res : Q * Q + string) : Registry * answer (Q * Q) :=
  match res with
  | inr err => (r, Refuse 502 err)
  | inl (down, up) => (update r p (speed_store down up), Answer (down, up))
  end.

(** ** The root handler *)

Inductive route :=
| Proxy (target : string)
| NoService
| Panel.

#[export] Instance route_eq_dec : EqDecision route.
Proof. solve_decision. Defined.

Definition host_label (host : string) : string :=
  let host := match split_host_port host with Some (h, _) => h | None => host end in
  match index_byte "." (chars host) with
  | Some i => of_chars (take i (chars host))
  | None => host
  end.

Section root.
Context (unicode_lower : Z -> Z).

Fixpoint find_host (lc : LinkConfig) (label : string) (cs : list Client) : option Client :=
  match cs with
  | [] => None
  | c :: cs' => if bool_decide (mainHost unicode_lower lc (Name c) = label) then Some c else find_host lc label cs'
  end.

Definition root (lc : LinkConfig) (cs : list Client) (host : string) : route :=
  let label := host_label host in
  if negb (bool_decide (label = "")) && negb (bool_decide (Templates lc = ∅)) then
    match find_host lc label cs with
    | Some c => let port := mainPort c in
                if port =? 0 then NoService else Proxy ("127.0.0.1:" +:+ itoa port)
    | None => Panel
    end
  else Panel.
End root.

(** ** The sampler's effect *)

(** A client's record with its state recorded now, and with its presence. *)
Definition mark (now : time) (up : bool) (c : ct) : ct :=
  match last (Up c) with
  | Some e => if bool_decide (U e = up) then c else Ct (Traffic.Ports c) (Days c) (LastSeen c) (Up c ++ [UpEvent (unix now) up])
  | None => Ct (Traffic.Ports c) (Days c) (LastSeen c) (Up c ++ [UpEvent (unix now) up])
  end.
Definition touched (now : time) (c : ct) : ct := Ct (Traffic.Ports c) (Days c) (unix now) (Up c).

(** What a tick makes of the record of one name. *)
Definition marked (now : time) (grace : bool) (connected : list string) (t : TrafficStore) (n : string) : option ct :=
  if decide (n = "") then Traffic.m t !! n
  else if decide (n ∈ connected) then Some (mark now true (touched now (client_of t n)))
  else (fun c => if grace then c else mark now false c) <$> Traffic.m t !! n.

Lemma RecordState_lookup now t name up n :
  Traffic.m (Traffic.RecordState now t name up) !! n =
    if decide (n = name /\ name <> "") then Some (mark now up (client_of t name)) else Traffic.m t !! n.
Proof.
  unfold Traffic.RecordState. case_bool_decide as Hn.
  { rewrite decide_False by naive_solver. done. }
  assert (Traffic.m match last (Up (client_of t name)) with
      | Some e => if bool_decide (U e = up) then Traffic.put t name (client_of t name) (Traffic.dirty t)
                  else Traffic.put t name (Ct (Traffic.Ports (client_of t name)) (Days (client_of t name)) (LastSeen (client_of t name)) (Up (client_of t name) ++ [UpEvent (unix now) up])) true
      | None => Traffic.put t name (Ct (Traffic.Ports (client_of t name)) (Days (client_of t name)) (LastSeen (client_of t name)) (Up (client_of t name) ++ [UpEvent (unix now) up])) true
      end = <[name := mark now up (client_of t name)]> (Traffic.m t)) as ->.
  { unfold mark, put. destruct (last _); [destruct (bool_decide _) |]; done. }
  destruct (decide (n = name)) as [-> | Hne].
  - by rewrite lookup_insert_eq, decide_True.
  - by rewrite lookup_insert_ne, decide_False by naive_solver.
Qed.

Lemma Touch_lookup now t name n :
  Traffic.m (Traffic.Touch now t name) !! n =
    if decide (n = name /\ name <> "") then Some (touched now (client_of t name)) else Traffic.m t !! n.
Proof.
  unfold Traffic.Touch. case_bool_decide as Hn; [by rewrite decide_False by naive_solver |].
  cbn [put Traffic.m]. destruct (decide (n = name)) as [-> | Hne].
  - by rewrite lookup_insert_eq, decide_True.
  - by rewrite lookup_insert_ne, decide_False by naive_solver.
Qed.

Lemma touch_all_lookup now t connected n :
  Traffic.m (touch_all now t connected) !! n =
    if decide (n ∈ connected /\ n <> "") then Some (touched now (client_of t n)) else Traffic.m t !! n.
Proof.
  unfold touch_all. induction connected as [| k l IH] using rev_ind.
  { rewrite decide_False; [done |]. by intros [[]%elem_of_nil _]. }
  rewrite foldl_snoc, Touch_lookup. unfold client_of in *. destruct (decide (n = k /\ k <> "")) as [[-> Hk] | H].
  - rewrite decide_True by set_solver. rewrite IH. by destruct (decide _).
  - rewrite IH. destruct (decide (n ∈ l /\ n <> "")) as [H1 | H1].
    + rewrite decide_True; [done | set_solver].
    + rewrite decide_False; [done | set_solver].
Qed.

Lemma record_all_lookup now startAt connected names t n :
  NoDup names ->
  Traffic.m (record_all now startAt connected names t) !! n =
    if decide (n ∈ names /\ n <> "") then
      let up := bool_decide (n ∈ connected) in
      if negb up && (sub now startAt <? gracePeriod) then Traffic.m t !! n else Some (mark now up (client_of t n))
    else Traffic.m t !! n.
Proof.
  intros Hnd. revert t. induction Hnd as [| k names Hk Hnd IH]; intros t.
  { cbn. rewrite decide_False; [done |]. by intros [[]%elem_of_nil _]. }
  unfold record_all in *. cbn [foldl]. rewrite IH.
  set (g := sub now startAt <? gracePeriod).
  assert (forall t0, Traffic.m (if negb (bool_decide (k ∈ connected)) && g then t0 else Traffic.RecordState now t0 k (bool_decide (k ∈ connected))) !! n
     = if decide (n = k /\ k <> "") then (if negb (bool_decide (k ∈ connected)) && g then Traffic.m t0 !! n else Some (mark now (bool_decide (k ∈ connected)) (client_of t0 k))) else Traffic.m t0 !! n) as H1.
  { intros t0. destruct (negb _ && g); [by destruct (decide (n = k /\ k <> "")) | apply RecordState_lookup]. }
  unfold client_of in *. rewrite !H1. destruct (decide (n = k /\ k <> "")) as [[-> Hne] | H2].
  - rewrite decide_False by naive_solver. by rewrite decide_True by set_solver.
  - destruct (decide (n ∈ names /\ n <> "")) as [H3 | H3].
    + by rewrite decide_True by set_solver.
    + rewrite decide_False; [done | set_solver].
Qed.

Lemma mark_last now up c : exists e, last (Up (mark now up c)) = Some e /\ U e = up.
Proof.
  unfold mark. destruct (last (Up c)) as [e |] eqn:E; [case_bool_decide as H; [eauto |] |];
    eexists; (split; [apply last_snoc | done]).
Qed.

Lemma sampler_store_lookup now startAt order connected t n :
  (forall s, order s ≡ₚ (map_to_list s).*1) ->
  Traffic.m (sampler_store now startAt order connected t) !! n
  = marked now (sub now startAt <? gracePeriod) connected t n.
Proof.
  intros Horder. set (grace := sub now startAt <? gracePeriod). unfold sampler_store.
  rewrite record_all_lookup.
  2: { rewrite Horder. apply NoDup_fst_map_to_list. }
  unfold client_of at 1. rewrite !touch_all_lookup. unfold marked. fold grace.
  assert (n ∈ order (Seen (touch_all now t connected)) <-> is_Some (Traffic.m (touch_all now t connected) !! n)) as Hin.
  { rewrite Horder, list_elem_of_fmap. unfold Seen. split.
    - intros ([k s] & -> & H%elem_of_map_to_list). rewrite lookup_fmap_Some in H. destruct H as (c & _ & H). eauto.
    - intros [c Hc]. exists (n, LastSeen c). split; [done |]. apply elem_of_map_to_list. by rewrite lookup_fmap, Hc. }
  rewrite touch_all_lookup in Hin.
  destruct (decide (n = "")) as [-> | Hn].
  { rewrite !decide_False by tauto. done. }
  destruct (decide (n ∈ connected)) as [Hc | Hc].
  - rewrite (decide_True (P := n ∈ connected /\ n <> "")) in Hin |- * by done.
    rewrite decide_True by naive_solver. by rewrite bool_decide_true.
  - rewrite (decide_False (P := n ∈ connected /\ n <> "")) in Hin |- * by tauto.
    rewrite bool_decide_false by done. cbn [negb andb].
    destruct (Traffic.m t !! n) as [c |] eqn:E; cbn.
    + rewrite decide_True by naive_solver. by destruct grace.
    + rewrite decide_False; [done |]. intros [[? ?]%Hin _]. done.
Qed.

(** ** Properties *)

(** One tick of the sampler brings the store up to date with the registry,
    whatever order the names are visited in. A connected client is seen now and
    recorded up; a known client that is not connected is recorded down, but not
    in the first thirty seconds of the server; an event is added only when the
    state changes, and nothing else changes. So outside the grace period the
    last state recorded of every known client is whether it is connected. *)
Theorem sampler_marks (now startAt : time)
    (get : ptr -> Z -> option (string * duration)) (at_ : ptr -> time) (l l' : list ptr)
    (order : gmap string Z -> list string) (r r' : Registry) (t : TrafficStore) (store' : option TrafficStore)
    (Horder : forall s, order s ≡ₚ (map_to_list s).*1)
    (Htick : sampler_tick now startAt get at_ l l' order r (Some t) = (r', store')) :
  let connected := Name <$> clients r' l' in
  let grace := sub now startAt <? gracePeriod in
  exists t', store' = Some t'
  /\ (forall n, Traffic.m t' !! n = marked now grace connected t n)
  /\ (grace = false -> forall n c, n <> "" -> Traffic.m t' !! n = Some c ->
        exists e, last (Up c) = Some e /\ U e = bool_decide (n ∈ connected)).
Proof.
  unfold sampler_tick in Htick. injection Htick as <- <-. intros connected grace.
  eexists. split; [done |].
  assert (forall n, Traffic.m (sampler_store now startAt order connected t) !! n = marked now grace connected t n) as Hm
    by (intros n; by apply sampler_store_lookup).
  split; [exact Hm |]. intros Hg n c Hn Hc. rewrite Hm in Hc. unfold marked in Hc.
  rewrite decide_False in Hc by done. destruct (decide (n ∈ connected)) as [Hi | Hi].
  - injection Hc as <-. rewrite bool_decide_true by done. apply mark_last.
  - rewrite Hg in Hc. destruct (Traffic.m t !! n); [| done]. injection Hc as <-.
    rewrite bool_decide_false by done. apply mark_last.
Qed.

(** ** Rows *)

Lemma leading_digits_all s : Forall (fun c => is_digit c = true) (chars s) -> leading_digits s = s.
Proof.
  induction s as [| c s IH]; [done |]. cbn [chars String.list_ascii_of_string]. intros [Hc Hs]%Forall_cons_1.
  cbn. by rewrite Hc, IH.
Qed.

Lemma sscanf_itoa n : 0 <= n < 2 ^ 32 -> sscanf_u32 (itoa n) = Some n.
Proof.
  intros Hn. unfold sscanf_u32. rewrite leading_digits_all by (apply itoa_digits; lia).
  rewrite digits_itoa by lia. cbn. by rewrite (proj2 (Z.ltb_lt n (2 ^ 32))) by lia.
Qed.

Lemma itoa_inj a b : 0 <= a -> 0 <= b -> itoa a = itoa b -> a = b.
Proof. intros Ha Hb H. apply (f_equal digits) in H. rewrite !digits_itoa in H by done. by injection H. Qed.

Section describe_laws.
Context (Parse : string -> option URL) (unicode_lower : Z -> Z).
Context (order : gmap string PortMeta -> list (string * PortMeta)).
Context (Horder : forall m, order m ≡ₚ map_to_list m).

Lemma describe_ports_ports file i name ps ms :
  pi_port <$> snd (describe_ports Parse unicode_lower order file i name ps ms) = ps.
Proof.
  revert i ms. induction ps as [| p ps IH]; intros i ms; [done |]. cbn [describe_ports].
  destruct (meta_port _ _ _ _ _ _ _) as [ms1 pm]. specialize (IH (S i) ms1).
  destruct (describe_ports _ _ _ _ _ _ _ _) as [ms2 infos]. cbn in *. by rewrite IH.
Qed.

(** The described ports that are not forwarded, of clean metadata. *)
Lemma describe_rest_spec seen c n nm u :
  clean Parse unicode_lower c ->
  PortInfo n nm u ∈ describe_rest seen (order (M_Ports c))
  <-> 0 <= n /\ n ∉ seen /\ M_Ports c !! itoa n = Some (MkPort nm u).
Proof.
  intros [_ Hc]. unfold describe_rest. rewrite list_elem_of_omap. split.
  - intros ([k p] & Hk & He). rewrite Horder in Hk. apply elem_of_map_to_list in Hk.
    destruct (Hc _ _ Hk) as ((x & Hx & Hkx) & _). cbn in Hkx. subst k. cbn [fst snd] in He.
    rewrite sscanf_itoa in He by lia. cbn in He. case_bool_decide as Hs; [done |].
    injection He as <- <- <-. split; [lia |]. split; [done |]. by destruct p.
  - intros (Hn & Hs & Hk). exists (itoa n, MkPort nm u). split; [rewrite Horder; by apply elem_of_map_to_list |].
    destruct (Hc _ _ Hk) as ((x & Hx & Hkx) & _). cbn in Hkx. apply itoa_inj in Hkx; [| lia..]. subst x.
    cbn [fst snd]. rewrite sscanf_itoa by lia. cbn. by rewrite bool_decide_false.
Qed.

Lemma describe_rest_nodup seen c :
  clean Parse unicode_lower c -> NoDup (pi_port <$> describe_rest seen (order (M_Ports c))).
Proof.
  intros Hc. assert (NoDup (order (M_Ports c)).*1) as Hnd by (rewrite Horder; apply NoDup_fst_map_to_list).
  assert (forall kp, kp ∈ order (M_Ports c) -> exists n, 0 <= n < 2 ^ 32 /\ fst kp = itoa n) as Hk.
  { intros [k p] H. rewrite Horder in H. apply elem_of_map_to_list in H.
    destruct Hc as [_ Hc]. destruct (Hc _ _ H) as ((x & Hx & Hkx) & _). exists x. split; [lia | done]. }
  induction (order (M_Ports c)) as [| [k p] l IH]; [constructor |].
  cbn [fmap list_fmap fst] in Hnd. apply NoDup_cons in Hnd as [Hnk Hnd].
  specialize (IH Hnd (fun kp H => Hk kp (list_elem_of_further _ _ _ H))).
  destruct (Hk (k, p) (list_elem_of_here _ _)) as (n & Hn & He). cbn in He. subst k.
  unfold describe_rest in *. cbn [omap list_omap fst snd]. rewrite sscanf_itoa by done. cbn [mbind option_bind].
  case_bool_decide as Hs; [exact IH |]. cbn [fmap list_fmap]. apply NoDup_cons. split; [| exact IH].
  cbn [pi_port]. intros (i & Hi & Hin)%list_elem_of_fmap. apply list_elem_of_omap in Hin as ([k' p'] & Hl & Hb).
  destruct (Hk (k', p') (list_elem_of_further _ _ _ Hl)) as (n' & Hn' & He'). cbn in He'. subst k'.
  cbn [fst snd] in Hb. rewrite sscanf_itoa in Hb by done. cbn in Hb. case_bool_decide; [done |]. injection Hb as <-.
  cbn in Hi. subst n'. apply Hnk, list_elem_of_fmap. by exists (itoa n, p').
Qed.
End describe_laws.

(** The ports of a row. After describing it, a row lists its ports in
    ascending order: each forwarded port as often as it is forwarded, and,
    once, each other port that the metadata of the client describes, with the
    name and URL given there; the order the ports are visited in does not matter. *)
Theorem describe_spec (Parse : string -> option URL) (unicode_lower : Z -> Z)
    (order : gmap string PortMeta -> list (string * PortMeta))
    (path : string) (fs : list meta_file) (file : nat -> meta_file) (rw : row)
    (Horder : forall m, order m ≡ₚ map_to_list m) :
  let ms := Some (Meta.after Parse unicode_lower order fs (NewMetaStore path)) in
  let c := snd (meta_get Parse unicode_lower order (file 0%nat) ms (r_Name rw)) in
  let rw' := snd (describe Parse unicode_lower order file ms rw) in
  r_Title rw' = Title c
  /\ Sorted info_le (r_PortInfo rw')
  /\ exists fwd rest, r_PortInfo rw' ≡ₚ fwd ++ rest
     /\ pi_port <$> fwd = r_Ports rw
     /\ NoDup (pi_port <$> rest)
     /\ forall n nm u, PortInfo n nm u ∈ rest <->
          0 <= n /\ n ∉ r_Ports rw /\ M_Ports c !! itoa n = Some (MkPort nm u).
Proof.
  intros ms c rw'. subst rw'. unfold describe. subst c.
  pose proof (get_clean Parse unicode_lower order path (r_Name rw) fs (file 0%nat)) as Hc.
  change (Meta.Get Parse unicode_lower order) with (meta_get Parse unicode_lower order) in Hc.
  fold ms in Hc. destruct (meta_get _ _ _ (file 0%nat) ms (r_Name rw)) as [ms1 c]. cbn [snd] in *.
  pose proof (describe_ports_ports Parse unicode_lower order file 1 (r_Name rw) (r_Ports rw) ms1) as Hf.
  destruct (describe_ports _ _ _ _ _ _ _ _) as [ms2 infos]. cbn [snd] in *.
  split; [done |]. split; [apply Sorted_merge_sort; intros a b; unfold info_le; lia |].
  exists infos, (describe_rest (r_Ports rw) (order (M_Ports c))). cbn [with_meta r_PortInfo].
  split; [apply merge_sort_Permutation |]. split; [done |].
  split; [by apply (describe_rest_nodup Parse unicode_lower) |].
  intros n nm u. by apply (describe_rest_spec Parse unicode_lower).
Qed.

(** ** The status answer *)

Lemma describe_all_rows Parse lower order v rows ms :
  let out := snd (describe_all Parse lower order v rows ms) in
  Forall2 (fun r r' => exists title info, r' = with_meta r title info) rows out.
Proof.
  revert ms. induction rows as [| r rows IH]; intros ms; [constructor |]. cbn [describe_all].
  destruct (describe _ _ _ _ _ _) as [ms1 r1] eqn:E. specialize (IH ms1). cbn in IH.
  destruct (describe_all _ _ _ _ _ _) as [ms2 rs]. cbn [snd] in *. constructor; [| done].
  unfold describe in E. destruct (meta_get _ _ _ _ _ _). destruct (describe_ports _ _ _ _ _ _ _ _).
  injection E as _ <-. eauto.
Qed.

Lemma offline_rows_spec lower offset v t rw :
  v_store v = Some t -> v_seen v (Traffic.Seen t) ≡ₚ map_to_list (Traffic.Seen t) ->
  rw ∈ offline_rows lower offset v <->
  exists n c, Traffic.m t !! n = Some c /\ n ∉ Name <$> clients (v_reg v) (v_list v)
    /\ rw = offline_row lower offset v t n (LastSeen c).
Proof.
  intros Ht Hs. unfold offline_rows. rewrite Ht, list_elem_of_omap. split.
  - intros ([n s] & Hin & Hr). cbn [fst snd] in Hr. case_bool_decide as Hc; [done |]. injection Hr as <-.
    rewrite Hs in Hin. apply elem_of_map_to_list in Hin. unfold Seen in Hin.
    rewrite lookup_fmap_Some in Hin. destruct Hin as (c & <- & Hin). eauto.
  - intros (n & c & Hn & Hc & ->). exists (n, LastSeen c). cbn [fst snd]. rewrite bool_decide_false by done.
    split; [| done]. rewrite Hs. apply elem_of_map_to_list. unfold Seen. by rewrite lookup_fmap, Hn.
Qed.

Lemma offline_names_nodup lower offset v t :
  v_store v = Some t -> v_seen v (Traffic.Seen t) ≡ₚ map_to_list (Traffic.Seen t) ->
  NoDup (r_Name <$> offline_rows lower offset v).
Proof.
  intros Ht Hs. unfold offline_rows. rewrite Ht.
  assert (NoDup (v_seen v (Traffic.Seen t)).*1) as Hnd by (rewrite Hs; apply NoDup_fst_map_to_list). clear Hs.
  induction (v_seen v (Traffic.Seen t)) as [| [n s] l IH]; [constructor |].
  cbn [fmap list_fmap fst] in Hnd. apply NoDup_cons in Hnd as [Hn Hnd]. specialize (IH Hnd).
  cbn [omap list_omap fst snd]. case_bool_decide as Hc; [exact IH |].
  cbn [fmap list_fmap]. apply NoDup_cons. split; [| exact IH]. cbn [offline_row r_Name].
  intros (rw & Hrw & Hin)%list_elem_of_fmap. apply list_elem_of_omap in Hin as ([n' s'] & Hl & Hr).
  cbn [fst snd] in Hr. case_bool_decide; [done |]. injection Hr as <-. cbn in Hrw. subst n'.
  apply Hn, list_elem_of_fmap. by exists (n, s').
Qed.

(** C35: the status answer shows every known client. First come the rows of the
    registered sessions, in the registry's order, marked connected; then, once
    each, the clients of the store that are not connected, marked offline, for
    as long as they have not been seen and never for less than nothing. *)
Theorem status_complete (Parse : string -> option URL) (lower : Z -> Z)
    (order : gmap string PortMeta -> list (string * PortMeta))
    (offset : time -> Z) (v : view) (t : TrafficStore) (ms : option MetaStore)
    (Hstore : v_store v = Some t) (Hseen : v_seen v (Traffic.Seen t) ≡ₚ map_to_list (Traffic.Seen t)) :
  let connected := Name <$> clients (v_reg v) (v_list v) in
  exists on off, snd (fst (api_status Parse lower order offset v ms)) = on ++ off
  /\ r_Name <$> on = connected /\ Forall (fun r => r_Connected r = true) on
  /\ Forall (fun r => r_Connected r = false) off
  /\ NoDup (r_Name <$> off)
  /\ (forall n, n ∈ r_Name <$> off <-> is_Some (Traffic.m t !! n) /\ n ∉ connected)
  /\ (forall rw c, rw ∈ off -> Traffic.m t !! r_Name rw = Some c ->
        r_OfflineSeconds rw = inject_Z (Z.max 0 (unix (v_now v) - LastSeen c))).
Proof.
  intros connected. unfold api_status.
  pose proof (describe_all_rows Parse lower order v (online_rows lower offset v ++ offline_rows lower offset v) ms) as H.
  destruct (describe_all _ _ _ _ _ _) as [ms' rows]. cbn [fst snd] in *.
  apply Forall2_app_inv_l in H as (on & off & Hon & Hoff & ->). exists on, off. split; [done |].
  assert (r_Name <$> on = r_Name <$> online_rows lower offset v) as ->.
  { clear -Hon. induction Hon as [| r r' l l' (? & ? & ->) _ IH]; [done |]. cbn. by rewrite IH. }
  assert (r_Name <$> off = r_Name <$> offline_rows lower offset v) as Hn.
  { clear -Hoff. induction Hoff as [| r r' l l' (? & ? & ->) _ IH]; [done |]. cbn. by rewrite IH. }
  assert (forall rw, rw ∈ off -> exists n c title info, Traffic.m t !! n = Some c /\ n ∉ connected
            /\ rw = with_meta (offline_row lower offset v t n (LastSeen c)) title info) as Ho.
  { intros rw Hrw. apply list_elem_of_lookup in Hrw as [i Hi].
    destruct (Forall2_lookup_r _ _ _ _ _ Hoff Hi) as (r0 & Hr0 & title & info & ->).
    apply list_elem_of_lookup_2, (offline_rows_spec lower offset v t) in Hr0 as (n & c & Hc & Hnc & ->); [| done..].
    eauto 10. }
  split; [unfold online_rows; rewrite <- list_fmap_compose; by apply list_fmap_ext |].
  split. { eapply Forall2_Forall_r; [exact Hon |]. apply Forall_forall. intros r Hr r' (? & ? & ->).
           apply list_elem_of_fmap in Hr as (c & -> & _). done. }
  split. { apply Forall_forall. intros rw (n & c & title & info & _ & _ & ->)%Ho. done. }
  rewrite Hn. split; [by apply (offline_names_nodup lower offset v t) |]. split.
  - intros n. rewrite list_elem_of_fmap. split.
    + intros (rw & -> & Hrw). apply (offline_rows_spec lower offset v t) in Hrw as (n & c & Hc & Hnc & ->); [| done..].
      cbn. eauto.
    + intros [[c Hc] Hnc]. exists (offline_row lower offset v t n (LastSeen c)). split; [done |].
      apply (offline_rows_spec lower offset v t); eauto.
  - intros rw c (n & c' & title & info & Hc' & _ & ->)%Ho Hc. cbn in Hc. rewrite Hc in Hc'. injection Hc' as <-.
    cbn [with_meta offline_row r_OfflineSeconds]. f_equal.
    destruct (Z.ltb_spec (unix (v_now v) - LastSeen c) 0); lia.
Qed.

(** ** The handlers *)

Lemma byName_name r l name p : byName r l name = Some p -> p ∈ l /\ exists c, heap r !! p = Some c /\ Name c = name.
Proof.
  induction l as [| q l IH]; [done |]. cbn. destruct (heap r !! q) as [c |] eqn:E.
  - case_bool_decide as H; [intros [= <-]; split; [set_solver | eauto] |]. intros [? ?]%IH. split; [set_solver | done].
  - intros [? ?]%IH. split; [set_solver | done].
Qed.

(** A probe is sent only to a port that the named client has listed, through
    the loopback address, with the URL its metadata gives, and only when the
    gate allows it; a request that is refused for any reason before the gate
    leaves the gate and the metadata alone. *)
Theorem probe_confined (get : option MetaStore -> string -> Z -> option MetaStore * PortMeta)
    (now : time) (r : Registry) (l : list ptr) (g g' : probeGate) (ms ms' : option MetaStore)
    (client port : string) (ans : answer (string * string))
    (Hcall : api_probe get now r l g ms client port = (g', ms', ans)) :
  match ans with
  | Answer (addr, url) =>
      exists p c n, p ∈ l /\ heap r !! p = Some c /\ Name c = client /\ atoi port = Some n /\ n ∈ ports c
        /\ addr = "127.0.0.1:" +:+ itoa n
        /\ allow now g (client +:+ ":" +:+ itoa n) = (g', true)
        /\ get ms client n = (ms', snd (get ms client n)) /\ url = P_URL (snd (get ms client n))
  | Refuse _ _ => g' = g /\ ms' = ms
  end.
Proof.
  unfold api_probe in Hcall. destruct (byName r l client) as [p |] eqn:Ep; cbn in Hcall; [| by injection Hcall as <- <- <-].
  apply byName_name in Ep as (Hp & c & Hc & Hn). rewrite Hc in Hcall.
  destruct (atoi port) as [n |]; [| by injection Hcall as <- <- <-].
  case_bool_decide as Hf; cbn in Hcall; [| by injection Hcall as <- <- <-].
  destruct (allow now g _) as [g1 ok] eqn:Ea. destruct ok; cbn in Hcall.
  - destruct (get ms client n) as [ms1 pm] eqn:Eg. injection Hcall as <- <- <-.
    exists p, c, n. by rewrite Eg.
  - injection Hcall as <- <- <-. split; [| done]. unfold allow in Ea. destruct (too_soon _ _ _); by injection Ea.
Qed.

Lemma mainPort_in c : mainPort c <> 0 -> mainPort c ∈ ports c.
Proof.
  unfold mainPort. enough (forall l acc, foldl (fun mp p => if (mp =? 0) || (p <? mp) then p else mp) acc l = acc
    \/ foldl (fun mp p => if (mp =? 0) || (p <? mp) then p else mp) acc l ∈ l) as H by by destruct (H (ports c) 0).
  induction l as [| p l IH]; intros acc; [by left |]. cbn.
  destruct ((acc =? 0) || (p <? acc)); [destruct (IH p) as [-> | ?] | destruct (IH acc) as [-> | ?]]; set_solver.
Qed.

Lemma find_host_in lower lc label cs c : find_host lower lc label cs = Some c -> c ∈ cs.
Proof. induction cs as [| c' cs IH]; [done |]. cbn. case_bool_decide; [intros [= <-] |]; set_solver. Qed.

Lemma mainPort_spec c : Forall (fun p => 0 < p) (ports c) ->
  (mainPort c = 0 /\ ports c = []) \/ (mainPort c ∈ ports c /\ Forall (fun p => mainPort c <= p) (ports c)).
Proof.
  unfold mainPort. induction (ports c) as [| p l IH] using rev_ind; [by left |].
  rewrite Forall_app, Forall_singleton. intros [Hl Hp]. right. rewrite foldl_snoc.
  destruct (IH Hl) as [[-> ->] | [Hin Hle]].
  - cbn. rewrite Forall_singleton. split; [set_solver | lia].
  - set (mp := foldl _ 0 l) in *.
    assert (0 < mp) as Hmp by (rewrite Forall_forall in Hl; auto).
    destruct ((mp =? 0) || (p <? mp)) eqn:E; breflect; rewrite Forall_app, Forall_singleton; (split; [set_solver |]);
      (split; [| lia]); [| done].
    eapply Forall_impl; [exact Hle |]. cbn. lia.
Qed.

(** The routing of the root handler. A request is forwarded exactly when
    the first label of its host is the main host of a connected client, to the
    loopback address and the lowest forwarded port of the first such client; a
    client without ports is answered with an error, and any other host gets the
    panel. *)
Theorem root_spec (lower : Z -> Z) (lc : LinkConfig) (cs : list Client) (host : string)
    (Hports : forall c, c ∈ cs -> Forall (fun p => 0 < p) (ports c)) :
  match root lower lc cs host with
  | Proxy target =>
      exists cs1 c cs2 p, cs = cs1 ++ c :: cs2 /\ Forall (fun c' => mainHost lower lc (Name c') <> host_label host) cs1
        /\ mainHost lower lc (Name c) = host_label host /\ host_label host <> ""
        /\ p ∈ ports c /\ Forall (fun q => p <= q) (ports c) /\ target = "127.0.0.1:" +:+ itoa p
  | NoService => exists c, c ∈ cs /\ mainHost lower lc (Name c) = host_label host /\ ports c = []
  | Panel => host_label host = "" \/ forall c, c ∈ cs -> mainHost lower lc (Name c) <> host_label host
  end.
Proof.
  unfold root. case_bool_decide as Hl; [by left |]. cbn [negb andb].
  case_bool_decide as Ht; cbn [negb].
  { right. intros c _ H. unfold mainHost in H. destruct (splitName _ _) as [[site role] |]; [| congruence].
    rewrite Ht, lookup_empty in H. congruence. }
  assert (match find_host lower lc (host_label host) cs with
          | Some c => exists cs1 cs2, cs = cs1 ++ c :: cs2 /\ Forall (fun c' => mainHost lower lc (Name c') <> host_label host) cs1
              /\ mainHost lower lc (Name c) = host_label host
          | None => forall c, c ∈ cs -> mainHost lower lc (Name c) <> host_label host end) as Hf.
  { clear Hports. induction cs as [| c cs IH]; [by intros c []%elem_of_nil |]. cbn [find_host].
    case_bool_decide as Hc; [by exists [], cs |]. destruct (find_host _ _ _ _) as [c' |].
    - destruct IH as (cs1 & cs2 & -> & H1 & H2). exists (c :: cs1), cs2. by repeat constructor.
    - intros c' [-> | H]%elem_of_cons; auto. }
  destruct (find_host _ _ _ _) as [c |]; [| by right]. destruct Hf as (cs1 & cs2 & -> & H1 & H2).
  destruct (mainPort_spec c) as [[H0 Hnil] | [Hin Hle]]; [apply Hports; set_solver | |].
  - rewrite H0. cbn. exists c. split; [set_solver | done].
  - destruct (Z.eqb_spec (mainPort c) 0) as [E |].
    + exfalso. specialize (Hports c ltac:(set_solver)). rewrite Forall_forall in Hports. specialize (Hports _ Hin). lia.
    + exists cs1, c, cs2, (mainPort c). done.
Qed.

(** ** Witnesses *)

Definition names_of (s : gmap string Z) : list string := (map_to_list s).*1.

Definition web : Client := set_ports (new_client "tk-a-web" "10.0.0.1" 0) [9000; 8080].
Definition demo_reg : Registry := Registry.Add NewRegistry "s1" web.
Definition demo_list : list ptr := (map_to_list (Registry.m demo_reg)).*2.
Definition demo_store : TrafficStore :=
  MkStore "" {["tk-b-ssh" := Ct ∅ ∅ 5 [UpEvent 5 true]; "tk-a-web" := Ct ∅ ∅ 6 []]} false.
Definition demo_tick (startAt : time) : Registry * option TrafficStore :=
  sampler_tick (of_unix 100) startAt (fun _ _ => None) (fun _ => of_unix 100)
    demo_list demo_list names_of demo_reg (Some demo_store).

(** After the grace period the absent client is recorded down; within it, it is not. *)
Example demo_tick_ex :
  (fun t => (Up (client_of t "tk-a-web"), Up (client_of t "tk-b-ssh"))) <$> snd (demo_tick 0)
  = Some ([UpEvent 100 true], [UpEvent 5 true; UpEvent 100 false])
  /\ (fun t => (Up (client_of t "tk-a-web"), Up (client_of t "tk-b-ssh"))) <$> snd (demo_tick (of_unix 90))
  = Some ([UpEvent 100 true], [UpEvent 5 true]).
Proof. split; vm_compute; reflexivity. Qed.

Lemma sampler_marks_witness :
  exists t', snd (demo_tick 0) = Some t'
  /\ forall n c, n <> "" -> Traffic.m t' !! n = Some c ->
       exists e, last (Up c) = Some e /\ U e = bool_decide (n ∈ Name <$> clients (fst (demo_tick 0)) demo_list).
Proof.
  destruct (sampler_marks (of_unix 100) 0 (fun _ _ => None) (fun _ => of_unix 100)
    demo_list demo_list names_of demo_reg (fst (demo_tick 0)) demo_store (snd (demo_tick 0))
    (fun _ => reflexivity _) (surjective_pairing _)) as (t' & Ht & _ & Hup).
  exists t'. split; [exact Ht | exact (Hup eq_refl)].
Defined.

Definition demo_view : view :=
  View (of_unix 100) demo_reg demo_list (Some demo_store) (MkLinks ∅ "") (fun _ => None)
    map_to_list (fun _ _ => MetaFile None None).

Lemma describe_spec_witness :
  let rw' := snd (describe (fun _ => None) id map_to_list (fun _ => MetaFile None None)
               (Some (NewMetaStore "")) (row_of (of_unix 100) web)) in
  pi_port <$> r_PortInfo rw' = [8080; 9000] /\ Sorted info_le (r_PortInfo rw').
Proof.
  split; [reflexivity |].
  apply (describe_spec (fun _ => None) id map_to_list "" [] (fun _ => MetaFile None None)
    (row_of (of_unix 100) web) (fun _ => reflexivity _)).
Defined.

Lemma status_complete_witness :
  exists on off, snd (fst (api_status (fun _ => None) id map_to_list (fun _ => 0) demo_view None)) = on ++ off
  /\ forall n, n ∈ r_Name <$> off <-> is_Some (Traffic.m demo_store !! n) /\ n ∉ ["tk-a-web"].
Proof.
  destruct (status_complete (fun _ => None) id map_to_list (fun _ => 0) demo_view demo_store None
    eq_refl (reflexivity _)) as (on & off & H & _ & _ & _ & _ & Hn & _).
  exists on, off. split; [exact H | exact Hn].
Defined.

Lemma probe_confined_witness :
  exists p c n, p ∈ demo_list /\ heap demo_reg !! p = Some c /\ Name c = "tk-a-web" /\ atoi "8080" = Some n /\ n ∈ ports c.
Proof.
  destruct (probe_confined (fun ms _ _ => (ms, zero_port)) second demo_reg demo_list (newProbeGate second)
    (fst (allow second (newProbeGate second) "tk-a-web:8080")) None None "tk-a-web" "8080"
    (Answer ("127.0.0.1:8080", "")) eq_refl) as (p & c & n & H1 & H2 & H3 & H4 & H5 & _).
  exists p, c, n. done.
Defined.

Lemma root_spec_witness :
  let lc := ParseLinkConfig id "web=web{site}" "" in
  root id lc [web] "weba.example.com:443" = Proxy "127.0.0.1:8080"
  /\ exists cs1 c cs2 p, [web] = cs1 ++ c :: cs2
        /\ Forall (fun c' => mainHost id lc (Name c') <> host_label "weba.example.com:443") cs1
        /\ mainHost id lc (Name c) = host_label "weba.example.com:443" /\ host_label "weba.example.com:443" <> ""
        /\ p ∈ ports c /\ Forall (fun q => p <= q) (ports c) /\ "127.0.0.1:8080" = "127.0.0.1:" +:+ itoa p.
Proof.
  intros lc. assert (root id lc [web] "weba.example.com:443" = Proxy "127.0.0.1:8080") as E by (vm_compute; reflexivity).
  split; [exact E |].
  pose proof (root_spec id lc [web] "weba.example.com:443"
    ltac:(intros c ->%list_elem_of_singleton; repeat constructor)) as H.
  rewrite E in H. exact H.
Defined.
