(* ===== verification/Routes.v ===== *)
(** * The routes of the panel

    Models the handlers that Serve of src/core/internal/monitor/monitor.go registers,
    and Go's http.ServeMux in front of them: a path is cleaned, a path that was not
    clean is redirected, and what no pattern matches is not found. Before it, the
    root handler takes the hosts of the clients' services ([Api.root]). A path here
    has no escapes. *)

From S2P Require Import Registry Links Api.

(** ** net/http *)

Definition SLASH : ascii := "/"%char.

(** One element of a rooted path after those kept: [path.Clean]. *)
Definition clean_push (kept : list string) (s : string) : list string :=
  if bool_decide (s = "") || bool_decide (s = ".") then kept
  else if bool_decide (s = "..") then take (length kept - 1) kept
  else kept ++ [s].

Definition path_elements (p : string) : list string := foldl clean_push [] (split SLASH p).

Definition rooted (l : list string) : string := String SLASH (join "/" l).

(** [cleanPath]. *)
Definition cleanPath (p : string) : string :=
  if bool_decide (p = "") then "/"
  else
    let np := rooted (path_elements p) in
    if bool_decide (last (chars p) = Some SLASH) && negb (bool_decide (np = "/")) then np +:+ "/" else np.

(** ** The program *)

Inductive handler := HStatus | HTraffic | HUptime | HProbe | HSpeedtest | HPage.

Inductive routed := Handled (h : handler) | NotFound | MovedTo (path : string).

Definition patterns : list (string * handler) :=
  [("/api/status", HStatus); ("/api/traffic", HTraffic); ("/api/uptime", HUptime); ("/api/probe", HProbe);
   ("/api/speedtest", HSpeedtest)].

(** The pattern "/" takes the rest, and its handler the root alone. *)
Definition mux (path : string) : routed :=
  let clean := cleanPath path in
  if negb (bool_decide (clean = path)) then MovedTo clean
  else match list_find (fun x => x.1 = path) patterns with
  | Some (_, (_, h)) => Handled h
  | None => if bool_decide (path <> "/") then NotFound else Handled HPage
  end.

(** A request: to the service of a client, or to the panel. *)
Definition ServeHTTP (lower : Z -> Z) (lc : LinkConfig) (cs : list Client) (host path : string) : route + routed :=
  match root lower lc cs host with
  | Panel => inr (mux path)
  | r => inl r
  end.

(** ** Clean paths *)

(** An element of a clean path. *)
Definition plain_element (s : string) : Prop := s <> "" /\ s <> "." /\ s <> ".." /\ free_of SLASH s.

Lemma split_elements sep s : Forall (free_of sep) (split sep s).
Proof.
  induction s as [| c s IH]; [by repeat constructor; apply not_elem_of_nil |]. cbn [split]. case_decide as Hc.
  - constructor; [apply not_elem_of_nil | done].
  - destruct (split sep s) as [| x l]; [constructor; [| constructor]; by apply not_elem_of_cons; split; [congruence | apply not_elem_of_nil] |].
    apply Forall_cons in IH as [Hx Hl]. constructor; [by apply not_elem_of_cons; split; [congruence |] | done].
Qed.

Lemma elements_plain p : Forall plain_element (path_elements p).
Proof.
  unfold path_elements. assert (Forall plain_element []) as H by constructor. revert H. generalize (@nil string).
  pose proof (split_elements SLASH p) as Hs. induction Hs as [| s l Hs _ IH]; intros kept Hk; [done |]. cbn [foldl]. apply IH.
  unfold clean_push. destruct (bool_decide (s = "") || bool_decide (s = ".")) eqn:E1; [done |]. breflect.
  case_bool_decide; [by apply Forall_take |]. apply Forall_app. split; [done |]. by repeat constructor.
Qed.

Lemma push_plain l kept : Forall plain_element l -> foldl clean_push kept l = kept ++ l.
Proof.
  intros H. revert kept. induction H as [| s l (H1 & H2 & H3 & _) _ IH]; intros kept; [by rewrite app_nil_r |]. cbn [foldl].
  unfold clean_push at 2. rewrite !bool_decide_eq_false_2 by done. cbn [orb]. by rewrite IH, <-app_assoc.
Qed.

(** With a slash at the end or without. *)
Lemma elements_rooted l t : Forall plain_element l -> (t = "" \/ t = "/" /\ l <> []) -> path_elements (rooted l +:+ t) = l.
Proof.
  intros Hl Ht. unfold path_elements, rooted.
  change (String SLASH (join "/" l) +:+ t) with (String SLASH (join "/" l +:+ t)). cbn [split]. rewrite decide_True by done. cbn [foldl].
  change (clean_push [] "") with (@nil string).
  assert (Forall (free_of SLASH) l) as Hf by (eapply Forall_impl; [exact Hl |]; by intros ? (_ & _ & _ & ?)).
  destruct Ht as [-> | [-> Hne]].
  - rewrite append_nil_r. destruct l as [| x l]; [done |]. change "/" with (String SLASH ""). rewrite split_join by done. by apply push_plain.
  - assert (join "/" l +:+ "/" = join "/" (l ++ [""])) as ->.
    { clear Hl Hf. induction l as [| x l IH]; [done |]. destruct l as [| y l]; [done |].
      change (join "/" (x :: y :: l)) with (x +:+ "/" +:+ join "/" (y :: l)). rewrite !append_assoc, IH by done. done. }
    change "/" with (String SLASH ""). rewrite split_join; [| by destruct l | apply Forall_app; split; [done |]; by repeat constructor; apply not_elem_of_nil].
    rewrite foldl_app, (push_plain l []) by done. done.
Qed.

Lemma last_rooted l : Forall plain_element l -> l <> [] -> last (chars (rooted l)) <> Some SLASH.
Proof.
  intros Hl Hne. unfold rooted. cbn [chars String.list_ascii_of_string]. fold (chars (join "/" l)).
  assert (chars (join "/" l) <> [] /\ last (chars (join "/" l)) <> Some SLASH) as [H1 H2].
  { induction Hl as [| x l (Hx & _ & _ & Hf) Hl IH]; [done |]. unfold free_of in Hf. destruct l as [| y l].
    - cbn [join]. split; [intros E; apply Hx, chars_inj; by rewrite E |]. intros E. by apply Hf, last_Some_elem_of.
    - change (join "/" (x :: y :: l)) with (x +:+ "/" +:+ join "/" (y :: l)). rewrite !chars_app. destruct (IH ltac:(done)) as [H1 H2].
      split; [by destruct (chars x) |]. rewrite app_assoc, last_app. by destruct (last (chars (join "/" (y :: l)))) eqn:E; [| apply last_None in E]. }
  destruct (chars (join "/" l)) as [| c k]; done.
Qed.

(** A cleaned path is clean. *)
Lemma cleanPath_idem p : cleanPath (cleanPath p) = cleanPath p.
Proof.
  assert (forall l, Forall plain_element l -> cleanPath (rooted l) = rooted l) as H1.
  { intros l Hl. unfold cleanPath. rewrite bool_decide_eq_false_2 by done.
    assert (path_elements (rooted l) = l) as -> by (rewrite <-(append_nil_r (rooted l)); apply elements_rooted; auto).
    destruct (decide (l = [])) as [-> | Hne]; [done |].
    by rewrite (bool_decide_eq_false_2 (last _ = _)) by by apply last_rooted. }
  assert (forall l, Forall plain_element l -> rooted l <> "/" -> cleanPath (rooted l +:+ "/") = rooted l +:+ "/") as H2.
  { intros l Hl Hr. unfold cleanPath. rewrite bool_decide_eq_false_2 by done.
    rewrite elements_rooted by (done || (right; split; [done | by intros ->])).
    rewrite chars_app. change (chars "/") with [SLASH]. rewrite last_snoc, bool_decide_eq_true_2, (bool_decide_eq_false_2 (rooted l = "/")) by done. done. }
  assert (exists l, Forall plain_element l /\ (cleanPath p = rooted l \/ rooted l <> "/" /\ cleanPath p = rooted l +:+ "/"))
    as (l & Hl & [-> | [Hr ->]]); [| by apply H1 | by apply H2].
  unfold cleanPath. case_bool_decide; [exists []; auto |]. exists (path_elements p). split; [apply elements_plain |].
  destruct (_ && _) eqn:E; [| by left]. breflect. by right.
Qed.

(** ** Properties *)

(** Every path of the panel has one meaning. A request reaches a handler exactly when
    its host is no client's and its path is that handler's; any other
    path is not found or, when it is not clean, redirected once, to a path that
    is not redirected again. *)
Theorem panel_routes (lower : Z -> Z) (lc : LinkConfig) (cs : list Client) (host path : string) :
  (forall h, ServeHTTP lower lc cs host path = inr (Handled h)
     <-> root lower lc cs host = Panel /\ (path, h) ∈ ("/", HPage) :: patterns)
  /\ (forall q, mux path = MovedTo q -> q <> path /\ forall q', mux q <> MovedTo q').
Proof.
  assert (forall h, mux path = Handled h <-> (path, h) ∈ ("/", HPage) :: patterns) as Hm.
  { intros h. split.
    - unfold mux. case_bool_decide; [cbn [negb] | done].
      destruct (list_find _ patterns) as [[i [p h']] |] eqn:E.
      + apply list_find_Some in E as (Hi & Hp & _). cbn in Hp. subst p. intros [= <-].
        apply elem_of_cons. right. by eapply list_elem_of_lookup_2.
      + case_bool_decide as Hn; [done |]. intros [= <-]. assert (path = "/") as -> by (by destruct (decide (path = "/"))). set_solver.
    - intros H. repeat (apply elem_of_cons in H as [[= -> ->] | H]; [by vm_compute |]). by apply not_elem_of_nil in H. }
  split.
  - intros h. unfold ServeHTTP. destruct (root lower lc cs host) eqn:E; split; try done; try (by intros [? _]).
    + intros [= H]. split; [done | by apply Hm].
    + intros [_ H]. f_equal. by apply Hm.
  - intros q. unfold mux at 1. case_bool_decide as Hc; cbn [negb].
    + destruct (list_find _ _) as [[? []] |]; [done |]. by case_bool_decide.
    + intros [= <-]. split; [done |]. intros q'. unfold mux. rewrite cleanPath_idem, bool_decide_eq_true_2 by done. cbn [negb].
      destruct (list_find _ _) as [[? []] |]; [done |]. by case_bool_decide.
Qed.

Example routes_ex :
  (mux "/api//status", mux "/api/../", mux "/api/status/", mux "api/probe", mux "")
  = (MovedTo "/api/status", MovedTo "/", NotFound, MovedTo "/api/probe", MovedTo "/").
Proof. vm_compute. reflexivity. Qed.
