(* ===== verification/Availability.v ===== *)
(** * Availability, end to end

    The sampler of monitor.go over the store of traffic.go: the percentage shown
    in the panel against what the ticks of the sampler saw. *)

From S2P Require Import Attempts Probe Traffic Links Meta Registry.
From S2P Require Export Api.

(** A tick: when, and the names of the clients connected then. *)
Record tick := Tick { k_now : time; k_connected : list string }.

Section availability.
Context (startAt : time) (order : gmap string Z -> list string).

(** The store after the ticks. *)
Definition sampled (ks : list tick) (t : TrafficStore) : TrafficStore :=
  foldl (fun t k => sampler_store (k_now k) startAt order (k_connected k) t) t ks.

(** What the ticks saw of one client, from the first that saw it on: an
    observation at each tick, except when it is absent in the grace period. *)
Definition observe (n : string) (E : list upEvent) (k : tick) : list upEvent :=
  if bool_decide (n ∈ k_connected k) then E ++ [UpEvent (unix (k_now k)) true]
  else if bool_decide (E = []) || (sub (k_now k) startAt <? gracePeriod) then E
  else E ++ [UpEvent (unix (k_now k)) false].

Definition observations (n : string) (ks : list tick) : list upEvent := foldl (observe n) [] ks.

(** ** The log says what was observed *)

(** A log that stands for observations: it starts with the first, says the same
    of every second, and ends in the state last observed. *)
Record stands_for (E log : list upEvent) : Prop := {
  sf_head : head log = head E;
  sf_state : forall st x, state_at st log x = state_at st E x;
  sf_last : U <$> last log = U <$> last E;
  sf_sorted : StronglySorted times_le log;
  sf_sub : forall e, e ∈ log -> e ∈ E;
}.

Lemma state_at_snoc st E e x : state_at st (E ++ [e]) x = if T e <=? x then U e else state_at st E x.
Proof. unfold state_at. by rewrite foldl_snoc. Qed.

Lemma state_at_last st log l x : last log = Some l -> T l <= x -> state_at st log x = U l.
Proof.
  intros [k ->]%last_Some Hx. by rewrite state_at_snoc, (proj2 (Z.leb_le _ _)) by done.
Qed.

Lemma stands_for_nil E : stands_for E [] -> E = [].
Proof. intros [H _ _ _ _]. by destruct E. Qed.

Lemma head_snoc {A} (l : list A) x : l <> [] -> head (l ++ [x]) = head l.
Proof. by destruct l. Qed.

(** Recording a state now extends both. *)
Lemma stands_for_mark now up E c :
  stands_for E (Up c) -> Forall (fun e => T e <= unix now) E ->
  stands_for (E ++ [UpEvent (unix now) up]) (Up (mark now up c)).
Proof.
  intros HE Hle. set (e := UpEvent (unix now) up).
  assert (Forall (fun x => T x <= unix now) (Up c)) as Hlog.
  { apply Forall_forall. intros x Hx%(sf_sub _ _ HE). rewrite Forall_forall in Hle. auto. }
  assert (stands_for (E ++ [e]) (Up c ++ [e])) as Happ.
  { destruct (decide (Up c = [])) as [H0 | Hne].
    - rewrite H0 in *. apply stands_for_nil in HE as ->.
      split; [done | done | done | by repeat constructor | done].
    - assert (E <> []) as HneE by (intros ->; pose proof (sf_head _ _ HE) as H; by destruct (Up c)).
      split.
      + rewrite !head_snoc by done. apply HE.
      + intros st x. by rewrite !state_at_snoc, (sf_state _ _ HE).
      + by rewrite !last_snoc.
      + apply StronglySorted_app. split; [| split; [apply HE | by repeat constructor]].
        intros x y Hx ->%list_elem_of_singleton. rewrite Forall_forall in Hlog. exact (Hlog x Hx).
      + intros x. rewrite !elem_of_app. intros [Hx | Hx]; [left; by apply HE | by right]. }
  unfold mark. destruct (last (Up c)) as [l |] eqn:El; [case_bool_decide as Hu; [| exact Happ] | exact Happ].
  assert (l ∈ Up c) as Hl by (apply last_Some in El as [k ->]; set_solver).
  destruct HE as [H1 H2 H3 H4 H5]. split.
  - rewrite head_snoc; [done |]. intros ->. apply H5 in Hl. by apply elem_of_nil in Hl.
  - intros st x. rewrite state_at_snoc, <- H2. unfold e. cbn [T U]. destruct (Z.leb_spec (unix now) x); [| done].
    rewrite (state_at_last st (Up c) l x El); [done |].
    rewrite Forall_forall in Hlog. specialize (Hlog l Hl). cbn in Hlog. lia.
  - rewrite last_snoc, El. cbn. by f_equal.
  - done.
  - intros x Hx. apply elem_of_app. left. auto.
Qed.

(** What the store holds of a client after the ticks. *)
Definition holds (n : string) (E : list upEvent) (t : TrafficStore) : Prop :=
  match Traffic.m t !! n with
  | None => E = []
  | Some c => E <> [] /\ stands_for E (Up c)
  end.

Lemma holds_tick n E t k :
  (forall s, order s ≡ₚ (map_to_list s).*1) -> n <> "" -> holds n E t ->
  Forall (fun e => T e <= unix (k_now k)) E ->
  holds n (observe n E k) (sampler_store (k_now k) startAt order (k_connected k) t).
Proof.
  intros Horder Hn HE Hle. unfold holds in *. rewrite sampler_store_lookup by done. unfold marked, observe.
  rewrite decide_False by done. destruct (decide (n ∈ k_connected k)) as [Hc | Hc].
  - rewrite bool_decide_true by done. split; [by destruct E |].
    apply stands_for_mark; [| done]. unfold client_of. destruct (Traffic.m t !! n) as [c |]; cbn; [apply HE |].
    subst E. split; [done.. | constructor | done].
  - rewrite (bool_decide_false (n ∈ k_connected k)) by done.
    destruct (Traffic.m t !! n) as [c |]; cbn; [| by rewrite bool_decide_true].
    destruct HE as [Hne HE]. rewrite bool_decide_false by done. cbn [orb].
    destruct (sub (k_now k) startAt <? gracePeriod); [done |]. split; [by destruct E |]. by apply stands_for_mark.
Qed.

(** The clock of the ticks does not go back. *)
Definition ordered (ks : list tick) : Prop := StronglySorted (fun a b => k_now a <= k_now b) ks.

Lemma observations_times n ks e : e ∈ observations n ks -> exists k, k ∈ ks /\ T e = unix (k_now k).
Proof.
  unfold observations. induction ks as [| k ks IH] using rev_ind; [by intros []%elem_of_nil |].
  rewrite foldl_snoc. unfold observe at 1. intros He.
  assert (e ∈ foldl (observe n) [] ks \/ T e = unix (k_now k)) as [H | H].
  { destruct (bool_decide (n ∈ _)); [| destruct (_ || _); [by left |]];
      apply elem_of_app in He as [He | ->%list_elem_of_singleton]; auto. }
  - destruct (IH H) as (k' & Hk & Ht). exists k'. set_solver.
  - exists k. set_solver.
Qed.

Lemma holds_sampled n t ks :
  (forall s, order s ≡ₚ (map_to_list s).*1) -> n <> "" -> Traffic.m t !! n = None -> ordered ks ->
  holds n (observations n ks) (sampled ks t).
Proof.
  intros Horder Hn Ht. unfold observations, sampled. induction ks as [| k ks IH] using rev_ind; intros Ho.
  { unfold holds. cbn. by rewrite Ht. }
  apply StronglySorted_app in Ho as (Hle & Ho & _). rewrite !foldl_snoc. apply holds_tick; [done | done | by apply IH |].
  apply Forall_forall. intros e (k' & Hk' & ->)%observations_times. apply unix_mono, Hle; set_solver.
Qed.
End availability.

(** ** Property *)

(** C21: the percentage in the panel is what the sampler saw. For a client the
    store did not know, after any ticks on a clock that does not go back, and for
    any window at any time: if no tick saw it connected the store still does not
    know it; otherwise the percentage is 100 times the number of seconds of the
    window, from the first tick that saw it on, at which the latest observation
    found it connected (an absence in the first thirty seconds of the server
    being no observation), over the length of that window. *)
Theorem shown_uptime_observed (startAt : time) (order : gmap string Z -> list string) (ks : list tick)
    (t : TrafficStore) (n : string)
    (Horder : forall s, order s ≡ₚ (map_to_list s).*1) (Hn : n <> "") (Hnew : Traffic.m t !! n = None)
    (Hclock : ordered ks) :
  match observations startAt n ks with
  | [] => Traffic.m (sampled startAt order ks t) !! n = None
  | e0 :: rest =>
      forall (now : time) (windowSec : Z),
        let E := e0 :: rest in
        let from := Z.max (unix now - windowSec) (T e0) in
        uptimePct now (sampled startAt order ks t) n windowSec
        = (if unix now <=? from then (-1 : Q)
           else (inject_Z (Z.of_nat (length (filter (fun s => state_at (U e0) E s = true) (seqZ from (unix now - from)))))
                 / inject_Z (unix now - from) * 100)%Q)
  end.
Proof.
  pose proof (holds_sampled startAt order n t ks Horder Hn Hnew Hclock) as H. unfold holds in H.
  destruct (observations startAt n ks) as [| e0 rest].
  - destruct (Traffic.m (sampled startAt order ks t) !! n); [by destruct H | done].
  - destruct (Traffic.m (sampled startAt order ks t) !! n) as [c |] eqn:Ec; [| done]. destruct H as [_ H]. intros now windowSec.
    rewrite (uptimePct_log _ _ _ _ c Ec (sf_sorted _ _ H)). unfold log_pct.
    pose proof (sf_head _ _ H) as Hh. destruct (Up c) as [| e log] eqn:Eu; [done |]. injection Hh as ->. cbn zeta.
    destruct (_ <=? _); [done |]. do 3 f_equal. change (Z.of_nat (length (filter (fun s => state_at (U e0) (e0 :: rest) s = true)
      (seqZ (Z.max (unix now - windowSec) (T e0)) (unix now - Z.max (unix now - windowSec) (T e0))))))
      with (ups (U e0) (e0 :: rest) (Z.max (unix now - windowSec) (T e0)) (unix now)).
    apply ups_ext. intros s _. apply (sf_state _ _ H).
Qed.

(** ** Witness *)

Definition demo_ticks : list tick :=
  [Tick (of_unix 100) ["a"]; Tick (of_unix 105) ["a"]; Tick (of_unix 110) []; Tick (of_unix 120) []].

Lemma shown_uptime_observed_witness :
  uptimePct (of_unix 120) (sampled 0 names_of demo_ticks (MkStore "" ∅ false)) "a" 86400
  = (inject_Z 10 / inject_Z 20 * 100)%Q.
Proof.
  pose proof (shown_uptime_observed 0 names_of demo_ticks (MkStore "" ∅ false) "a" (fun _ => reflexivity _)) as H.
  specialize (H ltac:(done) eq_refl ltac:(repeat constructor; vm_compute; congruence)).
  exact (H (of_unix 120) 86400).
Defined.
