(* ===== verification/Page.v ===== *)
(** * The panel's page

    Models the script of src/core/internal/monitor/page.go: the functions that turn
    the answers of /api/status, /api/traffic and /api/uptime into the HTML set as
    the content of the page's table, summary and dialog, and the requests its
    buttons make. The JSON a function reads is the row, port, day or event the
    server encoded ([Api]); a field that is missing from it is the zero value the
    encoder left out. [location] and the text of a time of day are arguments. In the
    templates a backquote stands for the double quote ([html]). *)

From S2P Require Export Js.
From S2P Require Export Probe Traffic Links Registry Api.

(** [Array.join('')]. *)
Definition cat (l : list string) : string := foldr String.append "" l.

(** ** Formatting *)

Definition Qzero (q : Q) : bool := Qnum q =? 0.
Definition Qmax_ (a b : Q) : Q := if Qlt_b a b then b else a.

(** [null] is [None]. *)
Definition fmtU (s : option Q) : string :=
  match s with
  | None => "-"
  | Some s =>
      let s := Qfloor_ s in
      let d := s / 86400 in let s := Z.rem s 86400 in
      let h := s / 3600 in let s := Z.rem s 3600 in
      let m := s / 60 in
      if negb (d =? 0) then itoa d +:+ "d " +:+ itoa h +:+ "h " +:+ itoa m +:+ "m"
      else if negb (h =? 0) then itoa h +:+ "h " +:+ itoa m +:+ "m"
      else itoa m +:+ "m"
  end.

(** The loops of [fmtR] and [fmtB]: the number, its unit, and whether it was divided. *)
Fixpoint scale (base : Q) (unit : string) (units : list string) (n : Q) (i : bool) : Q * string * bool :=
  match units with
  | [] => (n, unit, i)
  | u :: us => if Qlt_b n base then (n, unit, i) else scale base u us (n / base)%Q true
  end.

Definition fmtR (n : Q) : string :=
  if Qzero n then "0"
  else let '(n, u, i) := scale 1000 "" ["K"; "M"; "G"] (n * 8)%Q false in
       toFixed (if i : bool then 1 else 0) n +:+ u +:+ "bps".

Definition fmtB (n : Q) : string :=
  if Qzero n then "0 B"
  else let '(n, u, i) := scale 1024 "B" ["KB"; "MB"; "GB"; "TB"] n false in
       toFixed (if i : bool then 1 else 0) n +:+ " " +:+ u.

(** ** Escaping *)

Definition esc_char (c : ascii) : string :=
  if Ascii.eqb c AMP then "&amp;"
  else if Ascii.eqb c LT then "&lt;"
  else if Ascii.eqb c GT then "&gt;"
  else if Ascii.eqb c QUOTE then "&quot;"
  else if Ascii.eqb c SQUOTE then "&#39;"
  else String c "".
Definition esc (s : string) : string := cat (esc_char <$> chars s).

Definition A_ (s : string) : string := esc (stringify s).

(** [a||b] of two strings. *)
Definition or_else (a b : string) : string := if bool_decide (a = "") then b else a.

Definition T_ (LAST : gmap string row) (name : string) : string :=
  esc (or_else (match LAST !! name with Some c => r_Title c | None => "" end) name).

(** /^https?:\/\// of a string, its letters compared without case if [i]; what is
    left after the match. *)
Definition strip_http (i : bool) (u : string) : option string :=
  let l := if i then of_chars (ascii_lower <$> chars u) else u in
  if has_prefix l "http://" then Some (of_chars (drop 7 (chars u)))
  else if has_prefix l "https://" then Some (of_chars (drop 8 (chars u)))
  else None.

Definition safeHref (u : string) : string := match strip_http true u with Some _ => u | None => "" end.
Definition without_http (i : bool) (u : string) : string := default u (strip_http i u).

(** ** Charts *)

Definition spark (vals : list Q) (w h : Z) (color : string) : string :=
  let size := html "<svg width=`" +:+ itoa w +:+ html "` height=`" +:+ itoa h +:+ html "`>" in
  if bool_decide (vals = []) then size +:+ "</svg>"
  else
    let max := foldl Qmax_ 1%Q vals in
    let dx := (inject_Z w / inject_Z (Z.max 1 (Z.of_nat (length vals) - 1)))%Q in
    let pts := join " " (imap (fun i v =>
      toFixed 1 (inject_Z (Z.of_nat i) * dx)%Q +:+ ","
      +:+ toFixed 1 (inject_Z h - (v / max) * inject_Z (h - 2) - 1)%Q) vals) in
    size +:+ html "<polyline fill=`none` stroke=`" +:+ color +:+ html "` stroke-width=`1.5` points=`"
         +:+ pts +:+ html "`/></svg>".

(** One bar of [recBars]. *)
Definition rec_bar (max : Z) (bw : Q) (h : Z) (i : nat) (p : Z * Z) : string :=
  let bh := if 0 <? p.2 then Qmax_ 2 ((inject_Z p.2 / inject_Z max) * inject_Z (h - 16))%Q else 0%Q in
  html "<rect x=`" +:+ toFixed 1 (inject_Z (Z.of_nat i) * bw)%Q
  +:+ html "` y=`" +:+ toFixed 1 (inject_Z (h - 14) - bh)%Q
  +:+ html "` width=`" +:+ toFixed 1 (Qmax_ 1 (bw - 1)%Q)
  +:+ html "` height=`" +:+ toFixed 1 bh
  +:+ html "` fill=`" +:+ (if 0 <? p.2 then "var(--warn)" else "transparent") +:+ html "`/>".

(** Points are a time and a number of drops. *)
Definition recBars (pts : list (Z * Z)) (w h : Z) : string :=
  let size := html "<svg width=`" +:+ itoa w +:+ html "` height=`" +:+ itoa h in
  if bool_decide (pts = []) then size +:+ html "`></svg>"
  else
    let max := foldl Z.max 1 (snd <$> pts) in
    let bw := (inject_Z w / inject_Z (Z.of_nat (length pts)))%Q in
    size +:+ html "` style=`max-width:100%`>" +:+ cat (imap (rec_bar max bw h) pts)
    +:+ html "<line x1=`0` y1=`" +:+ itoa (h - 14) +:+ html "` x2=`" +:+ itoa w
    +:+ html "` y2=`" +:+ itoa (h - 14) +:+ html "` stroke=`var(--border)`/>" +:+ "</svg>".

(** ** Availability *)

Inductive shade := Up_ | Down_ | NoData.

Record seg := Seg { s_a : Q; s_b : Q; s_u : shade }.

Definition shade_of (u : bool) : shade := if u then Up_ else Down_.
Definition frac (from span : Z) (t : Z) : Q := (inject_Z (t - from) / inject_Z span)%Q.

(** The second loop and the lines after it: the rest of the segments and the
    seconds up. *)
Fixpoint up_loop (from to ef : Z) (cursor : Z) (cur : bool) (upDur : Z) (ev : list upEvent) : list seg * Z :=
  let span := to - from in
  let finish := ([Seg (frac from span cursor) 1 (shade_of cur)], if cur then upDur + (to - cursor) else upDur) in
  match ev with
  | [] => finish
  | e :: ev' =>
      if T e <=? ef then up_loop from to ef cursor cur upDur ev'
      else if to <=? T e then finish
      else
        let '(segs, d) := up_loop from to ef (T e) (U e) (if cur then upDur + (T e - cursor) else upDur) ev' in
        (Seg (frac from span cursor) (frac from span (T e)) (shade_of cur) :: segs, d)
  end.

Definition upCompute (events : list upEvent) (from to : Z) : option Q * list seg :=
  match events with
  | [] => (None, [Seg 0 1 NoData])
  | e0 :: _ =>
      let ef := if from <? T e0 then T e0 else from in
      let st := entering ef (U e0) events in
      let '(segs, upDur) := up_loop from to ef ef st 0 events in
      let cov := to - ef in
      (if 0 <? cov then Some (inject_Z upDur / inject_Z cov * 100)%Q else None,
       (if from <? ef then [Seg 0 (frac from (to - from) ef) NoData] else []) ++ segs)
  end.

Definition upBarSvg (segs : list seg) (w h : Z) : string :=
  let bar (g : seg) :=
    let x := (s_a g * inject_Z w)%Q in
    let ww := Qmax_ (1 # 2) ((s_b g - s_a g) * inject_Z w)%Q in
    html "<rect x=`" +:+ toFixed 1 x +:+ html "` y=`0` width=`" +:+ toFixed 1 ww +:+ html "` height=`" +:+ itoa h
    +:+ html "` fill=`" +:+ (match s_u g with Up_ => "var(--up)" | Down_ => "var(--down)" | NoData => "var(--border)" end)
    +:+ html "`/>" in
  html "<svg width=`" +:+ itoa w +:+ html "` height=`" +:+ itoa h
  +:+ html "` style=`border-radius:3px;max-width:100%`>" +:+ cat (bar <$> segs) +:+ "</svg>".

Definition upColor (p : Q) : string :=
  if negb (Qlt_b p (995 # 10)) then "var(--up)" else if negb (Qlt_b p 95) then "var(--warn)" else "var(--down)".

Definition upCell (c : row) : string :=
  let p := r_Uptime24h c in
  if Qlt_b p 0 then html "<span class=`muted`>—</span>"
  else
    let txt := (if negb (Qlt_b p (9995 # 100)) then toFixed 0 p else toFixed 1 p) +:+ "%" in
    html "<button class=`link mono` style=`color:" +:+ upColor p +:+ html "` onclick=`openUptime(" +:+ A_ (r_Name c)
    +:+ html ")` title=`availability 24h/7d`>" +:+ txt +:+ "</button>".

(** ** The requests of the buttons *)

Definition speed_url (name : string) : string := "/api/speedtest" +:+ "?client=" +:+ encodeURIComponent name.
Definition traffic_url (name : string) : string := "/api/traffic" +:+ "?client=" +:+ encodeURIComponent name.
Definition uptime_url (name : string) : string := "/api/uptime" +:+ "?client=" +:+ encodeURIComponent name.
Definition probe_url (name : string) (port : Z) : string :=
  "/api/probe" +:+ "?client=" +:+ encodeURIComponent name +:+ "&port=" +:+ itoa port.

(** The text of [speed]'s result. *)
Definition speed_text (down up : Q) : string := toFixed 1 down +:+ "↓ " +:+ toFixed 1 up +:+ "↑ Mbps".

(** ** The dialogs *)

Section page.
Context (protocol host : string) (time_text : Z -> string).

(** The web links: a label completed with the panel's own parent domain. *)
Definition linkUrl (label : string) : string :=
  let p := split "." host in
  if (length p <? 2)%nat || bool_decide (label = "") then ""
  else protocol +:+ "//" +:+ label +:+ "." +:+ join "." (drop 1 p).

Definition mainUrl (c : row) : string :=
  match list_find (fun l => l_kind l = "main") (r_Links c) with Some (_, l) => linkUrl (l_host l) | None => "" end.

Definition traffic_html (LAST : gmap string row) (name : string) (ports : list portRow) (days : list dayRow) : string :=
  "<h3>" +:+ T_ LAST name
  +:+ " — traffic by port</h3><table><tr><th>Port</th><th>↓ received</th><th>↑ sent</th></tr>"
  +:+ cat ((fun p => "<tr><td class=mono>" +:+ itoa (r_port p) +:+ "</td><td class=mono>" +:+ fmtB (inject_Z (r_rx p))
                     +:+ "</td><td class=mono>" +:+ fmtB (inject_Z (r_tx p)) +:+ "</td></tr>") <$> ports)
  +:+ (if bool_decide (ports = []) then "<tr><td colspan=3 class=muted>no data</td></tr>" else "")
  +:+ "</table><h3>Traffic by day</h3><table><tr><th>Date</th><th>Total</th></tr>"
  +:+ cat ((fun x => "<tr><td class=mono>" +:+ r_date x +:+ "</td><td class=mono>" +:+ fmtB (inject_Z (r_bytes x))
                     +:+ "</td></tr>") <$> days)
  +:+ (if bool_decide (days = []) then "<tr><td colspan=2 class=muted>no data</td></tr>" else "")
  +:+ "</table>".

(** The drops between consecutive samples; a counter that goes back is no drop. *)
Fixpoint rec_points (h : list sample) : list (Z * Z) :=
  match h with
  | a :: r =>
      match r with
      | b :: _ => (Ts b, Z.max 0 (Rec b - Rec a)) :: rec_points r
      | [] => []
      end
  | [] => []
  end.

Definition rec_win (pts : list (Z * Z)) : Z := foldl (fun w p => if 0 <? p.2 then w + p.2 else w) 0 pts.
Definition rec_last (pts : list (Z * Z)) : Z := foldl (fun t p => if 0 <? p.2 then p.1 else t) 0 pts.

Definition hist_span (h : list sample) : Z :=
  match h, last h with
  | a :: _ :: _, Some z => Ts z - Ts a
  | _, _ => 0
  end.

Definition rec_html (LAST : gmap string row) (name : string) (c : row) : string :=
  let h := r_Hist c in
  let pts := rec_points h in
  let win := rec_win pts in let lastTs := rec_last pts in let spanS := hist_span h in
  let perHour := if 0 <? spanS then (inject_Z (win * 3600) / inject_Z spanS)%Q else 0%Q in
  "<h3>" +:+ T_ LAST name +:+ " — reconnections</h3>"
  +:+ html "<div class=`mono` style=`margin:.3rem 0 .6rem`>all-time total: <b>" +:+ itoa (r_Reconnects c)
  +:+ "</b> · in window (" +:+ fmtU (Some (inject_Z spanS)) +:+ "): <b>" +:+ itoa win +:+ "</b> · ~"
  +:+ toFixed 1 perHour +:+ "/h"
  +:+ (if lastTs =? 0 then " · no drops in window" else " · last drop: " +:+ time_text lastTs) +:+ "</div>"
  +:+ recBars pts 520 90
  +:+ html "<div class=`muted` style=`font-size:.75rem;margin-top:.3rem`>each bar = reconnections in that interval (~5s); window ~10 min</div>".

Definition openRec (LAST : gmap string row) (name : string) : option string :=
  c ← LAST !! name; Some (rec_html LAST name c).

Definition portsLine (c : row) : string :=
  let parts :=
    if bool_decide (r_PortInfo c = []) then (fun p => ":" +:+ itoa p) <$> r_Ports c
    else (fun p => (if bool_decide (pi_name p = "") then "" else esc (pi_name p) +:+ " ") +:+ ":" +:+ itoa (pi_port p))
           <$> r_PortInfo c in
  (if bool_decide (r_Title c = "") then "" else esc (r_Name c) +:+ "<br>") +:+ join " · " parts.

(** One line of the ports' table of [openLinks]. *)
Definition port_line (name : string) (ports : list Z) (p : portInfo) : string :=
  let href := safeHref (pi_url p) in
  let url :=
    if bool_decide (pi_url p = "") then html "<span class=`muted`>-</span>"
    else if bool_decide (href = "") then html "<span class=`mono`>" +:+ esc (pi_url p) +:+ "</span>"
    else html "<a class=`svc` href=`" +:+ esc href +:+ html "` target=`_blank` rel=`noopener`>"
         +:+ esc (without_http true (pi_url p)) +:+ "</a>" in
  let chk :=
    if bool_decide (pi_port p ∈ ports)
    then html "<button onclick=`probePort(" +:+ A_ name +:+ "," +:+ itoa (pi_port p) +:+ html ",this)`>Test</button> <span id=`pr"
         +:+ itoa (pi_port p) +:+ html "` class=`mono`></span>"
    else html "<span class=`muted`>not forwarded now</span>" in
  html "<tr><td class=`mono`>" +:+ itoa (pi_port p) +:+ "</td><td>"
  +:+ (if bool_decide (pi_name p = "") then html "<span class=`muted`>-</span>" else esc (pi_name p))
  +:+ "</td><td>" +:+ url +:+ html "</td><td style=`white-space:normal`>" +:+ chk +:+ "</td></tr>".

Definition link_line (x : string * string * string) : string :=
  let '(kind, label, url) := x in
  "<tr><td>" +:+ esc kind +:+ html "</td><td class=`mono`>" +:+ esc label +:+ html "</td><td><a class=`svc` href=`" +:+ esc url
  +:+ html "` target=`_blank` rel=`noopener`>" +:+ esc (without_http false url) +:+ "</a></td></tr>".

Definition openLinks (LAST : gmap string row) (name : string) : string :=
  let c := LAST !! name in
  let title := match c with Some c => r_Title c | None => "" end in
  let pi := match c with Some c => r_PortInfo c | None => [] end in
  let ports := match c with Some c => r_Ports c | None => [] end in
  let links := match c with Some c => r_Links c | None => [] end in
  let rows := filter (fun x => x.2 <> "") ((fun l => (l_kind l, l_label l, linkUrl (l_host l))) <$> links) in
  "<h3>" +:+ T_ LAST name +:+ " — tunnel</h3>"
  +:+ (if bool_decide (title = "") then ""
       else html "<div class=`mono muted` style=`margin:-.2rem 0 .5rem`>" +:+ esc name +:+ "</div>")
  +:+ (if bool_decide (pi = []) then ""
       else "<table><tr><th>Port</th><th>Service</th><th>Expected URL</th><th>Check</th></tr>"
            +:+ cat (port_line name ports <$> pi) +:+ "</table>")
  +:+ (if bool_decide (rows = []) then ""
       else "<h3>Web links</h3><table><tr><th></th><th>target</th><th>link</th></tr>"
            +:+ cat (link_line <$> rows) +:+ "</table>")
  +:+ (if bool_decide (pi = []) && bool_decide (rows = [])
       then html "<div class=`muted`>nothing to show: no forwarded ports and no web links (see clients.json and TK_SERVER_LINKS)</div>"
       else "").

(** One of the two blocks of [openUptime]. *)
Definition up_block (ev : list upEvent) (now : Z) (label : string) (win : Z) : string :=
  let r := upCompute ev (now - win) now in
  let pct := match r.1 with None => "no data" | Some p => toFixed 2 p +:+ "%" end in
  html "<div style=`margin:.2rem 0 .7rem`><div class=`mono` style=`margin-bottom:.25rem`>" +:+ label
  +:+ html " · availability <b style=`color:" +:+ (match r.1 with None => "var(--muted)" | Some p => upColor p end) +:+ html "`>"
  +:+ pct +:+ "</b></div>" +:+ upBarSvg r.2 560 22 +:+ "</div>".

Definition uptime_html (LAST : gmap string row) (name : string) (ev : list upEvent) (now : Z) : string :=
  html "<h3 style=`margin-bottom:.4rem`>" +:+ T_ LAST name +:+ " — availability</h3>"
  +:+ up_block ev now "Last 24 h" 86400 +:+ up_block ev now "Last 7 days" (7 * 86400)
  +:+ html "<div class=`muted` style=`font-size:.72rem`>green = connected · red = down · grey = no data</div>".

(** What [probePort] shows: the colour and the text, set as text. *)
Definition probe_shown (ok : bool) (text : string) (d : probeResult) : string * string :=
  if negb ok then ("var(--warn)", trim_space text)
  else (if bool_decide (Level d = "ok") then "var(--up)"
        else if bool_decide (Level d = "warn") then "var(--warn)" else "var(--down)",
        Message d +:+ (if Qzero (LatencyMS d) then "" else " · " +:+ toFixed 0 (LatencyMS d) +:+ " ms")).

(** ** The table *)

(** [sort] by how long a client has been offline, the longest first; equal ones keep
    their order. *)
Fixpoint insert_off (c : row) (l : list row) : list row :=
  match l with
  | [] => [c]
  | x :: l' =>
      if Qlt_b (r_OfflineSeconds c) (r_OfflineSeconds x) then x :: insert_off c l' else c :: l
  end.
Definition sort_off (l : list row) : list row := foldr insert_off [] l.

Definition shown_name (c : row) : string := or_else (r_Title c) (r_Name c).

Definition off_row (c : row) : string :=
  html "<tr class=`offline`><td><b>" +:+ esc (shown_name c) +:+ "</b>"
  +:+ (if bool_decide (r_Title c = "") then ""
       else html "<br><span class=`mono muted` style=`font-size:.75rem`>" +:+ esc (r_Name c) +:+ "</span>")
  +:+ "</td>"
  +:+ html "<td><span class=`badge down`><span class=`dot`></span>OFF</span></td><td class=`mono`>-</td>"
  +:+ html "<td class=`mono` title=`time disconnected`>offline " +:+ fmtU (Some (r_OfflineSeconds c))
  +:+ html "</td><td class=`mono`>-</td>"
  +:+ html "<td class=`mono`>-</td><td class=`mono`>-</td>"
  +:+ html "<td class=`mono`>" +:+ fmtB (inject_Z (r_TrafficToday c)) +:+ html "</td><td class=`mono`>-</td><td>"
  +:+ upCell c +:+ "</td></tr>".

(** The cells of a connected client that have a button or a chart. *)
Definition rec_cell (c : row) : string :=
  let hi := 5 <=? r_Reconnects c in
  html "<button class=`link mono" +:+ (if hi then " hi" else "") +:+ html "` onclick=`openRec(" +:+ A_ (r_Name c)
  +:+ html ")` title=`drops over time`>" +:+ itoa (r_Reconnects c) +:+ (if hi then " ⚠" else "") +:+ "</button>".

Definition traffic_cell (c : row) : string :=
  html "<div class=`spark`><div>" +:+ spark (RxRate <$> r_Hist c) 60 20 "var(--rx)"
  +:+ spark (TxRate <$> r_Hist c) 60 10 "var(--tx)" +:+ "</div>"
  +:+ html "<button class=`link mono` onclick=`openTraffic(" +:+ A_ (r_Name c) +:+ html ")` title=`view by port/day`>"
  +:+ fmtB (inject_Z (r_TrafficToday c)) +:+ "</button></div>".

Definition speed_cell (c : row) : string :=
  if r_Speedtest c then
    html "<div class=`spark`><button onclick=`speed(" +:+ A_ (r_Name c) +:+ html ",this)`>Measure</button>"
    +:+ html "<span class=`res mono muted`>"
    +:+ (if Qzero (r_LastDown c) then ""
         else toFixed 1 (r_LastDown c) +:+ "↓ " +:+ toFixed 1 (r_LastUp c) +:+ "↑")
    +:+ "</span>" +:+ spark (r_SpeedHist c) 50 20 "var(--accent)" +:+ "</div>"
  else html "<span class=`muted`>—</span>".

Definition name_cell (c : row) : string :=
  let u := mainUrl c in
  let t := esc (shown_name c) in
  if bool_decide (u = "") then "<b>" +:+ t +:+ "</b>"
  else html "<a class=`svc` href=`" +:+ esc u +:+ html "` target=`_blank` rel=`noopener` title=`open main web`>" +:+ t +:+ "</a>".

Definition on_row (c : row) : string :=
  "<tr><td>" +:+ name_cell c +:+ html "<br><span class=`mono muted` style=`font-size:.75rem`>" +:+ portsLine c
  +:+ "</span></td>"
  +:+ html "<td><button class=`badge up linkbadge` onclick=`openLinks(" +:+ A_ (r_Name c)
  +:+ html ")` title=`tunnel links (main + backup)`><span class=`dot`></span>ON</button></td><td class=`mono`>"
  +:+ or_else (r_IP c) "-" +:+ "</td>"
  +:+ html "<td class=`mono`>" +:+ fmtU (Some (r_Uptime c)) +:+ html "</td><td class=`mono`>" +:+ itoa (r_Active c) +:+ "</td>"
  +:+ "<td>" +:+ rec_cell c +:+ html "</td><td class=`mono muted`>"
  +:+ (if Qzero (r_Latency c) then "-" else toFixed 0 (r_Latency c) +:+ " ms") +:+ "</td>"
  +:+ "<td>" +:+ traffic_cell c +:+ "</td><td>" +:+ speed_cell c +:+ "</td><td>" +:+ upCell c +:+ "</td></tr>".

Definition Zsum_ (l : list Z) : Z := foldl Z.add 0 l.

Definition pill (text : string) : string := html "<span class=`pill`>" +:+ text +:+ "</span>".

(** What a tick leaves in the page: [LAST], and the contents of its elements. *)
Record display := Display { d_LAST : gmap string row; d_gen : string; d_sum : string; d_rows : string }.

Definition on_off (cs : list row) : list row * list row :=
  (filter (fun c => r_Connected c = true) cs, sort_off (filter (fun c => r_Connected c = false) cs)).

Definition tick (generated_at : Z) (cs : list row) : display :=
  let LAST := foldl (fun m c => <[r_Name c := c]> m) ∅ cs in
  let '(on, off) := on_off cs in
  let rows := cat (on_row <$> on) +:+ cat (off_row <$> off) in
  Display LAST
    (if generated_at =? 0 then "" else "updated " +:+ time_text generated_at)
    (pill (itoa (Z.of_nat (length on)) +:+ " connected")
     +:+ (if bool_decide (off = []) then "" else pill (itoa (Z.of_nat (length off)) +:+ " offline"))
     +:+ pill (itoa (Zsum_ (r_Active <$> on)) +:+ " active connections")
     +:+ pill (fmtB (inject_Z (Zsum_ (r_TrafficToday <$> cs))) +:+ " today")
     +:+ pill (itoa (Zsum_ (r_Reconnects <$> on)) +:+ " reconnections"))
    (if bool_decide (rows = "") then html "<tr><td colspan=`10` class=`muted`>no clients</td></tr>" else rows).

(** A tick that fails, with the text of its error. *)
Definition tick_failed (d : display) (e : string) : display := Display (d_LAST d) (d_gen d) (pill e) (d_rows d).

(** The contents of the traffic and availability dialogs after one. *)
Definition dialog_failed (e : string) : string := "error: " +:+ e.
End page.
