(* ===== verification/PageSafe.v ===== *)
(** * What the page's markup is, whatever the data

    The HTML that the script of src/core/internal/monitor/page.go builds ([Page]),
    read as a browser reads it ([Html]): its elements, attributes, links and
    handlers, for any names, titles and URLs. *)

From S2P Require Export Page.

(** ** Markup that is the page's own *)

Definition elements : list string :=
  ["tr"; "td"; "th"; "table"; "b"; "br"; "span"; "div"; "h3"; "a"; "button"; "svg"; "polyline"; "rect"; "line"].

(** Attributes whose value is no code, address or style. *)
Definition inert_attrs : list string :=
  ["class"; "title"; "target"; "rel"; "colspan"; "id"; "width"; "height"; "x"; "y"; "x1"; "x2"; "y1"; "y2";
   "fill"; "stroke"; "stroke-width"; "points"].

Definition styles : list string :=
  ["font-size:.75rem"; "font-size:.72rem"; "font-size:.75rem;margin-top:.3rem"; "max-width:100%";
   "border-radius:3px;max-width:100%"; "margin:.3rem 0 .6rem"; "margin:-.2rem 0 .5rem"; "margin:.2rem 0 .7rem";
   "margin-bottom:.25rem"; "margin-bottom:.4rem"; "white-space:normal";
   "color:var(--up)"; "color:var(--warn)"; "color:var(--down)"; "color:var(--muted)"].

Definition handlers : list string := ["openTraffic"; "openRec"; "openLinks"; "openUptime"; "speed"; "probePort"].

Definition mem (s : string) (l : list string) : bool := existsb (String.eqb s) l.

(** The code of a handler: one call of a function of the page, whose first
    argument is a string that [who] holds of. *)
Definition safe_call (who : string -> Prop) (code : string) : Prop :=
  exists f a k, read_call code = Some (f, a, k) /\ mem f handlers = true /\ who a
    /\ (k = ")" \/ k = ",this)" \/ exists port, k = "," +:+ itoa port +:+ ",this)").

Definition web_address (u : string) : Prop := strip_http true u <> None.

Definition safe_attr (who : string -> Prop) (a : string * string) : Prop :=
  if String.eqb a.1 "onclick" then safe_call who a.2
  else if String.eqb a.1 "href" then web_address a.2
  else if String.eqb a.1 "style" then mem a.2 styles = true
  else mem a.1 inert_attrs = true.

Definition safe (who : string -> Prop) (t : token) : Prop :=
  match t with
  | TChar _ => True
  | TStart n attrs => mem n elements = true /\ Forall (safe_attr who) attrs
  | TEnd n => mem n elements = true
  end.

(** From a state of the tokenizer, a string gives safe tokens and a state. *)
Definition emits (who : string -> Prop) (q : hstate) (s : string) (q' : hstate) : Prop :=
  Forall (safe who) (tok_run q s).1 /\ (tok_run q s).2 = q'.

Section rules.
Context (who : string -> Prop).

Lemma emits_app q s q1 t q2 : emits who q s q1 -> emits who q1 t q2 -> emits who q (s +:+ t) q2.
Proof.
  unfold emits. rewrite tok_run_app. destruct (tok_run q s) as [ts q1']. cbn [fst snd]. intros [H ->].
  destruct (tok_run q1 t) as [ts' q2']. cbn [fst snd]. intros [H' ->]. split; [by apply Forall_app | done].
Qed.

Lemma emits_run q s ts q' : tok_run q s = (ts, q') -> Forall (safe who) ts -> emits who q s q'.
Proof. unfold emits. intros -> H. done. Qed.

Lemma emits_filled q s s' : hole q -> tok_run q s' = filled q s -> emits who q s' (filled q s).2.
Proof.
  intros Hq E. eapply emits_run; [rewrite E; apply surjective_pairing |]. destruct Hq; cbn; [| constructor].
  unfold tok_text. apply Forall_fmap, Forall_true. done.
Qed.

(** Escaping makes any string text, or part of a value. *)
Lemma run_esc q s : hole q -> tok_run q (esc s) = filled q s.
Proof.
  unfold esc. revert q. induction s as [| c s IH]; intros q Hq.
  - destruct Hq; cbn; [done |]. unfold value_app. by rewrite append_nil_r.
  - change (cat (esc_char <$> chars (String c s))) with (esc_char c +:+ cat (esc_char <$> chars s)).
    rewrite tok_run_app, filled_cons by done. assert (tok_run q (esc_char c) = tok_put q c) as ->.
    { unfold esc_char. destruct (Ascii.eqb_spec c AMP) as [-> |]; [by destruct Hq |].
      destruct (Ascii.eqb_spec c LT) as [-> |]; [by destruct Hq |].
      destruct (Ascii.eqb_spec c GT) as [-> |]; [by destruct Hq |].
      destruct (Ascii.eqb_spec c QUOTE) as [-> |]; [by destruct Hq |].
      destruct (Ascii.eqb_spec c SQUOTE) as [-> |]; [by destruct Hq |].
      cbn [tok_run]. rewrite tok_step_inert; [destruct (tok_put q c) as [ts q1]; by rewrite app_nil_r | done |].
      unfold inert, is_lt, is_amp, is_dq. by rewrite !(proj2 (Ascii.eqb_neq _ _)). }
    pose proof (hole_put q c Hq) as Hp. destruct (tok_put q c) as [ts q1]. by rewrite (IH q1).
Qed.

Lemma emits_esc_data s : emits who Data (esc s) Data.
Proof. apply (emits_filled Data s); [| apply run_esc]; constructor. Qed.
Lemma emits_plain_data s : plain s -> emits who Data s Data.
Proof. intros H. apply (emits_filled Data s); [constructor | apply tok_run_plain; [constructor | done]]. Qed.
(** In a value: what follows is read with the value as a variable. *)
Lemma emits_fill t n v s s' r q2 : tok_run (Dq t n v) s' = filled (Dq t n v) s ->
  (forall v', v' = value_app v s -> emits who (Dq t n v') r q2) -> emits who (Dq t n v) (s' +:+ r) q2.
Proof.
  intros E H. eapply emits_app; [apply (emits_filled _ s); [constructor | exact E] |]. by apply H.
Qed.
Lemma emits_fill_esc t n v s r q2 :
  (forall v', v' = value_app v s -> emits who (Dq t n v') r q2) -> emits who (Dq t n v) (esc s +:+ r) q2.
Proof. apply emits_fill, run_esc. constructor. Qed.
Lemma emits_fill_plain t n v s r q2 : plain s ->
  (forall v', v' = value_app v s -> emits who (Dq t n v') r q2) -> emits who (Dq t n v) (s +:+ r) q2.
Proof. intros H. apply emits_fill, tok_run_plain; [constructor | done]. Qed.

Lemma emits_nil q : emits who q "" q.
Proof. by eapply emits_run. Qed.

Lemma emits_if (b : bool) s t q' : emits who Data s q' -> emits who Data t q' -> emits who Data (if b then s else t) q'.
Proof. by destruct b. Qed.

Lemma emits_cat {X} (f : X -> string) (l : list X) :
  Forall (fun x => emits who Data (f x) Data) l -> emits who Data (cat (f <$> l)) Data.
Proof. induction 1 as [| x l Hx _ IH]; [apply emits_nil |]. by eapply emits_app. Qed.

Lemma emits_imap {X} (f : nat -> X -> string) (l : list X) :
  (forall i x, emits who Data (f i x) Data) -> emits who Data (cat (imap f l)) Data.
Proof.
  revert f. induction l as [| x l IH]; intros f H; [apply emits_nil |].
  cbn [imap]. eapply emits_app; [apply H |]. apply (IH (fun i => f (S i))). intros i y. apply H.
Qed.

(** A call with a name in it. *)
Lemma call_safe v f a k : v = f +:+ "(" +:+ stringify a +:+ k -> free_of "(" f -> mem f handlers = true -> who a ->
  (k = ")" \/ k = ",this)" \/ exists port, k = "," +:+ itoa port +:+ ",this)") -> safe_call who v.
Proof. intros -> Hf Hm Ha Hk. exists f, a, k. split; [by apply read_call_stringify | done]. Qed.
End rules.

(** ** Plain text *)

Lemma plain_app s t : plain (s +:+ t) <-> plain s /\ plain t.
Proof. unfold plain. rewrite chars_app. apply Forall_app. Qed.

Lemma plain_if (b : bool) s t : plain s -> plain t -> plain (if b then s else t).
Proof. by destruct b. Qed.

Lemma plain_itoa n : plain (itoa n).
Proof. auto with go. Qed.
Lemma plain_fixed k q : plain (toFixed k q).
Proof. auto with go. Qed.

Lemma plain_join sep l : plain sep -> Forall plain l -> plain (join sep l).
Proof.
  intros Hs. induction 1 as [| s l Hl Hr IH]; [constructor |]. destruct l as [| t l]; [done |].
  change (plain (s +:+ sep +:+ join sep (t :: l))). by rewrite !plain_app.
Qed.

Lemma plain_fmtU s : plain (fmtU s).
Proof.
  destruct s as [s |]; [| by repeat constructor]. unfold fmtU.
  repeat apply plain_if; rewrite ?plain_app; repeat split; try apply plain_itoa; by repeat constructor.
Qed.

Lemma scale_unit base u us n i : plain u -> Forall plain us -> plain (scale base u us n i).1.2.
Proof.
  intros Hu Hs. revert u n i Hu. induction Hs as [| v us Hv _ IH]; intros u n i Hu; cbn [scale]; [done |].
  destruct (Qlt_b n base); [done |]. by apply IH.
Qed.

Lemma plain_fmtB n : plain (fmtB n).
Proof.
  unfold fmtB. destruct (Qzero n); [by repeat constructor |].
  pose proof (scale_unit 1024 "B" ["KB"; "MB"; "GB"; "TB"] n false ltac:(by repeat constructor) ltac:(by repeat constructor)) as H.
  destruct (scale 1024 _ _ _ _) as [[m u] i]. rewrite !plain_app. split; [apply plain_fixed |].
  split; [by repeat constructor | done].
Qed.

(** Texts that are made of numbers and of the page's own words. *)
Ltac plain_text :=
  repeat lazymatch goal with
  | |- plain (if _ then _ else _) => apply plain_if
  | |- plain (String.append _ _) => apply plain_app; split
  | |- plain (itoa _) => apply plain_itoa
  | |- plain (toFixed _ _) => apply plain_fixed
  | |- plain (fmtU _) => apply plain_fmtU
  | |- plain (fmtB _) => apply plain_fmtB
  | |- plain (String _ _) => unfold plain; apply (bool_decide_unpack _); vm_compute; exact I
  | |- plain "" => constructor
  | |- plain _ => assumption
  end.

(** A stretch of the page's own markup: the tokenizer is run, and what it emits is looked at. *)
Ltac own_attr :=
  match goal with |- safe_attr _ (?n, _) =>
    let k := eval vm_compute in (mem n inert_attrs, String.eqb n "style") in
    lazymatch k with
    | (true, _) => (* inert *) reflexivity
    | (_, true) => (* one of the page's styles *) subst; vm_compute; reflexivity
    | _ => (* code or an address: left to the caller *) idtac
    end end.
Ltac own_token :=
  first
    [ exact I
    | reflexivity
    | split; [reflexivity | repeat (apply Forall_cons; split; [own_attr |]); try apply Forall_nil; try exact I] ].
Ltac own_markup :=
  match goal with |- emits _ ?q ?s _ =>
    let r := eval vm_compute in (tok_run q s) in
    lazymatch r with (?ts, ?q') =>
      refine (emits_run _ q s ts q' _ _);
      [ vm_cast_no_check (eq_refl r)
      | repeat (apply Forall_cons; split; [own_token |]); try apply Forall_nil; try exact I ]
    end end.

(** Along a concatenation. *)
Ltac walk1 :=
  lazymatch goal with
  | |- emits _ (Dq _ _ _) (html _ +:+ _) _ => eapply emits_app
  | |- emits _ _ (A_ ?s +:+ ?r) _ => change (A_ s +:+ r) with (esc (stringify s) +:+ r)
  | |- emits _ (Dq _ _ _) (esc _ +:+ _) _ => apply emits_fill_esc; intros ? ?
  | |- emits _ (Dq _ _ _) (_ +:+ _) _ => apply emits_fill_plain; [solve [plain_text] | intros ? ?]
  | |- emits _ _ (_ +:+ _) _ => eapply emits_app
  | |- emits _ Data (esc _) _ => apply emits_esc_data
  | |- emits _ Data (T_ _ _) _ => apply emits_esc_data
  | |- emits _ Data (itoa _) _ => apply emits_plain_data, plain_itoa
  | |- emits _ Data (toFixed _ _) _ => apply emits_plain_data, plain_fixed
  | |- emits _ Data (fmtU _) _ => apply emits_plain_data, plain_fmtU
  | |- emits _ Data (fmtB _) _ => apply emits_plain_data, plain_fmtB
  | |- emits _ Data (if _ then _ else _) _ => first [eassumption | apply emits_plain_data; solve [plain_text] | apply emits_if]
  | |- emits _ (Dq _ _ _) (html _) _ => own_markup
  | |- _ => first [eassumption | solve [eauto with page nocore] | own_markup]
  end.
Ltac walk := repeat walk1.

Create HintDb page.

Section charts.
Context (who : string -> Prop).

Lemma emits_spark vals w h color : plain color -> emits who Data (spark vals w h color) Data.
Proof.
  intros Hc. unfold spark. case_bool_decide; cbv zeta.
  - rewrite ?append_assoc. walk.
  - assert (plain (join " " (imap (fun i v =>
      toFixed 1 (inject_Z (Z.of_nat i) * (inject_Z w / inject_Z (Z.max 1 (Z.of_nat (length vals) - 1))))%Q +:+ ","
      +:+ toFixed 1 (inject_Z h - (v / foldl Qmax_ 1%Q vals) * inject_Z (h - 2) - 1)%Q) vals))) as Hp.
    { apply plain_join; [by repeat constructor |]. apply Forall_forall. intros s Hs.
      apply elem_of_lookup_imap in Hs as (i & v & -> & _). plain_text. }
    rewrite ?append_assoc. walk.
Qed.

Lemma emits_recBars pts w h : emits who Data (recBars pts w h) Data.
Proof.
  unfold recBars. case_bool_decide; cbv zeta; rewrite ?append_assoc; [walk |].
  set (bars := cat _). assert (emits who Data bars Data) as Hb.
  { apply emits_imap. intros i p. unfold rec_bar. cbv zeta. walk. }
  walk.
Qed.

Lemma emits_upBarSvg segs w h : emits who Data (upBarSvg segs w h) Data.
Proof.
  unfold upBarSvg. set (bars := cat _). assert (emits who Data bars Data) as Hb.
  { apply emits_cat, Forall_true. intros g. cbv zeta. destruct (s_u g); walk. }
  walk.
Qed.
End charts.

(** What remains of a handler: the function and what follows the name. *)
Ltac own_call f k :=
  match goal with |- safe_attr _ (_, _) =>
    eapply (call_safe _ _ f _ k);
    [ subst; unfold value_app; rewrite ?append_assoc; reflexivity
    | apply (bool_decide_unpack _); vm_compute; exact I
    | reflexivity | | first [by left | by right; left | idtac] ] end.

Lemma upColor_cases p : upColor p = "var(--up)" \/ upColor p = "var(--warn)" \/ upColor p = "var(--down)".
Proof. unfold upColor. destruct (negb _); [by left |]. destruct (negb _); [by right; left | by right; right]. Qed.

#[export] Hint Resolve emits_recBars emits_upBarSvg : page.
#[export] Hint Extern 1 (emits _ Data (spark _ _ _ _) _) => apply emits_spark; plain_text : page.

(** ** The cells of the table *)

Section cells.
Context (protocol host : string) (time_text : Z -> string).

(** A link that the page can build is a web address. *)
Context (Hprotocol : protocol = "http:" \/ protocol = "https:").

Lemma http_web s rest : s = "http://" \/ s = "https://" -> web_address (s +:+ rest).
Proof.
  assert (forall p t, has_prefix (p +:+ t) p = true) as Hp.
  { unfold has_prefix. intros p t. induction p as [| c p IH]; [by destruct t |].
    change (String c p +:+ t) with (String c (p +:+ t)). cbn [String.prefix]. by destruct (Ascii.ascii_dec c c). }
  assert (forall p, has_prefix (of_chars (ascii_lower <$> chars (p +:+ rest))) (of_chars (ascii_lower <$> chars p)) = true) as Hl.
  { intros p. rewrite chars_app, fmap_app, of_chars_app. apply Hp. }
  intros [-> | ->]; unfold web_address, strip_http; cbv zeta.
  - rewrite (Hl "http://" : has_prefix _ "http://" = true). done.
  - rewrite (Hl "https://" : has_prefix _ "https://" = true). by destruct (has_prefix _ _).
Qed.

Lemma linkUrl_web label : linkUrl protocol host label = "" \/ web_address (linkUrl protocol host label).
Proof.
  unfold linkUrl. destruct (_ || _); [by left |]. right.
  generalize (label +:+ "." +:+ join "." (drop 1 (split "." host))) as rest. intros rest.
  destruct Hprotocol as [-> | ->]; [apply (http_web "http://") | apply (http_web "https://")]; auto.
Qed.

Lemma mainUrl_web c : mainUrl protocol host c = "" \/ web_address (mainUrl protocol host c).
Proof. unfold mainUrl. destruct (list_find _ _) as [[i l] |]; [apply linkUrl_web | by left]. Qed.

Section cell.
Context (who : string -> Prop) (c : row) (Hwho : who (r_Name c)).

Lemma emits_upCell : emits who Data (upCell c) Data.
Proof.
  unfold upCell. cbv zeta. destruct (Qlt_b _ 0); [walk |].
  destruct (upColor_cases (r_Uptime24h c)) as [-> | [-> | ->]]; walk; by own_call "openUptime" ")".
Qed.

Lemma emits_rec_cell : emits who Data (rec_cell c) Data.
Proof. unfold rec_cell. cbv zeta. walk; by own_call "openRec" ")". Qed.

Lemma emits_traffic_cell : emits who Data (traffic_cell c) Data.
Proof.
  unfold traffic_cell. walk; by own_call "openTraffic" ")".
Qed.

Lemma emits_speed_cell : emits who Data (speed_cell c) Data.
Proof.
  unfold speed_cell.
  destruct (r_Speedtest c); walk; by own_call "speed" ",this)".
Qed.

Lemma emits_name_cell : emits who Data (name_cell protocol host c) Data.
Proof.
  unfold name_cell. cbv zeta. case_bool_decide as E; [walk |].
  destruct (mainUrl_web c) as [? | Hw]; [done |]. walk. subst. exact Hw.
Qed.

Lemma emits_portsLine : emits who Data (portsLine c) Data.
Proof.
  unfold portsLine. cbv zeta. eapply (emits_app _ _ _ Data).
  - walk.
  - assert (forall l, Forall (fun s => emits who Data s Data) l -> emits who Data (join " · " l) Data) as Hj.
    { induction 1 as [| s l Hs Hl IH]; [apply emits_nil |]. destruct l as [| t l]; [done |].
      change (emits who Data (s +:+ " · " +:+ join " · " (t :: l)) Data). walk. }
    apply Hj. case_bool_decide; apply Forall_fmap, Forall_true; intros p; unfold compose; [walk |].
    walk.
Qed.

Lemma emits_off_row : emits who Data (off_row c) Data.
Proof.
  unfold off_row. pose proof emits_upCell. walk.
Qed.

(** The address is the one string of a row that the page does not escape. *)
Lemma emits_on_row : plain (r_IP c) -> emits who Data (on_row protocol host c) Data.
Proof.
  intros Hip. unfold on_row. pose proof emits_upCell. pose proof emits_rec_cell. pose proof emits_traffic_cell.
  pose proof emits_speed_cell. pose proof emits_name_cell. pose proof emits_portsLine.
  assert (emits who Data (or_else (r_IP c) "-") Data) as Hi
    by (apply emits_plain_data; unfold or_else; plain_text).
  walk. by own_call "openLinks" ")".
Qed.

End cell.

Lemma emits_port_line who name ports p : who name -> emits who Data (port_line name ports p) Data.
Proof.
  intros Hwho. unfold port_line. cbv zeta. set (url := if bool_decide (pi_url p = "") then _ else _).
  assert (emits who Data url Data) as Hu.
  { unfold url. apply emits_if; [walk |]. case_bool_decide as E; [walk |]. walk. subst.
    unfold safe_attr, web_address. cbn [fst snd String.eqb]. unfold safeHref in *.
    change (value_app "" ?u) with u. destruct (strip_http true (pi_url p)) eqn:Es; [by rewrite Es | done]. }
  walk. eapply (call_safe _ _ "probePort" _ ("," +:+ itoa (pi_port p) +:+ ",this)"));
    [subst; unfold value_app; rewrite ?append_assoc; reflexivity
    | apply (bool_decide_unpack _); vm_compute; exact I | reflexivity | done | right; right; by eexists].
Qed.

Lemma emits_link_line who x : web_address x.2 -> emits who Data (link_line x) Data.
Proof. destruct x as [[k l] u]. intros Hw. unfold link_line. walk. subst. exact Hw. Qed.

(** ** The dialogs and the table *)

Section dialogs.
Context (who : string -> Prop) (LAST : gmap string row) (name : string).

Lemma emits_traffic ports days : Forall (fun x => plain (r_date x)) days ->
  emits who Data (traffic_html LAST name ports days) Data.
Proof.
  intros Hd. unfold traffic_html. set (ps := cat (_ <$> ports)). set (ds := cat (_ <$> days)).
  assert (emits who Data ps Data) by (apply emits_cat, Forall_true; intros p; walk).
  assert (emits who Data ds Data).
  { apply emits_cat. eapply Forall_impl; [exact Hd |]. intros x Hx. cbn beta in *.
    pose proof (emits_plain_data who _ Hx). walk. }
  walk.
Qed.

Lemma emits_rec c : (forall t, plain (time_text t)) -> emits who Data (rec_html time_text LAST name c) Data.
Proof.
  intros Ht. unfold rec_html. cbv zeta.
  assert (forall t, emits who Data (time_text t) Data) by (intros t; by apply emits_plain_data).
  walk; first [done | apply emits_recBars].
Qed.

Lemma emits_links : who name -> emits who Data (openLinks protocol host LAST name) Data.
Proof.
  intros Hn. unfold openLinks. cbv zeta. set (pi := match LAST !! name with Some c => r_PortInfo c | None => [] end).
  set (rows := filter _ _). set (pls := cat (_ <$> pi)). set (lls := cat (_ <$> rows)).
  assert (emits who Data pls Data) by (apply emits_cat, Forall_true; intros p; by apply emits_port_line).
  assert (emits who Data lls Data).
  { apply emits_cat, Forall_forall. intros x [Hx Hin]%list_elem_of_filter. apply emits_link_line.
    apply list_elem_of_fmap in Hin as (l & -> & _). cbn [snd] in *. by destruct (linkUrl_web (l_host l)). }
  walk.
Qed.

Lemma emits_block ev now label win : plain label -> emits who Data (up_block ev now label win) Data.
Proof.
  intros Hl. unfold up_block. cbv zeta. pose proof (emits_upBarSvg who (upCompute ev (now - win) now).2 560 22).
  destruct (upCompute ev (now - win) now).1 as [p |].
  - destruct (upColor_cases p) as [-> | [-> | ->]]; rewrite ?append_assoc; pose proof (emits_plain_data who _ Hl); walk.
  - pose proof (emits_plain_data who _ Hl). walk.
Qed.

Lemma emits_uptime ev now : emits who Data (uptime_html LAST name ev now) Data.
Proof.
  unfold uptime_html. pose proof (emits_block ev now "Last 24 h" 86400 ltac:(by repeat constructor)).
  pose proof (emits_block ev now "Last 7 days" (7 * 86400) ltac:(by repeat constructor)). walk.
Qed.
End dialogs.

Lemma emits_pill who s : emits who Data s Data -> emits who Data (pill s) Data.
Proof. intros H. unfold pill. walk. Qed.
End cells.

Lemma sort_off_perm l : sort_off l ≡ₚ l.
Proof.
  assert (forall c l, insert_off c l ≡ₚ c :: l) as Hi.
  { intros c l'. induction l' as [| x l' IH]; [done |]. cbn. destruct (Qlt_b _ _); [| done].
    rewrite IH. apply Permutation_swap. }
  induction l as [| c l IH]; [done |]. change (insert_off c (sort_off l) ≡ₚ c :: l). by rewrite Hi, IH.
Qed.

Lemma on_off_spec cs : let '(on, off) := on_off cs in
  (on ++ off ≡ₚ cs) /\ Forall (fun c => r_Connected c = true) on /\ Forall (fun c => r_Connected c = false) off.
Proof.
  unfold on_off. split; [| split].
  - rewrite sort_off_perm. induction cs as [| c cs IH]; [done |]. rewrite !filter_cons.
    destruct (r_Connected c) eqn:E.
    + rewrite decide_True, decide_False by done. cbn [app]. by rewrite IH.
    + rewrite decide_False, decide_True by done. rewrite <-Permutation_middle. by rewrite IH.
  - apply Forall_forall. by intros c [H _]%list_elem_of_filter.
  - rewrite sort_off_perm. apply Forall_forall. by intros c [H _]%list_elem_of_filter.
Qed.

Lemma emits_tokenize who s : emits who Data s Data -> exists ts, tokenize s = (ts, Data) /\ Forall (safe who) ts.
Proof. unfold emits, tokenize. destruct (tok_run Data s) as [ts q]. cbn. intros [H ->]. eauto. Qed.

Lemma safe_mono (who who' : string -> Prop) t : (forall a, who a -> who' a) -> safe who t -> safe who' t.
Proof.
  intros H. destruct t as [| n attrs |]; [done | | done]. intros [Hn Ha]. split; [done |].
  eapply Forall_impl; [exact Ha |]. intros a. unfold safe_attr. destruct (String.eqb _ _); [| done].
  intros (f & b & k & ? & ? & ? & ?). exists f, b, k. auto.
Qed.

Lemma emits_mono (who who' : string -> Prop) q s q' : (forall a, who a -> who' a) -> emits who q s q' -> emits who' q s q'.
Proof. intros H [Hf He]. split; [| done]. eapply Forall_impl; [exact Hf |]. intros t. by apply safe_mono. Qed.

(** ** Properties *)

(** The HTML of a client's row. *)
Definition row_html (protocol host : string) (c : row) : string :=
  if r_Connected c then on_row protocol host c else off_row c.

(** C2: what a client is called cannot change the page. For any answer of
    /api/status (any names, titles, port names, URLs, labels and numbers; addresses
    without [<], [&] or a double quote, as those of the network are) the HTML that
    a tick puts in the table and in the summary is read back as complete markup of
    the page's own elements and attributes: every link is an http or https
    address, every style is one of the page's, and every handler is one call of
    one of the page's functions on the name of a client of the answer, as a string
    literal. In the row of a client it is that client's name. *)
Theorem panel_markup_safe (protocol host : string) (time_text : Z -> string) (at_ : Z) (cs : list row)
    (Hprotocol : protocol = "http:" \/ protocol = "https:")
    (Hip : Forall (fun c => r_Connected c = true -> plain (r_IP c)) cs) :
  let d := tick protocol host time_text at_ cs in
  (exists ts, tokenize (d_rows d) = (ts, Data) /\ Forall (safe (fun a => a ∈ r_Name <$> cs)) ts)
  /\ (exists ts, tokenize (d_sum d) = (ts, Data) /\ Forall (safe (fun _ => False)) ts)
  /\ Forall (fun c => exists ts, tokenize (row_html protocol host c) = (ts, Data) /\ Forall (safe (eq (r_Name c))) ts) cs.
Proof.
  cbv zeta. pose proof (on_off_spec cs) as Hs. unfold tick. destruct (on_off cs) as [on off]. cbn [d_rows d_sum].
  destruct Hs as (Hperm & Hon & Hoff).
  assert (forall c, c ∈ on -> r_Connected c = true /\ plain (r_IP c) /\ c ∈ cs) as Hin.
  { intros c Hc. rewrite Forall_forall in Hon, Hip. assert (c ∈ cs) by (rewrite <-Hperm; set_solver). auto. }
  assert (forall c, c ∈ off -> c ∈ cs) as Hin' by (intros c Hc; rewrite <-Hperm; set_solver).
  split; [| split].
  - apply emits_tokenize.
    assert (emits (fun a => a ∈ r_Name <$> cs) Data (cat (on_row protocol host <$> on) +:+ cat (off_row <$> off)) Data) as H.
    { eapply emits_app; apply emits_cat, Forall_forall; intros c Hc.
      - destruct (Hin c Hc) as (_ & ? & ?). apply emits_on_row; [done | by apply list_elem_of_fmap_2 | done].
      - apply emits_off_row. apply list_elem_of_fmap_2. auto. }
    case_bool_decide; [own_markup | exact H].
  - apply emits_tokenize. repeat (eapply emits_app; [first [apply emits_pill; walk | apply emits_if; [walk | apply emits_pill; walk]] |]).
    apply emits_pill. walk.
  - apply Forall_forall. intros c Hc. apply emits_tokenize. unfold row_html. destruct (r_Connected c) eqn:E.
    + apply emits_on_row; [done | done |]. rewrite Forall_forall in Hip. auto.
    + by apply emits_off_row.
Qed.

(** C27: the dialogs too. Whatever the last answer of /api/status holds, and for any
    name, the HTML of each of the four dialogs is complete markup of the page's own
    elements; its links are web addresses, also when the metadata gives a port any
    other URL, and its handlers are calls on that name. Dates and times of day are
    taken to be free of markup, as the server and the browser write them. *)
Theorem dialogs_safe (protocol host : string) (time_text : Z -> string) (LAST : gmap string row) (name : string)
    (ports : list portRow) (days : list dayRow) (ev : list upEvent) (now : Z)
    (Hprotocol : protocol = "http:" \/ protocol = "https:") (Htime : forall t, plain (time_text t))
    (Hdays : Forall (fun x => plain (r_date x)) days) :
  let ok s := exists ts, tokenize s = (ts, Data) /\ Forall (safe (eq name)) ts in
  ok (traffic_html LAST name ports days)
  /\ (forall s, openRec time_text LAST name = Some s -> ok s)
  /\ ok (openLinks protocol host LAST name)
  /\ ok (uptime_html LAST name ev now).
Proof.
  cbv zeta. split_and!.
  - by apply emits_tokenize, emits_traffic.
  - intros s. unfold openRec. destruct (LAST !! name) as [c |]; [| done]. intros [= <-]. by apply emits_tokenize, emits_rec.
  - by apply emits_tokenize, emits_links.
  - by apply emits_tokenize, emits_uptime.
Qed.

Lemma tokenize_app s t ts ts' : tokenize s = (ts, Data) -> tokenize t = (ts', Data) -> tokenize (s +:+ t) = (ts ++ ts', Data).
Proof. unfold tokenize. intros Hs Ht. by rewrite tok_run_app, Hs, Ht. Qed.

Lemma tokenize_pill s ts : tokenize s = (ts, Data) ->
  tokenize (pill s) = (TStart "span" [("class", "pill")] :: ts ++ [TEnd "span"], Data).
Proof.
  intros Hs. unfold pill.
  apply (tokenize_app _ _ [TStart "span" [("class", "pill")]]); [by vm_compute |]. apply tokenize_app; [done | by vm_compute].
Qed.

(** C39: the text of an error is the exception. A tick that fails puts the error's
    text into the summary without escaping it, and so do the two dialogs: whatever
    markup the text quotes, between any text, is markup of the page, with its
    elements, attributes and scripts, where [esc] would have made all of it text. *)
Theorem error_is_markup (d : display) (pre m post : string) (ts : list token)
    (Hpre : tokenize pre = (tok_text pre, Data)) (Hm : tokenize m = (ts, Data)) (Hpost : tokenize post = (tok_text post, Data)) :
  let e := pre +:+ m +:+ post in
  let quoted := tok_text pre ++ ts ++ tok_text post in
  tokenize (d_sum (tick_failed d e)) = (TStart "span" [("class", "pill")] :: quoted ++ [TEnd "span"], Data)
  /\ tokenize (dialog_failed e) = (tok_text "error: " ++ quoted, Data)
  /\ tokenize (pill (esc e)) = (TStart "span" [("class", "pill")] :: tok_text e ++ [TEnd "span"], Data).
Proof.
  cbv zeta. assert (tokenize (pre +:+ m +:+ post) = (tok_text pre ++ ts ++ tok_text post, Data)) as He
    by (apply tokenize_app; [done |]; by apply tokenize_app).
  split; [by apply tokenize_pill |]. split; [apply (tokenize_app _ _ (tok_text "error: ")); [by vm_compute | done] |].
  apply tokenize_pill, run_esc. constructor.
Qed.

(** ** Witnesses *)

Definition evil : string := html "</b><script>alert(`1`)</script>".

(** A connected client whose title, port and link are hostile, and one that is offline. *)
Definition demo_on : row :=
  MkRow evil evil [PortInfo 8022 evil (html "javascript:alert(1)`>")] true "10.0.0.1" [8022] 90 7 (21 # 2) 1
    10 20 "" [Sample 5 1 2 1 10 6; Sample 10 3 4 1 10 7] true 5 6 [5; 6]%Q
    1500 0 97 [MkLink "main" evil evil] "" None "" 0 "" None "".
Definition demo_off : row :=
  MkRow "tk-b" "" [] false "" [] 0 0 0 0 0 0 "" [] false 0 0 [] 0 86500 (-1) [] "" None "" 0 "" None "".

(** What a browser says of an answer that is not JSON. *)
Lemma error_is_markup_witness :
  exists after, tokenize (d_sum (tick_failed (Display ∅ "" "" "")
      (html "SyntaxError: Unexpected token in `" +:+ html "<img src=x onerror=`alert(1)`>" +:+ html "` is not valid JSON")))
    = (TStart "span" [("class", "pill")] :: tok_text (html "SyntaxError: Unexpected token in `")
       ++ TStart "img" [("src", "x"); ("onerror", "alert(1)")] :: after, Data).
Proof.
  eexists. etransitivity.
  - refine (proj1 (error_is_markup (Display ∅ "" "" "") (html "SyntaxError: Unexpected token in `")
      (html "<img src=x onerror=`alert(1)`>") (html "` is not valid JSON") [TStart "img" [("src", "x"); ("onerror", "alert(1)")]] _ _ _));
      vm_compute; reflexivity.
  - rewrite <-app_assoc. reflexivity.
Defined.

Lemma panel_markup_safe_witness :
  exists ts, tokenize (d_rows (tick "https:" "panel.example.org" (fun _ => "12:00") 1700000000 [demo_on; demo_off])) = (ts, Data)
    /\ Forall (safe (fun a => a ∈ [evil; "tk-b"])) ts.
Proof.
  apply (panel_markup_safe "https:" "panel.example.org" (fun _ => "12:00") 1700000000 [demo_on; demo_off]);
    [by right | repeat constructor; intros _; apply (bool_decide_unpack _); vm_compute; exact I].
Defined.

Lemma dialogs_safe_witness :
  exists ts, tokenize (openLinks "https:" "panel.example.org" {[evil := demo_on]} evil) = (ts, Data)
    /\ Forall (safe (eq evil)) ts.
Proof.
  apply (dialogs_safe "https:" "panel.example.org" (fun _ => "12:00") {[evil := demo_on]} evil
           [PortRow 8022 1 2] [DayRow "2026-01-02" 3] [UpEvent 5 true] 1000);
    [by right | intros t; by repeat constructor | by repeat constructor].
Defined.
