(* ===== verification/PageShow.v ===== *)
(** * What the page shows

    The contents of the panel's page ([Page]) against the server's state: the
    availability of the dialog and of the table, the bar drawn of it, who is
    listed, and which client a button's request is about. *)

From Stdlib Require Import Qfield Lqa.
From S2P Require Import PageSafe.

(** ** Availability *)

Lemma up_loop_dur from to ef cursor cur d ev :
  (up_loop from to ef cursor cur d ev).2 = up_dur ef to cursor cur d ev.
Proof.
  revert cursor cur d. induction ev as [| e ev IH]; intros cursor cur d; cbn [up_loop up_dur]; [done |].
  destruct (T e <=? ef); [done |]. destruct (to <=? T e); [done |]. rewrite <-IH. by destruct (up_loop _ _ _ _ _ _ _).
Qed.

(** A row of segments from [a] to [b], each one as wide as nothing or more. *)
Fixpoint tiles (a : Q) (segs : list seg) (b : Q) : Prop :=
  match segs with
  | [] => a == b
  | g :: r => s_a g == a /\ s_a g <= s_b g /\ tiles (s_b g) r b
  end%Q.

(** The width of the segments of a shade. *)
Fixpoint width (u : shade) (segs : list seg) : Q :=
  match segs with
  | [] => 0
  | g :: r =>
      match u, s_u g with
      | Up_, Up_ | Down_, Down_ | NoData, NoData => (s_b g - s_a g) + width u r
      | _, _ => width u r
      end
  end%Q.

Lemma inject_pos z : 0 < z -> (0 < inject_Z z)%Q.
Proof. intros H. change 0%Q with (inject_Z 0). by rewrite <-Zlt_Qlt. Qed.

Lemma inject_Z_minus a b : inject_Z (a - b) = (inject_Z a - inject_Z b)%Q.
Proof. unfold Z.sub. by rewrite inject_Z_plus, inject_Z_opp. Qed.

Lemma frac_le from span t t' : 0 < span -> t <= t' -> (frac from span t <= frac from span t')%Q.
Proof.
  intros Hs H. unfold frac, Qdiv. apply Qmult_le_compat_r; [rewrite <-Zle_Qle; lia |].
  apply Qlt_le_weak, Qinv_lt_0_compat, inject_pos. done.
Qed.

Lemma frac_diff from span t t' : 0 < span -> (frac from span t' - frac from span t == inject_Z (t' - t) / inject_Z span)%Q.
Proof.
  intros Hs. unfold frac. rewrite !inject_Z_minus. field. pose proof (inject_pos _ Hs). lra.
Qed.

Lemma frac_end from to : from < to -> (frac from (to - from) to == 1)%Q.
Proof. intros H. unfold frac. field. pose proof (inject_pos (to - from) ltac:(lia)). lra. Qed.

Lemma frac_start from span : 0 < span -> (frac from span from == 0)%Q.
Proof. intros H. unfold frac. replace (from - from) with 0 by lia. field. pose proof (inject_pos _ H). lra. Qed.

Lemma up_loop_tiles from to ef cursor cur d ev :
  from < to -> ef <= cursor -> cursor <= to -> StronglySorted times_le ev -> Forall (fun e => T e <= ef \/ cursor <= T e) ev ->
  let '(segs, d') := up_loop from to ef cursor cur d ev in
  tiles (frac from (to - from) cursor) segs 1
  /\ (width Up_ segs == inject_Z (d' - d) / inject_Z (to - from))%Q /\ width NoData segs = 0%Q.
Proof.
  intros Hft Hec Hct Hs. revert cursor cur d Hec Hct.
  assert (forall cursor cur d, cursor <= to ->
    let segs := [Seg (frac from (to - from) cursor) 1 (shade_of cur)] in
    let d' := if cur : bool then d + (to - cursor) else d in
    tiles (frac from (to - from) cursor) segs 1
    /\ (width Up_ segs == inject_Z (d' - d) / inject_Z (to - from))%Q /\ width NoData segs = 0%Q) as Hend.
  { intros cursor cur d Hct. cbn [tiles s_a s_b]. pose proof (frac_end from to Hft) as H1.
    pose proof (frac_le from (to - from) cursor to ltac:(lia) Hct) as Hle. split; [split; [done |]; split; lra |].
    pose proof (frac_diff from (to - from) cursor to ltac:(lia)) as Hd.
    destruct cur; cbn [width shade_of s_u s_a s_b]; (split; [| done]).
    - replace (d + (to - cursor) - d) with (to - cursor) by lia. lra.
    - replace (d - d) with 0 by lia. unfold Qdiv. by rewrite Qmult_0_l. }
  induction Hs as [| e ev Hs IH Hf]; intros cursor cur d Hec Hct HF; cbn [up_loop]; [by apply Hend |].
  apply Forall_cons in HF as [He HF]. destruct (Z.leb_spec (T e) ef) as [Hle | Hgt].
  { by apply IH. }
  destruct (Z.leb_spec to (T e)) as [Hle | Hlt]; [by apply Hend |].
  assert (cursor <= T e) as Hce by lia.
  specialize (IH (T e) (U e) (if cur then d + (T e - cursor) else d) ltac:(lia) ltac:(lia)).
  destruct (up_loop _ _ _ _ _ _ _) as [segs d'].
  destruct IH as (Ht & Hw & Hn); [eapply Forall_impl; [exact Hf |]; intros x Hx; by right |].
  cbn [tiles s_a s_b]. pose proof (frac_le from (to - from) cursor (T e) ltac:(lia) Hce) as Hle.
  split; [split; [done |]; by split |]. pose proof (frac_diff from (to - from) cursor (T e) ltac:(lia)) as Hd.
  destruct cur; cbn [width shade_of s_u s_a s_b]; (split; [| done]); rewrite Hw; [| done].
  rewrite Hd. replace (d' - d) with ((T e - cursor) + (d' - (d + (T e - cursor)))) by lia.
  rewrite (inject_Z_plus (T e - cursor)). unfold Qdiv. ring.
Qed.

(** ** Properties *)

(** The percentage of the dialog. The page computes the availability of its
    dialog itself, in the browser, from the events of /api/uptime; for every log,
    window and time that is the percentage the server computes ([uptimePct], which
    the table shows for 24 hours), and "no data" exactly where the server
    answers -1. *)
Theorem dialog_agrees (t : TrafficStore) (name : string) (now : time) (windowSec : Z) :
  exists n ev, api_uptime now (Some t) name = Answer (name, n, ev)
  /\ uptimePct now t name windowSec = default (-1)%Q (upCompute ev (n - windowSec) n).1.
Proof.
  eexists _, _. split; [reflexivity |]. unfold uptimePct, uptimeSeries, upCompute.
  destruct (Traffic.m t !! name) as [c |]; [| done]. destruct (Up c) as [| e0 ev]; [done |].
  set (n := unix now). set (ef := if n - windowSec <? T e0 then T e0 else n - windowSec).
  pose proof (up_loop_dur (n - windowSec) n ef ef (entering ef (U e0) (e0 :: ev)) 0 (e0 :: ev)) as H.
  destruct (up_loop _ _ _ _ _ _ _) as [segs d]. cbn [snd] in H. subst d. cbn [fst].
  destruct (Z.leb_spec (n - ef) 0); destruct (Z.ltb_spec 0 (n - ef)); [lia | done | done | lia].
Qed.

(** C26: the bar is true to scale. For a log in order of time that starts before the
    end of the window, the segments cover the bar from end to end without gap or
    overlap, grey is the part before the first event, and the percentage shown is
    the share of green in the part that is not grey. *)
Theorem bar_to_scale (ev : list upEvent) (from to : Z) (e0 : upEvent)
    (Hwin : from < to) (Hhead : head ev = Some e0) (Hsort : StronglySorted times_le ev) (Hstart : T e0 < to) :
  let '(pct, segs) := upCompute ev from to in
  tiles 0 segs 1
  /\ (width NoData segs == inject_Z (Z.max from (T e0) - from) / inject_Z (to - from))%Q
  /\ exists p, pct = Some p /\ (p * (1 - width NoData segs) == 100 * width Up_ segs)%Q.
Proof.
  destruct ev as [| e ev]; [done |]. injection Hhead as ->. unfold upCompute.
  set (ef := if from <? T e0 then T e0 else from).
  assert (ef = Z.max from (T e0)) as Hef by (unfold ef; destruct (Z.ltb_spec from (T e0)); lia).
  pose proof (up_loop_tiles from to ef ef (entering ef (U e0) (e0 :: ev)) 0 (e0 :: ev) Hwin ltac:(lia) ltac:(lia) Hsort) as H.
  destruct (up_loop _ _ _ _ _ _ _) as [segs d]. destruct H as (Ht & Hw & Hn); [apply Forall_true; intros; lia |].
  rewrite Z.sub_0_r in Hw. replace (0 <? to - ef) with true by lia. rewrite <-Hef.
  set (grey := if from <? ef then _ else _).
  pose proof (inject_pos (to - from) ltac:(lia)) as Hspan. pose proof (inject_pos (to - ef) ltac:(lia)) as Hcov.
  pose proof (frac_start from (to - from) ltac:(lia)) as H0.
  pose proof (frac_diff from (to - from) from ef ltac:(lia)) as Hdiff.
  assert (tiles 0 (grey ++ segs) 1 /\ (width NoData (grey ++ segs) == inject_Z (ef - from) / inject_Z (to - from))%Q
          /\ width Up_ (grey ++ segs) = width Up_ segs) as (Ht' & Hn' & Hu').
  { unfold grey. destruct (Z.ltb_spec from ef) as [Hlt | Hge].
    - cbn [app tiles width s_a s_b s_u]. rewrite Hn. pose proof (frac_le from (to - from) from ef ltac:(lia) ltac:(lia)).
      split; [split; [lra |]; split; [lra | done] |]. split; [| done]. rewrite <-Hdiff, H0. lra.
    - assert (ef = from) as E by lia. rewrite E in *. cbn [app]. rewrite Hn. split; [| split; [| done]].
      + destruct segs as [| g r]; cbn [tiles] in *; [by rewrite <-H0 |]. destruct Ht as (Ha & ? & ?). split; [by rewrite Ha, H0 | done].
      + rewrite Z.sub_diag. unfold Qdiv. by rewrite Qmult_0_l. }
  split; [done |]. split; [done |]. eexists. split; [reflexivity |]. rewrite Hu', Hn', Hw.
  replace (ef - from) with ((to - from) - (to - ef)) by lia. rewrite (inject_Z_minus (to - from)). field. split; lra.
Qed.

(** ** Who is listed *)

Definition longer_off (a b : row) : Prop := (r_OfflineSeconds b <= r_OfflineSeconds a)%Q.

Lemma Qlt_b_spec a b : Qlt_b a b = true <-> (a < b)%Q.
Proof. unfold Qlt_b, Qlt. rewrite Z.ltb_lt. lia. Qed.

Lemma insert_off_sorted c l : StronglySorted longer_off l -> StronglySorted longer_off (insert_off c l).
Proof.
  assert (forall c l x, x ∈ insert_off c l -> x = c \/ x ∈ l) as Hin.
  { clear. intros c l x. induction l as [| y l IH]; cbn; [set_solver |]. destruct (Qlt_b _ _); set_solver. }
  induction 1 as [| x l Hs IH Hf]; cbn; [by repeat constructor |].
  destruct (Qlt_b (r_OfflineSeconds c) (r_OfflineSeconds x)) eqn:E.
  - apply Qlt_b_spec in E. constructor; [done |]. apply Forall_forall. intros y [-> | Hy]%Hin.
    + unfold longer_off. lra.
    + rewrite Forall_forall in Hf. by apply Hf.
  - assert (longer_off c x) as Hcx.
    { unfold longer_off. destruct (Qlt_le_dec (r_OfflineSeconds c) (r_OfflineSeconds x)) as [Hlt | Hle]; [| done].
      apply Qlt_b_spec in Hlt. congruence. }
    constructor; [by constructor |]. constructor; [done |]. eapply Forall_impl; [exact Hf |].
    unfold longer_off in *. intros y Hy. cbn in *. lra.
Qed.

Lemma sort_off_sorted l : StronglySorted longer_off (sort_off l).
Proof. induction l as [| c l IH]; [constructor |]. by apply insert_off_sorted. Qed.

Lemma last_of_name (cs : list row) (m0 : gmap string row) n :
  foldl (fun m c => <[r_Name c := c]> m) m0 cs !! n
  = match last (filter (fun c => r_Name c = n) cs) with Some c => Some c | None => m0 !! n end.
Proof.
  induction cs as [| c cs IH] using rev_ind; [done |]. rewrite foldl_snoc, filter_app, last_app.
  rewrite filter_cons, filter_nil. destruct (decide (r_Name c = n)) as [<- | Hne]; cbn [last].
  - by rewrite lookup_insert_eq.
  - by rewrite lookup_insert_ne.
Qed.

(** C29: every client of the answer has one row. The table is the rows of the
    connected clients in the order of the answer, then those of the others, the
    longest offline first; no client of the answer is missing or shown twice, and
    the dialogs find the last row of each name. *)
Theorem tick_lists_all (protocol host : string) (time_text : Z -> string) (at_ : Z) (cs : list row) (Hne : cs <> []) :
  let d := tick protocol host time_text at_ cs in
  exists shown, d_rows d = cat (row_html protocol host <$> shown) /\ shown ≡ₚ cs
  /\ (exists on off, shown = on ++ off /\ on = filter (fun c => r_Connected c = true) cs
        /\ Forall (fun c => r_Connected c = false) off /\ StronglySorted longer_off off)
  /\ forall n, d_LAST d !! n = last (filter (fun c => r_Name c = n) cs).
Proof.
  cbv zeta. pose proof (on_off_spec cs) as Hs. unfold tick. destruct (on_off cs) as [on off] eqn:E. cbn [d_rows d_LAST].
  destruct Hs as (Hperm & Hon & Hoff). unfold on_off in E. injection E as Eon Eoff.
  assert (cat (on_row protocol host <$> on) +:+ cat (off_row <$> off) = cat (row_html protocol host <$> on ++ off)) as Hcat.
  { rewrite fmap_app. assert (forall l k, cat (l ++ k) = cat l +:+ cat k) as Hc.
    { intros l k. induction l as [| s l IH]; [done |]. cbn [app cat foldr]. fold (cat (l ++ k)). fold (cat l).
      by rewrite IH, append_assoc. }
    rewrite Hc. f_equal.
    - f_equal. apply list_fmap_ext. intros i c Hc'. apply list_elem_of_lookup_2 in Hc'. rewrite Forall_forall in Hon.
      unfold row_html. by rewrite (Hon c Hc').
    - f_equal. apply list_fmap_ext. intros i c Hc'. apply list_elem_of_lookup_2 in Hc'. rewrite Forall_forall in Hoff.
      unfold row_html. by rewrite (Hoff c Hc'). }
  exists (on ++ off). split; [| split; [done |]; split].
  - rewrite bool_decide_eq_false_2; [done |]. rewrite Hcat. destruct (on ++ off) as [| c l] eqn:El.
    + by apply Permutation_nil in Hperm.
    + cbn. unfold row_html. by destruct (r_Connected c).
  - exists on, off. split_and!; [done | done | done |]. subst off. apply sort_off_sorted.
  - intros n. rewrite last_of_name. by destruct (last _).
Qed.

(** ** Buttons *)

(** The code of the handlers of a fragment. *)
Definition onclicks (ts : list token) : list string :=
  ts ≫= fun t => match t with
                 | TStart _ attrs => omap (fun a => if String.eqb a.1 "onclick" then Some a.2 else None) attrs
                 | _ => []
                 end.

(** The request that a function of the page makes for a name. *)
Definition request_of (f name : string) : option string :=
  if bool_decide (f = "openTraffic") then Some (traffic_url name)
  else if bool_decide (f = "openUptime") then Some (uptime_url name)
  else if bool_decide (f = "speed") then Some (speed_url name)
  else None.

Lemma onclicks_safe who ts code : Forall (safe who) ts -> code ∈ onclicks ts -> safe_call who code.
Proof.
  intros Hf (t & Hc & Ht)%list_elem_of_bind. rewrite Forall_forall in Hf. specialize (Hf t Ht).
  destruct t as [| n attrs |]; [set_solver | | set_solver]. destruct Hf as [_ Ha].
  apply list_elem_of_omap in Hc as (a & Hin & Ha'). rewrite Forall_forall in Ha. specialize (Ha a Hin).
  unfold safe_attr in Ha. destruct (String.eqb a.1 "onclick"); [| done]. by injection Ha' as <-.
Qed.

Lemma request_names f name url : request_of f name = Some url -> query_get url "client" = name.
Proof.
  assert (forall path, free_of "?" path -> free_of "#" path ->
            query_get (path +:+ "?client=" +:+ encodeURIComponent name) "client" = name) as H.
  { intros path Hq Hh. pose proof (query_get_client path name "" Hq Hh ltac:(by left)) as E. by rewrite append_nil_r in E. }
  unfold request_of. repeat case_bool_decide; intros E; [| | | done]; injection E as <-;
    apply H; apply (bool_decide_unpack _); vm_compute; exact I.
Qed.

(** C14: a button acts on the client of its row. Whatever the client is called, the
    code of a button in its row, read as HTML and then as JavaScript, is a call of
    a function of the page with exactly that name; and the request the function
    makes for it, read by the server, asks for that client. *)
Theorem clicks_reach_client (protocol host : string) (c : row) (code : string)
    (Hprotocol : protocol = "http:" \/ protocol = "https:") (Hip : plain (r_IP c))
    (Hin : code ∈ onclicks (tokenize (row_html protocol host c)).1) :
  exists f k, read_call code = Some (f, r_Name c, k) /\ mem f handlers = true
  /\ forall url, request_of f (r_Name c) = Some url -> query_get url "client" = r_Name c.
Proof.
  assert (exists ts, tokenize (row_html protocol host c) = (ts, Data) /\ Forall (safe (eq (r_Name c))) ts) as (ts & Hts & Hf).
  { apply emits_tokenize. unfold row_html. destruct (r_Connected c); [by apply emits_on_row | by apply emits_off_row]. }
  rewrite Hts in Hin. destruct (onclicks_safe _ _ _ Hf Hin) as (f & a & k & Hr & Hm & <- & _).
  exists f, k. split; [done |]. split; [done |]. intros url. apply request_names.
Qed.

Lemma digit_free d s : numeric s -> is_digit d = false -> d <> "."%char -> d <> "-"%char -> free_of d s.
Proof.
  intros Hs H1 H2 H3 Hin. unfold numeric in Hs. rewrite Forall_forall in Hs.
  destruct (Hs d Hin) as [H | [H | H]]; congruence.
Qed.

(** The test of a port asks for the client and the port of its line. *)
Theorem probe_request (name : string) (port : Z) (Hport : 0 <= port < 2 ^ 32) :
  query_get (probe_url name port) "client" = name /\ atoi (query_get (probe_url name port) "port") = Some port.
Proof.
  assert (forall d, d ∈ ["#"; "&"; "="; ";"; "%"; "+"]%char -> free_of d (itoa port)) as Hf.
  { intros d Hd. apply digit_free; [apply numeric_itoa | | |]; repeat (apply elem_of_cons in Hd as [-> | Hd]; [done |]);
      by apply not_elem_of_nil in Hd. }
  split.
  - unfold probe_url. apply query_get_client; try (apply (bool_decide_unpack _); vm_compute; exact I).
    right. exists ("port=" +:+ itoa port). split; [done |]. apply free_app. split; [| apply Hf; set_solver].
    apply (bool_decide_unpack _); vm_compute; exact I.
  - unfold probe_url, query_get. rewrite (cut_free "#").
    2:{ rewrite !free_app. split_and!; [| | apply encoded_free; set_solver | | apply Hf; set_solver];
        apply (bool_decide_unpack _); vm_compute; exact I. }
    cbn [fst]. change ("/api/probe" +:+ "?client=" +:+ encodeURIComponent name +:+ "&port=" +:+ itoa port)
      with ("/api/probe" +:+ String "?" ("client=" +:+ encodeURIComponent name +:+ "&port=" +:+ itoa port)).
    rewrite cut_at by (apply (bool_decide_unpack _); vm_compute; exact I). cbn [snd].
    replace ("client=" +:+ encodeURIComponent name +:+ "&port=" +:+ itoa port)
      with (("client=" +:+ encodeURIComponent name) +:+ String "&" ("port=" +:+ itoa port)) by by rewrite append_assoc.
    rewrite (split_app_sep "&").
    2:{ apply free_app. split; [apply (bool_decide_unpack _); vm_compute; exact I | apply encoded_free; set_solver]. }
    rewrite split_free by (apply free_app; split; [apply (bool_decide_unpack _); vm_compute; exact I | apply Hf; set_solver]).
    cbn [omap list_omap]. rewrite query_pair_client.
    assert (query_pair ("port=" +:+ itoa port) = Some ("port", itoa port)) as ->.
    { unfold query_pair, has_byte. rewrite bool_decide_eq_false_2, bool_decide_eq_false_2; [| done |].
      2:{ change (free_of ";" ("port" +:+ String "=" (itoa port))). apply free_app. split; [apply (bool_decide_unpack _); vm_compute; exact I |].
          intros [E | Hin]%elem_of_cons; [done |]. by apply (Hf ";"%char); [set_solver |]. }
      cbn [orb]. change ("port=" +:+ itoa port) with ("port" +:+ String "=" (itoa port)).
      rewrite cut_at by (apply (bool_decide_unpack _); vm_compute; exact I). cbn [mbind option_bind].
      unfold QueryUnescape. rewrite unescape_plain by (apply Hf; set_solver). cbn. by rewrite of_chars_chars. }
    cbn [list_find fst]. rewrite decide_False by done. cbn. apply atoi_itoa. lia.
Qed.

(** ** Witnesses *)

Lemma probe_request_witness :
  query_get (probe_url evil 8022) "client" = evil /\ atoi (query_get (probe_url evil 8022) "port") = Some 8022.
Proof. apply (probe_request evil 8022). lia. Defined.

Definition demo_log : list upEvent := [UpEvent 100 true; UpEvent 160 false; UpEvent 180 true].

Lemma bar_to_scale_witness :
  let '(pct, segs) := upCompute demo_log 50 200 in
  tiles 0 segs 1 /\ exists p, pct = Some p /\ (p * (1 - width NoData segs) == 100 * width Up_ segs)%Q.
Proof.
  destruct (bar_to_scale demo_log 50 200 (UpEvent 100 true)) as (H1 & _ & H2);
    [lia | reflexivity | repeat constructor; unfold times_le; cbn; lia | cbn; lia |]. split; [exact H1 | exact H2].
Defined.

Lemma tick_lists_all_witness :
  exists shown, d_rows (tick "https:" "panel.example.org" (fun _ => "12:00") 1700000000 [demo_off; demo_on])
                = cat (row_html "https:" "panel.example.org" <$> shown) /\ shown ≡ₚ [demo_off; demo_on].
Proof.
  destruct (tick_lists_all "https:" "panel.example.org" (fun _ => "12:00") 1700000000 [demo_off; demo_on]) as (s & H1 & H2 & _);
    [discriminate |]. exists s. split; [exact H1 | exact H2].
Defined.

Lemma clicks_reach_client_witness :
  exists f k, read_call ("openTraffic(" +:+ stringify evil +:+ ")") = Some (f, evil, k) /\ mem f handlers = true.
Proof.
  destruct (clicks_reach_client "https:" "panel.example.org" demo_on ("openTraffic(" +:+ stringify evil +:+ ")")) as (f & k & H1 & H2 & _);
    [by right | apply (bool_decide_unpack _); vm_compute; exact I
    | apply (bool_decide_unpack _); vm_compute; exact I | exists f, k; split; [exact H1 | exact H2]].
Defined.
