(* ===== verification/Answers.v ===== *)
(** * The answers of the API in the browser

    The JSON of /api/traffic and /api/uptime (monitor/monitor.go), as the encoder
    writes it, and as the dialogs of the page (openTraffic and openUptime of
    monitor/page.go) read it. JSON.parse is [parse], for the grammar is the same; it
    has no limit of nesting, and keeps half of a surrogate pair, which the encoder
    never writes. A Number holds the integers up to 2^53 exactly; what the page
    makes of other numbers, and of an answer of another shape, is not modelled. *)

From S2P Require Import GoJson Registry Traffic Persist Api Page PageShow.

(** ** The server's side *)

(** [Encoder.Encode] ends with a line end. *)
Definition encode_line (v : value) : string := text v +:+ of_chars [byte_at 10].

Definition port_row_json (p : portRow) : value :=
  JObj [("port", enc (go_uint 32) (r_port p)); ("tx", enc (go_uint 64) (r_tx p)); ("rx", enc (go_uint 64) (r_rx p))].
Definition day_row_json (d : dayRow) : value :=
  JObj [("date", enc go_string (r_date d)); ("bytes", enc (go_uint 64) (r_bytes d))].

(** A slice that is nil when there is nothing in it, of structs. *)
Definition rows_json {A} (row : A -> value) (l : list A) : value :=
  match l with [] => JNull | _ => JArr (row <$> l) end.

(** The keys of a [map[string]any] are sorted. *)
Definition traffic_json (a : list portRow * list dayRow) : value :=
  JObj [("days", rows_json day_row_json a.2); ("ports", rows_json port_row_json a.1)].
Definition uptime_json (a : string * Z * list upEvent) : value :=
  JObj [("events", rows_json (enc up_json) a.2); ("name", enc go_string a.1.1); ("now", enc go_int a.1.2)].

(** ** The page's side *)

(** A property of an object; the last of several of one name. [None] is undefined. *)
Definition prop (fs : list (string * value)) (k : string) : option value := snd <$> last (filter (fun f => f.1 = k) fs).

Definition exact (z : Z) : Prop := - 2 ^ 53 <= z <= 2 ^ 53.
#[export] Instance exact_dec z : Decision (exact z).
Proof. unfold exact. apply _. Defined.

Definition js_int (v : value) : option Z :=
  match v with JNum lit => z ← atoi lit; if decide (exact z) then Some z else None | _ => None end.

Definition js_text (v : value) : option string := match v with JStr s => Some s | _ => None end.
Definition js_bool (v : value) : option bool := match v with JBool b => Some b | _ => None end.

(** The elements of [x||[]]. *)
Definition js_items {A} (item : list (string * value) -> option A) (x : option value) : option (list A) :=
  match x with
  | None | Some JNull => Some []
  | Some (JArr vs) => mapM (fun v => match v with JObj fs => item fs | _ => None end) vs
  | _ => None
  end.

Definition page_port (fs : list (string * value)) : option portRow :=
  p ← prop fs "port" ≫= js_int; rx ← prop fs "rx" ≫= js_int; tx ← prop fs "tx" ≫= js_int; Some (PortRow p tx rx).
Definition page_day (fs : list (string * value)) : option dayRow :=
  d ← prop fs "date" ≫= js_text; b ← prop fs "bytes" ≫= js_int; Some (DayRow d b).
Definition page_event (fs : list (string * value)) : option upEvent :=
  t ← prop fs "t" ≫= js_int; u ← prop fs "u" ≫= js_bool; Some (UpEvent t u).

Definition json_object (body : string) : option (list (string * value)) :=
  v ← parse body; match v with JObj fs => Some fs | _ => None end.

Definition read_traffic (body : string) : option (list portRow * list dayRow) :=
  d ← json_object body; ps ← js_items page_port (prop d "ports"); ds ← js_items page_day (prop d "days"); Some (ps, ds).

(** [clock] is the second of [Date.now()]: [d.now] is 0 when it is not there. *)
Definition read_uptime (clock : Z) (body : string) : option (list upEvent * Z) :=
  d ← json_object body; ev ← js_items page_event (prop d "events");
  now ← match prop d "now" with None | Some JNull => Some 0 | Some v => js_int v end;
  Some (ev, if now =? 0 then clock else now).

(** The contents of the dialogs. *)
Definition openTraffic (LAST : gmap string row) (name body : string) : option string :=
  '(ps, ds) ← read_traffic body; Some (traffic_html LAST name ps ds).
Definition openUptime (LAST : gmap string row) (clock : Z) (name body : string) : option string :=
  '(ev, now) ← read_uptime clock body; Some (uptime_html LAST name ev now).

(** ** What is read is what was answered *)

Lemma json_object_line k fs : wf k (JObj fs) = true -> Z.of_nat k <= max_depth ->
  json_object (encode_line (JObj fs)) = Some (norm_field <$> fs).
Proof. intros Hw Hk. unfold json_object, encode_line. by rewrite (parse_text k) by (done || by repeat constructor). Qed.

Lemma js_int_itoa z : exact z -> js_int (JNum (itoa z)) = Some z.
Proof.
  intros Hz. cbn. rewrite atoi_itoa_i64 by (unfold exact, is_i64 in *; lia). cbn. by rewrite decide_True.
Qed.

Lemma rows_wf {A} (row : A -> value) l k : (forall a, wf k (row a) = true) -> wf (S k) (rows_json row l) = true.
Proof.
  intros Hr. destruct l as [| a l]; [done |]. cbn [rows_json wf]. apply forallb_forall.
  intros v (x & -> & _)%list_elem_of_In%list_elem_of_fmap. apply Hr.
Qed.

(** Rows read one by one. *)
Lemma js_items_rows {A} (item : list (string * value) -> option A) (row : A -> value) l :
  Forall (fun a => exists fs, norm (row a) = JObj fs /\ item fs = Some a) l ->
  js_items item (Some (norm (rows_json row l))) = Some l.
Proof.
  intros Hl. assert (mapM (fun v => match v with JObj fs => item fs | _ => None end) (List.map norm (row <$> l)) = Some l) as H.
  { induction Hl as [| a l (fs & Hn & Hi) _ IH]; [done |]. cbn [fmap list_fmap List.map mapM]. rewrite Hn, Hi.
    cbn [mbind option_bind]. change (list_fmap _ _ row l) with (row <$> l). by rewrite IH. }
  destruct l; [done | exact H].
Qed.

Definition port_exact (p : portRow) : Prop := exact (r_port p) /\ exact (r_tx p) /\ exact (r_rx p).
Definition day_exact (d : dayRow) : Prop := valid_utf8 (r_date d) /\ exact (r_bytes d).

Lemma page_port_row p : port_exact p -> exists fs, norm (port_row_json p) = JObj fs /\ page_port fs = Some p.
Proof.
  intros (H1 & H2 & H3). eexists. split; [reflexivity |]. unfold page_port.
  change (prop _ "port") with (Some (JNum (itoa (r_port p)))). change (prop _ "rx") with (Some (JNum (itoa (r_rx p)))).
  change (prop _ "tx") with (Some (JNum (itoa (r_tx p)))). cbn [mbind option_bind].
  rewrite !js_int_itoa by done. by destruct p.
Qed.

Lemma page_day_row d : day_exact d -> exists fs, norm (day_row_json d) = JObj fs /\ page_day fs = Some d.
Proof.
  intros (H1 & H2). eexists. split; [reflexivity |]. unfold page_day.
  change (prop _ "date") with (Some (JStr (coerce (r_date d)))). change (prop _ "bytes") with (Some (JNum (itoa (r_bytes d)))).
  rewrite H1. cbn [mbind option_bind js_text]. rewrite js_int_itoa by done. by destruct d.
Qed.

Lemma page_event_row e : exact (T e) -> exists fs, norm (enc up_json e) = JObj fs /\ page_event fs = Some e.
Proof.
  intros H. eexists. split; [reflexivity |]. unfold page_event.
  change (prop _ "t") with (Some (JNum (itoa (T e)))). change (prop _ "u") with (Some (JBool (U e))).
  cbn [mbind option_bind js_bool]. rewrite js_int_itoa by done. by destruct e.
Qed.

Lemma traffic_wf a : wf 3 (traffic_json a) = true.
Proof.
  unfold traffic_json. change (wf 3 (JObj ?fs)) with (forallb (fun f => wf 2 (snd f)) fs). cbn [forallb snd].
  rewrite !rows_wf; [done | |]; intros x; cbn; by rewrite ?is_number_itoa.
Qed.

Lemma uptime_wf a : wf 3 (uptime_json a) = true.
Proof.
  unfold uptime_json. change (wf 3 (JObj ?fs)) with (forallb (fun f => wf 2 (snd f)) fs). cbn [forallb snd].
  rewrite rows_wf; [cbn; by rewrite ?is_number_itoa |]. intros x; cbn; by rewrite ?is_number_itoa.
Qed.

Lemma read_uptime_body clock name n ev : Forall (fun e => exact (T e)) ev -> exact n -> n <> 0 ->
  read_uptime clock (encode_line (uptime_json (name, n, ev))) = Some (ev, n).
Proof.
  intros He Hn H0. unfold read_uptime. pose proof (uptime_wf (name, n, ev)) as Hw. unfold uptime_json in *.
  rewrite (json_object_line 3) by (done || (unfold max_depth; lia)). cbn [mbind option_bind fst snd].
  change (prop _ "events") with (Some (norm (rows_json (enc up_json) ev))).
  change (prop _ "now") with (Some (JNum (itoa n))).
  rewrite js_items_rows by (eapply Forall_impl; [exact He | apply page_event_row]).
  cbn [mbind option_bind]. rewrite js_int_itoa by done. cbn [mbind option_bind]. by rewrite (proj2 (Z.eqb_neq _ _) H0).
Qed.

(** *** Properties *)

(** C10: the dialog and the table agree. The page computes the availability of its
    dialog itself, in the browser, from the JSON of /api/uptime; once that text is read
    it shows the log of the store at the server's time, and for every window the
    percentage it computes is the one the server computes ([uptimePct], which the
    table shows for 24 hours), and "no data" exactly where the server answers -1. The
    times are within 2^53, which a Number holds exactly, and now is after 1970. *)
Theorem dialog_read_agrees (t : TrafficStore) (name : string) (now : time) (windowSec : Z)
    (LAST : gmap string row) (clock : Z)
    (Hlog : Forall (fun e => exact (T e)) (uptimeSeries t name)) (Hnow : 0 < unix now <= 2 ^ 53) :
  exists a ev n, api_uptime now (Some t) name = Answer a
  /\ read_uptime clock (encode_line (uptime_json a)) = Some (ev, n)
  /\ openUptime LAST clock name (encode_line (uptime_json a)) = Some (uptime_html LAST name ev n)
  /\ uptimePct now t name windowSec = default (-1)%Q (upCompute ev (n - windowSec) n).1.
Proof.
  destruct (dialog_agrees t name now windowSec) as (n & ev & Ha & Hp). exists (name, n, ev), ev, n.
  assert (read_uptime clock (encode_line (uptime_json (name, n, ev))) = Some (ev, n)) as Hr.
  { injection Ha as <- <-. apply read_uptime_body; [done | unfold exact; lia | lia]. }
  split; [exact Ha |]. split; [exact Hr |]. split; [| exact Hp]. unfold openUptime. by rewrite Hr.
Qed.

(** The traffic dialog lists the rows of the answer, each number and date as the
    server has it. *)
Theorem traffic_dialog_reads (t : TrafficStore) (client : string) (LAST : gmap string row)
    (Hports : Forall port_exact (breakdown t client).1) (Hdays : Forall day_exact (breakdown t client).2) :
  exists a, api_traffic (Some t) client = Answer a
  /\ openTraffic LAST client (encode_line (traffic_json a)) = Some (traffic_html LAST client a.1 a.2).
Proof.
  eexists. split; [reflexivity |]. destruct (breakdown t client) as [ps ds]. cbn [fst snd] in *. unfold openTraffic, read_traffic.
  pose proof (traffic_wf (ps, ds)) as Hw. unfold traffic_json in *.
  rewrite (json_object_line 3) by (done || (unfold max_depth; lia)). cbn [mbind option_bind fst snd].
  change (prop _ "days") with (Some (norm (rows_json day_row_json ds))).
  change (prop _ "ports") with (Some (norm (rows_json port_row_json ps))).
  rewrite (js_items_rows page_port) by (eapply Forall_impl; [exact Hports | apply page_port_row]). cbn [mbind option_bind].
  by rewrite (js_items_rows page_day) by (eapply Forall_impl; [exact Hdays | apply page_day_row]).
Qed.

(** ** Witnesses *)

Definition demo_day : ct := Ct {[8022 := Pb 5 7]} {["2024-01-02" := 12]} 1010 [UpEvent 1000 true; UpEvent 1003 false].
Definition demo_traffic : TrafficStore := MkStore "traffic.json" {["tk-a-web" := demo_day]} false.

Example demo_traffic_text :
  encode_line (traffic_json (breakdown demo_traffic "tk-a-web"))
  = html "{`days`:[{`date`:`2024-01-02`,`bytes`:12}],`ports`:[{`port`:8022,`tx`:5,`rx`:7}]}" +:+ of_chars [byte_at 10].
Proof. vm_compute. reflexivity. Qed.

Example demo_nobody :
  encode_line (uptime_json ("tk-b", 1010, uptimeSeries demo_traffic "tk-b"))
  = html "{`events`:null,`name`:`tk-b`,`now`:1010}" +:+ of_chars [byte_at 10]
  /\ read_uptime 7 (html "{`events`:null,`name`:`tk-b`,`now`:1010}") = Some ([], 1010)
  /\ read_uptime 7 (html "{`events`:[{`t`:5,`u`:true,`t`:6}]}") = Some ([UpEvent 6 true], 7).
Proof. vm_compute. done. Qed.

Lemma dialog_read_agrees_witness :
  exists ev n, read_uptime 7 (encode_line (uptime_json ("tk-a-web", 1010, uptimeSeries demo_traffic "tk-a-web"))) = Some (ev, n)
  /\ uptimePct (1010 * second) demo_traffic "tk-a-web" 86400 = default (-1)%Q (upCompute ev (n - 86400) n).1.
Proof.
  destruct (dialog_read_agrees demo_traffic "tk-a-web" (1010 * second) 86400 ∅ 7) as (a & ev & n & Ha & Hr & _ & Hp).
  - change (uptimeSeries demo_traffic "tk-a-web") with [UpEvent 1000 true; UpEvent 1003 false].
    repeat constructor; unfold exact; cbn; lia.
  - change (unix (1010 * second)) with 1010. lia.
  - exists ev, n. injection Ha as <-. split; [exact Hr | exact Hp].
Defined.

Lemma traffic_dialog_reads_witness :
  exists a, openTraffic ∅ "tk-a-web" (encode_line (traffic_json a)) = Some (traffic_html ∅ "tk-a-web" a.1 a.2).
Proof.
  destruct (traffic_dialog_reads demo_traffic "tk-a-web" ∅) as (a & _ & H); [| | by exists a].
  - change (breakdown demo_traffic "tk-a-web").1 with [PortRow 8022 5 7]. repeat constructor; unfold exact; cbn; lia.
  - change (breakdown demo_traffic "tk-a-web").2 with [DayRow "2024-01-02" 12]. repeat constructor; unfold exact; cbn; lia.
Defined.
