(* ===== verification/Sampler.v ===== *)
(** * The background sampler, step by step

    The goroutine that Serve of src/core/internal/monitor/monitor.go starts, as a
    machine: each action is one critical section of a tick, so that the sessions,
    the pipes and the saver can run between any two of them. [Api] has the tick as
    one step; the theorem here is that the two agree when nothing runs between. *)

From stdpp Require Import sorting.
From S2P Require Import Traffic Registry.
From S2P Require Export Api.

(** Where the goroutine is. *)
Inductive sampler :=
| Asleep                                            (* waits for the ticker *)
| Scraping (todo : list ptr)                        (* [reg.sample]: the clients to do *)
| Reading (p : ptr) (ps : list Z) (todo : list ptr) (* [scrape]: has the ports, asks them *)
| Touching (todo : list ptr) (connected : list string)
| Recording (todo : list string) (connected : list string) (grace : bool).

Inductive saction :=
| Wake (l : list ptr)                               (* the ticker; [reg.list] *)
| ReadPorts
| Scraped (now : time) (get : Z -> option (string * duration))
| ListAgain (l : list ptr)
| TouchOne (now : time)
| ListSeen (now : time) (names : list string)       (* [grace], [store.Seen] *)
| RecordOne (now : time)
| Sleep.

(** [l] is a list that [Registry.list] may return. *)
Definition listed (r : Registry) (l : list ptr) : bool :=
  bool_decide (merge_sort Nat.le l = merge_sort Nat.le (map_to_list (Registry.m r)).*2)
  && bool_decide (merge_sort String.le (Name <$> clients r l) = Name <$> clients r l).

(** [names] is an order in which [range] may visit the names seen. *)
Definition ranges (t : TrafficStore) (names : list string) : bool :=
  bool_decide (merge_sort String.le names = merge_sort String.le (map_to_list (Traffic.Seen t)).*1).

Section sampler.
Context (startAt : time).

Definition sample_step (a : saction) (sm : sampler) (r : Registry) (t : TrafficStore)
    : option (sampler * Registry * TrafficStore) :=
  match a, sm with
  | Wake l, Asleep => if listed r l then Some (Scraping l, r, t) else None
  | ReadPorts, Scraping (p :: todo) =>
      c ← Registry.heap r !! p; Some (Reading p (ports c) todo, r, t)
  | Scraped now get, Reading p ps todo =>
      let '(mt, lat) := scrape_http get ps zero_metrics in
      Some (Scraping todo, update r p (scrape_store now mt lat), t)
  | ListAgain l, Scraping [] => if listed r l then Some (Touching l [], r, t) else None
  | TouchOne now, Touching (p :: todo) connected =>
      c ← Registry.heap r !! p;
      Some (Touching todo (connected ++ [Name c]), r, Traffic.Touch now t (Name c))
  | ListSeen now names, Touching [] connected =>
      if ranges t names then Some (Recording names connected (sub now startAt <? gracePeriod), r, t) else None
  | RecordOne now, Recording (name :: todo) connected grace =>
      let up := bool_decide (name ∈ connected) in
      Some (Recording todo connected grace, r,
            if negb up && grace then t else Traffic.RecordState now t name up)
  | Sleep, Recording [] _ _ => Some (Asleep, r, t)
  | _, _ => None
  end.

Fixpoint sample_run (l : list saction) (s : sampler * Registry * TrafficStore)
    : option (sampler * Registry * TrafficStore) :=
  match l with
  | [] => Some s
  | a :: l' => s' ← sample_step a s.1.1 s.1.2 s.2; sample_run l' s'
  end.

Lemma sample_run_app l k s : sample_run (l ++ k) s = (s' ← sample_run l s; sample_run k s').
Proof.
  revert s. induction l as [| a l IH]; intros s; [done |]. cbn.
  destruct (sample_step _ _ _); [apply IH | done].
Qed.

(** The steps of an undisturbed tick. *)
Definition scrapes (at_ : ptr -> time) (get : ptr -> Z -> option (string * duration)) (l : list ptr) : list saction :=
  flat_map (fun p => [ReadPorts; Scraped (at_ p) (get p)]) l.

Definition tick_of (now : time) (at_ : ptr -> time) (get : ptr -> Z -> option (string * duration))
    (l l' : list ptr) (names : list string) : list saction :=
  [Wake l] ++ scrapes at_ get l ++ [ListAgain l'] ++ replicate (length l') (TouchOne now) ++ [ListSeen now names]
  ++ replicate (length names) (RecordOne now) ++ [Sleep].

Lemma length_scrapes at_ get l : length (scrapes at_ get l) = (2 * length l)%nat.
Proof. unfold scrapes. induction l as [| p l IH]; [done |]. cbn [flat_map]. rewrite length_app, IH. cbn. lia. Qed.

(** *** Each phase of an undisturbed tick *)

Lemma update_heap r p f q : Registry.heap (update r p f) !! q = (if decide (q = p) then f else id) <$> Registry.heap r !! q.
Proof.
  cbn. case_decide; [subst; by rewrite lookup_alter_eq | rewrite lookup_alter_ne by done].
  by destruct (Registry.heap r !! q).
Qed.

Lemma update_ext r p f g c : Registry.heap r !! p = Some c -> f c = g c -> update r p f = update r p g.
Proof.
  intros Hc E. unfold update, set_heap. f_equal. apply map_eq. intros q.
  destruct (decide (q = p)) as [-> |]; [by rewrite !lookup_alter_eq, Hc; cbn; rewrite E | by rewrite !lookup_alter_ne].
Qed.

Lemma run_scrapes at_ get l r t :
  Forall (fun p => is_Some (Registry.heap r !! p)) l ->
  sample_run (scrapes at_ get l) (Scraping l, r, t) = Some (Scraping [], sample_all get at_ l r, t).
Proof.
  revert r. induction l as [| p l IH]; intros r Hl; [done |].
  apply Forall_cons in Hl as [[c Hc] Hl]. cbn [scrapes flat_map app sample_run fst snd sample_step]. rewrite Hc. cbn.
  destruct (scrape_http (get p) (ports c) zero_metrics) as [mt lat] eqn:E. cbn [mbind option_bind fst snd].
  rewrite (update_ext r p (scrape_store (at_ p) mt lat) (fun c => scrape (at_ p) (get p) c c) c Hc)
    by (unfold scrape; by rewrite E).
  apply IH. apply (Forall_impl _ _ _ Hl). intros q [c' Hc']. rewrite update_heap, Hc'. eauto.
Qed.

Lemma sample_all_names get at_ l r q :
  Name <$> (Registry.heap (sample_all get at_ l r) !! q) = Name <$> (Registry.heap r !! q).
Proof.
  revert r. induction l as [| p l IH]; intros r; [done |]. cbn [sample_all foldl]. unfold sample_all in IH. rewrite IH.
  rewrite update_heap. case_decide; destruct (Registry.heap r !! q); [| done..]. cbn. unfold scrape. by destruct (scrape_http _ _ _).
Qed.

Lemma sample_all_m get at_ l r : Registry.m (sample_all get at_ l r) = Registry.m r.
Proof. revert r. induction l as [| p l IH]; intros r; [done |]. cbn. unfold sample_all in IH. by rewrite IH. Qed.

Lemma run_touches now l r t done_ :
  Forall (fun p => is_Some (Registry.heap r !! p)) l ->
  sample_run (replicate (length l) (TouchOne now)) (Touching l done_, r, t)
  = Some (Touching [] (done_ ++ (Name <$> clients r l)), r, touch_all now t (Name <$> clients r l)).
Proof.
  revert t done_. induction l as [| p l IH]; intros t done_ Hl; [cbn; by rewrite app_nil_r |].
  apply Forall_cons in Hl as [[c Hc] Hl]. unfold clients in *. cbn. rewrite Hc. cbn. rewrite IH by done.
  cbn. by rewrite <-app_assoc.
Qed.

Lemma run_records now names connected r t grace :
  sample_run (replicate (length names) (RecordOne now)) (Recording names connected grace, r, t)
  = Some (Recording [] connected grace, r,
          foldl (fun t name => let up := bool_decide (name ∈ connected) in
                               if negb up && grace then t else Traffic.RecordState now t name up) t names).
Proof. revert t. induction names as [| n names IH]; intros t; [done |]. cbn. by rewrite IH. Qed.

End sampler.

(** ** Property *)

(** The tick of the sampler. The machine run without interruption from
    [Asleep] does exactly what [Api.sampler_tick] says, for any answers of the
    clients' ports, any lists the registry may return before and after the
    scrapes and any order of the names seen; and it is back asleep after two
    steps for each client scraped and one for each mark, plus four. *)
Theorem tick_sequential (startAt now : time)
    (at_ : ptr -> time) (get : ptr -> Z -> option (string * duration)) (l l' : list ptr)
    (order : gmap string Z -> list string) (r : Registry) (t : TrafficStore) :
  let r1 := sample_all get at_ l r in
  let t1 := touch_all now t (Name <$> clients r1 l') in
  let names := order (Traffic.Seen t1) in
  let acts := tick_of now at_ get l l' names in
  listed r l = true -> listed r1 l' = true -> ranges t1 names = true ->
  (forall i p, Registry.m r !! i = Some p -> is_Some (Registry.heap r !! p)) ->
  exists r' t', sample_run startAt acts (Asleep, r, t) = Some (Asleep, r', t')
    /\ sampler_tick now startAt get at_ l l' order r (Some t) = (r', Some t')
    /\ length acts = (2 * length l + length l' + length names + 4)%nat.
Proof.
  intros r1 t1 names acts Hl Hl' Hn Hheap.
  assert (forall r0 k, listed r0 k = true -> forall p, p ∈ k -> exists i, Registry.m r0 !! i = Some p) as Hin.
  { intros r0 k Hk p Hp. unfold listed in Hk. apply andb_prop in Hk as [Hk _]. apply bool_decide_eq_true_1 in Hk.
    rewrite <-(merge_sort_Permutation Nat.le), Hk, merge_sort_Permutation in Hp. by apply elem_of_values. }
  assert (Registry.m r1 = Registry.m r) as Hm by apply sample_all_m.
  exists r1, (record_all now startAt (Name <$> clients r1 l') names t1). split; [| split].
  - unfold acts, tick_of. cbn [app sample_run sample_step fst snd]. rewrite Hl. cbn [mbind option_bind].
    rewrite sample_run_app, run_scrapes by (apply Forall_forall; intros p Hp; destruct (Hin r l Hl p Hp); eauto).
    fold r1. cbn [mbind option_bind app sample_run sample_step fst snd]. rewrite Hl'. cbn [mbind option_bind].
    rewrite sample_run_app, run_touches.
    2: { apply Forall_forall. intros p Hp. destruct (Hin r1 l' Hl' p Hp) as [i Hi]. rewrite Hm in Hi.
         destruct (Hheap i p Hi) as [c Hc]. pose proof (sample_all_names get at_ l r p) as E. fold r1 in E.
         rewrite Hc in E. destruct (Registry.heap r1 !! p); [eauto | done]. }
    cbn [mbind option_bind app sample_run sample_step fst snd]. fold t1. rewrite Hn. cbn [mbind option_bind].
    by rewrite sample_run_app, run_records.
  - done.
  - unfold acts, tick_of. rewrite !length_app, !length_replicate. cbn [length].
    rewrite length_scrapes. lia.
Qed.

(** ** Witness *)

Lemma tick_sequential_witness :
  exists r' t', sample_run 0
      (tick_of (of_unix 100) (fun _ => 0) (fun _ _ => None) Api.demo_list Api.demo_list ["tk-a-web"; "tk-b-ssh"])
      (Asleep, Api.demo_reg, Api.demo_store) = Some (Asleep, r', t')
    /\ exists c, Traffic.m t' !! "tk-a-web" = Some c /\ Up c = [UpEvent 100 true].
Proof.
  destruct (tick_sequential 0 (of_unix 100) (fun _ => 0) (fun _ _ => None)
    Api.demo_list Api.demo_list (fun _ => ["tk-a-web"; "tk-b-ssh"]) Api.demo_reg Api.demo_store eq_refl eq_refl)
    as (r' & t' & H1 & H2 & _); [reflexivity | |].
  - intros i p Hp. change (Registry.m Api.demo_reg) with ({["s1" := 0%nat]} : gmap string ptr) in Hp.
    apply lookup_singleton_Some in Hp as [_ <-]. eexists. reflexivity.
  - exists r', t'. split; [exact H1 |]. injection H2 as _ <-. eexists. split; reflexivity.
Defined.
