(* ===== verification/Speedtest.v ===== *)
(** * The speed test

    Models src/core/internal/speedtest/speedtest.go: the command line of the
    responder, the loop that writes for a time, the two kinds of flow and the
    aggregation of parallel flows. What the connections do (dialling, the sizes
    and times of reads and writes) is the input of each flow. *)

From S2P Require Export GoTime.

Definition defaultDur : duration := 4 * second.
Definition bufSize : Z := Z.shiftl 64 10.
Definition streams : nat := 8.
Definition serveTimeout : duration := 2 * minute.

Definition NL : ascii := ascii_of_N 10.

(** ** The responder *)

Section responder.
Context (unicode_upper : Z -> Z).

Definition parseCmd (line : string) : option (string * Z) :=
  match fields (trim_space line) with
  | [verb; d] =>
      match atoi d with
      | Some ms => if (ms <? 0) || (60000 <? ms) then None else Some (ToUpper unicode_upper verb, ms)
      | None => None
      end
  | _ => None
  end.

(** What a connection is used for; [None] is a line that could not be read. *)
Inductive service :=
| Close
| Send (dur : duration)
| Discard.

Definition serve (line : option string) : service :=
  match l ← line; parseCmd l with
  | None => Close
  | Some (verb, ms) =>
      let dur := i64 (ms * millisecond) in
      if bool_decide (verb = "GET") then Send dur
      else if bool_decide (verb = "PUT") then Discard
      else Close
  end.

(** The loop of [RunResponder]: what each connection accepted is used for, by the
    line read from it, and the error that ends the loop, if any has come. *)
Fixpoint accept_loop (accepts : list (option string + string)) : list service * option string :=
  match accepts with
  | [] => ([], None)
  | inl line :: accepts' => let '(l, e) := accept_loop accepts' in (serve line :: l, e)
  | inr e :: _ => ([], Some e)
  end.

Definition RunResponder (listen_err : option string) (accepts : list (option string + string)) : list service * option string :=
  match listen_err with
  | Some e => ([], Some e)
  | None => accept_loop accepts
  end.
End responder.

(** ** Flows *)

(** The loop of [streamFor]: each iteration reads the clock and, before the
    deadline, writes a block, of which [n] bytes go out. [None] is an unfinished loop. *)
Fixpoint stream_go (deadline : time) (its : list (time * (Z * bool))) (sent : Z) : option Z :=
  match its with
  | [] => None
  | (t, (n, failed)) :: its' =>
      if t <? deadline then
        let sent := i64 (sent + n) in
        if (failed : bool) then Some sent else stream_go deadline its' sent
      else Some sent
  end.

Definition streamFor (start : time) (dur : duration) (its : list (time * (Z * bool))) : option Z :=
  stream_go (start + dur) its 0.

(** The result of a flow. *)
Record res := Res { bytes : Z; dur : duration; err : option string }.

Definition request (verb : string) (d : duration) : string :=
  verb +:+ " " +:+ itoa (milliseconds d) +:+ String NL "".

(** The reads of an upload flow: the bytes so far, and the time of the first. *)
Definition read_one (acc : Z * time) (r : time * Z) : Z * time :=
  let '(got, t0) := acc in
  let '(t, n) := r in
  if 0 <? n then (i64 (got + n), if is_zero t0 then t else t0) else acc.

Inductive up_conn :=
| UpFailed (e : string)
| UpReads (reads : list (time * Z)) (end_ : time).

Definition streamClientUp (c : up_conn) : res :=
  match c with
  | UpFailed e => Res 0 0 (Some e)
  | UpReads reads end_ =>
      let '(got, t0) := foldl read_one (0, zero_time) reads in
      Res got (sub end_ t0) None
  end.

Inductive down_conn :=
| DownFailed (e : string)
| DownWrites (t0 start : time) (its : list (time * (Z * bool))) (end_ : time).

Definition streamClientDown (d : duration) (c : down_conn) : option res :=
  match c with
  | DownFailed e => Some (Res 0 0 (Some e))
  | DownWrites t0 start its end_ => (fun sent => Res sent (sub end_ t0) None) <$> streamFor start d its
  end.

(** ** Aggregation *)

Definition mbps (bytes : Z) (d : duration) : Q :=
  let secs := seconds d in
  if Qnum secs <=? 0 then 0 else (inject_Z bytes * 8 / 1000000 / secs)%Q.

(** The accumulators of the loop over the results. *)
Record tally := Tally { total : Z; maxDur : duration; firstErr : option string; ok : Z }.

Definition tally_one (a : tally) (r : res) : tally :=
  match err r with
  | Some e => Tally (total a) (maxDur a) (match firstErr a with None => Some e | Some _ => firstErr a end) (ok a)
  | None => Tally (i64 (total a + bytes r)) (if maxDur a <? dur r then dur r else maxDur a) (firstErr a) (ok a + 1)
  end.

(** [runParallel], from the results of the flows; an error is on the right. *)
Definition runParallel (out : list res) : Q + option string :=
  let a := foldl tally_one (Tally 0 0 None 0) out in
  if ok a =? 0 then inr (firstErr a) else inl (mbps (total a) (maxDur a)).

(** [Measure]: the upload flows run after the download has succeeded. *)
Definition Measure (down_out up_out : list res) : Q * Q * option string :=
  match runParallel down_out with
  | inr e => (0, 0, Some ("download: " +:+ default "" e))
  | inl down =>
      match runParallel up_out with
      | inr e => (down, 0, Some ("upload: " +:+ default "" e))
      | inl up => (down, up, None)
      end
  end%Q.

(** [RunInitiator]: what it prints, or its error. *)
Definition RunInitiator (addr : string) (down_out up_out : list res) : Q * Q + string :=
  if bool_decide (addr = "") then inr "missing speedtest destination (--speedtest-addr host:port)"
  else match Measure down_out up_out with
       | (_, _, Some e) => inr e
       | (down, up, None) => inl (down, up)
       end.

Definition measure_dur (d : duration) : duration := if d <=? 0 then defaultDur else d.

Example parse_ex :
  (parseCmd id "get 4000 ", parseCmd id "PUT 60001", parseCmd id "PUT -1", parseCmd id "GET 1 2", parseCmd id "GET +7")
  = (Some ("GET", 4000), None, None, None, Some ("GET", 7)).
Proof. vm_compute. reflexivity. Qed.

(** ** Lemmas *)

Definition good (out : list res) : list res := filter (fun r => err r = None) out.
Definition errors (out : list res) : list string := omap err out.

Definition Zsum (l : list Z) : Z := foldr Z.add 0 l.

Lemma tally_spec out t m f k :
  foldl tally_one (Tally (i64 t) m f k) out =
    Tally (i64 (t + Zsum (bytes <$> good out))) (foldr Z.max m (dur <$> good out))
      (match f with Some e => Some e | None => head (errors out) end) (k + Z.of_nat (length (good out))).
Proof.
  revert t m f k. induction out as [| r out IH]; intros t m f k.
  { cbn. f_equal; [f_equal; lia | by destruct f | lia]. }
  cbn [foldl]. unfold tally_one at 2. unfold good, errors in *. rewrite filter_cons. cbn [omap list_omap].
  destruct (err r) as [e |] eqn:E; cbn [total maxDur firstErr ok].
  - rewrite decide_False by done. rewrite IH. f_equal. by destruct f.
  - rewrite decide_True by done. rewrite i64_add_l, IH. cbn [fmap list_fmap Zsum foldr length].
    f_equal; [f_equal; unfold Zsum; lia | | lia].
    assert (forall a b l, foldr Z.max (Z.max a b) l = Z.max b (foldr Z.max a l)) as H.
    { intros a b l. induction l as [| x l IHl]; cbn; lia. }
    rewrite <- H. f_equal. destruct (Z.ltb_spec m (dur r)); lia.
Qed.

Lemma runParallel_spec out :
  runParallel out =
    match good out with
    | [] => inr (head (errors out))
    | g => inl (mbps (i64 (Zsum (bytes <$> g))) (foldr Z.max 0 (dur <$> g)))
    end.
Proof.
  unfold runParallel. replace (Tally 0 0 None 0) with (Tally (i64 0) 0 None 0) by done.
  rewrite tally_spec. cbn [ok total maxDur firstErr].
  destruct (good out) as [| g l]; [done |]. cbn [length].
  destruct (Z.eqb_spec (0 + Z.of_nat (S (length l))) 0); [lia | done].
Qed.

Lemma Zsum_perm l l' : l ≡ₚ l' -> Zsum l = Zsum l'.
Proof. unfold Zsum. induction 1; cbn in *; lia. Qed.

Lemma Zmax_perm l l' : l ≡ₚ l' -> foldr Z.max 0 l = foldr Z.max 0 l'.
Proof. induction 1; cbn in *; lia. Qed.

Lemma good_perm l l' : l ≡ₚ l' -> good l ≡ₚ good l'.
Proof. intros H. unfold good. by rewrite H. Qed.

(** A request line is trimmed and split back into its verb and its number. *)
Lemma parse_request unicode_upper verb d :
  Forall (fun c => is_graph c = true) (chars verb) -> verb <> "" -> 0 <= d < 2 ^ 63 ->
  parseCmd unicode_upper (request verb d) =
    if 60000 <? milliseconds d then None else Some (ToUpper unicode_upper verb, milliseconds d).
Proof.
  intros Hv Hne Hd. unfold request, parseCmd.
  assert (0 <= milliseconds d < 2 ^ 63) as Hms.
  { unfold milliseconds, millisecond. rewrite Z.quot_div_nonneg by lia. Z.to_euclidean_division_equations. lia. }
  pose proof (itoa_digits (milliseconds d) ltac:(lia)) as Hdig.
  assert (Forall (fun c => is_graph c = true) (chars (itoa (milliseconds d)))) as Hg.
  { eapply Forall_impl; [exact Hdig |]. intros c Hc. apply num_char_graph. unfold is_num_char. by rewrite Hc. }
  assert (itoa (milliseconds d) <> "") as Hi.
  { intros E. pose proof (digits_itoa (milliseconds d) ltac:(lia)) as H. by rewrite E in H. }
  assert (trim_space ((verb +:+ " " +:+ itoa (milliseconds d)) +:+ String NL "") = verb +:+ " " +:+ itoa (milliseconds d)) as Ht.
  { destruct (chars verb) as [| c l] eqn:Ev; [exfalso; apply Hne; by apply chars_inj |].
    destruct (chars (itoa (milliseconds d))) as [| x k] eqn:Ek using rev_ind; [exfalso; apply Hi; by apply chars_inj |].
    clear IHk. apply Forall_app in Hg as Hg'. destruct Hg' as [_ Hx%Forall_cons_1]. destruct Hx as [Hx _].
    eapply (trim_space_core _ (l ++ " "%char :: chars (itoa (milliseconds d))) (chars verb ++ " "%char :: k) c x);
      [by rewrite !chars_app, Ev | rewrite !chars_app, Ek; cbn; by rewrite <-app_assoc | by inversion Hv | done | |].
    - assert (forall e, byte_val e < 128 -> Forall (fun c => byte_val c < 128) [e]) as H1 by (intros; by repeat constructor).
      rewrite !chars_app, Ev, !Forall_app.
      repeat split; [by apply graph_ascii | by apply H1 | rewrite Ek; by apply graph_ascii | by apply H1].
    - by repeat constructor. }
  replace (verb +:+ " " +:+ itoa (milliseconds d) +:+ String NL "")
    with ((verb +:+ " " +:+ itoa (milliseconds d)) +:+ String NL "") by by rewrite !append_assoc.
  rewrite Ht, fields_two by done. rewrite atoi_itoa by done.
  by rewrite (proj2 (Z.ltb_ge (milliseconds d) 0)) by lia.
Qed.

(** The bytes of the first [k] writes of a loop. *)
Definition written (k : nat) (its : list (time * (Z * bool))) : Z :=
  Zsum ((fun i : time * (Z * bool) => fst (snd i)) <$> take k its).

Lemma written_0 its : written 0 its = 0.
Proof. by destruct its. Qed.

Lemma written_S k t n b its : written (S k) ((t, (n, b)) :: its) = n + written k its.
Proof. reflexivity. Qed.

(** Where the loop stops: at the first clock reading at or past the deadline, or
    after the first write that fails. *)
Definition stops_after (deadline : time) (its : list (time * (Z * bool))) (k : nat) : Prop :=
  Forall (fun i => fst i < deadline) (take k its)
  /\ Forall (fun i => snd (snd i) = false) (take (pred k) its)
  /\ ((exists i, its !! k = Some i /\ deadline <= fst i)
      \/ (exists j i, k = S j /\ its !! j = Some i /\ snd (snd i) = true)).

Lemma stream_go_spec deadline its sent :
  Exists (fun i => deadline <= fst i) its ->
  exists k, stream_go deadline its (i64 sent) = Some (i64 (sent + written k its)) /\ stops_after deadline its k.
Proof.
  revert sent. induction its as [| [t [n failed]] its IH]; intros sent He; [by inversion He |].
  cbn [stream_go]. destruct (Z.ltb_spec t deadline) as [Ht | Ht].
  - rewrite i64_add_l. destruct failed.
    + exists 1%nat. rewrite written_S, written_0. split; [do 2 f_equal; lia |].
      split; [by repeat constructor |]. split; [constructor |]. right. by exists 0%nat, (t, (n, true)).
    + destruct (IH (sent + n)) as (k & Hk & Hd & Hf & Hs).
      { inversion He as [? ? H | ? ? H]; subst; [cbn in H; lia | done]. }
      rewrite Hk. exists (S k). rewrite written_S. split; [do 2 f_equal; lia |].
      split; [by constructor |]. split; [destruct k; [constructor | by constructor] |].
      destruct Hs as [? | (j & i & -> & Hi & Hb)]; [by left | right]. by exists (S j), i.
  - exists 0%nat. rewrite written_0. split; [do 2 f_equal; lia |].
    split; [constructor |]. split; [constructor |]. left. by exists (t, (n, failed)).
Qed.

Lemma read_nothing reads got t0 :
  Forall (fun r => snd r <= 0) reads -> foldl read_one (got, t0) reads = (got, t0).
Proof.
  intros H. revert got t0. induction H as [| [t n] l Hn _ IH]; intros got t0; [done |]. cbn [foldl read_one].
  cbn in Hn. rewrite (proj2 (Z.ltb_ge 0 n)) by lia. apply IH.
Qed.

Lemma Zmax_attained l m : m ∈ l -> Forall (fun x => x <= m) l -> 0 <= m -> foldr Z.max 0 l = m.
Proof.
  intros Hm Hl H0. assert (foldr Z.max 0 l <= m /\ forall x, x ∈ l -> x <= foldr Z.max 0 l) as [H1 H2].
  { clear Hm. induction Hl as [| x l Hx Hl [IH1 IH2]]; cbn; [split; [lia | by intros x []%elem_of_nil] |].
    split; [lia |]. intros y [-> | Hy]%elem_of_cons; [lia | specialize (IH2 y Hy); lia]. }
  specialize (H2 m Hm). lia.
Qed.

(** ** Properties *)

(** The request a flow sends is understood by the responder: for a duration
    of at most a minute (to the millisecond) GET makes it send for that duration
    cut to whole milliseconds and PUT makes it discard what comes; a longer
    duration makes it close at once. *)
Theorem request_served (unicode_upper : Z -> Z) (d : duration) (Hd : 0 <= d < 2 ^ 63) :
  serve unicode_upper (Some (request "GET" d))
    = (if 60000 <? milliseconds d then Close else Send (d - d mod millisecond))
  /\ serve unicode_upper (Some (request "PUT" d)) = (if 60000 <? milliseconds d then Close else Discard).
Proof.
  assert (forall v, v = "GET" \/ v = "PUT" -> Forall (fun c => is_graph c = true) (chars v) /\ v <> "" /\ ToUpper unicode_upper v = v) as Hv.
  { intros v [-> | ->]; (split; [by repeat constructor | done]). }
  destruct (Hv "GET" ltac:(by left)) as (G1 & G2 & G3). destruct (Hv "PUT" ltac:(by right)) as (P1 & P2 & P3).
  unfold serve. cbn [mbind option_bind]. rewrite !parse_request, G3, P3 by done.
  destruct (Z.ltb_spec 60000 (milliseconds d)) as [H | H]; [done |]. cbn. split; [f_equal | done].
  unfold milliseconds, millisecond in *. rewrite Z.quot_div_nonneg in * by lia.
  rewrite i64_small; unfold is_i64; Z.to_euclidean_division_equations; lia.
Qed.

(** No connection changes what another one is used for. *)
Lemma accept_loop_all (unicode_upper : Z -> Z) lines :
  accept_loop unicode_upper (inl <$> lines) = (serve unicode_upper <$> lines, None).
Proof. induction lines as [| l lines IH]; [done |]. cbn. by rewrite IH. Qed.

(** The responder never sends for more than a minute. *)
Theorem serve_bounded (unicode_upper : Z -> Z) (line : option string) (d : duration) :
  serve unicode_upper line = Send d -> 0 <= d <= minute.
Proof.
  unfold serve. destruct (l ← line; parseCmd unicode_upper l) as [[verb ms] |] eqn:E; [| done].
  destruct line as [l |]; [| done]. cbn in E. unfold parseCmd in E.
  destruct (fields (trim_space l)) as [| v [| x [| ? ?]]]; try done. destruct (atoi x) as [n |]; [| done].
  destruct (_ || _) eqn:Hr; [done |]. injection E as <- ->. breflect.
  case_bool_decide; [intros [= <-] | by case_bool_decide].
  unfold minute, second, millisecond in *. rewrite i64_small; unfold is_i64; lia.
Qed.

(** StreamFor ends once the clock reaches its deadline, and what it returns
    is the bytes of exactly the writes begun before the deadline, up to and
    including the first that failed. *)
Theorem streamFor_stops (start : time) (dur : duration) (its : list (time * (Z * bool)))
    (Hclock : Exists (fun i => start + dur <= fst i) its) :
  exists k, streamFor start dur its = Some (i64 (written k its)) /\ stops_after (start + dur) its k.
Proof.
  destruct (stream_go_spec (start + dur) its 0 Hclock) as (k & Hk & Hs). exists k. by split.
Qed.

(** Parallel flows. The measurement fails only when every flow failed, with
    the error of the first in order; otherwise it is the bytes of the successful
    flows over the longest of them, whatever order they are in. *)
Theorem parallel_spec (out : list res) :
  runParallel out =
    match good out with
    | [] => inr (head (errors out))
    | g => inl (mbps (i64 (Zsum (bytes <$> g))) (foldr Z.max 0 (dur <$> g)))
    end
  /\ forall out' q, out ≡ₚ out' -> runParallel out = inl q -> runParallel out' = inl q.
Proof.
  split; [apply runParallel_spec |]. intros out' q Hp. rewrite !runParallel_spec. pose proof (good_perm _ _ Hp) as Hg.
  destruct (good out) as [| g l]; [done |]. destruct (good out') as [| g' l']; [by apply Permutation_nil_r in Hg |].
  cbv zeta. by rewrite (Zsum_perm _ _ (fmap_Permutation bytes _ _ Hg)), (Zmax_perm _ _ (fmap_Permutation dur _ _ Hg)).
Qed.

(** An upload flow that receives no data does not fail: its timer was never
    started, so it reports the largest duration, and the whole measurement of up
    to a terabyte then comes out below a thousandth of a megabit per second. *)
Theorem empty_flow_collapses (out : list res) (reads : list (time * Z)) (end_ : time)
    (Hreads : Forall (fun r => snd r <= 0) reads) (Hend : 0 <= end_)
    (Hin : streamClientUp (UpReads reads end_) ∈ out)
    (Hdurs : Forall (fun r => is_i64 (dur r)) out)
    (Hbytes : 0 <= Zsum (bytes <$> good out) <= 10 ^ 12) :
  streamClientUp (UpReads reads end_) = Res 0 max_i64 None
  /\ exists q, runParallel out = inl q /\ (q <= 1 # 1000)%Q.
Proof.
  assert (streamClientUp (UpReads reads end_) = Res 0 max_i64 None) as E.
  { unfold streamClientUp. rewrite read_nothing by done. f_equal.
    unfold sub, zero_time, second, max_i64, min_i64. lia. }
  split; [done |]. rewrite E in Hin. rewrite runParallel_spec.
  assert (Res 0 max_i64 None ∈ good out) as Hg by by apply list_elem_of_filter.
  assert (foldr Z.max 0 (dur <$> good out) = max_i64) as Hm.
  { apply Zmax_attained.
    - apply list_elem_of_fmap. by exists (Res 0 max_i64 None).
    - apply Forall_fmap, Forall_forall. intros r [_ Hr]%list_elem_of_filter.
      rewrite Forall_forall in Hdurs. specialize (Hdurs r Hr). unfold is_i64, max_i64, compose in *. lia.
    - unfold max_i64. lia. }
  destruct (good out) as [| g l]; [by apply elem_of_nil in Hg |]. eexists. split; [done |].
  change (10 ^ 12) with 1000000000000 in Hbytes.
  rewrite Hm, i64_small by (unfold is_i64; lia). revert Hbytes. generalize (Zsum (bytes <$> g :: l)) as b. intros b Hb.
  unfold mbps. cbn [seconds Qnum max_i64].
  unfold Qle, Qdiv, Qmult, Qinv, inject_Z; cbn. lia.
Qed.

(** ** Witnesses *)

Lemma request_served_witness :
  serve id (Some (request "GET" defaultDur)) = Send (4 * second)
  /\ serve id (Some (request "PUT" defaultDur)) = Discard.
Proof. apply (request_served id defaultDur). vm_compute. split; congruence. Defined.

Lemma serve_bounded_witness : 0 <= 60000 * millisecond <= minute.
Proof. apply (serve_bounded id (Some "get 60000")). vm_compute. reflexivity. Defined.

Lemma streamFor_stops_witness :
  exists k, streamFor 0 10 [(1, (5, false)); (9, (6, false)); (12, (7, false))] = Some (i64 (written k [(1, (5, false)); (9, (6, false)); (12, (7, false))]))
    /\ stops_after 10 [(1, (5, false)); (9, (6, false)); (12, (7, false))] k.
Proof.
  apply (streamFor_stops 0 10 [(1, (5, false)); (9, (6, false)); (12, (7, false))]).
  do 2 apply Exists_cons_tl. apply Exists_cons_hd. cbn. lia.
Defined.

Lemma parallel_spec_witness :
  runParallel [Res 1000000 second None; Res 0 0 (Some "x")] = runParallel [Res 0 0 (Some "x"); Res 1000000 second None].
Proof.
  symmetry. apply (proj2 (parallel_spec [Res 1000000 second None; Res 0 0 (Some "x")])); [| reflexivity].
  constructor.
Defined.

Lemma empty_flow_collapses_witness :
  let out := Res 10000000 (4 * second) None :: streamClientUp (UpReads [] second) :: [] in
  exists q, runParallel out = inl q /\ (q <= 1 # 1000)%Q.
Proof.
  intros out. apply (empty_flow_collapses out [] second).
  - constructor.
  - vm_compute. congruence.
  - apply list_elem_of_further, list_elem_of_here.
  - repeat constructor; vm_compute; congruence.
  - vm_compute. split; congruence.
Defined.
