(* ===== verification/Flags.v ===== *)
(** * Command-line flags

    Go's [flag.FlagSet.Parse] with [ContinueOnError], for string and integer
    flags, and [strconv.ParseInt] with base 0, which it reads integers with. *)

From S2P Require Export GoStr.

(** ** strconv.ParseInt s 0 64 *)

Definition lower_byte (c : ascii) : Z := Z.lor (byte_val c) 32.

(** The value of a digit in any base up to 36. *)
Definition digit_val (c : ascii) : option Z :=
  let b := byte_val c in
  let l := lower_byte c in
  if (48 <=? b) && (b <=? 57) then Some (b - 48)
  else if (97 <=? l) && (l <=? 122) then Some (l - 97 + 10)
  else None.

(** The base a prefix gives, and the text after it. *)
Definition base_prefix (s : string) : Z * string :=
  match s with
  | String "0" r =>
      match r with
      | String c (String d t as t0) =>
          if lower_byte c =? byte_val "b" then (2, t0)
          else if lower_byte c =? byte_val "o" then (8, t0)
          else if lower_byte c =? byte_val "x" then (16, t0)
          else (8, r)
      | _ => (8, r)
      end
  | _ => (10, s)
  end.

(** The digits, with underscores skipped. *)
Fixpoint digits_base (base : Z) (s : string) (n : Z) : option Z :=
  match s with
  | "" => Some n
  | String "_" r => digits_base base r n
  | String c r => d ← digit_val c; if d <? base then digits_base base r (n * base + d) else None
  end.

Inductive saw := SawStart | SawDigit | SawUnderscore | SawOther.

Fixpoint underscore_go (hex : bool) (s : string) (w : saw) : bool :=
  match s with
  | "" => match w with SawUnderscore => false | _ => true end
  | String c r =>
      if is_digit c || (hex && (97 <=? lower_byte c) && (lower_byte c <=? 102)) then underscore_go hex r SawDigit
      else if bool_decide (c = "_"%char) then
        match w with SawDigit => underscore_go hex r SawUnderscore | _ => false end
      else match w with SawUnderscore => false | _ => underscore_go hex r SawOther end
  end.

(** [underscoreOK], for a number without its sign. *)
Definition underscoreOK (s : string) : bool :=
  match s with
  | String "0" (String c r) =>
      if (lower_byte c =? byte_val "b") || (lower_byte c =? byte_val "o") || (lower_byte c =? byte_val "x")
      then underscore_go (lower_byte c =? byte_val "x") r SawDigit
      else underscore_go false s SawStart
  | _ => underscore_go false s SawStart
  end.

Definition parse_uint0 (s : string) : option Z :=
  if bool_decide (s = "") then None
  else
    let '(base, r) := base_prefix s in
    n ← digits_base base r 0;
    if has_byte "_" (chars s) && negb (underscoreOK s) then None
    else if n <? 2 ^ 64 then Some n else None.

Definition parse_int0 (s : string) : option Z :=
  match s with
  | String "-" r => n ← parse_uint0 r; if n <=? 2 ^ 63 then Some (- n) else None
  | String "+" r => n ← parse_uint0 r; if n <? 2 ^ 63 then Some n else None
  | _ => n ← parse_uint0 s; if n <? 2 ^ 63 then Some n else None
  end.

Example parse_int0_ex :
  (parse_int0 "22", parse_int0 "0x1_0", parse_int0 "010", parse_int0 "-0b11", parse_int0 "1__0", parse_int0 "0x",
   parse_int0 "0", parse_int0 "", parse_int0 "+")
  = (Some 22, Some 16, Some 8, Some (-3), None, None, Some 0, None, None).
Proof. vm_compute. reflexivity. Qed.

(** ** flag.FlagSet.Parse *)

Inductive kind := KString | KInt.

(** The values set, by the name of the flag. *)
Record flag_values := Values { strs : gmap string string; ints : gmap string Z }.
Definition no_values : flag_values := Values ∅ ∅.

(** [flag.Value.Set]. *)
Definition set_flag (k : kind) (name value : string) (v : flag_values) : option flag_values :=
  match k with
  | KString => Some (Values (<[name := value]> (strs v)) (ints v))
  | KInt => n ← parse_int0 value; Some (Values (strs v) (<[name := n]> (ints v)))
  end.

(** An argument: a flag with its name and the value after an equals sign, the end
    of the flags, or bad syntax. *)
Inductive arg := Flag (name : string) (value : option string) | EndHere | BadSyntax.

Definition split_value (name : string) : string * option string :=
  match name with
  | "" => ("", None)
  | String c r =>
      match index_byte "=" (chars r) with
      | Some i => (of_chars (c :: take i (chars r)), Some (of_chars (drop (i + 1) (chars r))))
      | None => (name, None)
      end
  end.

Definition classify (s : string) : arg :=
  match s with
  | String "-" r =>
      let name := match r with String "-" r' => r' | _ => r end in
      if bool_decide (r = "") || bool_decide (r = "-") then EndHere
      else match name with
           | "" => BadSyntax
           | String c _ =>
               if bool_decide (c = "-"%char) || bool_decide (c = "="%char) then BadSyntax
               else let '(n, v) := split_value name in Flag n v
           end
  | _ => EndHere
  end.

(** [Parse]: the values set, or an error (a help flag is one). *)
Fixpoint Parse (flags : string -> option kind) (args : list string) (v : flag_values) : option flag_values :=
  match args with
  | [] => Some v
  | s :: rest =>
      match classify s with
      | EndHere => Some v
      | BadSyntax => None
      | Flag name value =>
          k ← flags name;
          match value, rest with
          | Some x, _ => v' ← set_flag k name x v; Parse flags rest v'
          | None, x :: rest' => v' ← set_flag k name x v; Parse flags rest' v'
          | None, [] => None
          end
      end
  end.

Example parse_flags_ex :
  let flags n := if bool_decide (n = "host") then Some KString else if bool_decide (n = "port") then Some KInt else None in
  (Parse flags ["--host=a"; "-port"; "0x10"; "x"; "-bad"] no_values,
   Parse flags ["-host"; "a"; "-bad"] no_values, Parse flags ["-port"; "a"] no_values)
  = (Some (Values {["host" := "a"]} {["port" := 16]}), None, None).
Proof. vm_compute. reflexivity. Qed.

(** ** Lemmas *)

(** Flags written out are read back: [-name=value] for each, the last one of a name deciding. *)
Definition flag_arg (x : string * string) : string := "-" +:+ fst x +:+ "=" +:+ snd x.

Definition plain_name (s : string) : Prop :=
  free_of "=" s /\ match s with String c _ => c <> "-"%char | "" => False end.

Lemma classify_flag name value : plain_name name -> classify (flag_arg (name, value)) = Flag name (Some value).
Proof.
  unfold plain_name, free_of, flag_arg. cbn [fst snd]. destruct name as [| c n]; [by intros [? []] |].
  intros [Hf Hc]. change ("-" +:+ String c n +:+ "=" +:+ value) with (String "-" (String c (n +:+ String "=" value))).
  assert (c <> "="%char) as He by (intros ->; apply Hf; cbn; left).
  assert ("="%char ∉ chars n) as Hn by (intros H; apply Hf; cbn; by right).
  assert (split_value (String c (n +:+ String "=" value)) = (String c n, Some value)) as Hs.
  { unfold split_value. rewrite chars_app. change (chars (String "=" value)) with ("="%char :: chars value).
    rewrite index_byte_app, take_app_length by done. f_equal; [by rewrite <- (of_chars_chars (String c n)) |].
    rewrite drop_app, drop_ge by lia. replace (length (chars n) + 1 - length (chars n))%nat with 1%nat by lia.
    cbn [app drop]. by rewrite drop_0, of_chars_chars. }
  cbn [classify]. rewrite !bool_decide_false by congruence.
  destruct (decide (c = "-"%char)); [done |].
  assert (match String c (n +:+ String "=" value) with String "-" r' => r' | _ => String c (n +:+ String "=" value) end
          = String c (n +:+ String "=" value)) as ->.
  { destruct c as [[] [] [] [] [] [] [] []]; done. }
  cbn [orb]. rewrite !bool_decide_false by done. by rewrite Hs.
Qed.
