(* ===== verification/Config.v ===== *)
(** * The configuration

    Models src/core/internal/config/config.go: the defaults and the three layers
    put over them (the options file of the Home Assistant addon, the environment,
    the command line), and the command dispatch of src/core/cmd. The file's text and
    the environment are arguments. *)

From S2P Require Import GoJson.
From S2P Require Export GoTime Flags.

Record Config := MkConfig {
  Host : string; SSHPort : Z; User : string; KeyFile : string; Forwards : list string;
  ServerAliveInterval : Z; ServerAliveCountMax : Z; HostKey : string; ExtraSSHOpts : string;
  ReconnectDelay : duration; SSHImpl : string; SSHCommand : string; NoPrecheck : bool;
  HeartbeatPort : Z; HeartbeatName : string; HeartbeatKey : string; HeartbeatInterval : duration;
  StatsAddr : string; StatsForwardPort : Z;
  SpeedtestListen : string; SpeedtestForwardPort : Z; SpeedtestAddr : string; SpeedtestBytes : Z;
  ServerSSHAddr : string; ServerHostKey : string; ServerAuthorizedKeys : string;
  ServerMonitorAddr : string; ServerUDPAddr : string; ServerTrafficFile : string; ServerClientsFile : string;
  ServerLinks : string; ServerLinkBackupSuffix : string;
}.

#[export] Instance Config_eq_dec : EqDecision Config.
Proof. solve_decision. Defined.

Definition defaults : Config :=
  MkConfig "" 2222 "tunnel" "" [] 20 3 "" "" (5 * second) "openssh" "ssh" false
    0 "" "" (10 * second) ":9100" 0 ":9102" 0 "" (Z.shiftl 50 20)
    ":2223" "/data/tunnelkit_host_key" "/data/authorized_keys" "" "" "/data/traffic.json" "/data/clients.json"
    "" "".

(** The fields of the options file that are present. *)
Record haOptions := HaOptions {
  o_Host : option string; o_SSHPort : option Z; o_User : option string; o_KeyFile : option string;
  o_Forwards : option (list string); o_ServerAliveInterval : option Z; o_ServerAliveCountMax : option Z;
  o_ExtraSSHOpts : option string; o_HostKey : option string; o_StatsForwardPort : option Z;
  o_UDPPort : option Z; o_UDPName : option string; o_UDPKey : option string; o_SpeedtestForwardPort : option Z;
}.

(** The keys of the file, with the fields they set. *)
Definition option_fields : list (field haOptions) :=
  [member "host" (go_ptr go_string) o_Host (fun x '(HaOptions _ b c d e f g h i j k l m n) => HaOptions x b c d e f g h i j k l m n);
   member "ssh_port" (go_ptr go_int) o_SSHPort (fun x '(HaOptions a _ c d e f g h i j k l m n) => HaOptions a x c d e f g h i j k l m n);
   member "username" (go_ptr go_string) o_User (fun x '(HaOptions a b _ d e f g h i j k l m n) => HaOptions a b x d e f g h i j k l m n);
   member "key_file" (go_ptr go_string) o_KeyFile (fun x '(HaOptions a b c _ e f g h i j k l m n) => HaOptions a b c x e f g h i j k l m n);
   member "remote_forwarding" (go_slice go_string) o_Forwards (fun x '(HaOptions a b c d _ f g h i j k l m n) => HaOptions a b c d x f g h i j k l m n);
   member "server_alive_interval" (go_ptr go_int) o_ServerAliveInterval (fun x '(HaOptions a b c d e _ g h i j k l m n) => HaOptions a b c d e x g h i j k l m n);
   member "server_alive_count_max" (go_ptr go_int) o_ServerAliveCountMax (fun x '(HaOptions a b c d e f _ h i j k l m n) => HaOptions a b c d e f x h i j k l m n);
   member "other_ssh_options" (go_ptr go_string) o_ExtraSSHOpts (fun x '(HaOptions a b c d e f g _ i j k l m n) => HaOptions a b c d e f g x i j k l m n);
   member "host_key" (go_ptr go_string) o_HostKey (fun x '(HaOptions a b c d e f g h _ j k l m n) => HaOptions a b c d e f g h x j k l m n);
   member "stats_forward_port" (go_ptr go_int) o_StatsForwardPort (fun x '(HaOptions a b c d e f g h i _ k l m n) => HaOptions a b c d e f g h i x k l m n);
   member "udp_heartbeat_port" (go_ptr go_int) o_UDPPort (fun x '(HaOptions a b c d e f g h i j _ l m n) => HaOptions a b c d e f g h i j x l m n);
   member "udp_heartbeat_name" (go_ptr go_string) o_UDPName (fun x '(HaOptions a b c d e f g h i j k _ m n) => HaOptions a b c d e f g h i j k x m n);
   member "udp_heartbeat_key" (go_ptr go_string) o_UDPKey (fun x '(HaOptions a b c d e f g h i j k l _ n) => HaOptions a b c d e f g h i j k l x n);
   member "speedtest_forward_port" (go_ptr go_int) o_SpeedtestForwardPort (fun x '(HaOptions a b c d e f g h i j k l m _) => HaOptions a b c d e f g h i j k l m x)].

Definition no_options : haOptions := HaOptions None None None None None None None None None None None None None None.

(** What is used of the file: nothing of one that cannot be read, is not JSON, or
    has a value of another type under any of the keys. *)
Definition readOptions (file : option string) : option haOptions :=
  data ← file;
  v ← parse data;
  let '(o, ok) := dec_struct option_fields v no_options in if ok then Some o else None.

Definition applyOptions (o : option haOptions) (c : Config) : Config :=
  match o with
  | None => c
  | Some o =>
      MkConfig (default (Host c) (o_Host o)) (default (SSHPort c) (o_SSHPort o)) (default (User c) (o_User o))
        (default (KeyFile c) (o_KeyFile o)) (default (Forwards c) (o_Forwards o))
        (default (ServerAliveInterval c) (o_ServerAliveInterval o))
        (default (ServerAliveCountMax c) (o_ServerAliveCountMax o))
        (default (HostKey c) (o_HostKey o)) (default (ExtraSSHOpts c) (o_ExtraSSHOpts o))
        (ReconnectDelay c) (SSHImpl c) (SSHCommand c) (NoPrecheck c)
        (default (HeartbeatPort c) (o_UDPPort o)) (default (HeartbeatName c) (o_UDPName o))
        (default (HeartbeatKey c) (o_UDPKey o)) (HeartbeatInterval c)
        (StatsAddr c) (default (StatsForwardPort c) (o_StatsForwardPort o))
        (SpeedtestListen c) (default (SpeedtestForwardPort c) (o_SpeedtestForwardPort o))
        (SpeedtestAddr c) (SpeedtestBytes c)
        (ServerSSHAddr c) (ServerHostKey c) (ServerAuthorizedKeys c) (ServerMonitorAddr c) (ServerUDPAddr c)
        (ServerTrafficFile c) (ServerClientsFile c) (ServerLinks c) (ServerLinkBackupSuffix c)
  end.

Definition applyOptionsFile (file : option string) (c : Config) : Config := applyOptions (readOptions file) c.

Definition splitList (v : string) : list string :=
  filter (fun p => p <> "") (trim_space <$> split "," v).

Section env.
(** [os.Getenv], and the case folding of runes above 0x7f. *)
Context (Getenv : string -> string) (unicode_fold : Z -> Z -> bool).

Definition setStr (env : string) (dst : string) : string :=
  let v := Getenv env in if bool_decide (v = "") then dst else v.
Definition setInt (env : string) (dst : Z) : Z :=
  let v := Getenv env in
  if bool_decide (v = "") then dst else match atoi v with Some n => n | None => dst end.

(** [strings.EqualFold]. *)
Definition rune_eq_fold (a b : Z) : bool :=
  (a =? b)
  || (if (a <? 128) && (b <? 128) then lower_rune id a =? lower_rune id b else unicode_fold a b).
Fixpoint runes_eq_fold (l k : list Z) : bool :=
  match l, k with
  | [], [] => true
  | a :: l', b :: k' => rune_eq_fold a b && runes_eq_fold l' k'
  | _, _ => false
  end.
Definition EqualFold (s t : string) : bool := runes_eq_fold (runes s).*1 (runes t).*1.

Definition env_forwards (c : Config) : list string :=
  let v := Getenv "TK_FORWARDS" in if bool_decide (v = "") then Forwards c else splitList v.
Definition env_no_precheck (c : Config) : bool :=
  let v := Getenv "TK_NO_PRECHECK" in
  if negb (bool_decide (v = "")) && negb (bool_decide (v = "0")) && negb (EqualFold v "false") then true else NoPrecheck c.
Definition env_interval (c : Config) : duration :=
  let v := Getenv "TK_UDP_INTERVAL" in
  if bool_decide (v = "") then HeartbeatInterval c
  else match atoi v with
       | Some n => if 0 <? n then i64 (n * second) else HeartbeatInterval c
       | None => HeartbeatInterval c
       end.

Definition applyEnv (c : Config) : Config :=
  MkConfig (setStr "TK_HOST" (Host c)) (setInt "TK_SSH_PORT" (SSHPort c)) (setStr "TK_USER" (User c))
    (setStr "TK_KEY_FILE" (KeyFile c)) (env_forwards c)
    (setInt "TK_SERVER_ALIVE_INTERVAL" (ServerAliveInterval c))
    (setInt "TK_SERVER_ALIVE_COUNT_MAX" (ServerAliveCountMax c))
    (setStr "TK_HOST_KEY" (HostKey c)) (setStr "TK_EXTRA_SSH_OPTS" (ExtraSSHOpts c))
    (ReconnectDelay c) (setStr "TK_SSH_IMPL" (SSHImpl c)) (setStr "TK_SSH_COMMAND" (SSHCommand c))
    (env_no_precheck c)
    (setInt "TK_UDP_PORT" (HeartbeatPort c)) (setStr "TK_UDP_NAME" (HeartbeatName c))
    (setStr "TK_UDP_KEY" (HeartbeatKey c)) (env_interval c)
    (setStr "TK_STATS_ADDR" (StatsAddr c)) (setInt "TK_STATS_FORWARD_PORT" (StatsForwardPort c))
    (setStr "TK_SPEEDTEST_LISTEN" (SpeedtestListen c)) (setInt "TK_SPEEDTEST_FORWARD_PORT" (SpeedtestForwardPort c))
    (setStr "TK_SPEEDTEST_ADDR" (SpeedtestAddr c)) (SpeedtestBytes c)
    (setStr "TK_SERVER_SSH_ADDR" (ServerSSHAddr c)) (setStr "TK_SERVER_HOST_KEY" (ServerHostKey c))
    (setStr "TK_SERVER_AUTHORIZED_KEYS" (ServerAuthorizedKeys c))
    (setStr "TK_SERVER_MONITOR_ADDR" (ServerMonitorAddr c)) (setStr "TK_SERVER_UDP_ADDR" (ServerUDPAddr c))
    (setStr "TK_SERVER_TRAFFIC_FILE" (ServerTrafficFile c)) (setStr "TK_SERVER_CLIENTS" (ServerClientsFile c))
    (setStr "TK_SERVER_LINKS" (ServerLinks c)) (setStr "TK_SERVER_LINK_BACKUP_SUFFIX" (ServerLinkBackupSuffix c)).

(** The flags that are defined. *)
Definition string_flags : list string :=
  ["host"; "user"; "key"; "forwards"; "ssh-opts"; "host-key"; "ssh-impl"; "ssh-command"; "stats-addr";
   "speedtest-listen"; "speedtest-addr"; "server-ssh-addr"; "server-host-key"; "server-authorized-keys";
   "server-monitor-addr"].
Definition int_flags : list string :=
  ["ssh-port"; "alive-interval"; "alive-count"; "stats-forward"; "speedtest-forward"; "speedtest-bytes"].

Definition flags (name : string) : option kind :=
  if bool_decide (name ∈ string_flags) then Some KString
  else if bool_decide (name ∈ int_flags) then Some KInt else None.

Definition flag_str (v : flag_values) (name dflt : string) : string := default dflt (strs v !! name).
Definition flag_int (v : flag_values) (name : string) (dflt : Z) : Z := default dflt (ints v !! name).

Definition flag_forwards (v : flag_values) (c : Config) : list string :=
  let fwd := flag_str v "forwards" (join "," (Forwards c)) in
  if bool_decide (fwd = "") then Forwards c else splitList fwd.

Definition applyFlags (args : list string) (c : Config) : Config :=
  match Parse flags args no_values with
  | None => c
  | Some v =>
      MkConfig (flag_str v "host" (Host c)) (flag_int v "ssh-port" (SSHPort c)) (flag_str v "user" (User c))
        (flag_str v "key" (KeyFile c)) (flag_forwards v c)
        (flag_int v "alive-interval" (ServerAliveInterval c)) (flag_int v "alive-count" (ServerAliveCountMax c))
        (flag_str v "host-key" (HostKey c)) (flag_str v "ssh-opts" (ExtraSSHOpts c))
        (ReconnectDelay c) (flag_str v "ssh-impl" (SSHImpl c)) (flag_str v "ssh-command" (SSHCommand c)) (NoPrecheck c)
        (HeartbeatPort c) (HeartbeatName c) (HeartbeatKey c) (HeartbeatInterval c)
        (flag_str v "stats-addr" (StatsAddr c)) (flag_int v "stats-forward" (StatsForwardPort c))
        (flag_str v "speedtest-listen" (SpeedtestListen c)) (flag_int v "speedtest-forward" (SpeedtestForwardPort c))
        (flag_str v "speedtest-addr" (SpeedtestAddr c)) (flag_int v "speedtest-bytes" (SpeedtestBytes c))
        (flag_str v "server-ssh-addr" (ServerSSHAddr c)) (flag_str v "server-host-key" (ServerHostKey c))
        (flag_str v "server-authorized-keys" (ServerAuthorizedKeys c))
        (flag_str v "server-monitor-addr" (ServerMonitorAddr c)) (ServerUDPAddr c)
        (ServerTrafficFile c) (ServerClientsFile c) (ServerLinks c) (ServerLinkBackupSuffix c)
  end.

Definition Load (file : option string) (args : list string) : Config :=
  applyFlags args (applyEnv (applyOptionsFile file defaults)).
End env.

(** ** The commands *)

Inductive command := Version | Responder (args : list string) | Initiator (args : list string) | RunIt (args : list string).

(** The dispatch of both mains, on [os.Args] after the program name: [sub] is the
    subcommand of the program. *)
Definition dispatch (sub : string) (sub_cmd : list string -> command) (args : list string) : command :=
  match args with
  | [] => RunIt []
  | a :: rest =>
      if bool_decide (a ∈ ["version"; "-v"; "--version"]) then Version
      else if bool_decide (a = sub) then sub_cmd rest
      else RunIt args
  end.
Definition client_main : list string -> command := dispatch "responder" Responder.
Definition server_main : list string -> command := dispatch "speedtest" Initiator.

(** ** Lemmas *)

Lemma splitList_items v p : p ∈ splitList v -> p <> "" /\ exists q, q ∈ split "," v /\ p = trim_space q.
Proof. unfold splitList. intros [Hp (q & -> & Hq)%list_elem_of_fmap]%list_elem_of_filter. eauto. Qed.

(** An item that splitting leaves alone. *)
Definition item (p : string) : Prop := p <> "" /\ trim_space p = p /\ free_of "," p.

Lemma join_nil sep l : Forall (fun p => p <> "") l -> join sep l = "" -> l = [].
Proof.
  intros [| x k Hx Hk]; [done |]. destruct k as [| y k]; [by intros |].
  cbn. intros H. exfalso. apply Hx. apply chars_inj. apply (f_equal chars) in H.
  rewrite chars_app in H. by apply app_nil in H as [H _].
Qed.

Lemma splitList_join l : Forall item l -> l <> [] -> splitList (join "," l) = l.
Proof.
  intros Hl Hne. unfold splitList. change "," with (String "," ""). rewrite split_join.
  - induction Hl as [| p l (Hp & Ht & _) Hl IH]; [done |]. cbn [fmap list_fmap]. rewrite Ht, filter_cons, decide_True by done.
    f_equal. destruct l; [done | by apply IH].
  - done.
  - eapply Forall_impl; [exact Hl |]. by intros p (_ & _ & H).
Qed.

(** ** Properties *)

(** An environment variable that is set. *)
Definition set_in (Getenv : string -> string) (name : string) : option string :=
  if bool_decide (Getenv name = "") then None else Some (Getenv name).

(** The first of a flag, a variable and an option of the file, else the default. *)
Definition pick {A} (flag env opt : option A) (dflt : A) : A := default (default (default dflt opt) env) flag.

Lemma setStr_env Getenv name d : setStr Getenv name d = default d (set_in Getenv name).
Proof. unfold setStr, set_in. by case_bool_decide. Qed.

Lemma setInt_env Getenv name d : setInt Getenv name d = default d (set_in Getenv name ≫= atoi).
Proof. unfold setInt, set_in. case_bool_decide; [done |]. cbn. by destruct (atoi _). Qed.

(** The options of the file over the defaults, whether or not it can be used. *)
Lemma applyOptionsFile_default file c :
  applyOptionsFile file c = applyOptions (Some (default no_options (readOptions file))) c.
Proof. unfold applyOptionsFile. destruct (readOptions file); [done |]. by destruct c. Qed.

(** C34: the order of the layers, for every setting. When the command line parses, a
    setting is what its flag says if given, else its environment variable if set
    (and, for a number, if it is one), else the options file, when it can be used,
    else the default; some settings lack a flag, an option or a variable. The
    exceptions: the delay between retries is fixed; the interval of the heartbeats is
    a positive number of seconds in the environment only, and skipping the pre-flight
    probe any text there but 0 and false; and the forwards go through one text, which
    an empty flag leaves to the layers below. *)
Theorem load_precedence (Getenv : string -> string) (fold : Z -> Z -> bool) (file : option string) (args : list string)
    (v : flag_values) (Hparse : Parse flags args no_values = Some v) :
  let o := default no_options (readOptions file) in
  let env := set_in Getenv in
  let env_int name := env name ≫= atoi in
  let c := Load Getenv fold file args in
  Host c = pick (strs v !! "host") (env "TK_HOST") (o_Host o) ""
  /\ User c = pick (strs v !! "user") (env "TK_USER") (o_User o) "tunnel"
  /\ KeyFile c = pick (strs v !! "key") (env "TK_KEY_FILE") (o_KeyFile o) ""
  /\ HostKey c = pick (strs v !! "host-key") (env "TK_HOST_KEY") (o_HostKey o) ""
  /\ ExtraSSHOpts c = pick (strs v !! "ssh-opts") (env "TK_EXTRA_SSH_OPTS") (o_ExtraSSHOpts o) ""
  /\ SSHImpl c = pick (strs v !! "ssh-impl") (env "TK_SSH_IMPL") None "openssh"
  /\ SSHCommand c = pick (strs v !! "ssh-command") (env "TK_SSH_COMMAND") None "ssh"
  /\ StatsAddr c = pick (strs v !! "stats-addr") (env "TK_STATS_ADDR") None ":9100"
  /\ SpeedtestListen c = pick (strs v !! "speedtest-listen") (env "TK_SPEEDTEST_LISTEN") None ":9102"
  /\ SpeedtestAddr c = pick (strs v !! "speedtest-addr") (env "TK_SPEEDTEST_ADDR") None ""
  /\ ServerSSHAddr c = pick (strs v !! "server-ssh-addr") (env "TK_SERVER_SSH_ADDR") None ":2223"
  /\ ServerHostKey c = pick (strs v !! "server-host-key") (env "TK_SERVER_HOST_KEY") None "/data/tunnelkit_host_key"
  /\ ServerAuthorizedKeys c = pick (strs v !! "server-authorized-keys") (env "TK_SERVER_AUTHORIZED_KEYS") None "/data/authorized_keys"
  /\ ServerMonitorAddr c = pick (strs v !! "server-monitor-addr") (env "TK_SERVER_MONITOR_ADDR") None ""
  /\ HeartbeatName c = pick None (env "TK_UDP_NAME") (o_UDPName o) ""
  /\ HeartbeatKey c = pick None (env "TK_UDP_KEY") (o_UDPKey o) ""
  /\ ServerUDPAddr c = pick None (env "TK_SERVER_UDP_ADDR") None ""
  /\ ServerTrafficFile c = pick None (env "TK_SERVER_TRAFFIC_FILE") None "/data/traffic.json"
  /\ ServerClientsFile c = pick None (env "TK_SERVER_CLIENTS") None "/data/clients.json"
  /\ ServerLinks c = pick None (env "TK_SERVER_LINKS") None ""
  /\ ServerLinkBackupSuffix c = pick None (env "TK_SERVER_LINK_BACKUP_SUFFIX") None ""
  /\ SSHPort c = pick (ints v !! "ssh-port") (env_int "TK_SSH_PORT") (o_SSHPort o) 2222
  /\ ServerAliveInterval c = pick (ints v !! "alive-interval") (env_int "TK_SERVER_ALIVE_INTERVAL") (o_ServerAliveInterval o) 20
  /\ ServerAliveCountMax c = pick (ints v !! "alive-count") (env_int "TK_SERVER_ALIVE_COUNT_MAX") (o_ServerAliveCountMax o) 3
  /\ StatsForwardPort c = pick (ints v !! "stats-forward") (env_int "TK_STATS_FORWARD_PORT") (o_StatsForwardPort o) 0
  /\ SpeedtestForwardPort c = pick (ints v !! "speedtest-forward") (env_int "TK_SPEEDTEST_FORWARD_PORT") (o_SpeedtestForwardPort o) 0
  /\ HeartbeatPort c = pick None (env_int "TK_UDP_PORT") (o_UDPPort o) 0
  /\ SpeedtestBytes c = pick (ints v !! "speedtest-bytes") None None 52428800
  /\ ReconnectDelay c = 5 * second
  /\ HeartbeatInterval c
     = match env_int "TK_UDP_INTERVAL" with Some n => if 0 <? n then i64 (n * second) else 10 * second | None => 10 * second end
  /\ NoPrecheck c
     = match env "TK_NO_PRECHECK" with Some x => negb (bool_decide (x = "0")) && negb (EqualFold fold x "false") | None => false end
  /\ Forwards c
     = (let below := pick None (splitList <$> env "TK_FORWARDS") (o_Forwards o) [] in
        let list := default (join "," below) (strs v !! "forwards") in
        if bool_decide (list = "") then below else splitList list).
Proof.
  cbv zeta. unfold Load, applyFlags. rewrite Hparse, applyOptionsFile_default. set (o := default no_options _).
  unfold applyEnv, applyOptions, flag_str, flag_int.
  cbn [Host SSHPort User KeyFile Forwards ServerAliveInterval ServerAliveCountMax HostKey ExtraSSHOpts ReconnectDelay SSHImpl
    SSHCommand NoPrecheck HeartbeatPort HeartbeatName HeartbeatKey HeartbeatInterval StatsAddr StatsForwardPort SpeedtestListen
    SpeedtestForwardPort SpeedtestAddr SpeedtestBytes ServerSSHAddr ServerHostKey ServerAuthorizedKeys ServerMonitorAddr
    ServerUDPAddr ServerTrafficFile ServerClientsFile ServerLinks ServerLinkBackupSuffix defaults].
  rewrite !setStr_env, !setInt_env. split_and!; try reflexivity.
  - unfold env_interval, set_in. case_bool_decide; [done |]. cbn. by destruct (atoi _).
  - unfold env_no_precheck, set_in. case_bool_decide; [done |]. cbn. by destruct (bool_decide _), (EqualFold _ _ _).
  - unfold flag_forwards, flag_str, env_forwards, set_in. cbn [Forwards]. by destruct (bool_decide (Getenv "TK_FORWARDS" = "")).
Qed.

(** A command line that does not parse, even for one unknown flag or a help
    flag after good ones, is dropped whole: the program goes on with what the
    environment and the options file say. *)
Theorem bad_flags_ignored (Getenv : string -> string) (fold : Z -> Z -> bool) (file : option string)
    (pre : list (string * string)) (bad : string) (args : list string)
    (Hpre : Forall (fun x => plain_name (fst x)) pre)
    (Hbad : match classify bad with Flag name _ => flags name = None | BadSyntax => True | EndHere => False end) :
  Load Getenv fold file ((flag_arg <$> pre) ++ bad :: args) = applyEnv Getenv fold (applyOptionsFile file defaults).
Proof.
  unfold Load, applyFlags.
  assert (forall v, Parse flags ((flag_arg <$> pre) ++ bad :: args) v = None) as ->; [| done].
  induction Hpre as [| [n x] pre Hn _ IH]; intros v; cbn [fmap list_fmap app Parse].
  - destruct (classify bad) as [name value | |]; [| done..]. by rewrite Hbad.
  - rewrite classify_flag by done. destruct (flags n) as [k |]; [| done]. cbn.
    destruct (set_flag k n x v) as [v' |]; [apply IH | done].
Qed.

(** The forwards of the layers below reach the command line as one text,
    which is split again: items without commas or white space around them come
    through as they are when no flag is given, and a flag replaces them all. *)
Theorem forwards_kept (Getenv : string -> string) (fold : Z -> Z -> bool) (file : option string) (args : list string)
    (v : flag_values) (Hparse : Parse flags args no_values = Some v) :
  let below := Forwards (applyEnv Getenv fold (applyOptionsFile file defaults)) in
  (forall f, strs v !! "forwards" = Some f -> f <> "" -> Forwards (Load Getenv fold file args) = splitList f)
  /\ (strs v !! "forwards" = None -> Forall item below -> Forwards (Load Getenv fold file args) = below).
Proof.
  intros below. unfold Load, applyFlags. rewrite Hparse. cbn [Forwards]. unfold flag_forwards, flag_str. fold below. split.
  - intros f -> Hf. cbn. by rewrite bool_decide_false.
  - intros -> Hb. cbn. case_bool_decide as H; [done |]. apply splitList_join; [done |]. intros E. by rewrite E in H.
Qed.

(** One value of another type, under any key of the file, drops every option in it. *)
Theorem bad_option_drops_all (Getenv : string -> string) (fold : Z -> Z -> bool) (data : string) (kvs : list (string * value))
    (k : string) (v : value) (f : field haOptions) (args : list string)
    (Hdata : parse data = Some (JObj kvs)) (Hin : (k, v) ∈ kvs) (Hf : field_named option_fields k = Some f)
    (Hbad : forall o, (f_dec f v o).2 = false) :
  Load Getenv fold (Some data) args = Load Getenv fold None args.
Proof.
  unfold Load, applyOptionsFile. assert (readOptions (Some data) = None) as ->; [| done].
  unfold readOptions. cbn [mbind option_bind]. rewrite Hdata. cbn [mbind option_bind].
  pose proof (dec_struct_bad option_fields kvs k v f no_options Hin Hf Hbad) as H.
  destruct (dec_struct option_fields (JObj kvs) no_options) as [o ok]. cbn in H. by rewrite H.
Qed.

(** ** Witnesses *)

Definition demo_env (s : string) : string := if bool_decide (s = "TK_SSH_PORT") then "2022" else if bool_decide (s = "TK_FORWARDS") then "8060:localhost:80, 9:h:9" else "".
Definition demo_opts : option string :=
  Some (html "{`host`: `a.example`, `ssh_port`: 22, `remote_forwarding`: [`8022:127.0.0.1:22`], `log`: {`level`: 2}}").

Example demo_options :
  readOptions demo_opts = Some (HaOptions (Some "a.example") (Some 22) None None (Some ["8022:127.0.0.1:22"])
    None None None None None None None None None)
  /\ readOptions (Some (html "{`host`: `a.example`, `ssh_port`: `22`}")) = None
  /\ readOptions (Some (html "{`Host`: null, `ssh_port`: 22.0}")) = None
  /\ readOptions (Some "null") = Some no_options.
Proof. split_and!; vm_compute; reflexivity. Qed.

Lemma load_precedence_witness :
  Host (Load demo_env (fun _ _ => false) demo_opts ["--user"; "u"]) = "a.example"
  /\ SSHPort (Load demo_env (fun _ _ => false) demo_opts ["--user"; "u"]) = 2022
  /\ User (Load demo_env (fun _ _ => false) demo_opts ["--user"; "u"]) = "u".
Proof.
  pose proof (load_precedence demo_env (fun _ _ => false) demo_opts ["--user"; "u"] (Values {["user" := "u"]} ∅) eq_refl) as H.
  split; [exact (proj1 H) |]. split; [| exact (proj1 (proj2 H))].
  do 21 apply proj2 in H. exact (proj1 H).
Defined.

Lemma bad_flags_ignored_witness :
  Load demo_env (fun _ _ => false) None ["-host=b"; "-h"; "x"]
  = applyEnv demo_env (fun _ _ => false) (applyOptionsFile None defaults).
Proof.
  apply (bad_flags_ignored demo_env (fun _ _ => false) None [("host", "b")] "-h" ["x"]).
  - constructor; [| constructor]. split; [| done]. apply (bool_decide_unpack _). vm_compute. constructor.
  - reflexivity.
Defined.

Lemma forwards_kept_witness :
  Forwards (Load demo_env (fun _ _ => false) None []) = ["8060:localhost:80"; "9:h:9"].
Proof.
  change ["8060:localhost:80"; "9:h:9"] with (Forwards (applyEnv demo_env (fun _ _ => false) (applyOptionsFile None defaults))).
  apply (proj2 (forwards_kept demo_env (fun _ _ => false) None [] no_values eq_refl)); [reflexivity |].
  repeat constructor; try done; apply (bool_decide_unpack _); vm_compute; constructor.
Defined.

Lemma bad_option_drops_all_witness :
  Load demo_env (fun _ _ => false) (Some (html "{`host`: `a.example`, `ssh_port`: `22`}")) []
  = Load demo_env (fun _ _ => false) None [].
Proof.
  eapply (bad_option_drops_all demo_env (fun _ _ => false) _ [("host", JStr "a.example"); ("ssh_port", JStr "22")] "ssh_port" (JStr "22")).
  - vm_compute. reflexivity.
  - set_solver.
  - reflexivity.
  - intros o. reflexivity.
Defined.
