(* ===== verification/Stats.v ===== *)
(** * The client's statistics

    Models src/core/internal/stats/stats.go: the state behind /metrics and
    /healthz. Every method holds the mutex throughout, so each is one step. *)

From S2P Require Export GoTime.

Record Stats := MkStats {
  startedAt : time; connected : bool; sessionAt : time; reconnects : Z; lastError : string; lastUptime : Q;
  udpSet : bool; udpOK : bool; udpRTT : duration; udpLoss : Q; udpAt : time;
  bytesTx : Z; bytesRx : Z; speedtestPort : Z;
}.

Definition New (now : time) (speedtestPort : Z) : Stats :=
  MkStats now false zero_time 0 "" 0 false false 0 0 zero_time 0 0 speedtestPort.

Definition SetConnectedSince (t : time) (s : Stats) : Stats :=
  MkStats (startedAt s) true t (reconnects s) (lastError s) (lastUptime s)
    (udpSet s) (udpOK s) (udpRTT s) (udpLoss s) (udpAt s) (bytesTx s) (bytesRx s) (speedtestPort s).

Definition SetConnected (now : time) (s : Stats) : Stats := SetConnectedSince now s.

Definition RecordDisconnect (d : duration) (err : option string) (s : Stats) : Stats :=
  MkStats (startedAt s) false (sessionAt s) (i64 (reconnects s + 1)) (default (lastError s) err) (seconds d)
    (udpSet s) (udpOK s) (udpRTT s) (udpLoss s) (udpAt s) (bytesTx s) (bytesRx s) (speedtestPort s).

Definition SetUDP (now : time) (ok : bool) (rtt : duration) (lossPct : Q) (s : Stats) : Stats :=
  MkStats (startedAt s) (connected s) (sessionAt s) (reconnects s) (lastError s) (lastUptime s)
    true ok rtt lossPct now (bytesTx s) (bytesRx s) (speedtestPort s).

Record snapshot := Snapshot {
  Connected : bool; UptimeSeconds : Q; AgentSeconds : Q; Reconnects : Z; LastUptimeSec : Q; LastError : string;
  BytesTx : Z; BytesRx : Z; SpeedtestPort : Z;
  UDPOK : option bool; UDPRTTMs : option Q; UDPLossPct : option Q;
}.

Definition snap (now : time) (s : Stats) : snapshot :=
  let up : Q := if connected s then seconds (sub now (sessionAt s)) else 0%Q in
  Snapshot (connected s) up (seconds (sub now (startedAt s))) (reconnects s) (lastUptime s) (lastError s)
    (bytesTx s) (bytesRx s) (speedtestPort s)
    (if udpSet s then Some (udpOK s) else None)
    (if udpSet s then Some (Qmake (microseconds (udpRTT s)) 1000) else None)
    (if udpSet s then Some (udpLoss s) else None).

(** [/healthz]. *)
Definition healthz (now : time) (s : Stats) : Z := if Connected (snap now s) then 200 else 503.

(** ** Histories *)

Inductive op :=
| OSetConnected
| OSetConnectedSince (t : time)
| ODisconnect (d : duration) (err : option string)
| OSetUDP (ok : bool) (rtt : duration) (loss : Q).

Definition apply_op (s : Stats) (x : time * op) : Stats :=
  match snd x with
  | OSetConnected => SetConnected (fst x) s
  | OSetConnectedSince t => SetConnectedSince t s
  | ODisconnect d e => RecordDisconnect d e s
  | OSetUDP ok rtt loss => SetUDP (fst x) ok rtt loss s
  end.

(** The session an operation leaves: connected since when, or not; [None] is no change. *)
Definition session_of (x : time * op) : option (option time) :=
  match snd x with
  | OSetConnected => Some (Some (fst x))
  | OSetConnectedSince t => Some (Some t)
  | ODisconnect _ _ => Some None
  | OSetUDP _ _ _ => None
  end.
Definition error_of (x : time * op) : option string := match snd x with ODisconnect _ e => e | _ => None end.
Definition udp_of (x : time * op) : option (bool * duration * Q) :=
  match snd x with OSetUDP ok rtt loss => Some (ok, rtt, loss) | _ => None end.
Definition is_end (x : time * op) : Prop := exists d e, snd x = ODisconnect d e.
#[export] Instance is_end_dec x : Decision (is_end x).
Proof. destruct x as [t [| | d e |]]; [right | right | left | right]; [intros (? & ? & ?); done..| by eexists _, _ | intros (? & ? & ?); done]. Defined.

Lemma last_omap_snoc {A B} (f : A -> option B) l x :
  last (omap f (l ++ [x])) = match f x with Some y => Some y | None => last (omap f l) end.
Proof.
  rewrite omap_app. cbn. destruct (f x); [apply last_snoc | by rewrite app_nil_r].
Qed.

Lemma length_ends_snoc h x :
  length (filter is_end (h ++ [x])) = (length (filter is_end h) + if decide (is_end x) then 1 else 0)%nat.
Proof. rewrite filter_app, length_app, filter_cons. by destruct (decide (is_end x)). Qed.

(** /metrics after any history of calls. A session is shown connected, with
    its uptime, exactly when the last change was a connection; the reconnects are
    the sessions that ended, the error is the last one reported, and the
    heartbeat shows the last report, or nothing before the first. *)
Theorem snap_spec (start now : time) (port : Z) (h : list (time * op))
    (Hlen : Z.of_nat (length h) < 2 ^ 63) :
  let s := snap now (foldl apply_op (New start port) h) in
  (match last (omap session_of h) with
   | Some (Some t) => Connected s = true /\ UptimeSeconds s = seconds (sub now t)
   | _ => Connected s = false /\ UptimeSeconds s = 0%Q
   end)
  /\ Reconnects s = Z.of_nat (length (filter is_end h))
  /\ LastError s = default "" (last (omap error_of h))
  /\ UDPOK s = (fun u => u.1.1) <$> last (omap udp_of h)
  /\ UDPLossPct s = (fun u => u.2) <$> last (omap udp_of h)
  /\ SpeedtestPort s = port.
Proof.
  cbn zeta.
  assert (forall st, st = foldl apply_op (New start port) h ->
    (match last (omap session_of h) with Some (Some t) => connected st = true /\ sessionAt st = t | _ => connected st = false end)
    /\ reconnects st = Z.of_nat (length (filter is_end h))
    /\ lastError st = default "" (last (omap error_of h))
    /\ (match last (omap udp_of h) with
        | Some u => udpSet st = true /\ udpOK st = u.1.1 /\ udpLoss st = u.2 | None => udpSet st = false end)
    /\ speedtestPort st = port) as H.
  { induction h as [| x h IH] using rev_ind; intros st ->; [done |].
    rewrite length_app in Hlen. cbn in Hlen. destruct (IH ltac:(lia) _ eq_refl) as (H1 & H2 & H3 & H4 & H5). clear IH.
    rewrite foldl_snoc, !last_omap_snoc, length_ends_snoc.
    pose proof (length_filter is_end h) as Hf.
    destruct x as [t [| t' | d e | ok rtt loss]]; cbn [session_of error_of udp_of snd fst apply_op].
    1,2,4: rewrite decide_False by (intros (? & ? & ?); done); cbn; rewrite Nat.add_0_r; split_and!; assumption || reflexivity.
    rewrite decide_True by by eexists _, _. cbn. rewrite H2, i64_small by (unfold is_i64; lia).
    repeat split; [lia | by destruct e | done | done]. }
  destruct (H _ eq_refl) as (H1 & H2 & H3 & H4 & H5). unfold snap.
  cbn [Connected UptimeSeconds Reconnects LastError UDPOK UDPLossPct SpeedtestPort].
  split; [destruct (last (omap session_of h)) as [[t |] |]; [destruct H1 as [-> ->] | rewrite H1 | rewrite H1]; done |].
  split; [done |]. split; [done |].
  destruct (last (omap udp_of h)) as [u |]; [destruct H4 as (-> & -> & ->) | rewrite H4]; done.
Qed.

Lemma snap_spec_witness :
  let s := snap 100 (foldl apply_op (New 0 9102) [(1, OSetConnectedSince 1); (50, ODisconnect 49 (Some "x")); (60, OSetConnected)]) in
  Connected s = true /\ Reconnects s = 1 /\ LastError s = "x".
Proof.
  destruct (snap_spec 0 100 9102 [(1, OSetConnectedSince 1); (50, ODisconnect 49 (Some "x")); (60, OSetConnected)]
    ltac:(vm_compute; reflexivity)) as ([H1 _] & H2 & H3 & _).
  split; [exact H1 |]. split; [exact H2 | exact H3].
Defined.
