(* ===== verification/Metrics.v ===== *)
(** * The client's statistics in the panel

    The path of the numbers from stats/stats.go to the panel: the client serves
    /metrics, the server scrapes it through a port the client forwards
    (Client.scrape of monitor/monitor.go), and the rows and the speed test use
    what it read. The JSON is written and read as [GoJson] has it; the text of a
    float64, which the server does not read, is any JSON number. *)

From S2P Require Import GoJson Registry Api Stats.

(** ** The client's side *)

(** How a float64 is written. *)
Class FloatText := float_text : Q -> string.
Class FloatOk `{FloatText} : Prop := float_number q : is_number (float_text q) = true.

Section body.
Context `{FloatText}.

Definition float_json (q : Q) : value := JNum (float_text q).

(** A pointer that is left out when nil. *)
Definition if_some {A} (name : string) (f : A -> value) (x : option A) : list (string * value) :=
  match x with Some a => [(name, f a)] | None => [] end.

Definition snapshot_json (sn : snapshot) : value :=
  JObj ([("connected", JBool (Stats.Connected sn)); ("uptime_seconds", float_json (UptimeSeconds sn));
         ("agent_seconds", float_json (AgentSeconds sn)); ("reconnects", enc go_int (Stats.Reconnects sn));
         ("last_uptime_seconds", float_json (LastUptimeSec sn)); ("last_error", enc go_string (Stats.LastError sn));
         ("bytes_tx", enc (go_uint 64) (BytesTx sn)); ("bytes_rx", enc (go_uint 64) (BytesRx sn));
         ("speedtest_port", enc go_int (Stats.SpeedtestPort sn))]
        ++ if_some "udp_ok" JBool (UDPOK sn) ++ if_some "udp_rtt_ms" float_json (UDPRTTMs sn)
        ++ if_some "udp_loss_pct" float_json (UDPLossPct sn)).

(** The handler of /metrics; the encoder ends with a line end. *)
Definition metrics_body (now : time) (s : Stats) : string := text (snapshot_json (snap now s)) +:+ of_chars [byte_at 10].
End body.

(** ** The server's side *)

(** What the server knows of a snapshot. *)
Definition shared_fields (sn : snapshot) : metrics :=
  Metrics (Stats.Reconnects sn) (Stats.SpeedtestPort sn) (coerce (Stats.LastError sn)).

Definition in_range (sn : snapshot) : Prop := is_i64 (Stats.Reconnects sn) /\ is_i64 (Stats.SpeedtestPort sn).

(** A member of the snapshot the server has no field for. *)
Lemma skip_optional {A} (name : string) (f : A -> value) (x : option A) acc rest :
  field_named metrics_fields (coerce name) = None ->
  foldl (dec_field metrics_fields) acc (List.map norm_field (if_some name f x ++ rest))
  = foldl (dec_field metrics_fields) acc (List.map norm_field rest).
Proof. intros Hn. destruct x as [a |]; [| done]. cbn [if_some app List.map]. by apply (dec_skip metrics_fields name). Qed.

Lemma optional_wf {A} (name : string) (f : A -> value) (x : option A) rest :
  (forall a, wf 0 (f a) = true) -> forallb (fun g => wf 0 (snd g)) rest = true ->
  forallb (fun g => wf 0 (snd g)) (if_some name f x ++ rest) = true.
Proof. intros Hf Hr. destruct x as [a |]; [| done]. cbn [if_some app forallb snd]. by rewrite Hf. Qed.

Section path.
Context `{FloatOk}.

Lemma snapshot_wf sn : wf 1 (snapshot_json sn) = true.
Proof.
  assert (forall q, wf 0 (float_json q) = true) as Hq by (intros q; apply float_number).
  unfold snapshot_json. cbn [wf app forallb snd]. rewrite !Hq. cbn [enc go_int go_uint go_string wf andb].
  rewrite !is_number_itoa. cbn [andb]. rewrite <-(app_nil_r (if_some "udp_loss_pct" _ _)).
  repeat (apply optional_wf; [done |]). done.
Qed.

(** The decoder reads what the encoder wrote of the fields the two structs share. *)
Lemma read_metrics_body now s mt : in_range (snap now s) ->
  read_metrics (metrics_body now s) mt = (shared_fields (snap now s), true).
Proof.
  intros [Hr Hp]. unfold read_metrics, Unmarshal, metrics_body.
  rewrite (parse_text 1) by (apply snapshot_wf || (unfold max_depth; lia) || by repeat constructor).
  generalize dependent (snap now s). intros sn Hr Hp. destruct mt as [a b e].
  change (dec metrics_json (norm (snapshot_json sn)) (Metrics a b e)) with (foldl (dec_field metrics_fields) (Metrics a b e, true)
    ((coerce "connected", JBool (Stats.Connected sn)) :: (coerce "uptime_seconds", float_json (UptimeSeconds sn))
     :: (coerce "agent_seconds", float_json (AgentSeconds sn)) :: (coerce "reconnects", JNum (itoa (Stats.Reconnects sn)))
     :: (coerce "last_uptime_seconds", float_json (LastUptimeSec sn)) :: (coerce "last_error", JStr (coerce (Stats.LastError sn)))
     :: (coerce "bytes_tx", JNum (itoa (BytesTx sn))) :: (coerce "bytes_rx", JNum (itoa (BytesRx sn)))
     :: (coerce "speedtest_port", JNum (itoa (Stats.SpeedtestPort sn)))
     :: List.map norm_field (if_some "udp_ok" JBool (UDPOK sn) ++ if_some "udp_rtt_ms" float_json (UDPRTTMs sn)
        ++ if_some "udp_loss_pct" float_json (UDPLossPct sn)))).
  rewrite <-(app_nil_r (if_some "udp_loss_pct" _ _)).
  do 3 (rewrite dec_skip by reflexivity). etrans; [eapply dec_step; [reflexivity | by apply dec_int] |].
  rewrite dec_skip by reflexivity. etrans; [eapply dec_step; [reflexivity | reflexivity] |].
  do 2 (rewrite dec_skip by reflexivity). etrans; [eapply dec_step; [reflexivity | by apply dec_int] |].
  by rewrite !skip_optional by reflexivity.
Qed.

(** A port that does not answer /metrics, or not with JSON that fits. *)
Definition no_metrics (get : Z -> option (string * duration)) (p : Z) : Prop :=
  match get p with None => True | Some (body, _) => forall m, snd (read_metrics body m) = false end.

Lemma scrape_http_skip get ps1 ps2 m :
  Forall (no_metrics get) ps1 -> exists m', scrape_http get (ps1 ++ ps2) m = scrape_http get ps2 m'.
Proof.
  intros Hf. revert m. induction Hf as [| p ps1 Hp _ IH]; intros m; [by exists m |]. cbn. unfold no_metrics in Hp.
  destruct (get p) as [[body took] |]; [| apply IH]. specialize (Hp m).
  destruct (read_metrics body m) as [m' ok]. cbn in Hp. subst ok. apply IH.
Qed.

Lemma scrape_http_finds get ps1 p ps2 m now s took :
  in_range (snap now s) -> Forall (no_metrics get) ps1 -> get p = Some (metrics_body now s, took) ->
  scrape_http get (ps1 ++ p :: ps2) m = (shared_fields (snap now s), Qmake (microseconds took) 1000).
Proof.
  intros Hc H1 Hp. destruct (scrape_http_skip get ps1 (p :: ps2) m H1) as [m' ->]. cbn [scrape_http].
  by rewrite Hp, read_metrics_body.
Qed.
End path.

Lemma last_guarded h (s : sample) :
  last (if decide (histLen < length (h ++ [s]))%nat then last_n histLen (h ++ [s]) else h ++ [s]) = Some s.
Proof. rewrite last_n_guard, last_last_n by (unfold histLen; lia). apply last_snoc. Qed.

(** ** Properties *)

(** C24: the panel shows what the client counts. A client that has lived through any
    history serves its statistics as JSON on a port it forwards; if no port forwarded
    before that one answers /metrics with JSON that fits, the row of the client after a
    scrape shows as reconnections the sessions of that history that ended, as
    error the last one reported, with what is no UTF-8 in it replaced, as latency the
    time the request took, and offers the speed test exactly when the client has a port for it. *)
Theorem panel_shows_client `{FloatOk} (start asked now shown : time) (port : Z) (h : list (time * Stats.op))
    (Hlen : Z.of_nat (length h) < 2 ^ 63) (Hport : is_i64 port)
    (c : Client) (get : Z -> option (string * duration)) (ps1 ps2 : list Z) (p : Z) (took : duration)
    (Hports : ports c = ps1 ++ p :: ps2) (Hbefore : Forall (no_metrics get) ps1)
    (Hget : get p = Some (metrics_body asked (foldl Stats.apply_op (New start port) h), took)) :
  let r := row_of shown (scrape now get c c) in
  r_Reconnects r = Z.of_nat (length (filter is_end h))
  /\ r_LastError r = coerce (default "" (last (omap error_of h)))
  /\ r_Latency r = Qmake (microseconds took) 1000
  /\ r_Speedtest r = (0 <? port).
Proof.
  cbn zeta. pose proof (snap_spec start asked port h Hlen) as (_ & H1 & H2 & _ & _ & H3).
  assert (in_range (snap asked (foldl Stats.apply_op (New start port) h))) as Hr.
  { split; [rewrite H1 | by rewrite H3]. pose proof (length_filter is_end h). unfold is_i64. lia. }
  unfold scrape. rewrite Hports, (scrape_http_finds get ps1 p ps2 _ _ _ took Hr Hbefore Hget).
  unfold scrape_store, row_of. cbn [scraped hist set_scraped r_Reconnects r_LastError r_Latency r_Speedtest
    Registry.Reconnects Registry.LastError Registry.SpeedtestPort shared_fields].
  rewrite last_guarded. cbn [Latency]. by rewrite H1, H2, H3.
Qed.

(** An answer whose JSON has none of the three fields. *)
Definition fieldless (v : value) : Prop :=
  v = JNull \/ exists fs, v = JObj fs /\ Forall (fun f => field_named metrics_fields f.1 = None) fs.

Lemma fieldless_read body v mt : parse body = Some v -> fieldless v -> read_metrics body mt = (mt, true).
Proof.
  unfold read_metrics, Unmarshal. intros ->. intros [-> | (fs & -> & Hfs)]; [done |].
  change (dec metrics_json (JObj fs) mt) with (foldl (dec_field metrics_fields) (mt, true) fs).
  induction Hfs as [| f fs Hf _ IH]; [done |]. cbn [foldl]. unfold dec_field at 2. by rewrite Hf.
Qed.

(** The first JSON wins. If a port forwarded before the client's statistics
    answers /metrics with an object without the three fields, or null, such as
    an empty object or an error page in JSON whatever its status code, the scrape stops
    there: the panel shows no reconnections, no error and no speed test,
    although the client serves its statistics. *)
Theorem first_json_wins (body : string) (v : value) (Hbody : parse body = Some v) (Hv : fieldless v)
    (now shown : time) (c : Client) (get : Z -> option (string * duration)) (q : Z) (ps : list Z) (took : duration)
    (Hports : ports c = q :: ps) (Hget : get q = Some (body, took)) :
  let r := row_of shown (scrape now get c c) in
  r_Reconnects r = 0 /\ r_LastError r = "" /\ r_Speedtest r = false /\ ~ no_metrics get q.
Proof.
  cbn zeta. pose proof (fun m => fieldless_read body v m Hbody Hv) as Hempty.
  unfold scrape. rewrite Hports. cbn [scrape_http]. rewrite Hget, Hempty. split; [done |]. split; [done |].
  split; [done |]. unfold no_metrics. rewrite Hget. intros Hn. specialize (Hn zero_metrics). by rewrite Hempty in Hn.
Qed.

(** C38: the speed test goes where the client says. After a scrape, /api/speedtest
    for a client measures against the loopback address of the server at whatever
    port the client reported, forwarded or not, permitted or not: unlike
    /api/probe it does not look at the ports of the client. *)
Theorem speedtest_unconfined `{FloatOk} (now asked : time) (st : Stats) (r : Registry) (p : ptr) (c : Client)
    (get : Z -> option (string * duration)) (q : Z) (ps : list Z) (took : duration)
    (Hst : is_i64 (reconnects st) /\ is_i64 (speedtestPort st))
    (Hc : heap r !! p = Some c) (Hports : ports c = q :: ps)
    (Hget : get q = Some (metrics_body asked st, took)) (Hport : speedtestPort st <> 0) :
  let r' := update r p (scrape now get c) in
  api_speedtest r' [p] (Name c) = Answer (p, "127.0.0.1:" +:+ itoa (speedtestPort st))
  /\ forall c', heap r' !! p = Some c' -> ports c' = q :: ps.
Proof.
  cbn zeta. pose proof (scrape_http_finds get [] q ps zero_metrics asked st took Hst (List.Forall_nil _) Hget) as Hs.
  cbn [app] in Hs. assert (heap (update r p (scrape now get c)) !! p
    = Some (scrape_store now (shared_fields (snap asked st)) (Qmake (microseconds took) 1000) c)) as E.
  { cbn [update heap set_heap]. cbn. rewrite lookup_alter_eq, Hc. cbn [fmap option_fmap option_map]. unfold scrape. by rewrite Hports, Hs. }
  split.
  - unfold api_speedtest, byName. rewrite E. cbn [scrape_store set_scraped Name scraped mbind option_bind].
    rewrite bool_decide_eq_true_2 by done. cbn [mbind option_bind]. rewrite E. cbn [mbind option_bind scraped scrape_store set_scraped].
    cbn [Registry.SpeedtestPort shared_fields snap Stats.SpeedtestPort]. by rewrite (proj2 (Z.eqb_neq _ _) Hport).
  - intros c'. rewrite E. by intros [= <-].
Qed.

(** ** Witnesses *)

(** Whole seconds, a way to write a float64 that is a number. *)
#[local] Instance demo_float : FloatText := fun q => itoa (Qnum q / Zpos (Qden q)).
#[local] Instance demo_float_ok : FloatOk.
Proof. intros q. apply is_number_itoa. Qed.

Definition demo_client : Client := set_ports (new_client "tk-a-web" "10.0.0.1" 0) [8022; 9100].
Definition demo_history : list (time * Stats.op) := [(0, OSetConnected); (second, ODisconnect second (Some "exit status 255"))].
Definition demo_get (body : string) (p : Z) : option (string * duration) :=
  if p =? 9100 then Some (body, 600000000) else None.

Example demo_body :
  metrics_body (5 * second) (foldl Stats.apply_op (New 0 9102) demo_history)
  = html "{`connected`:false,`uptime_seconds`:0,`agent_seconds`:5,`reconnects`:1,`last_uptime_seconds`:1,`last_error`:`exit status 255`,`bytes_tx`:0,`bytes_rx`:0,`speedtest_port`:9102}"
    +:+ of_chars [byte_at 10].
Proof. vm_compute. reflexivity. Qed.

Lemma panel_shows_client_witness :
  let r := row_of 0 (scrape 0
    (demo_get (metrics_body 5 (foldl Stats.apply_op (New 0 9102) demo_history))) demo_client demo_client) in
  r_Reconnects r = 1 /\ r_LastError r = "exit status 255" /\ r_Speedtest r = true.
Proof.
  destruct (panel_shows_client 0 5 0 0 9102 demo_history ltac:(vm_compute; reflexivity) ltac:(unfold is_i64; lia)
    demo_client (demo_get (metrics_body 5 (foldl Stats.apply_op (New 0 9102) demo_history))) [8022] [] 9100 600000000
    eq_refl ltac:(repeat constructor) eq_refl) as (H1 & H2 & _ & H3).
  split; [exact H1 |]. split; [exact H2 | exact H3].
Defined.

Lemma first_json_wins_witness :
  r_Speedtest (row_of 0 (scrape 0 (fun _ => Some (html "{`error`:`not found`}", second)) demo_client demo_client)) = false.
Proof.
  refine (proj1 (proj2 (proj2 (first_json_wins (html "{`error`:`not found`}") (JObj [("error", JStr "not found")])
    ltac:(vm_compute; reflexivity) _ 0 0 demo_client (fun _ => Some (html "{`error`:`not found`}", second)) 8022 [9100] second
    eq_refl eq_refl)))).
  right. eexists. split; [reflexivity |]. by repeat constructor.
Defined.

Lemma speedtest_unconfined_witness :
  let r := update (Registry.Add NewRegistry "s" demo_client) 0%nat (scrape 0
    (fun _ => Some (metrics_body 5 (New 0 22), second)) demo_client) in
  api_speedtest r [0%nat] "tk-a-web" = Answer (0%nat, "127.0.0.1:22").
Proof.
  refine (proj1 (speedtest_unconfined 0 5 (New 0 22) (Registry.Add NewRegistry "s" demo_client) 0%nat
    demo_client (fun _ => Some (metrics_body 5 (New 0 22), second)) 8022 [9100] second _ eq_refl eq_refl eq_refl _)).
  - unfold is_i64. cbn. lia.
  - discriminate.
Defined.
