(* ===== verification/HostKey.v ===== *)
(** * The pinned host key

    Models src/core/internal/client/hostkey.go: the parsing of the server's public
    key line, its fingerprint and its known_hosts line, with Go's
    [encoding/base64] (standard alphabet, padded and raw). The file that
    writeKnownHosts writes is in [Startup]. *)

From S2P Require Export Bytes Crypto.

(** ** encoding/base64 *)

Definition alphabet : list ascii := chars "ABCDEFGHIJKLMNOPQRSTUVWXYZabcdefghijklmnopqrstuvwxyz0123456789+/".
Definition PAD : ascii := "="%char.

Definition b64_char (n : Z) : ascii := nth (Z.to_nat n) alphabet PAD.
Definition b64_val (c : ascii) : option Z := Z.of_nat <$> index_byte c alphabet.

(** The two, three or four characters of one, two or three bytes. *)
Definition enc1 (a : Z) : list ascii := [b64_char (a / 4); b64_char (a mod 4 * 16)].
Definition enc2 (a b : Z) : list ascii :=
  [b64_char (a / 4); b64_char (a mod 4 * 16 + b / 16); b64_char (b mod 16 * 4)].
Definition enc3 (a b c : Z) : list ascii :=
  [b64_char (a / 4); b64_char (a mod 4 * 16 + b / 16); b64_char (b mod 16 * 4 + c / 64); b64_char (c mod 64)].

Section encode.
Context (padded : bool).
Definition padding (n : nat) : list ascii := if padded then replicate n PAD else [].

Fixpoint b64_go (l : bytes) : list ascii :=
  match l with
  | [] => []
  | [a] => enc1 (byte_val a) ++ padding 2
  | [a; b] => enc2 (byte_val a) (byte_val b) ++ padding 1
  | a :: b :: c :: l' => enc3 (byte_val a) (byte_val b) (byte_val c) ++ b64_go l'
  end.
End encode.

(** [StdEncoding.EncodeToString] and [RawStdEncoding.EncodeToString]. *)
Definition std_encode (l : bytes) : string := of_chars (b64_go true l).
Definition raw_encode (l : bytes) : string := of_chars (b64_go false l).

(** Four characters at a time. Padding ends the text; bits left over are not looked at. *)
Fixpoint dec_go (l : list ascii) : option bytes :=
  match l with
  | [] => Some []
  | a :: b :: c :: d :: l' =>
      x ← b64_val a; y ← b64_val b;
      if decide (c = PAD) then
        if decide (d = PAD /\ l' = []) then Some [byte_of (x * 4 + y / 16)] else None
      else
        z ← b64_val c;
        if decide (d = PAD) then
          if decide (l' = []) then Some [byte_of (x * 4 + y / 16); byte_of (y * 16 + z / 4)] else None
        else
          w ← b64_val d; r ← dec_go l';
          Some (byte_of (x * 4 + y / 16) :: byte_of (y * 16 + z / 4) :: byte_of (z * 64 + w) :: r)
  | _ => None
  end.

Definition is_newline (c : ascii) : bool := (byte_val c =? 10) || (byte_val c =? 13).

(** [StdEncoding.DecodeString]; line breaks are skipped wherever they are. *)
Definition std_decode (s : string) : option bytes := dec_go (filter (fun c => is_newline c = false) (chars s)).

(** ** Host keys *)

Record hostKey := MkKey { typ : string; b64 : string; hash : string }.

Inductive key_error := FewFields (n : nat) | BadBase64 | ShortBlob | WrongType (t : string).

#[export] Instance hostKey_eq_dec : EqDecision hostKey.
Proof. solve_decision. Defined.

Section hash.
(** The hash whose sum is the fingerprint: SHA-256. *)
Context (sum : bytes -> bytes).

Definition parseHostKey (line : string) : hostKey + key_error :=
  match fields line with
  | f0 :: f1 :: _ =>
      match std_decode f1 with
      | None => inr BadBase64
      | Some blob =>
          if decide (length blob < 4)%nat then inr ShortBlob
          else
            let n := be_val (take 4 blob) in
            if (n <=? 0) || (Z.of_nat (length blob) <? 4 + n)
               || negb (bool_decide (of_chars (take (Z.to_nat n) (drop 4 blob)) = f0))
            then inr (WrongType f0)
            else inl (MkKey f0 f1 ("SHA256:" +:+ raw_encode (sum blob)))
      end
  | f => inr (FewFields (length f))
  end.
End hash.

Definition parse_host_key : string -> hostKey + key_error := parseHostKey (@hash_sum sha256).

Definition knownHostsEntries (k : hostKey) (host : string) (port : Z) (bare : bool) : string :=
  let pat := if negb (port =? 22) && negb bare then "[" +:+ host +:+ "]:" +:+ itoa port else host in
  pat +:+ " " +:+ typ k +:+ " " +:+ b64 k +:+ String (ascii_of_N 10) "".

(** The key of the repository's test, with the fingerprint it expects, computed by another program. *)
Example parse_host_key_ex :
  parse_host_key "ssh-ed25519 AAAAC3NzaC1lZDI1NTE5AAAAIJrt98PsfT5nFT9y5NQsmyLXRohi/UJbsuz5yLjq0e6D comment"
  = inl (MkKey "ssh-ed25519" "AAAAC3NzaC1lZDI1NTE5AAAAIJrt98PsfT5nFT9y5NQsmyLXRohi/UJbsuz5yLjq0e6D"
           "SHA256:XrgVhYPpIM2Lzexse4MO+Oxr9WicPoBTKgdM8cPxdrk").
Proof. vm_compute. reflexivity. Qed.

Example parse_host_key_bad :
  (parse_host_key "ssh-ed25519", parse_host_key "ssh-ed25519 !!!notbase64!!!", parse_host_key "ssh-ed25519 AAAA",
   parse_host_key "ssh-rsa AAAAC3NzaC1lZDI1NTE5AAAAIJrt98PsfT5nFT9y5NQsmyLXRohi/UJbsuz5yLjq0e6D")
  = (inr (FewFields 1), inr BadBase64, inr ShortBlob, inr (WrongType "ssh-rsa")).
Proof. vm_compute. reflexivity. Qed.

(** ** Lemmas *)

Definition sextet_ok (n : Z) : bool :=
  bool_decide (b64_val (b64_char n) = Some n) && is_graph (b64_char n) && negb (is_newline (b64_char n))
  && negb (bool_decide (b64_char n = PAD)).

Lemma sextets n : 0 <= n < 64 -> sextet_ok n = true.
Proof.
  intros Hn. assert (forallb sextet_ok (seqZ 0 64) = true) as H by (vm_compute; reflexivity).
  rewrite forallb_forall in H. apply H, list_elem_of_In, elem_of_seqZ. lia.
Qed.

Lemma b64_val_char n : 0 <= n < 64 -> b64_val (b64_char n) = Some n.
Proof. intros H%sextets. unfold sextet_ok in H. rewrite !andb_true_iff, bool_decide_eq_true in H. tauto. Qed.

Lemma b64_char_pad n : 0 <= n < 64 -> b64_char n <> PAD.
Proof. intros H%sextets. unfold sextet_ok in H. rewrite !andb_true_iff, !negb_true_iff, !bool_decide_eq_false in H. tauto. Qed.

Definition plain_char (c : ascii) : Prop := is_graph c = true /\ is_newline c = false.

Lemma b64_char_plain n : 0 <= n < 64 -> plain_char (b64_char n).
Proof. intros H%sextets. unfold sextet_ok in H. rewrite !andb_true_iff, !negb_true_iff in H. split; tauto. Qed.

(** A list three at a time. *)
Lemma three_ind {A} (P : list A -> Prop) :
  P [] -> (forall a, P [a]) -> (forall a b, P [a; b]) -> (forall a b c l, P l -> P (a :: b :: c :: l)) -> forall l, P l.
Proof.
  intros H0 H1 H2 H3.
  assert (forall n l, (length l <= n)%nat -> P l) as H; [| intros l; by eapply H].
  induction n as [| n IH]; intros [| a [| b [| c l]]] Hl; cbn in Hl; auto; [lia.. |]. apply H3, IH. lia.
Qed.

Ltac bytes_range := repeat match goal with a : ascii |- _ =>
  lazymatch goal with _ : 0 <= byte_val a < 256 |- _ => fail | _ => pose proof (byte_val_range a) end end.

Lemma b64_go_plain padded l : Forall plain_char (b64_go padded l).
Proof.
  assert (forall n, Forall plain_char (padding padded n)) as Hp.
  { intros n. unfold padding. destruct padded; [| constructor]. apply Forall_replicate. by vm_compute. }
  induction l as [| a | a b | a b c l IH] using three_ind; cbn [b64_go]; [constructor | | |]; apply Forall_app;
    (split; [| done]); bytes_range; repeat constructor; apply b64_char_plain; Z.to_euclidean_division_equations; lia.
Qed.

Lemma byte_of_eq z a : z mod 256 = byte_val a -> byte_of z = a.
Proof. intros H. apply byte_val_inj. by rewrite byte_val_of. Qed.

Ltac b64_arith := Z.to_euclidean_division_equations; lia.

(** Encoding is undone by decoding. *)
Lemma dec_b64_go l : dec_go (b64_go true l) = Some l.
Proof.
  induction l as [| a | a b | a b c l IH] using three_ind; [done | | |]; bytes_range;
    cbn [b64_go enc1 enc2 enc3 padding replicate app dec_go];
    rewrite !b64_val_char by b64_arith; cbn [mbind option_bind].
  - rewrite decide_True, decide_True by done. do 2 f_equal. apply byte_of_eq. b64_arith.
  - rewrite decide_False by (apply b64_char_pad; b64_arith). rewrite decide_True, decide_True by done.
    f_equal. f_equal; [| f_equal]; apply byte_of_eq; b64_arith.
  - rewrite !decide_False by (apply b64_char_pad; b64_arith).
    rewrite IH. cbn. f_equal. f_equal; [| f_equal; [| f_equal]]; apply byte_of_eq; b64_arith.
Qed.

Lemma std_decode_encode l : std_decode (std_encode l) = Some l.
Proof.
  unfold std_decode, std_encode. rewrite chars_of_chars, filter_all, dec_b64_go; [done |].
  eapply Forall_impl; [apply b64_go_plain |]. by intros c [_ H].
Qed.

(** What decodes is the encoding of its bytes as far as its last bits say:
    the public key blob of a type and the rest of the key. *)
Definition blob_of (t : string) (rest : bytes) : bytes := be_bytes 4 (Z.of_nat (String.length t)) ++ chars t ++ rest.

Lemma fields_word_rest w s :
  w <> "" -> Forall (fun c => is_graph c = true) (chars w) -> Forall (fun c => byte_val c < 128) (chars s) ->
  fields (w +:+ " " +:+ s) = w :: fields s.
Proof.
  intros Hw Gw Hs. unfold fields. rewrite runes_ascii.
  - rewrite chars_app, fmap_app, fields_go_word by done. rewrite of_chars_chars.
    change ("" +:+ w) with w. change (chars (" " +:+ s)) with (" "%char :: chars s). cbn [fmap list_fmap fields_go].
    replace (is_space (byte_val " ")) with true by done. rewrite decide_False by done. cbn [app]. by rewrite runes_ascii.
  - rewrite chars_app. change (chars (" " +:+ s)) with (" "%char :: chars s). apply Forall_app.
    split; [by apply graph_ascii |]. constructor; [vm_compute; done | done].
Qed.

Lemma blob_line_plain t rest :
  t <> "" -> let b := std_encode (blob_of t rest) in b <> "" /\ Forall (fun c => is_graph c = true) (chars b).
Proof.
  intros Ht b. split.
  - intros E. pose proof (std_decode_encode (blob_of t rest)) as H. fold b in H. rewrite E in H. cbn in H. unfold blob_of in H. done.
  - unfold b, std_encode. rewrite chars_of_chars. eapply Forall_impl; [apply b64_go_plain |]. by intros c [H _].
Qed.

(** A line whose first fields are a type and the base64 of a blob of that type. *)
Lemma parse_blob_line (sum : bytes -> bytes) (line t : string) (rest : bytes) (more : list string) :
  t <> "" -> Z.of_nat (String.length t) < 2 ^ 32 -> fields line = t :: std_encode (blob_of t rest) :: more ->
  parseHostKey sum line = inl (MkKey t (std_encode (blob_of t rest)) ("SHA256:" +:+ raw_encode (sum (blob_of t rest)))).
Proof.
  intros Ht Hlen Hf.
  assert (length (chars t) = String.length t) as Hlt by apply length_chars.
  assert (0 < String.length t)%nat as H0 by (destruct t; [done | cbn; lia]).
  unfold parseHostKey. rewrite Hf, std_decode_encode.
  assert (length (blob_of t rest) = 4 + String.length t + length rest)%nat as Hl.
  { unfold blob_of. rewrite !length_app, length_be_bytes, Hlt. lia. }
  assert (take 4 (blob_of t rest) = be_bytes 4 (Z.of_nat (String.length t))) as Ht4
    by (unfold blob_of; by rewrite take_app_length' by by rewrite length_be_bytes).
  assert (take (String.length t) (drop 4 (blob_of t rest)) = chars t) as Hd4
    by (unfold blob_of; by rewrite drop_app_length', take_app_length' by by rewrite ?length_be_bytes).
  rewrite decide_False by lia. rewrite Ht4, be_val_bytes. change (256 ^ Z.of_nat 4) with (2 ^ 32).
  rewrite Z.mod_small, Nat2Z.id, Hd4, of_chars_chars, bool_decide_true by (done || lia).
  replace ((Z.of_nat (String.length t) <=? 0) || (Z.of_nat (length (blob_of t rest)) <? 4 + Z.of_nat (String.length t)) || negb true)
    with false; [done |]. symmetry. rewrite !orb_false_iff. split; [split |]; [apply Z.leb_gt; lia | apply Z.ltb_ge; lia | done].
Qed.

(** ** Properties *)

(** A public key line is understood. The type, the base64 of a blob that
    starts with the type, and any ASCII comment: the parts and the fingerprint
    of the blob come back. *)
Theorem parse_public_key (sum : bytes -> bytes) (t comment : string) (rest : bytes)
    (Ht : t <> "") (Hg : Forall (fun c => is_graph c = true) (chars t)) (Hlen : Z.of_nat (String.length t) < 2 ^ 32)
    (Hc : Forall (fun c => byte_val c < 128) (chars comment)) :
  parseHostKey sum (t +:+ " " +:+ std_encode (blob_of t rest) +:+ " " +:+ comment)
  = inl (MkKey t (std_encode (blob_of t rest)) ("SHA256:" +:+ raw_encode (sum (blob_of t rest)))).
Proof.
  destruct (blob_line_plain t rest Ht) as [Hne Hb]. apply (parse_blob_line _ _ _ _ (fields comment)); [done | done |].
  rewrite fields_word_rest; [| done | done |].
  2: { rewrite chars_app. change (chars (" " +:+ comment)) with (" "%char :: chars comment). apply Forall_app.
       split; [by apply graph_ascii |]. constructor; [vm_compute; done | done]. }
  by rewrite fields_word_rest.
Qed.

(** What is accepted is a key of its type: the blob is the length of the type,
    the type and the rest, so a line cut short or pasted together from two keys
    of different types is refused. *)
Theorem parse_sound (sum : bytes -> bytes) (line : string) (k : hostKey) (Hk : parseHostKey sum line = inl k) :
  exists rest more, std_decode (b64 k) = Some (blob_of (typ k) rest) /\ typ k <> ""
    /\ fields line = typ k :: b64 k :: more
    /\ hash k = "SHA256:" +:+ raw_encode (sum (blob_of (typ k) rest)).
Proof.
  unfold parseHostKey in Hk. destruct (fields line) as [| f0 [| f1 more]] eqn:Ef; [done.. |].
  destruct (std_decode f1) as [blob |] eqn:Eb; [| done]. destruct (decide _) as [| Hlen]; [done |].
  destruct (_ || _) eqn:Hn; [done |]. injection Hk as <-. cbn [typ b64 hash].
  apply orb_false_iff in Hn as [[Hn0 Hn1]%orb_false_iff Hn2]. apply Z.leb_gt in Hn0. apply Z.ltb_ge in Hn1.
  apply negb_false_iff, bool_decide_eq_true in Hn2. set (n := be_val (take 4 blob)) in *.
  assert (chars f0 = take (Z.to_nat n) (drop 4 blob)) as Hf by (by rewrite <- Hn2, chars_of_chars).
  assert (String.length f0 = Z.to_nat n) as Hlf.
  { rewrite <- length_chars, Hf, length_take, length_drop. lia. }
  assert (blob = blob_of f0 (drop (Z.to_nat n) (drop 4 blob))) as E.
  { unfold blob_of. rewrite Hlf, Z2Nat.id, Hf, take_drop by lia.
    replace (be_bytes 4 n) with (take 4 blob); [by rewrite take_drop |]. symmetry.
    unfold n. replace 4%nat with (length (take 4 blob)) at 1 by (rewrite length_take; lia). apply be_bytes_val. }
  exists (drop (Z.to_nat n) (drop 4 blob)), more. rewrite <- E. split; [done |]. split; [| done].
  intros ->. cbn in Hlf. lia.
Qed.

(** ** Witnesses *)

Lemma parse_public_key_witness :
  parseHostKey (fun b => b) ("ssh-x" +:+ " " +:+ std_encode (blob_of "ssh-x" [PAD]) +:+ " " +:+ "me@host")
  = inl (MkKey "ssh-x" (std_encode (blob_of "ssh-x" [PAD])) ("SHA256:" +:+ raw_encode (blob_of "ssh-x" [PAD]))).
Proof.
  apply (parse_public_key (fun b => b) "ssh-x" "me@host" [PAD]); [done | by repeat constructor | vm_compute; reflexivity |].
  repeat constructor.
Defined.

Lemma parse_sound_witness :
  exists rest more, std_decode "AAAAAWE=" = Some (blob_of "a" rest) /\ fields "a AAAAAWE= c" = "a" :: "AAAAAWE=" :: more.
Proof.
  destruct (parse_sound (fun b => b) "a AAAAAWE= c" (MkKey "a" "AAAAAWE=" "SHA256:AAAAAWE") eq_refl)
    as (rest & more & H1 & _ & H2 & _).
  exists rest, more. split; [exact H1 | exact H2].
Defined.
