(* ===== verification/ServerKey.v ===== *)
(** * The server's own key

    Models loadOrCreateHostKey of src/core/internal/tunnelserver/server.go over
    restarts, and the line Run logs for the clients to pin, read back by
    parseHostKey of src/core/internal/client/hostkey.go. Keys, their generation,
    their encoding and golang.org/x/crypto/ssh are arguments. *)

From S2P Require Import HostKey Quote.

(** What is at a path: nothing that can be read, or the contents; and whether a
    write there succeeds. *)
Record disk := Disk { d_data : option string; d_writable : bool }.

Section server_key.
Context {Priv Signer : Type}.
Context (ParsePrivateKey : string -> result Signer).
Context (MarshalPrivateKey : Priv -> result string) (NewSignerFromKey : Priv -> result Signer).

(** The signer or the error, and the disk after; [generated] is what
    [ed25519.GenerateKey] returns, if it is called. The PEM encoding is part of
    [MarshalPrivateKey] here. *)
Definition loadOrCreateHostKey (path : string) (d : disk) (generated : result Priv) : result Signer * disk :=
  match d_data d with
  | Some data => (ParsePrivateKey data, d)
  | None =>
      match generated with
      | Err e => (Err e, d)
      | Ok priv =>
          match MarshalPrivateKey priv with
          | Err e => (Err e, d)
          | Ok block =>
              let d' := if negb (bool_decide (path = "")) && d_writable d
                        then Disk (Some block) (d_writable d) else d in
              (NewSignerFromKey priv, d')
          end
      end
  end.

(** The keys of a server that is started again and again, with the keys that
    would be generated each time. *)
Fixpoint restarts (path : string) (d : disk) (gs : list (result Priv)) : list (result Signer) :=
  match gs with
  | [] => []
  | g :: gs' => let '(k, d') := loadOrCreateHostKey path d g in k :: restarts path d' gs'
  end.

Lemma restarts_data path d data gs : d_data d = Some data -> restarts path d gs = replicate (length gs) (ParsePrivateKey data).
Proof.
  intros Hd. induction gs as [| g gs IH]; [done |]. cbn. unfold loadOrCreateHostKey. rewrite Hd. cbn. by rewrite IH.
Qed.

(** A start that finds no key and cannot keep the one it makes. *)
Definition fresh_key (g : result Priv) : result Signer :=
  match g with
  | Err e => Err e
  | Ok priv => match MarshalPrivateKey priv with Err e => Err e | Ok _ => NewSignerFromKey priv end
  end.
End server_key.

(** What Run tells the operator to pin: [strings.TrimSpace] of the marshalled
    public key. *)
Definition pin_line (marshalled : string) : string := trim_space marshalled.

(** What Run logs of it. *)
Definition pin_log (unicode_print : Z -> bool) (marshalled : string) : string :=
  "tunnelserver: to pin this server on clients set TK_HOST_KEY=" +:+ quote unicode_print (pin_line marshalled)
  +:+ " (add-on/UCI option host_key)".

Definition quote_safe (c : ascii) : Prop := 32 < byte_val c < 127 /\ c <> QUOTE /\ c <> BACKSLASH.
#[export] Instance quote_safe_dec c : Decision (quote_safe c).
Proof. unfold quote_safe. apply _. Defined.

(** Base64 has no characters that are quoted. *)
Lemma b64_quote_safe l : Forall quote_safe (chars (std_encode l)).
Proof.
  unfold std_encode. rewrite chars_of_chars.
  assert (forall n, quote_safe (b64_char n)) as H.
  { assert (Forall quote_safe (PAD :: alphabet)) as Ha by (apply (bool_decide_unpack _); vm_compute; exact I).
    intros n. rewrite Forall_forall in Ha. apply Ha, list_elem_of_In. unfold b64_char.
    destruct (nth_in_or_default (Z.to_nat n) alphabet PAD) as [Hi | ->]; [by right | by left]. }
  assert (quote_safe PAD) as Hp by (apply (bool_decide_unpack _); vm_compute; exact I).
  induction l as [| a | a b | a b c l IH] using three_ind; cbn; repeat constructor; try apply H; try done; apply IH.
Qed.

(** Trimming leaves two words that end the line. *)
Lemma pin_line_core (t b : string) : t <> "" -> b <> "" ->
  Forall (fun c => is_graph c = true) (chars t) -> Forall (fun c => is_graph c = true) (chars b) ->
  pin_line (t +:+ " " +:+ b +:+ String (ascii_of_N 10) "") = t +:+ " " +:+ b.
Proof.
  intros Ht Hne Hg Hb. unfold pin_line.
  replace (t +:+ " " +:+ b +:+ String (ascii_of_N 10) "") with ((t +:+ " " +:+ b) +:+ String (ascii_of_N 10) "")
    by by rewrite !append_assoc.
  pose proof Hg as Gt. pose proof Hb as Gb.
  destruct (chars t) as [| c l] eqn:Et; [by destruct t |]. rewrite <-Et in Gt.
  destruct (chars b) as [| d r _] eqn:Eb using rev_ind; [by destruct b |]. rewrite <-Eb in Gb.
  apply Forall_cons in Hg as [Hc Hl]. apply Forall_app in Hb as [Hr [Hd _]%Forall_cons].
  apply (trim_space_core _ (l ++ " "%char :: r ++ [d]) (c :: l ++ " "%char :: r) c d).
  - by rewrite chars_app, Et, chars_app, Eb.
  - rewrite chars_app, Et, chars_app, Eb. cbn. by rewrite <-app_assoc.
  - done.
  - done.
  - rewrite !chars_app, !Forall_app. repeat split; [by apply graph_ascii | | by apply graph_ascii |]; by repeat constructor.
  - by repeat constructor.
Qed.

Lemma above_space_graph c : 32 < byte_val c < 127 -> is_graph c = true.
Proof. intros H. unfold is_graph, is_space. lia. Qed.

(** ** Properties *)

(** The server keeps its key. The first start with a path that has no key yet
    and can be written makes one, and every later start uses that key, whatever
    it could generate: provided that a private key marshalled and parsed gives
    the same signer, which golang.org/x/crypto/ssh documents. *)
Theorem host_key_kept {Priv Signer : Type} (Parse : string -> result Signer) (Marshal : Priv -> result string)
    (NewSigner : Priv -> result Signer) (path block : string) (priv : Priv) (gs : list (result Priv))
    (Hround : forall p b, Marshal p = Ok b -> Parse b = NewSigner p)
    (Hpath : path <> "") (Hm : Marshal priv = Ok block) :
  restarts Parse Marshal NewSigner path (Disk None true) (Ok priv :: gs)
  = replicate (S (length gs)) (NewSigner priv).
Proof.
  cbn [restarts]. unfold loadOrCreateHostKey. cbn [d_data d_writable]. rewrite Hm, bool_decide_eq_false_2 by done.
  cbn [negb andb replicate]. by rewrite (restarts_data _ _ _ _ _ block), (Hround priv block).
Qed.

(** A key that cannot be saved changes at every start. The error of the write
    is ignored: with a path that cannot be written, or none, every start serves
    with the key it has just generated and reports no problem, so the clients
    that pinned an earlier one refuse the server from then on. *)
Theorem unsaved_key_changes {Priv Signer : Type} (Parse : string -> result Signer) (Marshal : Priv -> result string)
    (NewSigner : Priv -> result Signer) (path : string) (writable : bool) (gs : list (result Priv))
    (Hsave : writable = false \/ path = "") :
  restarts Parse Marshal NewSigner path (Disk None writable) gs = fresh_key Marshal NewSigner <$> gs.
Proof.
  assert (negb (bool_decide (path = "")) && writable = false) as Hs.
  { destruct Hsave as [-> | ->]; [apply andb_false_r | done]. }
  induction gs as [| g gs IH]; [done |]. cbn [restarts fmap list_fmap]. rewrite <-IH. unfold loadOrCreateHostKey, fresh_key.
  cbn [d_data d_writable]. destruct g as [priv | e]; [| done]. destruct (Marshal priv); [| done]. by rewrite Hs.
Qed.

(** C23: the line the server logs pins that server. Public keys are marshalled as
    their type, the base64 of a blob that starts with the type, and a line feed.
    What Run logs, given to a client as its host key, is accepted with the type and
    the fingerprint of the blob; and the known_hosts line ssh is then given is a
    host pattern followed by exactly the marshalled key, so ssh accepts this key
    and no other. *)
Theorem logged_line_pins (sum : bytes -> bytes) (t : string) (rest : bytes) (host : string) (port : Z) (bare : bool)
    (Ht : t <> "") (Hg : Forall (fun c => is_graph c = true) (chars t)) (Hlen : Z.of_nat (String.length t) < 2 ^ 32) :
  let marshalled := t +:+ " " +:+ std_encode (blob_of t rest) +:+ String (ascii_of_N 10) "" in
  exists k pat, parseHostKey sum (pin_line marshalled) = inl k
    /\ typ k = t /\ hash k = "SHA256:" +:+ raw_encode (sum (blob_of t rest))
    /\ knownHostsEntries k host port bare = pat +:+ " " +:+ marshalled
    /\ pat = (if negb (port =? 22) && negb bare then "[" +:+ host +:+ "]:" +:+ itoa port else host).
Proof.
  intros marshalled. destruct (blob_line_plain t rest Ht) as [Hne Hb]. set (b := std_encode (blob_of t rest)) in *.
  assert (pin_line marshalled = t +:+ " " +:+ b) as -> by (unfold marshalled; by apply pin_line_core).
  eexists (MkKey t b _), _. split; [apply (parse_blob_line _ _ _ _ []); [done | done | by apply fields_two] |].
  split; [done |]. split; [done |]. split; [| reflexivity]. unfold knownHostsEntries. reflexivity.
Qed.

(** The log shows the line as it is to be copied: for a key type of printing
    characters that need no escape, as all of ssh's, %q only puts it between quotes. *)
Theorem pin_log_verbatim (unicode_print : Z -> bool) (t : string) (rest : bytes)
    (Ht : t <> "") (Hg : Forall quote_safe (chars t)) :
  let line := t +:+ " " +:+ std_encode (blob_of t rest) in
  pin_log unicode_print (line +:+ String (ascii_of_N 10) "")
  = "tunnelserver: to pin this server on clients set TK_HOST_KEY=" +:+ String QUOTE (line +:+ String QUOTE "")
    +:+ " (add-on/UCI option host_key)".
Proof.
  intros line. unfold pin_log. assert (pin_line (line +:+ String (ascii_of_N 10) "") = line) as ->.
  { unfold line. rewrite ?append_assoc. apply pin_line_core; [done | by apply blob_line_plain | |].
    - eapply Forall_impl; [exact Hg |]. intros c (? & _). by apply above_space_graph.
    - by apply blob_line_plain. }
  rewrite quote_plain; [done |]. unfold line. rewrite !chars_app, !Forall_app.
  split_and!; [eapply Forall_impl; [exact Hg |] | | eapply Forall_impl; [apply b64_quote_safe |]];
    try (intros c (? & ? & ?); split_and!; [lia | lia | done | done]).
  by repeat constructor.
Qed.

(** ** Witnesses *)

(** Keys that are their own text. *)
Definition text_key (s : string) : result string := Ok s.

Lemma host_key_kept_witness :
  restarts text_key text_key text_key "/data/key" (Disk None true) [Ok "first"; Ok "second"; Err "no entropy"]
  = [Ok "first"; Ok "first"; Ok "first"].
Proof.
  apply (host_key_kept text_key text_key text_key "/data/key" "first" "first" [Ok "second"; Err "no entropy"]);
    [intros p b [= <-]; reflexivity | discriminate | reflexivity].
Defined.

Lemma unsaved_key_changes_witness :
  restarts text_key text_key text_key "/data/key" (Disk None false) [Ok "first"; Ok "second"] = [Ok "first"; Ok "second"].
Proof. exact (unsaved_key_changes text_key text_key text_key "/data/key" false [Ok "first"; Ok "second"] (or_introl eq_refl)). Defined.

Lemma logged_line_pins_witness :
  exists k pat, parseHostKey (fun b => b) (pin_line ("ssh-x" +:+ " " +:+ std_encode (blob_of "ssh-x" [PAD]) +:+ String (ascii_of_N 10) "")) = inl k
    /\ typ k = "ssh-x" /\ pat = "[h]:2222".
Proof.
  destruct (logged_line_pins (fun b => b) "ssh-x" [PAD] "h" 2222 false) as (k & pat & H1 & H2 & _ & _ & H3);
    [discriminate | repeat constructor | vm_compute; reflexivity |].
  exists k, pat. split; [exact H1 |]. split; [exact H2 | exact H3].
Defined.

Lemma pin_log_verbatim_witness :
  pin_log (fun _ => false) (("ssh-x" +:+ " " +:+ std_encode (blob_of "ssh-x" [PAD])) +:+ String (ascii_of_N 10) "")
  = "tunnelserver: to pin this server on clients set TK_HOST_KEY="
    +:+ String QUOTE (("ssh-x" +:+ " " +:+ std_encode (blob_of "ssh-x" [PAD])) +:+ String QUOTE "")
    +:+ " (add-on/UCI option host_key)".
Proof. apply (pin_log_verbatim (fun _ => false) "ssh-x" [PAD]); [discriminate | apply (bool_decide_unpack _); vm_compute; exact I]. Defined.
