(* ===== verification/Agent.v ===== *)
(** * The client's supervisor

    Models src/core/internal/client/client.go: the arguments given to ssh, and the
    loop that keeps ssh running, as a machine; the pre-flight probe is here by its
    outcome, with its texts in [Preflight], and Run up to the loop in [Startup]. The machine's actions are the points at
    which the loop goes on (what the probe, the start of ssh and ssh itself
    answer is part of the action), the firing of the timer, the callback that
    it starts in a goroutine of its own, and the stop signal. *)

From S2P Require Export Config Stats.

Definition connectTimeout : Z := 20.
Definition connectSettle : duration := (connectTimeout + 5) * second.

(** ** The arguments of ssh *)

(** [pinned]: the temporary HOME and its known_hosts. *)
Record pinned := Pinned { dir : string; knownHosts : string }.

Definition hostify (addr : string) : string := if has_prefix addr ":" then "localhost" +:+ addr else addr.

Definition forwards (cfg : Config) : list string :=
  concat ((fun f => ["-R"; f]) <$> Forwards cfg)
  ++ (if 0 <? StatsForwardPort cfg then ["-R"; itoa (StatsForwardPort cfg) +:+ ":" +:+ hostify (StatsAddr cfg)] else [])
  ++ (if 0 <? SpeedtestForwardPort cfg
      then ["-R"; itoa (SpeedtestForwardPort cfg) +:+ ":" +:+ hostify (SpeedtestListen cfg)] else []).

Definition target (cfg : Config) : string := User cfg +:+ "@" +:+ Host cfg.

Definition opensshArgs (cfg : Config) (pin : option pinned) : list string :=
  ["-N"; "-T"; "-o"; "ExitOnForwardFailure=yes"; "-o"; "ConnectTimeout=" +:+ itoa connectTimeout;
   "-o"; "ServerAliveInterval=" +:+ itoa (ServerAliveInterval cfg);
   "-o"; "ServerAliveCountMax=" +:+ itoa (ServerAliveCountMax cfg); "-p"; itoa (SSHPort cfg)]
  ++ match pin with
     | None => ["-o"; "StrictHostKeyChecking=accept-new"]
     | Some p => ["-o"; "StrictHostKeyChecking=yes"; "-o"; "UserKnownHostsFile=" +:+ knownHosts p;
                  "-o"; "GlobalKnownHostsFile=/dev/null"]
     end
  ++ (if bool_decide (KeyFile cfg = "") then [] else ["-i"; KeyFile cfg])
  ++ forwards cfg
  ++ (if bool_decide (ExtraSSHOpts cfg = "") then [] else fields (ExtraSSHOpts cfg))
  ++ [target cfg].

Definition dropbearArgs (cfg : Config) (pin : option pinned) : list string :=
  ["-N"; "-T"; "-p"; itoa (SSHPort cfg)]
  ++ match pin with None => ["-y"] | Some _ => [] end
  ++ (if bool_decide (KeyFile cfg = "") then [] else ["-i"; KeyFile cfg])
  ++ (if 0 <? ServerAliveInterval cfg then ["-K"; itoa (ServerAliveInterval cfg)] else [])
  ++ forwards cfg
  ++ (if bool_decide (ExtraSSHOpts cfg = "") then [] else fields (ExtraSSHOpts cfg))
  ++ [target cfg].

(** The program, its arguments, and the HOME set for it, if any. *)
Definition buildSSH (cfg : Config) (pin : option pinned) : string * list string * option string :=
  let drop := bool_decide (SSHImpl cfg = "dropbear") in
  (SSHCommand cfg, if drop then dropbearArgs cfg pin else opensshArgs cfg pin,
   if drop then dir <$> pin else None).

(** ** The pre-flight probe *)

Inductive probed :=
| TCPFailed (err : string)
| NoBanner (err : string)
| Banner (line : string).

(** Whether the probe lets ssh start. *)
Definition probe_ok (p : probed) : bool :=
  match p with Banner line => has_prefix (trim_space line) "SSH-" | _ => false end.

(** ** The loop *)

Section agent.
Context (unicode_lower : Z -> Z) (cfg : Config).

Definition precheck : bool :=
  negb (NoPrecheck cfg) && negb (contains (ToLower unicode_lower (ExtraSSHOpts cfg)) "proxy").

(** Where the loop is: at its condition, at the start of ssh, with ssh running
    since a time (and the timer armed or not), in the wait, or returned. *)
Inductive pc :=
| Head
| Starting
| Running (start : time) (armed : bool)
| Sleeping
| Done.

Record agent := MkAgent {
  at_pc : pc;
  stopped : bool;
  st : Stats;
  callbacks : list time;
}.

Definition agent0 (now : time) : agent := MkAgent Head false (New now (SpeedtestForwardPort cfg)) [].

(** One occurrence of [t] taken out of a list. *)
Fixpoint take_out (t : time) (l : list time) : option (list time) :=
  match l with
  | [] => None
  | u :: l' => if decide (u = t) then Some l' else cons u <$> take_out t l'
  end.

Inductive action :=
| Stop
| Check (p : probed) (text : string)
| Start (now : time) (res : option string)
| Fire (now : time)
| Callback (start : time)
| Exit (now : time) (err : option string)
| Wake.

(** One action; [None] is an action that cannot happen. [Check] is the loop's
    condition with the probe, whose error has [text]; [Start] fails when the stop
    signal came before it. The wait ends with the delay or with the stop signal. *)
Definition step (w : agent) (a : action) : option agent :=
  match a, at_pc w with
  | Stop, _ => Some (MkAgent (at_pc w) true (st w) (callbacks w))
  | Check p text, Head =>
      if stopped w then Some (MkAgent Done true (st w) (callbacks w))
      else if precheck && negb (probe_ok p)
      then Some (MkAgent Sleeping false (RecordDisconnect 0 (Some text) (st w)) (callbacks w))
      else Some (MkAgent Starting false (st w) (callbacks w))
  | Start now res, Starting =>
      match (if stopped w then Some (default "context canceled" res) else res) with
      | Some e => Some (MkAgent Sleeping (stopped w) (RecordDisconnect 0 (Some e) (st w)) (callbacks w))
      | None => Some (MkAgent (Running now true) (stopped w) (st w) (callbacks w))
      end
  | Fire now, Running start true =>
      if start + connectSettle <=? now
      then Some (MkAgent (Running start false) (stopped w) (st w) (start :: callbacks w)) else None
  | Callback start, _ =>
      cbs ← take_out start (callbacks w);
      Some (MkAgent (at_pc w) (stopped w) (SetConnectedSince start (st w)) cbs)
  | Exit now err, Running start _ =>
      Some (MkAgent (if stopped w then Done else Sleeping) (stopped w)
              (RecordDisconnect (sub now start) err (st w)) (callbacks w))
  | Wake, Sleeping => Some (MkAgent (if stopped w then Done else Head) (stopped w) (st w) (callbacks w))
  | _, _ => None
  end.

Fixpoint exec (w : agent) (l : list action) : option agent :=
  match l with
  | [] => Some w
  | a :: l' => w' ← step w a; exec w' l'
  end.

(** ** Invariants *)

(** A callback that was started runs before ssh is seen to exit. *)
Definition timely (w : agent) (a : action) : Prop :=
  match a with Exit _ _ => callbacks w = [] | _ => True end.

Inductive timely_run (w : agent) : list action -> agent -> Prop :=
| timely_nil : timely_run w [] w
| timely_snoc l w1 a w2 : timely_run w l w1 -> timely w1 a -> step w1 a = Some w2 -> timely_run w (l ++ [a]) w2.

(** What is connected, by where the loop is. *)
Definition ainv (l : list action) (w : agent) : Prop :=
  match at_pc w with
  | Running s false =>
      (exists now, Fire now ∈ l /\ s + connectSettle <= now)
      /\ ((callbacks w = [s] /\ connected (st w) = false)
          \/ (callbacks w = [] /\ connected (st w) = true /\ sessionAt (st w) = s))
  | _ => callbacks w = [] /\ connected (st w) = false
  end.

Lemma ainv_step l w a w' : ainv l w -> timely w a -> step w a = Some w' -> ainv (l ++ [a]) w'.
Proof.
  unfold ainv. intros Hi Ht Hs. destruct w as [p d s cbs]. cbn [at_pc callbacks st stopped] in *.
  destruct a as [| pr tx | now res | now | start | now e |]; cbn in Hs.
  - injection Hs as <-. cbn. destruct p as [| | ? [] | |]; try done.
    destruct Hi as [(n & H & ?) ?]. split; [exists n; set_solver | done].
  - destruct p; try done. destruct Hi as [-> Hc]. destruct d; [by injection Hs as <- |].
    destruct (_ && _); by injection Hs as <-.
  - destruct p; try done. destruct Hi as [-> Hc]. destruct (if d then _ else _); by injection Hs as <-.
  - destruct p as [| | start [] | |]; try done. destruct (Z.leb_spec (start + connectSettle) now); [| done].
    injection Hs as <-. cbn. destruct Hi as [-> Hc]. split; [exists now; set_solver | by left].
  - destruct (take_out start cbs) as [cbs' |] eqn:E; [| done]. injection Hs as <-. cbn.
    destruct p as [| | s0 [] | |]; try (destruct Hi as [-> _]; done).
    destruct Hi as [(n & H & ?) [[-> Hc] | [-> _]]]; [| done]. split; [exists n; set_solver |].
    cbn in E. case_decide; [| done]. injection E as <-. subst. by right.
  - destruct p as [| | s0 b | |]; try done. injection Hs as <-. cbn in Ht. subst cbs. by destruct d.
  - destruct p; try done. injection Hs as <-. destruct Hi as [-> Hc]. by destruct d.
Qed.

Lemma timely_ainv now l w : timely_run (agent0 now) l w -> ainv l w.
Proof. induction 1 as [| l w1 a w2 _ IH Ht Hs]; [done | by eapply ainv_step]. Qed.

(** The actions of the loop itself. *)
Definition loop_action (a : action) : Prop :=
  match a with Check _ _ | Start _ _ | Exit _ _ | Wake => True | _ => False end.
#[export] Instance loop_action_dec a : Decision (loop_action a).
Proof. destruct a; cbn; apply _. Defined.

(** The loop's steps left before a stopped machine returns. *)
Definition left_ (p : pc) : nat :=
  match p with Head => 1 | Starting => 2 | Running _ _ => 1 | Sleeping => 1 | Done => 0 end.

Lemma step_stopped w a w' : stopped w = true -> step w a = Some w' ->
  stopped w' = true
  /\ (left_ (at_pc w') + (if decide (loop_action a) then 1 else 0) <= left_ (at_pc w))%nat
  /\ (forall s b, at_pc w' = Running s b -> exists b', at_pc w = Running s b').
Proof.
  destruct w as [p d s cbs]. cbn [stopped at_pc]. intros -> Hs.
  destruct a as [| pr tx | now res | now | start | now e |]; cbn in Hs.
  - injection Hs as <-. cbn. split; [done |]. split; [destruct (decide _) as [[] |]; lia | eauto].
  - destruct p; try done. injection Hs as <-. split; [done |]. split; [destruct (decide _); cbn; lia | done].
  - destruct p; try done. injection Hs as <-. split; [done |]. split; [destruct (decide _); cbn; lia | done].
  - destruct p as [| | start [] | |]; try done. destruct (_ <=? _); [| done]. injection Hs as <-. cbn.
    split; [done |]. split; [destruct (decide _) as [[] |]; lia |]. intros s0 b [= -> _]. eauto.
  - destruct (take_out start cbs); [| done]. injection Hs as <-. cbn. split; [done |]. split; [destruct (decide _) as [[] |]; lia | eauto].
  - destruct p; try done. injection Hs as <-. split; [done |]. split; [destruct (decide _); cbn; lia | done].
  - destruct p; try done. injection Hs as <-. split; [done |]. split; [destruct (decide _); cbn; lia | done].
Qed.
End agent.

(** ** Properties *)

(** C32: /healthz is right as long as callbacks are not overtaken. In every state
    the loop reaches in which each callback that was started ran before its ssh
    exited, the client is reported connected only while an ssh runs that has been
    running for [connectSettle], and since the time that ssh was started. *)
Theorem connected_means_settled (lower : Z -> Z) (cfg : Config) (t0 : time) (l : list action) (w : agent)
    (Hrun : timely_run lower cfg (agent0 cfg t0) l w) (Hc : connected (st w) = true) :
  exists start now, at_pc w = Running start false /\ sessionAt (st w) = start
    /\ Fire now ∈ l /\ start + connectSettle <= now.
Proof.
  apply timely_ainv in Hrun. unfold ainv in Hrun.
  destruct (at_pc w) as [| | s [] | |]; try (destruct Hrun; congruence).
  destruct Hrun as [(now & Hin & Hle) [[_ ?] | (_ & _ & Hs)]]; [congruence |]. eauto 6.
Qed.

(** C40: a callback can be overtaken. The timer fires as ssh exits, Stop comes too
    late for it, and the callback runs after the disconnection was recorded:
    whatever the configuration, the client then reports itself connected, with a
    growing uptime, while it waits to reconnect and no ssh runs. *)
Theorem late_callback_reports_connected (lower : Z -> Z) (cfg : Config) (t0 start : time) (err : option string) :
  exists w, exec lower cfg (agent0 cfg t0)
      [Check (Banner "SSH-2.0-x") ""; Start start None; Fire (start + connectSettle);
       Exit (start + connectSettle) err; Callback start] = Some w
    /\ at_pc w = Sleeping
    /\ forall now, healthz now (st w) = 200 /\ UptimeSeconds (snap now (st w)) = seconds (sub now start).
Proof.
  eexists. split.
  - cbn [exec step agent0 at_pc stopped mbind option_bind]. rewrite andb_false_r. cbn [step at_pc stopped mbind option_bind].
    rewrite Z.leb_refl. cbn [step at_pc stopped callbacks mbind option_bind take_out].
    rewrite decide_True by done. reflexivity.
  - split; [done |]. intros now. done.
Qed.

(** The stop signal ends the loop. From a state where it has arrived, at most
    two more steps of the loop are taken before it returns, no ssh is started
    any more, and until it has returned a step is possible. *)
Theorem stop_ends (lower : Z -> Z) (cfg : Config) (w w' : agent) (l : list action)
    (Hstop : stopped w = true) (Hexec : exec lower cfg w l = Some w') :
  (length (filter loop_action l) <= 2)%nat
  /\ (forall s b, at_pc w' = Running s b -> exists b', at_pc w = Running s b')
  /\ (at_pc w' = Done \/ exists a, loop_action a /\ is_Some (step lower cfg w' a)).
Proof.
  assert (stopped w' = true
    /\ (left_ (at_pc w') + length (filter loop_action l) <= left_ (at_pc w))%nat
    /\ (forall s b, at_pc w' = Running s b -> exists b', at_pc w = Running s b')) as (H1 & H2 & H3).
  { revert w Hstop Hexec. induction l as [| a l IH]; intros w Hstop Hexec.
    - injection Hexec as <-. cbn. split; [done |]. split; [lia | eauto].
    - cbn in Hexec. destruct (step lower cfg w a) as [w1 |] eqn:E; [| done]. cbn in Hexec.
      destruct (step_stopped _ _ _ _ _ Hstop E) as (S1 & S2 & S3). destruct (IH w1 S1 Hexec) as (I1 & I2 & I3).
      split; [done |]. split; [rewrite filter_cons; destruct (decide (loop_action a)); cbn [length]; lia |].
      intros s b Hr. destruct (I3 s b Hr) as [b' Hb']. eauto. }
  split; [destruct (at_pc w); cbn in *; lia |]. split; [done |].
  destruct (at_pc w') as [| | s b | |] eqn:E; [right | right | right | right | by left]; unfold step; rewrite ?E, ?H1.
  - exists (Check (TCPFailed "") ""). split; [done |]. cbn. eauto.
  - exists (Start 0 None). split; [done |]. cbn. eauto.
  - exists (Exit 0 None). split; [done |]. cbn. eauto.
  - exists Wake. split; [done |]. cbn. eauto.
Qed.

(** The values of the options of an OpenSSH command line, in order. *)
Fixpoint o_values (args : list string) : list string :=
  match args with
  | [] => []
  | a :: r =>
      match r with
      | [] => []
      | v :: r' =>
          if bool_decide (a = "-o") then v :: o_values r'
          else if bool_decide (a ∈ ["-p"; "-i"; "-R"]) then o_values r'
          else o_values r
      end
  end.

(** ssh takes the first value it is given for an option. *)
Definition ssh_option (name : string) (args : list string) : option string :=
  head (filter (fun v => has_prefix v (name +:+ "=") = true) (o_values args)).

(** The pinned key cannot be switched off by the extra options, nor can the
    exit on a failed forward: whatever the configuration, the first value OpenSSH
    sees for each is the supervisor's own, and an unpinned client accepts new keys
    only. *)
Theorem strict_options_first (cfg : Config) (pin : option pinned) :
  let args := opensshArgs cfg pin in
  ssh_option "StrictHostKeyChecking" args
    = Some (match pin with Some _ => "StrictHostKeyChecking=yes" | None => "StrictHostKeyChecking=accept-new" end)
  /\ ssh_option "ExitOnForwardFailure" args = Some "ExitOnForwardFailure=yes"
  /\ ssh_option "ConnectTimeout" args = Some "ConnectTimeout=20"
  /\ (forall p, pin = Some p ->
        ssh_option "UserKnownHostsFile" args = Some ("UserKnownHostsFile=" +:+ knownHosts p)
        /\ ssh_option "GlobalKnownHostsFile" args = Some "GlobalKnownHostsFile=/dev/null").
Proof.
  cbn zeta. unfold opensshArgs. set (rest := (if bool_decide (KeyFile cfg = "") then _ else _) ++ _).
  destruct pin as [p |]; (split; [reflexivity |]; split; [reflexivity |]; split; [reflexivity |]);
    intros p' H; [injection H as <-; split; destruct (knownHosts p); reflexivity | done].
Qed.

(** ** Witnesses *)

Definition demo_run : list action :=
  [Check (Banner "SSH-2.0-Go") ""; Start second None; Fire (30 * second); Callback second].

Definition demo_end : agent := MkAgent (Running second false) false (SetConnectedSince second (New 0 0)) [].

Lemma demo_timely : timely_run id defaults (agent0 defaults 0) demo_run demo_end.
Proof.
  change demo_run with (((([] ++ [Check (Banner "SSH-2.0-Go") ""]) ++ [Start second None]) ++ [Fire (30 * second)]) ++ [Callback second]).
  apply (timely_snoc _ _ _ _ (MkAgent (Running second false) false (New 0 0) [second])); [| exact I | vm_compute; reflexivity].
  apply (timely_snoc _ _ _ _ (MkAgent (Running second true) false (New 0 0) [])); [| exact I | vm_compute; reflexivity].
  apply (timely_snoc _ _ _ _ (MkAgent Starting false (New 0 0) [])); [| exact I | vm_compute; reflexivity].
  apply (timely_snoc _ _ _ _ (agent0 defaults 0)); [| exact I | vm_compute; reflexivity].
  constructor.
Qed.

Lemma connected_means_settled_witness :
  exists start now, at_pc demo_end = Running start false /\ sessionAt (st demo_end) = start
    /\ Fire now ∈ demo_run /\ start + connectSettle <= now.
Proof. apply (connected_means_settled id defaults 0 demo_run demo_end demo_timely eq_refl). Defined.

Lemma stop_ends_witness :
  let w := MkAgent Starting true (New 0 0) [] in
  (length (filter loop_action [Start second None; Wake]) <= 2)%nat
  /\ exists w', exec id defaults w [Start second None; Wake] = Some w' /\ at_pc w' = Done.
Proof.
  intros w. split; [| eexists; split; reflexivity].
  refine (proj1 (stop_ends id defaults w _ [Start second None; Wake] eq_refl eq_refl)).
Defined.
