(* ===== verification/Preflight.v ===== *)
(** * The pre-flight probe

    Models src/core/internal/client/probe.go with the texts it returns, and what
    becomes of them in the loop of src/core/internal/client/client.go and in the
    statistics. What the network answers, and when, is the argument. *)

From S2P Require Export Quote Agent.

Definition probeTimeoutVar : duration := 10 * second.

(** What the server's address does, with the time since the start of the probe:
    the connection fails; [ReadString] ends with an error; or it returns a line. *)
Inductive peer :=
| Unreachable (err : string) (after : duration)
| Mute (conn : duration) (err : string)
| Says (conn : duration) (line : string) (after : duration).

Definition since_text (d : duration) : string := dur_string (round d millisecond).

Section probing.
Context (unicode_print : Z -> bool).

(** The text of a success, or the error's. *)
Definition probe (host : string) (port : Z) (p : peer) : string + string :=
  let addr := join_host_port host (itoa port) in
  match p with
  | Unreachable err after =>
      inr ("TCP connect to " +:+ addr +:+ " failed after " +:+ since_text after +:+ ": " +:+ err)
  | Mute conn err =>
      inr ("TCP connected to " +:+ addr +:+ " in " +:+ since_text conn +:+ " but no SSH banner within "
           +:+ dur_string probeTimeoutVar +:+ " (" +:+ err
           +:+ "): the connection opens and then stalls or is filtered")
  | Says conn line after =>
      let line := trim_space line in
      if negb (has_prefix line "SSH-")
      then inr (addr +:+ " answered with something that is not SSH: " +:+ quote unicode_print line)
      else inl ("TCP " +:+ addr +:+ " in " +:+ since_text conn +:+ ", banner " +:+ quote unicode_print line
                +:+ " in " +:+ since_text after)
  end.

(** The probe as the loop sees it. *)
Definition observed (p : peer) : probed :=
  match p with Unreachable e _ => TCPFailed e | Mute _ e => NoBanner e | Says _ line _ => Banner line end.

Definition preflight (host : string) (port : Z) (p : peer) : action :=
  Check (observed p) (match probe host port p with inl _ => "" | inr e => e end).

Example probe_ex :
  probe "h" 2222 (Says (1500 * microsecond) "SSH-2.0-Go" (2 * second))
    = inl ("TCP h:2222 in 2ms, banner " +:+ String QUOTE ("SSH-2.0-Go" +:+ String QUOTE " in 2s"))
  /\ probe "::1" 22 (Mute 0 "EOF")
    = inr "TCP connected to [::1]:22 in 0s but no SSH banner within 10s (EOF): the connection opens and then stalls or is filtered".
Proof. vm_compute. done. Qed.

(** ** Lemmas *)

Lemma probe_agrees host port p :
  probe_ok (observed p) = match probe host port p with inl _ => true | inr _ => false end.
Proof.
  destruct p; cbn [observed probe_ok probe]; [done | done |]. by destruct (has_prefix _ _).
Qed.

Definition printing (s : string) : Prop := Forall (fun c => clean c = true) (chars s).

Lemma printing_app s t : printing (s +:+ t) <-> printing s /\ printing t.
Proof. unfold printing. rewrite chars_app. apply Forall_app. Qed.

Lemma printing_itoa n : 0 <= n -> printing (itoa n).
Proof.
  intros H. eapply Forall_impl; [by apply itoa_digits |]. intros c Hc. unfold is_digit, clean in *. breflect. lia.
Qed.

Lemma fmt_frac_printing prec v print acc : 0 <= v -> printing acc ->
  printing (fst (fmt_frac prec v print acc)) /\ 0 <= snd (fmt_frac prec v print acc).
Proof.
  revert v print acc. induction prec as [| n IH]; intros v print acc Hv Ha; cbn [fmt_frac].
  - cbn [fst snd]. split; [| done]. destruct print; [| done]. apply printing_app. split; [by repeat constructor | done].
  - apply IH; [apply Z.div_pos; lia |]. destruct (_ || _); [| done]. apply printing_app. split; [| done].
    apply printing_itoa, Z.mod_pos_bound. lia.
Qed.

Lemma dur_printing d : printing (dur_string d).
Proof.
  assert (forall s, printing s -> printing (if d <? 0 then "-" +:+ s else s)) as Hs.
  { intros s H. destruct (d <? 0); [| done]. apply printing_app. split; [by repeat constructor | done]. }
  assert (forall k u acc, 0 <= u -> printing acc ->
    printing (itoa (snd (fmt_frac k u false acc)) +:+ fst (fmt_frac k u false acc))) as Hf.
  { intros k u acc Hu Ha. destruct (fmt_frac_printing k u false acc Hu Ha). apply printing_app.
    split; [by apply printing_itoa | done]. }
  unfold dur_string. apply Hs. clear Hs. pose proof (Z.abs_nonneg d) as Hu. revert Hu. generalize (Z.abs d) as u. intros u Hu.
  destruct (u <? second).
  { destruct (u =? 0); [by repeat constructor |].
    destruct (u <? microsecond); [| destruct (u <? millisecond)];
      [pose proof (Hf 0%nat u "ns" Hu) as H | pose proof (Hf 3%nat u "µs" Hu) as H | pose proof (Hf 6%nat u "ms" Hu) as H];
      (destruct (fmt_frac _ u false _); apply H; by repeat constructor). }
  destruct (fmt_frac_printing 9 u false "s" Hu ltac:(by repeat constructor)) as [H1 H2].
  destruct (fmt_frac 9 u false "s") as [frac s]. cbn [fst snd] in H1, H2.
  assert (forall n, printing (itoa (n mod 60))) as Hm by (intros n; apply printing_itoa, Z.mod_pos_bound; lia).
  destruct (0 <? s / 60); [destruct (0 <? s / 60 / 60) |]; rewrite ?printing_app; repeat split;
    try apply Hm; try done; try (by repeat constructor). apply printing_itoa. divmod.
Qed.

Lemma addr_printing host port : printing host -> 0 <= port -> printing (join_host_port host (itoa port)).
Proof.
  intros Hh Hp. unfold join_host_port. pose proof (printing_itoa port Hp).
  destruct (has_byte _ _); rewrite ?printing_app; repeat split; try done; by repeat constructor.
Qed.

Lemma quote_printing s : printing (quote unicode_print s).
Proof. apply quote_clean. Qed.

(** ** The loop's history *)

Lemma exec_app lower cfg w l1 l2 :
  Agent.exec lower cfg w (l1 ++ l2) = w' ← Agent.exec lower cfg w l1; Agent.exec lower cfg w' l2.
Proof. revert w. induction l1 as [| a l1 IH]; intros w; [done |]. cbn. destruct (step lower cfg w a); [apply IH | done]. Qed.

(** The last pre-flight of a history let ssh start. *)
Definition passed (l : list action) : Prop :=
  exists l1 p text l2, l = l1 ++ Check p text :: l2 /\ probe_ok p = true
    /\ Forall (fun a => match a with Check _ _ => False | _ => True end) l2.

Lemma passed_snoc l a : passed l -> match a with Check _ _ => False | _ => True end -> passed (l ++ [a]).
Proof.
  intros (l1 & p & tx & l2 & -> & Hp & Hl) Ha. exists l1, p, tx, (l2 ++ [a]).
  rewrite <-app_assoc. split; [done |]. split; [done |]. apply Forall_app. by repeat constructor.
Qed.

Lemma starting_passed lower cfg now l w : precheck lower cfg = true ->
  Agent.exec lower cfg (agent0 cfg now) l = Some w ->
  match at_pc w with Starting | Running _ _ => passed l | _ => True end.
Proof.
  intros Hpre. revert w. induction l as [| a l IH] using rev_ind; intros w Hex; [by injection Hex as <- |].
  rewrite exec_app in Hex. destruct (Agent.exec _ _ _ l) as [w1 |]; [| done]. cbn in Hex.
  destruct (step lower cfg w1 a) as [w2 |] eqn:Hs; [| done]. injection Hex as <-.
  specialize (IH w1 eq_refl). destruct w1 as [pc d s cbs]. cbn [at_pc] in IH.
  destruct a as [| p tx | n res | n | st' | n e |]; cbn in Hs.
  - injection Hs as <-. cbn. destruct pc; try done; by apply passed_snoc.
  - destruct pc; try done. destruct d; [by injection Hs as <- |]. rewrite Hpre in Hs.
    destruct (probe_ok p) eqn:Hp; injection Hs as <-; [| done]. cbn. exists l, p, tx, []. by repeat constructor.
  - destruct pc; try done. destruct (if d then _ else _); injection Hs as <-; [done |]. by apply passed_snoc.
  - destruct pc as [| | ? [] | |]; try done. destruct (_ <=? _); [| done]. injection Hs as <-. by apply passed_snoc.
  - destruct (take_out _ _); [| done]. injection Hs as <-. cbn. destruct pc; try done; by apply passed_snoc.
  - destruct pc; try done. injection Hs as <-. by destruct d.
  - destruct pc; try done. injection Hs as <-. by destruct d.
Qed.
End probing.

(** ** Properties *)

(** ssh is started only after a pre-flight that passed. Unless the pre-flight is
    off, or a proxy is set, whenever the loop starts an ssh or has one running the
    last probe was answered with an SSH identification line; so a server that
    never answers with one never has an ssh started against it. *)
Theorem preflight_gates_ssh (lower : Z -> Z) (cfg : Config) (t0 : time) (l : list action) (w : agent)
    (Hpre : precheck lower cfg = true) (Hexec : Agent.exec lower cfg (agent0 cfg t0) l = Some w)
    (Hpc : at_pc w = Starting \/ exists start armed, at_pc w = Running start armed) :
  exists l1 p text l2, l = l1 ++ Check p text :: l2 /\ probe_ok p = true
    /\ Forall (fun a => match a with Check _ _ => False | _ => True end) l2.
Proof.
  pose proof (starting_passed lower cfg t0 l w Hpre Hexec) as H.
  destruct Hpc as [E | (s & b & E)]; rewrite E in H; exact H.
Qed.

(** A failed pre-flight is what the client reports. The loop goes to its wait
    without an ssh, the reconnections grow by one, the client reports itself
    disconnected, and its last error is the probe's text. *)
Theorem failed_preflight_reported (print : Z -> bool) (lower : Z -> Z) (cfg : Config) (w : agent) (p : peer)
    (e : string) (now : time) (Hpc : at_pc w = Head) (Hlive : stopped w = false)
    (Hpre : precheck lower cfg = true) (Hfail : probe print (Host cfg) (SSHPort cfg) p = inr e) :
  exists w', step lower cfg w (preflight print (Host cfg) (SSHPort cfg) p) = Some w' /\ at_pc w' = Sleeping
    /\ LastError (snap now (st w')) = e /\ Connected (snap now (st w')) = false
    /\ Reconnects (snap now (st w')) = i64 (reconnects (st w) + 1)
    /\ healthz now (st w') = 503.
Proof.
  unfold preflight. rewrite Hfail. pose proof (probe_agrees print (Host cfg) (SSHPort cfg) p) as Ha. rewrite Hfail in Ha.
  unfold step. rewrite Hpc, Hlive, Hpre, Ha. cbn [negb andb]. eexists. split; [reflexivity |]. done.
Qed.

(** What a stranger answers cannot break the client's log or its last error:
    with a printing host name, and an answer that is a line, the text the probe
    returns is printing ASCII or above it throughout, without line feeds or
    control characters; and when the answer is refused the text tells exactly
    which one it was. *)
Theorem probe_text_confined (print : Z -> bool) (host : string) (port : Z) (conn after : duration) (line : string)
    (Hhost : printing host) (Hport : 0 <= port) :
  (let '(inl text | inr text) := probe print host port (Says conn line after) in printing text)
  /\ (forall conn' after' line' e, probe print host port (Says conn line after) = inr e ->
        probe print host port (Says conn' line' after') = inr e -> trim_space line' = trim_space line).
Proof.
  pose proof (addr_printing host port Hhost Hport) as Ha. split.
  - unfold probe. destruct (negb _); rewrite ?printing_app; repeat split; try done; try apply dur_printing;
      try apply quote_printing; by repeat constructor.
  - intros conn' after' line' e. unfold probe. destruct (negb _); [| done]. destruct (negb _); [| done].
    intros [= <-] [= H]. apply (f_equal chars) in H. rewrite !chars_app in H. apply app_inv_head, app_inv_head, chars_inj in H.
    by apply (inj (quote print)) in H.
Qed.

(** ** Witnesses *)

Definition shouting : string := String (ascii_of_N 27) (String (ascii_of_N 10) "500 no").

Lemma preflight_gates_ssh_witness :
  exists l1 p text l2, demo_run = l1 ++ Check p text :: l2 /\ probe_ok p = true
    /\ Forall (fun a => match a with Check _ _ => False | _ => True end) l2.
Proof.
  apply (preflight_gates_ssh id defaults 0 demo_run demo_end); [vm_compute; reflexivity .. |].
  right. exists second, false. reflexivity.
Defined.

Lemma failed_preflight_reported_witness :
  exists w', step id defaults (agent0 defaults 0) (preflight (fun _ => false) (Host defaults) (SSHPort defaults) (Says 0 shouting 0)) = Some w'
    /\ at_pc w' = Sleeping /\ Reconnects (snap 0 (st w')) = 1.
Proof.
  destruct (failed_preflight_reported (fun _ => false) id defaults (agent0 defaults 0) (Says 0 shouting 0) _ 0
              eq_refl eq_refl ltac:(vm_compute; reflexivity) eq_refl) as (w' & H1 & H2 & _ & _ & H3 & _).
  exists w'. split; [exact H1 |]. split; [exact H2 |]. rewrite H3. reflexivity.
Defined.

Lemma probe_text_confined_witness :
  let '(inl text | inr text) := probe (fun _ => false) "h" 22 (Says 0 shouting 0) in printing text.
Proof.
  apply (probe_text_confined (fun _ => false) "h" 22 0 0 shouting); [by repeat constructor | done].
Defined.
