(* ===== verification/Startup.v ===== *)
(** * How the client starts

    Models the first half of Run in src/core/internal/client/client.go, up to its
    loop, and writeKnownHosts of src/core/internal/client/hostkey.go with the
    paths it builds: what is refused, which goroutines are started, and the key
    that every ssh the loop starts is held to. *)

From S2P Require Import HostKey Agent HbClient Config.

(** ** path/filepath, on Unix *)

(** [Clean]: one component after another, the path so far newest first. *)
Definition clean_step (rooted : bool) (done_ : list string) (c : string) : list string :=
  if bool_decide (c = "") || bool_decide (c = ".") then done_
  else if bool_decide (c = "..") then
    match done_ with
    | [] => if rooted then [] else [".."]
    | d :: ds => if bool_decide (d = "..") then ".." :: done_ else ds
    end
  else c :: done_.

Definition Clean (p : string) : string :=
  let rooted := has_prefix p "/" in
  let body := join "/" (rev (foldl (clean_step rooted) [] (split "/" p))) in
  if rooted then "/" +:+ body else if bool_decide (body = "") then "." else body.

Definition Join (l : list string) : string :=
  match filter (fun e => e <> "") l with [] => "" | l' => Clean (join "/" l') end.

Example clean_ex :
  (Clean "/tmp//x/./y/../z/", Clean "a/../..", Clean "", Clean "/..", Join ["/tmp/hk-1"; ".ssh"])
  = ("/tmp/x/z", "..", ".", "/", "/tmp/hk-1/.ssh").
Proof. vm_compute. reflexivity. Qed.

(** ** writeKnownHosts *)

(** What the system answers: the new directory, and the errors of making .ssh in
    it and of writing the file. *)
Record tmp := Tmp { t_dir : result string; t_mkdir : option string; t_write : option string }.

(** What is left on the disk: a directory and, in it, the known_hosts file. *)
Record left_behind := Left { l_dir : string; l_path : string; l_content : string }.

Definition writeKnownHosts (k : hostKey) (host : string) (port : Z) (bare : bool) (t : tmp)
    : result pinned * option left_behind :=
  match t_dir t with
  | Err e => (Err e, None)
  | Ok dir =>
      let sshDir := Join [dir; ".ssh"] in
      match t_mkdir t with
      | Some e => (Err e, None)
      | None =>
          let path := Join [sshDir; "known_hosts"] in
          match t_write t with
          | Some e => (Err e, None)
          | None => (Ok (Pinned dir path), Some (Left dir path (knownHostsEntries k host port bare)))
          end
      end
  end.

(** ** Run, up to the loop *)

Inductive run_error := NoHost | BadHostKey (e : key_error) | KnownHostsFailed (e : string).

(** What Run has set up: the pinned key, whether the statistics and the
    responder are served, and the arguments of the heartbeat client. *)
Record plan := Plan {
  pl_pin : option pinned;
  pl_stats : bool;
  pl_responder : bool;
  pl_heartbeat : option (string * Z * string * string * duration);
}.

Section run.
(** SHA-256. *)
Context (sum : bytes -> bytes).

Definition Run (cfg : Config.Config) (t : tmp) : (plan + run_error) * option left_behind :=
  if bool_decide (Host cfg = "") then (inr NoHost, None)
  else
    let go pin disk :=
      (inl (Plan pin (negb (bool_decide (StatsAddr cfg = ""))) (negb (bool_decide (SpeedtestListen cfg = "")))
         (if (0 <? HeartbeatPort cfg) && negb (bool_decide (HeartbeatName cfg = ""))
          then Some (Host cfg, HeartbeatPort cfg, HeartbeatName cfg, HeartbeatKey cfg, HeartbeatInterval cfg)
          else None)), disk) in
    if bool_decide (HostKey cfg = "") then go None None
    else
      match parseHostKey sum (HostKey cfg) with
      | inr e => (inr (BadHostKey e), None)
      | inl k =>
          match writeKnownHosts k (Host cfg) (SSHPort cfg) (bool_decide (SSHImpl cfg = "dropbear")) t with
          | (Err e, disk) => (inr (KnownHostsFailed e), disk)
          | (Ok p, disk) => go (Some p) disk
          end
      end.
End run.

(** ** The arguments of ssh *)

Lemma itoa_not_y n : itoa n <> "-y".
Proof.
  unfold itoa. destruct (Z.to_int n) as [u | u]; cbn; [destruct u; cbn; congruence |].
  intros [= E]. destruct u; cbn in E; congruence.
Qed.

Lemma dropbear_accepts cfg p :
  "-y" ∈ dropbearArgs cfg (Some p) -> "-y" ∈ [KeyFile cfg; target cfg] ++ forwards cfg ++ fields (ExtraSSHOpts cfg).
Proof.
  unfold dropbearArgs. pose proof (itoa_not_y (SSHPort cfg)). pose proof (itoa_not_y (ServerAliveInterval cfg)).
  rewrite !elem_of_app, !elem_of_cons. case_bool_decide; case_bool_decide; destruct (0 <? _);
    rewrite ?elem_of_cons, ?elem_of_nil; naive_solver.
Qed.

Lemma openssh_pinned cfg p :
  let args := opensshArgs cfg (Some p) in
  ssh_option "StrictHostKeyChecking" args = Some "StrictHostKeyChecking=yes"
  /\ ssh_option "UserKnownHostsFile" args = Some ("UserKnownHostsFile=" +:+ knownHosts p)
  /\ ssh_option "GlobalKnownHostsFile" args = Some "GlobalKnownHostsFile=/dev/null".
Proof.
  cbn zeta. unfold opensshArgs. set (rest := (if bool_decide (KeyFile cfg = "") then _ else _) ++ _).
  split; [reflexivity |]. split; destruct (knownHosts p); reflexivity.
Qed.

(** ** Properties *)

(** C22: a host key that is set is enforced. Whatever the system answers, when a
    host key is configured the client either does not start, and leaves nothing on
    the disk, or runs every ssh with a known_hosts file of its own that holds the
    configured key and nothing else: with OpenSSH the options that ask for strict
    checking against that file, and against no other, come before any the
    configuration adds, so they win; with Dropbear the file is where dbclient
    looks in the HOME it is given, for the host without a port, and the option that
    accepts unknown keys is not given unless the configuration adds it. *)
Theorem host_key_enforced (sum : bytes -> bytes) (cfg : Config.Config) (t : tmp) (Hkey : HostKey cfg <> "") :
  match Run sum cfg t with
  | (inr e, disk) => disk = None
  | (inl pl, disk) =>
      exists k p, parseHostKey sum (HostKey cfg) = inl k /\ pl_pin pl = Some p
        /\ disk = Some (Left (dir p) (knownHosts p)
             (knownHostsEntries k (Host cfg) (SSHPort cfg) (bool_decide (SSHImpl cfg = "dropbear"))))
        /\ let '(_, args, home) := buildSSH cfg (pl_pin pl) in
           if bool_decide (SSHImpl cfg = "dropbear") then
             home = Some (dir p) /\ knownHosts p = Join [Join [dir p; ".ssh"]; "known_hosts"]
             /\ ("-y" ∈ args -> "-y" ∈ [KeyFile cfg; target cfg] ++ forwards cfg ++ fields (ExtraSSHOpts cfg))
           else
             ssh_option "StrictHostKeyChecking" args = Some "StrictHostKeyChecking=yes"
             /\ ssh_option "UserKnownHostsFile" args = Some ("UserKnownHostsFile=" +:+ knownHosts p)
             /\ ssh_option "GlobalKnownHostsFile" args = Some "GlobalKnownHostsFile=/dev/null"
  end.
Proof.
  unfold Run. case_bool_decide; [done |]. rewrite bool_decide_eq_false_2 by done.
  destruct (parseHostKey sum (HostKey cfg)) as [k | e]; [| done]. unfold writeKnownHosts.
  destruct (t_dir t) as [d | e]; [| done]. destruct (t_mkdir t); [done |]. destruct (t_write t); [done |].
  exists k, (Pinned d (Join [Join [d; ".ssh"]; "known_hosts"])). do 3 (split; [done |]). unfold buildSSH. cbn [pl_pin].
  case_bool_decide.
  - split; [done |]. split; [done |]. apply dropbear_accepts.
  - apply openssh_pinned.
Qed.

(** ** Witness *)

(** The defaults with a host and its key. *)
Definition pinned_cfg : Config.Config :=
  MkConfig "example.com" 2222 "tunnel" "" [] 20 3 "a AAAAAWE= c" "" (5 * second) "openssh" "ssh" false
    5000 "tk-a-web" "k" (10 * second) ":9100" 0 ":9102" 0 "" (Z.shiftl 50 20)
    ":2223" "" "" "" "" "" "" "" "".
Definition demo_tmp : tmp := Tmp (Ok "/tmp/tunnelkit-hk-1") None None.

Lemma host_key_enforced_witness :
  exists pl disk p, Run (fun b => b) pinned_cfg demo_tmp = (inl pl, Some disk) /\ pl_pin pl = Some p
    /\ l_path disk = "/tmp/tunnelkit-hk-1/.ssh/known_hosts" /\ l_content disk = "[example.com]:2222 a AAAAAWE=" +:+ String (ascii_of_N 10) ""
    /\ ssh_option "StrictHostKeyChecking" (opensshArgs pinned_cfg (Some p)) = Some "StrictHostKeyChecking=yes".
Proof.
  pose proof (host_key_enforced (fun b => b) pinned_cfg demo_tmp ltac:(discriminate)) as H.
  assert (Run (fun b => b) pinned_cfg demo_tmp
    = (inl (Plan (Some (Pinned "/tmp/tunnelkit-hk-1" "/tmp/tunnelkit-hk-1/.ssh/known_hosts")) true true
         (Some ("example.com", 5000, "tk-a-web", "k", 10 * second))),
       Some (Left "/tmp/tunnelkit-hk-1" "/tmp/tunnelkit-hk-1/.ssh/known_hosts"
         ("[example.com]:2222 a AAAAAWE=" +:+ String (ascii_of_N 10) "")))) as E by (vm_compute; reflexivity).
  rewrite E in H. destruct H as (k & p & _ & Hp & _ & H). eexists _, _, p.
  split; [exact E |]. split; [exact Hp |]. split; [reflexivity |]. split; [reflexivity |].
  cbn [pl_pin] in Hp. injection Hp as <-. exact (proj1 H).
Defined.
