(* ===== verification/Server.v ===== *)
(** * The server as a whole

    Models the wiring of Run in src/core/internal/tunnelserver/server.go: one state
    with the authorized keys, the connections whose handshake is under way, the
    session machine with the registry it feeds, the forwarded connections, the
    traffic store with its saver, the heartbeat server with the two callbacks Run
    gives it, and the panel's sampler. An action is a critical section or a wait
    of one of the goroutines, in any order. The theorems are those of the parts,
    carried over to the whole by projecting its runs to theirs. *)

From S2P Require Import Config HbServer Attempts Links Traffic Conn Sampler Sessions.

Definition cid : Type := nat.
Definition pid : Type := nat.

(** A connection before its session: what the callback has granted so far, or the
    permissions the handshake ended with, once the attempt is recorded. *)
Inductive conn :=
| Shaking (granted : list keyInfo)
| Recorded (info : keyInfo).

(** A forwarded connection: the session's name and the port, the client it counts
    for, whether [pipe] still runs. [p_in] and [p_out], what it has counted to the
    client and from it, are for the statements only. *)
Record piped := Piped {
  p_name : string; p_port : Z; p_client : option ptr; p_live : bool; p_in : Z; p_out : Z;
}.

(** The heartbeat server: its table and receive loop, the callbacks the checker and
    the receive loop have yet to make, and the answer the loop has yet to send. *)
Record beats := Beats {
  hb_config : HbServer.config; hb_lost : list event; hb_back : list event; hb_answer : option (string * bytes);
}.

Record server := Server {
  auth : authStore;
  conns : gmap cid (string * conn);
  tunnels : world;
  pipes : gmap pid piped;
  store : TrafficStore;
  hbs : option beats;
  panel : option (time * sampler);
}.

Definition set_auth (s : server) (a : authStore) : server :=
  Server a (conns s) (tunnels s) (pipes s) (store s) (hbs s) (panel s).
Definition set_conns (s : server) (c : gmap cid (string * conn)) : server :=
  Server (auth s) c (tunnels s) (pipes s) (store s) (hbs s) (panel s).
Definition set_tunnels (s : server) (w : world) : server :=
  Server (auth s) (conns s) w (pipes s) (store s) (hbs s) (panel s).
Definition set_pipes (s : server) (p : gmap pid piped) : server :=
  Server (auth s) (conns s) (tunnels s) p (store s) (hbs s) (panel s).
Definition set_store (s : server) (t : TrafficStore) : server :=
  Server (auth s) (conns s) (tunnels s) (pipes s) t (hbs s) (panel s).
Definition set_hbs (s : server) (b : beats) : server :=
  Server (auth s) (conns s) (tunnels s) (pipes s) (store s) (Some b) (panel s).
Definition set_panel (s : server) (p : time * sampler) : server :=
  Server (auth s) (conns s) (tunnels s) (pipes s) (store s) (hbs s) (Some p).

Definition set_reg (w : world) (r : Registry) : world := World (sessions w) (byName_ w) (lsts w) r.
Definition with_reg (s : server) (r : Registry) : server := set_tunnels s (set_reg (tunnels s) r).

(** What the world sees: log lines, datagrams and writes of the traffic file. *)
Inductive output :=
| Logged (line : string)
| Sent (to : string) (data : bytes)
| Wrote (content : gmap string ct).

(** The lines of the two callbacks, with what [reg.Connected] answered. *)
Definition beat_line (e : event) (connected : bool) : string :=
  let tcp := "; TCP tunnel connected: " +:+ (if connected then "true" else "false") in
  match e with
  | EvLost name ip ago =>
      "heartbeat: UDP from " +:+ name +:+ " (" +:+ ip +:+ ") silent for " +:+ dur_string (round ago second) +:+ tcp
  | EvResume name ip gap =>
      "heartbeat: UDP from " +:+ name +:+ " (" +:+ ip +:+ ") back after " +:+ dur_string (round gap second) +:+ tcp
  end.

(** The ways [Run] returns before it accepts connections. *)
Inductive start_error := HostKeyFailed (e : string) | AuthorizedKeysFailed | ListenFailed (e : string).

Section server.
Context {K : Type} (Parse : string -> option (@authorized_key K)) (fingerprint : K -> string).
Context (offset : time -> Z).

(** ** Run, up to the loop over [ln.Accept] *)

Definition start {S : Type} (now : time) (cfg : Config.Config) (hostKey : result S) (f : file)
    (loaded : gmap string ct) (listen_error : option string) : server + start_error :=
  match hostKey with
  | Err e => inr (HostKeyFailed e)
  | Ok _ =>
      match reload Parse fingerprint f new_store with
      | (_, Failed) => inr AuthorizedKeysFailed
      | (a, _) =>
          let st := NewTrafficStore now (ServerTrafficFile cfg) loaded in
          let udp := negb (bool_decide (ServerUDPAddr cfg = "")) in
          let r := if udp then SetHeartbeat NewRegistry else NewRegistry in
          let hb := if udp
                    then Some (Beats (HbServer.Config (with_callbacks (HeartbeatKey cfg)) None) [] [] None) else None in
          let sm := if bool_decide (ServerMonitorAddr cfg = "") then None else Some (now, Asleep) in
          match listen_error with
          | Some e => inr (ListenFailed e)
          | None => inl (Server a ∅ (set_reg newSessionManager r) ∅ st hb sm)
          end
      end
  end.

(** ** Actions *)

Inductive act :=
| Dial (remote : string)                                          (* [ln.Accept] *)
| Offer (c : cid) (f : file) (k : K)                              (* the public-key callback *)
| Refuse (c : cid) (now : time) (took : duration) (e : hs_error)  (* the handshake fails *)
| Admit (c : cid) (now : time) (took : duration) (info : keyInfo) (* it succeeds: [Attempts().Record] *)
| Enter (c : cid) (now : time)                                    (* [reg.Add] *)
| Tunnel (a : action)
| PipeOpen (l : lid)
| PipeCount (now : time) (p : pid) (d : dir) (n : Z)
| PipeClose (p : pid)
| Save (now : time)
| Datagram (now : time) (from : string) (buf : bytes)
| Fill
| CallBack (l : list ptr)
| CheckBeats (now : time) (order : list string)
| CallLost (l : list ptr)
| Reply_
| Panel (a : saction)
| Measured (p : ptr) (res : Q * Q + string).                      (* the end of /api/speedtest *)

(** One datagram, up to the release of the mutex that ends [note] or interrupts it. *)
Definition take_datagram (now : time) (b : beats) (from : string) (buf : bytes) : option beats :=
  let s := HbServer.srv (hb_config b) in
  match HbServer.pending (hb_config b), hb_back b, hb_answer b with
  | None, [], None =>
      match accept (HbServer.key s) buf with
      | None => Some b
      | Some p =>
          let n := Packet.Name p in
          let ans := (fun rep => (from, rep)) <$> reply_to (HbServer.key s) p in
          match HbServer.m s !! n with
          | None => Some (Beats (HbServer.Config (note_insert s n) (Some (now, n, hostOf from))) (hb_lost b) [] ans)
          | Some _ =>
              let '(s', es) := note_fill now s n (hostOf from) in
              Some (Beats (HbServer.Config s' None) (hb_lost b) es ans)
          end
      end
  | _, _, _ => None
  end.

Definition fill_datagram (b : beats) : option beats :=
  match HbServer.pending (hb_config b) with
  | Some (now, n, ip) =>
      let '(s', es) := note_fill now (HbServer.srv (hb_config b)) n ip in
      Some (Beats (HbServer.Config s' None) (hb_lost b) es (hb_answer b))
  | None => None
  end.

Definition check_beats (now : time) (order : list string) (b : beats) : option beats :=
  let c := hb_config b in
  let t := HbServer.m (HbServer.srv c) in
  if bool_decide (hb_lost b = []) && bool_decide (NoDup order) && bool_decide (list_to_set order = dom t)
  then let '(s', es) := check now order (HbServer.srv c) in
       Some (Beats (HbServer.Config s' (HbServer.pending c)) es (hb_back b) (hb_answer b))
  else None.

(** The next state and what it outputs; [None] when the action is not possible. *)
Definition exec_ (s : server) (a : act) : option (server * list output) :=
  let w := tunnels s in
  let r := reg w in
  match a with
  | Dial remote => Some (set_conns s (<[fresh (dom (conns s)) := (remote, Shaking [])]> (conns s)), [])
  | Offer c f k =>
      match conns s !! c with
      | Some (remote, Shaking g) =>
          let '(a', res) := PublicKeyCallback Parse fingerprint f (auth s) k in
          let g' := match res with Ok info => g ++ [info] | Err _ => g end in
          Some (set_conns (set_auth s a') (<[c := (remote, Shaking g')]> (conns s)), [])
      | _ => None
      end
  | Refuse c now took e =>
      match conns s !! c with
      | Some (remote, Shaking _) =>
          let '(r', line) := handshake_failed now r remote took e in
          Some (set_conns (with_reg s r') (delete c (conns s)),
                match line with Some t => [Logged t] | None => [] end)
      | _ => None
      end
  | Admit c now took info =>
      match conns s !! c with
      | Some (remote, Shaking g) =>
          if bool_decide (info ∈ g) then
            let '(a', _) := Record_ (att r) (Call now (host_of remote) (KName info) took None false false) in
            Some (set_conns (with_reg s (set_att r a')) (<[c := (remote, Recorded info)]> (conns s)), [])
          else None
      | _ => None
      end
  | Enter c now =>
      match conns s !! c with
      | Some (remote, Recorded info) =>
          w' ← exec w (Sessions.Accept now remote (host_of remote) info);
          Some (set_conns (set_tunnels s w') (delete c (conns s)), [])
      | _ => None
      end
  | Tunnel a' => if is_accept a' then None else w' ← exec w a'; Some (set_tunnels s w', [])
  | PipeOpen l =>
      x ← lsts w !! l; ss ← sessions w !! l_owner x;
      let '(r', cl) := opened r (id ss) in
      Some (set_pipes (with_reg s r')
              (<[fresh (dom (pipes s)) := Piped (name ss) (l_req x) cl true 0 0]> (pipes s)), [])
  | PipeCount now p d n =>
      q ← pipes s !! p;
      if match d with Outgoing => p_live q | Incoming => true end then
        let '(r', st) := count offset now (p_name q) (p_port q) (p_client q) (r, Some (store s)) d n in
        let q' := match d with
                  | Incoming => Piped (p_name q) (p_port q) (p_client q) (p_live q) (p_in q + n) (p_out q)
                  | Outgoing => Piped (p_name q) (p_port q) (p_client q) (p_live q) (p_in q) (p_out q + n)
                  end in
        Some (set_pipes (set_store (with_reg s r') (default (store s) st)) (<[p := q']> (pipes s)), [])
      else None
  | PipeClose p =>
      q ← pipes s !! p;
      if p_live q then
        Some (set_pipes (with_reg s (closed r (p_client q)))
                (<[p := Piped (p_name q) (p_port q) (p_client q) false (p_in q) (p_out q)]> (pipes s)), [])
      else None
  | Save now =>
      let '(t', wr) := saver_tick now (store s) in
      Some (set_store s t', match wr with Some x => [Wrote x] | None => [] end)
  | Datagram now from buf => b ← hbs s; b' ← take_datagram now b from buf; Some (set_hbs s b', [])
  | Fill => b ← hbs s; b' ← fill_datagram b; Some (set_hbs s b', [])
  | CheckBeats now order => b ← hbs s; b' ← check_beats now order b; Some (set_hbs s b', [])
  | CallBack l =>
      b ← hbs s;
      match hb_back b with
      | e :: es =>
          if listed r l then
            Some (set_hbs s (Beats (hb_config b) (hb_lost b) es (hb_answer b)),
                  [Logged (beat_line e (Connected r l (ev_name e)))])
          else None
      | [] => None
      end
  | CallLost l =>
      b ← hbs s;
      match hb_lost b with
      | e :: es =>
          if listed r l then
            Some (set_hbs s (Beats (hb_config b) es (hb_back b) (hb_answer b)),
                  [Logged (beat_line e (Connected r l (ev_name e)))])
          else None
      | [] => None
      end
  | Reply_ =>
      b ← hbs s;
      match HbServer.pending (hb_config b), hb_back b, hb_answer b with
      | None, [], Some (to, rep) =>
          Some (set_hbs s (Beats (hb_config b) (hb_lost b) [] None), [Sent to rep])
      | _, _, _ => None
      end
  | Panel a' =>
      p ← panel s; x ← sample_step p.1 a' p.2 r (store s);
      let '(sm, r', t') := x in
      Some (set_panel (set_store (with_reg s r') t') (p.1, sm), [])
  | Measured p res =>
      if bool_decide (panel s = None) || bool_decide (heap r !! p = None) then None
      else Some (with_reg s (fst (speedtest_done r p res)), [])
  end.

Definition step_ (s : server) (a : act) : option server := fst <$> exec_ s a.

Fixpoint run_ (s : server) (l : list act) : option server :=
  match l with
  | [] => Some s
  | a :: l' => s' ← step_ s a; run_ s' l'
  end.
End server.

(** ** The session machine inside the server

    The other goroutines change only the counters and statistics of the clients
    and the record of attempts: without them the registry is the one the session
    machine has. *)

Definition bare (c : Registry.Client) : Registry.Client :=
  set_ports (new_client (Name c) (CIP c) (Since c)) (ports c).
Definition bare_reg (r : Registry) : Registry := MkRegistry (bare <$> heap r) (m r) (lastIP r) NewAttempts false.
Definition bare_world (w : world) : world := set_reg w (bare_reg (reg w)).

Lemma bare_add r i name ip now :
  bare_reg (Registry.Add r i (new_client name ip now)) = Registry.Add (bare_reg r) i (new_client name ip now).
Proof.
  unfold bare_reg, Registry.Add. cbn [heap m lastIP att hb]. rewrite dom_fmap_L, fmap_insert. done.
Qed.

Lemma bare_update r p f g :
  (forall c, bare (f c) = g (bare c)) -> bare_reg (update r p f) = update (bare_reg r) p g.
Proof.
  intros Hf. unfold bare_reg, update, set_heap. cbn [heap m lastIP att hb]. f_equal. apply map_eq. intros q.
  rewrite lookup_fmap. destruct (decide (q = p)) as [-> |].
  - rewrite !lookup_alter_eq, lookup_fmap. destruct (heap r !! p); [cbn; by rewrite Hf | done].
  - by rewrite !lookup_alter_ne, lookup_fmap by done.
Qed.

Lemma bare_update_id r p f : (forall c, bare (f c) = bare c) -> bare_reg (update r p f) = bare_reg r.
Proof.
  intros Hf. rewrite (bare_update r p f (fun c => c)) by done. unfold update, set_heap. cbn. unfold bare_reg. cbn. f_equal.
  apply map_eq. intros q. destruct (decide (q = p)) as [-> |]; [rewrite lookup_alter_eq | by rewrite lookup_alter_ne].
  by destruct ((bare <$> heap r) !! p).
Qed.

Lemma bare_add_port r i p : bare_reg (AddPort r i p) = AddPort (bare_reg r) i p.
Proof. unfold AddPort. cbn [bare_reg m]. destruct (m r !! i); [by apply bare_update | done]. Qed.

Lemma exec_bare w a : exec (bare_world w) a = bare_world <$> exec w a.
Proof.
  destruct a as [now i ip info | s | s | s | s | s pl bd | s pl | s e | s | s | s | s | s]; cbn [exec].
  1: { cbn. unfold bare_world, set_reg. cbn [sessions byName_ lsts reg]. by rewrite <-bare_add. }
  all: change (sessions (bare_world w)) with (sessions w);
    destruct (sessions w !! s) as [ss |]; [cbn [mbind option_bind] | done].
  - case_bool_decide; [| done]. cbn. unfold register_swap. by repeat case_bool_decide.
  - by destruct (ph ss).
  - destruct (ph ss); try done. destruct (sessions w !! old) as [so |]; [cbn [mbind option_bind] | done]. by destruct (is_done so).
  - by destruct (ph ss).
  - change (listen_ok (bare_world w)) with (listen_ok w). destruct (_ && _); [| done]. cbn. unfold startForward.
    destruct pl as [p |]; [| done]. case_bool_decide; [| done]. destruct bd as [q |]; [| done]. cbn.
    unfold bare_world, set_reg. cbn. by rewrite bare_add_port.
  - case_bool_decide; [| done]. cbn. unfold cancelForward. cbn. by destruct (fwds ss !! _).
  - destruct (_ || _); [| done]. cbn. unfold keepalive. by destruct (probe e).
  - done.
  - destruct (_ && _); [| done]. done.
  - by case_bool_decide.
  - case_bool_decide; [| done]. cbn. unfold unregister. by destruct (_ && _).
  - by case_bool_decide.
Qed.

Lemma world_run_snoc w l a : run w (l ++ [a]) = (w' ← run w l; exec w' a).
Proof.
  revert w. induction l as [| b l IH]; intros w; cbn; [by destruct (exec w a) |].
  destruct (exec w b); [apply IH | done].
Qed.

Lemma reachable_exec w a w' : reachable w -> exec w a = Some w' -> reachable w'.
Proof. intros [l Hl] E. exists (l ++ [a]). rewrite world_run_snoc, Hl. exact E. Qed.

Lemma reachable_bare w a w' :
  reachable (bare_world w) -> exec w a = Some w' -> reachable (bare_world w').
Proof. intros Hr E. eapply reachable_exec; [done |]. by rewrite exec_bare, E. Qed.

(** Changing the registry's counters only. *)
Lemma bare_with_reg s r : bare_reg r = bare_reg (reg (tunnels s)) -> bare_world (tunnels (with_reg s r)) = bare_world (tunnels s).
Proof. intros E. unfold bare_world, with_reg, set_reg. cbn. by rewrite E. Qed.

Lemma bare_handshake now r remote took e r' line :
  handshake_failed now r remote took e = (r', line) -> bare_reg r' = bare_reg r.
Proof. unfold handshake_failed. destruct (Record_ _ _) as [a [li n]]. by intros [= <- _]. Qed.

Lemma bare_opened r i r' cl : opened r i = (r', cl) -> bare_reg r' = bare_reg r.
Proof. unfold opened. destruct (Get r i); intros [= <- _]; [by apply bare_update_id | done]. Qed.

Lemma bare_closed r cl : bare_reg (closed r cl) = bare_reg r.
Proof. destruct cl; [by apply bare_update_id | done]. Qed.

Lemma bare_count offset now n p cl r st d k r' st' :
  count offset now n p cl (r, st) d k = (r', st') -> bare_reg r' = bare_reg r.
Proof. unfold count. intros [= <- _]. destruct cl; [| done]. apply bare_update_id. by destruct d. Qed.

Lemma bare_speedtest r p res : bare_reg (fst (speedtest_done r p res)) = bare_reg r.
Proof. destruct res as [[d u] |]; [by apply bare_update_id | done]. Qed.

Lemma bare_sample t0 a sm r t sm' r' t' :
  sample_step t0 a sm r t = Some (sm', r', t') -> bare_reg r' = bare_reg r.
Proof.
  unfold sample_step. intros H.
  destruct a, sm as [| [| p0 l0] | p0 ps l0 | [| p0 l0] c0 | [| n0 l0] c0 g0]; try done;
    repeat (case_match; try done); simplify_option_eq; try done. by apply bare_update_id.
Qed.

(** A step that changes only counters and statistics of the registry. *)
Ltac same_bare :=
  apply bare_with_reg;
  first [ eapply bare_handshake; eassumption | eapply bare_opened; eassumption | eapply bare_count; eassumption
        | apply bare_closed | eapply bare_sample; eassumption | apply bare_speedtest | done ].

(** ** Projections *)

(** The cases of an action that is possible. *)
Ltac inv_cases H :=
  repeat match type of H with
  | (_ ≫= _) = Some _ => apply bind_Some in H as (? & ? & H)
  | (match ?x with _ => _ end) = Some _ => destruct x eqn:?; try discriminate H
  end; simplify_eq.

Ltac inv_step H :=
  match type of H with ?f ?a = Some _ => destruct a; unfold exec_ in H; cbn zeta in H; inv_cases H end.

Section projections.
Context {K : Type} (Parse : string -> option (@authorized_key K)) (fingerprint : K -> string).
Context (offset : time -> Z).

Abbreviation sstart := (start Parse fingerprint).
Abbreviation sexec := (exec_ Parse fingerprint offset).
Abbreviation sstep := (step_ Parse fingerprint offset).
Abbreviation srun := (run_ Parse fingerprint offset).
Abbreviation sact := (@act K).

Lemma step_tunnels s a s' out :
  sexec s a = Some (s', out) ->
  bare_world (tunnels s') = bare_world (tunnels s) \/ exists a', exec (tunnels s) a' = Some (tunnels s').
Proof.
  intros H. inv_step H; try (left; done); try (right; cbn; eauto; done); left; same_bare.
Qed.

(** When an action happens. *)
Definition panel_time (a : saction) : option time :=
  match a with TouchOne now | RecordOne now => Some now | _ => None end.
Definition act_time (a : sact) : option time :=
  match a with PipeCount now _ _ _ | Save now => Some now | Panel a' => panel_time a' | _ => None end.

Lemma sample_store t0 a sm r t sm' r' t' :
  sample_step t0 a sm r t = Some (sm', r', t') ->
  t' = t \/ exists now o, panel_time a = Some now /\ t' = apply_op offset t (now, o).
Proof.
  unfold sample_step. intros H.
  destruct a, sm as [| [| p0 l0] | p0 ps l0 | [| p0 l0] c0 | [| n0 l0] c0 g0]; try done;
    repeat (case_match; try done); simplify_option_eq; try (by left).
  1: right; by eexists _, (OTouch _).
  all: right; by eexists _, (ORecordState _ _).
Qed.

Lemma step_store s a s' out :
  sexec s a = Some (s', out) ->
  store s' = store s \/ exists now o, act_time a = Some now /\ store s' = apply_op offset (store s) (now, o).
Proof.
  intros H. inv_step H; try (left; done).
  - right. unfold count in *. destruct d; simplify_eq/=; by eexists _, (OAdd _ _ _ _).
  - right. exists now, OSave. unfold apply_op. cbn. by match goal with H : saver_tick _ _ = _ |- _ => rewrite H end.
  - cbn. eapply sample_store; eassumption.
Qed.

Definition beats_to (b b' : beats) : Prop :=
  hb_config b' = hb_config b \/ exists es, HbServer.step (hb_config b) es (hb_config b').

Lemma take_datagram_step now b from buf b' : take_datagram now b from buf = Some b' -> beats_to b b'.
Proof.
  unfold take_datagram, beats_to. destruct b as [[s [|]] ls [|] [|]]; cbn; try done.
  destruct (accept _ _) as [p |]; [| intros [= <-]; by left].
  destruct (HbServer.m s !! Packet.Name p) as [v |] eqn:E.
  - destruct (note_fill _ _ _ _) as [s' es] eqn:F. intros [= <-]. right. exists es. cbn. eapply step_known; [eauto | done].
  - intros [= <-]. right. exists []. by apply step_first.
Qed.

Lemma fill_datagram_step b b' : fill_datagram b = Some b' -> beats_to b b'.
Proof.
  unfold fill_datagram, beats_to. destruct b as [[s [[[now n] i] |]] ls bk ans]; cbn; [| done].
  destruct (note_fill _ _ _ _) as [s' es] eqn:F. intros [= <-]. right. exists es. by apply step_fill.
Qed.

Lemma check_beats_step now order b b' : check_beats now order b = Some b' -> beats_to b b'.
Proof.
  unfold check_beats, beats_to. destruct b as [[s pe] ls bk ans]; cbn.
  destruct (_ && _) eqn:G; [| done]. destruct (check _ _ _) as [s' es] eqn:F. intros [= <-]. breflect.
  right. exists es. apply (step_check now order); [| done]. split; [done |]. intros n. rewrite <-elem_of_dom.
  match goal with H : list_to_set order = _ |- _ => rewrite <-H end. by rewrite elem_of_list_to_set.
Qed.

Lemma step_beats s a s' out :
  sexec s a = Some (s', out) ->
  hbs s' = hbs s \/ exists b b', hbs s = Some b /\ hbs s' = Some b' /\ beats_to b b'.
Proof.
  intros H. inv_step H; try (left; done); right; do 2 eexists; (split; [eassumption |]); (split; [reflexivity |]);
    try (by left); eauto using take_datagram_step, fill_datagram_step, check_beats_step.
Qed.

Lemma steps_snoc c es c' es' c'' : HbServer.steps c es c' -> HbServer.step c' es' c'' -> HbServer.steps c (es ++ es') c''.
Proof.
  induction 1 as [| c0 e0 c1 e1 c2 H0 _ IH]; intros H.
  - cbn. rewrite <-(app_nil_r es'). eapply steps_cons; [exact H | constructor].
  - rewrite <-app_assoc. eapply steps_cons; [exact H0 | by apply IH].
Qed.

(** *** Runs *)

Lemma srun_snoc s l a : srun s (l ++ [a]) = (s' ← srun s l; sstep s' a).
Proof.
  revert s. induction l as [| b l IH]; intros s; cbn; [by destruct (sstep s a) |].
  destruct (sstep s b); [apply IH | done].
Qed.

(** What holds at the start and is preserved by every step holds of every run; the
    actions taken so far can be mentioned. *)
Lemma srun_ind (P : list sact -> server -> Prop) s0 l s :
  P [] s0 ->
  (forall l s a s' out, P l s -> sexec s a = Some (s', out) -> P (l ++ [a]) s') ->
  srun s0 l = Some s -> P l s.
Proof.
  intros H0 Hs. revert s. induction l as [| a l IH] using rev_ind; intros s H; [by injection H as <- |].
  rewrite srun_snoc in H. apply bind_Some in H as (s1 & H1 & H). unfold sstep in H.
  apply fmap_Some in H as ([s2 out] & H & ->). by eapply Hs; [apply IH |].
Qed.

Lemma sstart_inv {S : Type} now cfg (hk : result S) f loaded le s :
  sstart now cfg hk f loaded le = inl s ->
  exists a v, reload Parse fingerprint f new_store = (a, v) /\ v <> Failed
    /\ auth s = a /\ conns s = ∅ /\ pipes s = ∅
    /\ (exists b, tunnels s = set_reg newSessionManager (MkRegistry ∅ ∅ ∅ NewAttempts b))
    /\ store s = NewTrafficStore now (ServerTrafficFile cfg) loaded
    /\ hbs s = (if bool_decide (ServerUDPAddr cfg = "") then None
                else Some (Beats (HbServer.Config (with_callbacks (HeartbeatKey cfg)) None) [] [] None))
    /\ (panel s = None \/ panel s = Some (now, Asleep)).
Proof.
  unfold start. destruct hk as [hk | e]; [| done]. destruct (reload Parse fingerprint f new_store) as [a v] eqn:E.
  intros H. exists a, v. split; [done |].
  destruct v; [| | done]; destruct le; try done; injection H as <-; cbn; (split; [done |]);
    do 3 (split; [done |]); (split; [by case_bool_decide; eexists |]); (split; [done |]);
    (split; [by case_bool_decide |]); case_bool_decide; auto.
Qed.

Lemma reachable_start b : reachable (bare_world (set_reg newSessionManager (MkRegistry ∅ ∅ ∅ NewAttempts b))).
Proof. exists []. cbn. unfold bare_world, set_reg, bare_reg. cbn. by rewrite fmap_empty. Qed.

Lemma srun_reachable s0 l s : reachable (bare_world (tunnels s0)) -> srun s0 l = Some s -> reachable (bare_world (tunnels s)).
Proof.
  intros H0. apply (srun_ind (fun _ s => reachable (bare_world (tunnels s)))); [done |].
  intros _ s1 a s2 out H1 E. destruct (step_tunnels _ _ _ _ E) as [-> | [a' Ha]]; [done |]. by eapply reachable_bare.
Qed.

Lemma srun_store s0 l s :
  srun s0 l = Some s -> exists h, store s = Traffic.run offset (store s0) h /\ h.*1 `sublist_of` omap act_time l.
Proof.
  apply (srun_ind (fun l s => exists h, store s = Traffic.run offset (store s0) h /\ h.*1 `sublist_of` omap act_time l)).
  { by exists []. }
  clear. intros l s a s' out (h & Hh & Hsub) E. rewrite omap_app.
  destruct (step_store _ _ _ _ E) as [-> | (now & o & Ht & ->)].
  - exists h. split; [done |]. by apply sublist_inserts_r.
  - exists (h ++ [(now, o)]). unfold Traffic.run. rewrite foldl_snoc, Hh. split; [done |].
    rewrite fmap_app. cbn. rewrite Ht. by apply sublist_app.
Qed.

Lemma srun_beats s0 l s c0 :
  (forall b, hbs s0 = Some b -> hb_config b = c0) -> srun s0 l = Some s ->
  (hbs s = None <-> hbs s0 = None)
  /\ forall b, hbs s = Some b -> exists es, HbServer.steps c0 es (hb_config b).
Proof.
  intros H0. apply (srun_ind (fun _ s => (hbs s = None <-> hbs s0 = None)
    /\ forall b, hbs s = Some b -> exists es, HbServer.steps c0 es (hb_config b))).
  { split; [done |]. intros b Hb. rewrite (H0 b Hb). exists []. constructor. }
  intros _ s1 a s2 out [Hn H1] E. destruct (step_beats _ _ _ _ E) as [-> | (b & b' & Hb & Hb' & Ht)]; [done |].
  rewrite Hb, Hb' in *. split; [by rewrite <-Hn |]. intros b2 [= <-]. destruct (H1 b eq_refl) as [es Hes].
  destruct Ht as [-> | [es' Hs]]; [eauto |]. exists (es ++ es'). by eapply steps_snoc.
Qed.

(** ** What authorized_keys permits *)

(** The versions of authorized_keys read, [f0] first. *)
Definition files (f0 : file) (l : list sact) : list file :=
  f0 :: omap (fun a => match a with Offer _ f _ => Some f | _ => None end) l.

(** A line [a] of one of the versions [fs] of the file. *)
Definition line_of (fs : list file) (a : @authorized_key K) : Prop :=
  exists f data ls, f ∈ fs /\ f_data f = Some data /\ lines_of Parse data ls /\ a ∈ ls.

(** Some connection offered the key of the line [a]. *)
Definition offered (f0 : file) (l : list sact) (a : @authorized_key K) : Prop :=
  line_of (files f0 l) a /\ exists c f k, Offer c f k ∈ l /\ fingerprint k = fingerprint (k_key a).

Lemma line_of_mono fs fs' a : fs ⊆ fs' -> line_of fs a -> line_of fs' a.
Proof. intros Hs (f & d & ls & Hf & H). exists f, d, ls. split; [by apply Hs | done]. Qed.

Lemma files_snoc f0 l a : files f0 l ⊆ files f0 (l ++ [a]).
Proof. unfold files. rewrite omap_app. set_solver. Qed.

Lemma offered_snoc f0 l b a : offered f0 l a -> offered f0 (l ++ [b]) a.
Proof.
  intros [H (c & f & k & Hin & Hf)]. split; [by eapply line_of_mono, H; apply files_snoc |].
  exists c, f, k. set_solver.
Qed.

Definition store_ok (fs : list file) (au : authStore) : Prop :=
  forall m fp info, a_keys au = Some m -> m !! fp = Some info ->
    exists a, line_of fs a /\ fingerprint (k_key a) = fp /\ info = info_of a.

Lemma reload_ok fs f au : f ∈ fs -> store_ok fs au -> store_ok fs (fst (reload Parse fingerprint f au)).
Proof.
  intros Hf H. unfold reload. destruct (f_mtime f); [| done]. destruct (_ && _); [done |].
  unfold loadAuthorized. destruct (f_data f) as [data |] eqn:Ed; [| done].
  destruct (load Parse fingerprint data) as [m |] eqn:El; [| done]. intros m' fp info [= <-] Hm.
  destruct (load_sound _ _ _ _ _ _ El Hm) as (ls & a & Hl & Ha & H1 & H2). exists a. split; [by exists f, data, ls | done].
Qed.

(** What the permissions in the server's state derive from. *)
Record sec_inv (f0 : file) (l : list sact) (s : server) : Prop := {
  sec_auth : store_ok (files f0 l) (auth s);
  sec_shaking c remote g info : conns s !! c = Some (remote, Shaking g) -> info ∈ g ->
    exists a, offered f0 l a /\ info = info_of a;
  sec_recorded c remote info : conns s !! c = Some (remote, Recorded info) ->
    exists a, offered f0 l a /\ info = info_of a;
  sec_session i ss : sessions (tunnels s) !! i = Some ss ->
    exists a, offered f0 l a /\ name ss = k_comment a /\ allowed ss = allowed_ports (info_of a);
  sec_ports p c port : heap (reg (tunnels s)) !! p = Some c -> port ∈ ports c ->
    exists a, offered f0 l a /\ port ∈ allowed_ports (info_of a);
}.

Lemma sec_snoc f0 l s b : sec_inv f0 l s -> sec_inv f0 (l ++ [b]) s.
Proof.
  intros [H1 H2 H3 H4 H5]. split.
  - intros m fp info Hm Hi. destruct (H1 m fp info Hm Hi) as (a & Ha & H). exists a. split; [| done].
    eapply line_of_mono, Ha. apply files_snoc.
  - intros c r g info Hc Hi. destruct (H2 c r g info Hc Hi) as (a & Ha & H). eauto using offered_snoc.
  - intros c r info Hc. destruct (H3 c r info Hc) as (a & Ha & H). eauto using offered_snoc.
  - intros i ss Hs. destruct (H4 i ss Hs) as (a & Ha & H). eauto using offered_snoc.
  - intros p c port Hc Hp. destruct (H5 p c port Hc Hp) as (a & Ha & H). eauto using offered_snoc.
Qed.

(** Changing only counters and statistics of the registry, and what is not the
    connections, the keys or the tunnels. *)
Lemma bare_ports r r' p c :
  bare_reg r' = bare_reg r -> heap r' !! p = Some c -> exists c0, heap r !! p = Some c0 /\ ports c0 = ports c.
Proof.
  intros E Hc. assert (bare <$> heap r' !! p = bare <$> heap r !! p) as Eb
    by (rewrite <-!lookup_fmap; exact (f_equal (fun r => heap r !! p) E)).
  rewrite Hc in Eb. cbn in Eb. destruct (heap r !! p) as [c0 |]; [| done]. exists c0. split; [done |].
  cbn in Eb. injection Eb as _ _ _ Ep. done.
Qed.

Lemma sec_same f0 l s s' :
  auth s' = auth s -> conns s' = conns s -> bare_world (tunnels s') = bare_world (tunnels s) ->
  sec_inv f0 l s -> sec_inv f0 l s'.
Proof.
  intros Ea Ec Et [H1 H2 H3 H4 H5].
  assert (sessions (tunnels s') = sessions (tunnels s)) as Es by exact (f_equal sessions Et).
  assert (bare_reg (reg (tunnels s')) = bare_reg (reg (tunnels s))) as Er by exact (f_equal reg Et).
  split; rewrite ?Ea, ?Ec, ?Es; try done.
  intros p c port Hc Hp. destruct (bare_ports _ _ _ _ Er Hc) as (c0 & Hc0 & E). rewrite <-E in Hp. by eapply H5.
Qed.

Lemma sec_offer f0 l s c f k remote g au res :
  let l' := l ++ [Offer c f k] in
  PublicKeyCallback Parse fingerprint f (auth s) k = (au, res) -> conns s !! c = Some (remote, Shaking g) ->
  sec_inv f0 l s ->
  sec_inv f0 l' (set_conns (set_auth s au)
    (<[c := (remote, Shaking match res with Ok info => g ++ [info] | Err _ => g end)]> (conns s))).
Proof.
  intros l' Hcb Hc Hi. pose proof (sec_snoc _ _ _ (Offer c f k) Hi) as [H1 H2 H3 H4 H5]. fold l' in H1, H2, H3, H4, H5.
  assert (f ∈ files f0 l') as Hf by (unfold files, l'; rewrite omap_app; set_solver).
  unfold PublicKeyCallback, lookup_ in Hcb. set (a1 := fst (reload _ _ _ _)) in Hcb. injection Hcb as <- Hres.
  pose proof (reload_ok _ f _ Hf H1) as Ha1. fold a1 in Ha1. split; try done.
  - intros c' r' g' info Hc' Hin. cbn in Hc'. apply lookup_insert_Some in Hc' as [[<- E] | [_ Hc']]; [| by eapply H2].
    injection E as <- <-. destruct (a_keys a1) as [mk |] eqn:Em; cbn in Hres; [destruct (mk !! fingerprint k) as [i |] eqn:Ei |];
      subst res; try (by eapply H2).
    apply elem_of_app in Hin as [Hin | ->%list_elem_of_singleton]; [by eapply H2 |].
    destruct (Ha1 mk _ i Em Ei) as (a & Ha & Hfp & ->). exists a. split; [| done]. split; [done |].
    exists c, f, k. split; [unfold l'; set_solver | done].
  - intros c' r' info Hc'. cbn in Hc'. apply lookup_insert_Some in Hc' as [[_ E] | [_ Hc']]; [done | by eapply H3].
Qed.

Lemma sec_tunnel f0 l s w' a :
  is_accept a = false -> exec (tunnels s) a = Some w' -> sec_inv f0 l s -> sec_inv f0 l (set_tunnels s w').
Proof.
  intros Ha He [H1 H2 H3 H4 H5]. split; try done; cbn [tunnels set_tunnels].
  - intros i ss' Hs. destruct (exec_origin _ _ _ _ _ Ha He Hs) as (ss & Hss & -> & ->). by eapply H4.
  - intros p c port Hc Hp. destruct (exec_ports _ _ _ _ _ _ He Hc Hp) as [(c0 & Hc0 & Hp0) | (i & ss & Hs & Hp0)]; [by eapply H5 |].
    destruct (H4 i ss Hs) as (x & Hx & _ & E). exists x. by rewrite <-E.
Qed.

Lemma sec_enter f0 l s c remote info now w' :
  conns s !! c = Some (remote, Recorded info) ->
  exec (tunnels s) (Sessions.Accept now remote (host_of remote) info) = Some w' ->
  sec_inv f0 l s -> sec_inv f0 l (set_conns (set_tunnels s w') (delete c (conns s))).
Proof.
  intros Hc He [H1 H2 H3 H4 H5]. split; cbn [tunnels conns set_conns set_tunnels auth]; [done | | | |].
  - intros c' r' g info' [_ Hc']%lookup_delete_Some. by eapply H2.
  - intros c' r' info' [_ Hc']%lookup_delete_Some. by eapply H3.
  - intros i ss Hs. cbn in He. injection He as <-. cbn in Hs.
    apply lookup_insert_Some in Hs as [[_ <-] | [_ Hs]]; [| by eapply H4].
    destruct (H3 c remote info Hc) as (a & Ha & ->). exists a. done.
  - intros p cl port Hcl Hp. destruct (exec_ports _ _ _ _ _ _ He Hcl Hp) as [(c0 & Hc0 & Hp0) | (i & ss & Hs & Hp0)]; [by eapply H5 |].
    destruct (H4 i ss Hs) as (x & Hx & _ & E). exists x. by rewrite <-E.
Qed.

Lemma sec_put_conn f0 l s c v :
  sec_inv f0 l s ->
  (forall remote g info, v = (remote, Shaking g) -> info ∈ g -> exists a, offered f0 l a /\ info = info_of a) ->
  (forall remote info, v = (remote, Recorded info) -> exists a, offered f0 l a /\ info = info_of a) ->
  sec_inv f0 l (set_conns s (<[c := v]> (conns s))).
Proof.
  intros [H1 H2 H3 H4 H5] Hv1 Hv2. split; try done; cbn.
  - intros c' r g info [[_ ->] | [_ Hc]]%lookup_insert_Some Hi; [by eapply Hv1 | by eapply H2].
  - intros c' r info [[_ ->] | [_ Hc]]%lookup_insert_Some; [by eapply Hv2 | by eapply H3].
Qed.

Lemma sec_delete_conn f0 l s c : sec_inv f0 l s -> sec_inv f0 l (set_conns s (delete c (conns s))).
Proof.
  intros [H1 H2 H3 H4 H5]. split; try done; cbn.
  - intros c' r g info [_ Hc]%lookup_delete_Some. by eapply H2.
  - intros c' r info [_ Hc]%lookup_delete_Some. by eapply H3.
Qed.

Lemma sec_step f0 l s a s' out : sec_inv f0 l s -> sexec s a = Some (s', out) -> sec_inv f0 (l ++ [a]) s'.
Proof.
  intros Hi H. pose proof (sec_snoc _ _ _ a Hi) as Hl.
  inv_step H; try (eapply sec_same, Hl; [done | done | first [done | same_bare]]).
  - apply sec_put_conn; [done | |]; intros; simplify_eq. by apply elem_of_nil in H0.
  - by eapply sec_offer.
  - apply (sec_delete_conn _ _ (with_reg s r)). eapply sec_same, Hl; [done | done | same_bare].
  - apply (sec_put_conn _ _ (with_reg s (set_att (reg (tunnels s)) a))); [eapply sec_same, Hl; [done | done | same_bare] | done |].
    intros r' i [= <- <-]. breflect. by eapply sec_shaking.
  - by eapply sec_enter.
  - by eapply sec_tunnel.
Qed.
End projections.

(** ** Properties *)

Section served.
Context {K S : Type} (Parse : string -> option (@authorized_key K)) (fingerprint : K -> string).
Context (offset : time -> Z).
Context (now : time) (cfg : Config.Config) (hk : result S) (f0 : file) (loaded : gmap string ct) (le : option string).

(** [s] is a state of the server after the actions [l]. *)
Definition served (l : list (@act K)) (s : server) : Prop :=
  exists s0, start Parse fingerprint now cfg hk f0 loaded le = inl s0
    /\ run_ Parse fingerprint offset s0 l = Some s.

Lemma served_reachable l s : served l s -> reachable (bare_world (tunnels s)).
Proof.
  intros (s0 & H0 & H). eapply srun_reachable, H. apply sstart_inv in H0 as (a & v & _ & _ & _ & _ & _ & (b & ->) & _).
  apply reachable_start.
Qed.

Lemma served_sec l s : served l s -> sec_inv Parse fingerprint f0 l s.
Proof.
  intros (s0 & H0 & H). revert H. apply (srun_ind _ _ _ (sec_inv Parse fingerprint f0)).
  - apply sstart_inv in H0 as (a & v & Hr & _ & Ha & Hc & _ & (b & Ht) & _).
    split; rewrite ?Ha, ?Hc, ?Ht; cbn; try (intros *; by rewrite lookup_empty).
    change a with (fst (a, v)). rewrite <-Hr. apply reload_ok; [set_solver | done].
  - intros. by eapply sec_step.
Qed.
End served.

(** Every part of the server behaves as it does alone. After any
    actions of the whole server, the tunnels, less the counters and statistics the
    other parts keep in the clients, are in a state the session machine reaches on
    its own; the traffic store is the result of a history of its own operations,
    at times of the actions, in their order; and the heartbeat server, present exactly
    when it is configured, is where steps of its own machine lead. So what is
    proved of each part holds in the whole. *)
Theorem server_refines {K S : Type} (Parse : string -> option (@authorized_key K)) (fingerprint : K -> string)
    (offset : time -> Z) (now : time) (cfg : Config.Config)
    (hk : result S) (f0 : file) (loaded : gmap string ct) (le : option string) (l : list act) (s : server)
    (Hs : served Parse fingerprint offset now cfg hk f0 loaded le l s) :
  Sessions.reachable (bare_world (tunnels s))
  /\ (exists h, store s = Traffic.run offset (NewTrafficStore now (ServerTrafficFile cfg) loaded) h
        /\ h.*1 `sublist_of` omap act_time l)
  /\ (hbs s = None <-> ServerUDPAddr cfg = "")
  /\ (forall b, hbs s = Some b ->
        exists es, HbServer.steps (HbServer.Config (with_callbacks (HeartbeatKey cfg)) None) es (hb_config b)).
Proof.
  split; [by eapply served_reachable |]. destruct Hs as (s0 & H0 & H).
  apply sstart_inv in H0 as (a & v & _ & _ & _ & _ & _ & _ & Hst & Hhb & _). split.
  { rewrite <-Hst. by eapply srun_store. }
  edestruct (srun_beats Parse fingerprint offset s0 l s) as [Hn Hb]; [| exact H |].
  { intros b. rewrite Hhb. case_bool_decide; [done | by intros [= <-]]. }
  split; [| exact Hb]. rewrite Hn, Hhb. case_bool_decide; naive_solver.
Qed.

(** C1: no port without a line of authorized_keys. In every state of the server an
    open listener is on the port a session asked for (or, for 0, any free one),
    and that port is a number of a permitlisten option of a line that was in
    authorized_keys when the server read it; some connection offered the key of
    that very line, and the session bears its comment as name. *)
Theorem listeners_authorized {K S : Type} (Parse : string -> option (@authorized_key K)) (fingerprint : K -> string)
    (offset : time -> Z) (now : time) (cfg : Config.Config)
    (hk : result S) (f0 : file) (loaded : gmap string ct) (le : option string) (l : list act) (s : server)
    (i : lid) (x : listener)
    (Hs : served Parse fingerprint offset now cfg hk f0 loaded le l s)
    (Hx : lsts (tunnels s) !! i = Some x) (Ho : l_open x = true) :
  exists a ss o n, line_of Parse (files f0 l) a
    /\ (exists c f k, Offer c f k ∈ l /\ fingerprint k = fingerprint (k_key a))
    /\ sessions (tunnels s) !! l_owner x = Some ss /\ name ss = k_comment a
    /\ o ∈ k_options a /\ permit_number o = Some n /\ l_req x = u32 n
    /\ (l_req x = 0 \/ l_port x = l_req x).
Proof.
  destruct (open_held _ i x (reachable_inv _ (served_reachable _ _ _ _ _ _ _ _ _ _ _ Hs)) Hx Ho) as (ss & Hss & Hin & Hp).
  destruct (sec_session _ _ _ _ _ (served_sec _ _ _ _ _ _ _ _ _ _ _ Hs) _ _ Hss) as (a & [Hl Hof] & Hn & Ha).
  rewrite Ha in Hin. apply elem_allowed_ports in Hin as (o & n & H1 & H2 & H3).
  exists a, ss, o, n. do 7 (split; [done |]). naive_solver.
Qed.

(** C17: the panel reaches only permitted ports. In every state of the server, the
    address /api/probe probes and the one the root handler forwards a request to
    are on the loopback address, at a port that a line of authorized_keys permits
    and whose key some connection offered; so are the ports the sampler asks for
    metrics. *)
Theorem panel_authorized {K S : Type} (Parse : string -> option (@authorized_key K)) (fingerprint : K -> string)
    (offset : time -> Z) (now : time) (cfg : Config.Config)
    (hk : result S) (f0 : file) (loaded : gmap string ct) (le : option string) (l : list act) (s : server)
    (Hs : served Parse fingerprint offset now cfg hk f0 loaded le l s) :
  let permitted port := exists a, offered Parse fingerprint f0 l a /\ port ∈ allowed_ports (info_of a) in
  (forall get t ptrs g ms client port g' ms' addr url,
     api_probe get t (reg (tunnels s)) ptrs g ms client port = (g', ms', Answer (addr, url)) ->
     exists n, addr = "127.0.0.1:" +:+ itoa n /\ permitted n)
  /\ (forall lower lc ptrs host target,
     root lower lc (clients (reg (tunnels s)) ptrs) host = Proxy target ->
     exists n, target = "127.0.0.1:" +:+ itoa n /\ permitted n)
  /\ (forall t0 a sm' r' t' p ps todo,
     sample_step t0 a (Scraping (p :: todo)) (reg (tunnels s)) (store s) = Some (sm', r', t') ->
     sm' = Reading p ps todo -> Forall permitted ps).
Proof.
  intros permitted. pose proof (sec_ports _ _ _ _ _ (served_sec _ _ _ _ _ _ _ _ _ _ _ Hs)) as Hp.
  split; [| split].
  - intros get t ptrs g ms client port g' ms' addr url H. unfold api_probe in H.
    destruct (byName _ _ _) as [p |]; [cbn in H | done]. destruct (heap _ !! p) as [c |] eqn:Ec; [| done].
    destruct (atoi port) as [n |]; [| done]. case_bool_decide as Hin; [cbn in H | done].
    destruct (Probe.allow _ _ _) as [g1 []]; [cbn in H | done]. destruct (get ms client n). injection H as _ _ <- _.
    exists n. split; [done |]. by eapply Hp.
  - intros lower lc ptrs host target. unfold root. destruct (_ && _); [| done].
    destruct (find_host _ _ _ _) as [c |] eqn:Ef; [| done]. apply find_host_in in Ef.
    destruct (Z.eqb_spec (mainPort c) 0); [done |]. intros [= <-]. exists (mainPort c). split; [done |].
    unfold clients in Ef. apply list_elem_of_omap in Ef as (p & _ & Hc). eapply Hp; [exact Hc | by apply mainPort_in].
  - intros t0 a sm' r' t' p ps todo H ->. destruct a; try done; cbn in H.
    destruct (heap _ !! p) as [c |] eqn:Ec; [| done]. cbn in H. simplify_eq. apply Forall_forall. intros q Hq. by eapply Hp.
Qed.

(** ** Witnesses: a client connects, forwards a port and is used *)

Definition demo_parse (d : string) : option (@authorized_key string) :=
  if bool_decide (d = "L") then Some (AuthKey "key" "tk-a-web" [permitlisten "8022"] "") else None.
Definition ident (k : string) : string := k.
Definition demo_file : file := File (Some 1) (Some "L").
Definition demo_info : keyInfo := KeyInfo "8022" "tk-a-web".

Definition demo_acts : list (@act string) :=
  [Dial "1.2.3.4:5"; Offer 0%nat demo_file "other"; Offer 0%nat demo_file "key"; Admit 0%nat 10 2 demo_info; Enter 0%nat 11;
   Tunnel (Swap s0); Tunnel (Forward s0 (Some 8022) (Some 8022));
   PipeOpen 0%nat; PipeCount 12 0%nat Incoming 100; PipeOpen 0%nat; PipeCount 13 1%nat Outgoing 7;
   PipeCount 14 0%nat Outgoing 5; PipeClose 1%nat; PipeCount 15 1%nat Incoming 3; Save 16].

Definition demo_cfg : Config.Config := Config.defaults.
Definition no_server : server := Server new_store ∅ newSessionManager ∅ (MkStore "" ∅ false) None None.
Definition demo_start : server := Eval vm_compute in
  match start demo_parse ident 0 demo_cfg (Ok ()) demo_file ∅ None with inl s => s | inr _ => no_server end.
Definition demo_run (acts : list (@act string)) : option server :=
  run_ demo_parse ident utc demo_start acts.
Definition demo_end : server := Eval vm_compute in default no_server (demo_run demo_acts).

Lemma demo_served :
  served demo_parse ident utc 0 demo_cfg (Ok ()) demo_file ∅ None demo_acts demo_end.
Proof. exists demo_start. split; reflexivity. Qed.

Lemma server_refines_witness :
  Sessions.reachable (bare_world (tunnels demo_end))
  /\ exists h, store demo_end = Traffic.run utc (NewTrafficStore 0 "/data/traffic.json" ∅) h.
Proof.
  destruct (server_refines _ _ _ _ _ _ _ _ _ _ _ demo_served) as (H1 & (h & H2 & _) & _).
  split; [exact H1 | exists h; exact H2].
Defined.

Lemma listeners_authorized_witness :
  lsts (tunnels demo_end) !! 0%nat = Some (Lst 8022 true s0 8022)
  /\ exists a o n, line_of demo_parse (files demo_file demo_acts) a /\ o ∈ k_options a /\ permit_number o = Some n /\ 8022 = u32 n.
Proof.
  split; [reflexivity |].
  destruct (listeners_authorized _ _ _ _ _ _ _ _ _ _ _ 0%nat (Lst 8022 true s0 8022) demo_served eq_refl eq_refl)
    as (a & ss & o & n & H1 & _ & _ & _ & H2 & H3 & H4 & _).
  exists a, o, n. exact (conj H1 (conj H2 (conj H3 H4))).
Defined.

Lemma panel_authorized_witness :
  root (fun z => z) (MkLinks {["web" := "a"]} "") (clients (reg (tunnels demo_end)) [0%nat]) "a.example.com" = Proxy "127.0.0.1:8022"
  /\ exists n a, "127.0.0.1:8022" = "127.0.0.1:" +:+ itoa n /\ offered demo_parse ident demo_file demo_acts a
       /\ n ∈ allowed_ports (info_of a).
Proof.
  assert (root (fun z => z) (MkLinks {["web" := "a"]} "") (clients (reg (tunnels demo_end)) [0%nat]) "a.example.com"
          = Proxy "127.0.0.1:8022") as E by reflexivity.
  split; [exact E |].
  destruct (panel_authorized _ _ _ _ _ _ _ _ _ _ _ demo_served) as (_ & H & _).
  destruct (H _ _ _ _ _ E) as (n & H1 & a & H2 & H3). exists n, a. exact (conj H1 (conj H2 H3)).
Defined.
