(* ===== verification/Leases.v ===== *)
(** * What the tables of the server stand for

    An abstract specification of the forwarded ports, without listeners, tables
    or phases, and the proof that the sessions of
    src/core/internal/tunnelserver/server.go ([Sessions]) implement it; and how the
    registry of the panel (src/core/internal/monitor/monitor.go), the names of the
    session manager and the listeners refer to the sessions, in the whole server
    ([Server]). *)

From S2P Require Import Registry Sessions Server.

(** ** Leases of ports

    A port is leased to the session that was last granted it, until that session
    gives it back or ends. The state is the ports each session may have and the
    leases; the sessions are numbered as they come. *)
Record leases := Leases { may : gmap sid (gset Z); lease : gmap Z sid }.

Definition no_leases : leases := Leases ∅ ∅.

Definition lease_step (σ : leases) (a : action) : leases :=
  match a with
  | Accept _ _ _ info => Leases (<[fresh (dom (may σ)) := allowed_ports info]> (may σ)) (lease σ)
  | Forward s (Some p) (Some _) =>
      if bool_decide (p ∈ default ∅ (may σ !! s)) then Leases (may σ) (<[p := s]> (lease σ)) else σ
  | Cancel s payload =>
      let p := default 0 payload in
      if bool_decide (lease σ !! p = Some s) then Leases (may σ) (delete p (lease σ)) else σ
  | EndLoop s => Leases (may σ) (filter (fun kv => kv.2 <> s) (lease σ))
  | _ => σ
  end.

(** No key that is accepted permits port 0, which the system answers with a port of
    its own. *)
Definition no_port_zero (acts : list action) : Prop :=
  forall now i ip info, Accept now i ip info ∈ acts -> 0 ∉ allowed_ports info.

(** What the sessions and their tables of forwards stand for. *)
Record stands_for (w : world) (σ : leases) : Prop := {
  st_may s : may σ !! s = allowed <$> sessions w !! s;
  st_lease p s : lease σ !! p = Some s <-> exists ss, sessions w !! s = Some ss /\ is_Some (fwds ss !! p);
  st_zero s ss : sessions w !! s = Some ss -> 0 ∉ allowed ss;
}.

Lemma stands_for_ext w w' σ : (forall s, cores w' s = cores w s) -> stands_for w σ -> stands_for w' σ.
Proof.
  intros E [H1 H2 H3].
  assert (forall s, allowed <$> sessions w' !! s = allowed <$> sessions w !! s) as Ea.
  { intros s. specialize (E s). unfold cores in E. destruct (sessions w' !! s), (sessions w !! s); try done. unfold core in E. cbn in *. congruence. }
  assert (forall s p, (exists ss, sessions w' !! s = Some ss /\ is_Some (fwds ss !! p))
                      <-> exists ss, sessions w !! s = Some ss /\ is_Some (fwds ss !! p)) as Ef.
  { intros s p. specialize (E s). unfold cores in E.
    destruct (sessions w' !! s) as [a |], (sessions w !! s) as [b |]; try done. unfold core in E. injection E as _ Ef.
    split; intros (? & [= <-] & H); eexists; (split; [done |]); congruence. }
  split.
  - intros s. by rewrite Ea.
  - intros p s. by rewrite Ef.
  - intros s ss Hs. specialize (Ea s). rewrite Hs in Ea. cbn in Ea.
    destruct (sessions w !! s) as [st |] eqn:Et; [| done]. injection Ea as ->. by eapply H3.
Qed.

(** One session replaced, with the ports it may have kept. *)
Lemma stands_for_put w σ s ss ss' l b L R :
  stands_for w σ -> sessions w !! s = Some ss -> allowed ss' = allowed ss ->
  (forall p t, l !! p = Some t <-> if decide (t = s) then is_Some (fwds ss' !! p) else lease σ !! p = Some t) ->
  stands_for (World (<[s := ss']> (sessions w)) b L R) (Leases (may σ) l).
Proof.
  intros [H1 H2 H3] Hs Ha Hl. split; cbn [may lease sessions].
  - intros t. rewrite H1. destruct (decide (t = s)) as [-> |]; [rewrite lookup_insert_eq, Hs; cbn; by rewrite Ha | by rewrite lookup_insert_ne].
  - intros p t. rewrite Hl. case_decide as Ht.
    + subst. rewrite lookup_insert_eq. naive_solver.
    + rewrite lookup_insert_ne by done. apply H2.
  - intros t st [[<- <-] | [_ Ht]]%lookup_insert_Some; [rewrite Ha |]; by eapply H3.
Qed.

(** A session's forward of a port it may have is an open listener on that port. *)
Lemma fwd_listener w σ s ss p :
  inv w -> stands_for w σ -> sessions w !! s = Some ss -> is_Some (fwds ss !! p) ->
  exists l, lsts w !! l = Some (Lst p true s p).
Proof.
  intros Hi Hσ Hs [l Hl]. assert (cores w s = Some (allowed ss, fwds ss)) as Hc by (unfold cores; by rewrite Hs).
  destruct (linv_fwds _ _ (inv_l w Hi) _ _ _ _ _ Hc Hl) as [q Hq].
  destruct (open_held w l _ Hi Hq eq_refl) as (st & Hst & Hin & Hr). cbn in Hst, Hin, Hr. rewrite Hs in Hst. injection Hst as <-.
  destruct Hr as [-> | [-> _]]; [by destruct (st_zero w σ Hσ s ss Hs) | eauto].
Qed.

Lemma fresh_may w σ : stands_for w σ -> fresh (dom (may σ)) = fresh (dom (sessions w)).
Proof.
  intros Hσ. f_equal. apply set_eq. intros s. rewrite !elem_of_dom, (st_may w σ Hσ). by rewrite fmap_is_Some.
Qed.

(** *** The machine follows the specification *)

Lemma stands_for_accept w σ now i ip info w' :
  stands_for w σ -> 0 ∉ allowed_ports info -> exec w (Accept now i ip info) = Some w' ->
  stands_for w' (lease_step σ (Accept now i ip info)).
Proof.
  intros Hσ H0 [= <-]. cbn [lease_step]. rewrite (fresh_may w σ Hσ).
  pose proof (not_elem_of_dom_1 _ _ (is_fresh (dom (sessions w)))) as Hf. set (s0 := fresh (dom (sessions w))) in *.
  destruct Hσ as [H1 H2 H3]. split; cbn [may lease sessions].
  - intros s. destruct (decide (s = s0)) as [-> |]; [by rewrite !lookup_insert_eq | by rewrite !lookup_insert_ne].
  - intros p s. rewrite H2. destruct (decide (s = s0)) as [-> |]; [| by rewrite lookup_insert_ne].
    rewrite lookup_insert_eq, Hf. split; [naive_solver |]. intros (ss & [= <-] & Hp). cbn in Hp. rewrite lookup_empty in Hp. by destruct Hp.
  - intros s ss [[<- <-] | [_ Hs]]%lookup_insert_Some; [done | by eapply H3].
Qed.

Lemma stands_for_forward w σ s ss payload bound :
  inv w -> stands_for w σ -> sessions w !! s = Some ss -> listen_ok w (default 0 payload) bound = true ->
  stands_for (startForward w s ss payload bound).1 (lease_step σ (Forward s payload bound)).
Proof.
  intros Hi Hσ Hs Hlo. unfold startForward. cbn [lease_step]. destruct payload as [p |]; [| done].
  rewrite (st_may w σ Hσ), Hs. change (default ∅ (allowed <$> Some ss)) with (allowed ss).
  destruct bound as [q |]; [| by case_bool_decide]. case_bool_decide as Hp; [| done].
  change (default 0 (Some p)) with p in Hlo. cbn [fst listen_ok] in *. apply andb_prop in Hlo as [Hfree Hq]. breflect.
  assert (q = p) as ->.
  { apply orb_prop in Hq as [Hq | Hq]; breflect; [| done]. rewrite Hq in Hp. by destruct (st_zero w σ Hσ _ _ Hs). }
  assert (lease σ !! p = None) as Hn.
  { destruct (lease σ !! p) as [t |] eqn:E; [| done]. apply (st_lease w σ Hσ) in E as (st & Ht & Hst).
    destruct (fwd_listener _ _ _ _ _ Hi Hσ Ht Hst) as [l Hl]. by destruct (port_free _ _ _ _ Hfree Hl). }
  eapply stands_for_put; [exact Hσ | exact Hs | done |]. cbn [set_fwds fwds]. intros p' t.
  pose proof (st_lease w σ Hσ p' s) as Hl. rewrite Hs in Hl. rewrite lookup_insert_Some. case_decide as Ht.
  - subst. rewrite lookup_insert_is_Some. naive_solver.
  - split; [naive_solver |]. intros E. right. split; [| done]. intros ->. congruence.
Qed.

Lemma stands_for_cancel w σ s ss payload :
  stands_for w σ -> sessions w !! s = Some ss -> stands_for (cancelForward w s ss payload).1 (lease_step σ (Cancel s payload)).
Proof.
  intros Hσ Hs. unfold cancelForward. cbn [lease_step]. set (p := default 0 payload).
  pose proof (st_lease w σ Hσ p s) as Hl. rewrite Hs in Hl. destruct (fwds ss !! p) as [l |] eqn:E; cbn [fst].
  - rewrite bool_decide_eq_true_2 by naive_solver. eapply stands_for_put; [exact Hσ | exact Hs | done |].
    cbn [set_fwds fwds]. intros p' t. pose proof (st_lease w σ Hσ p' s) as Hl'. rewrite Hs in Hl'. rewrite lookup_delete_Some.
    case_decide as Ht; [subst; rewrite lookup_delete_is_Some; naive_solver |]. split; [naive_solver |].
    intros E'. split; [intros -> | done]. rewrite (proj2 Hl) in E' by eauto. congruence.
  - rewrite bool_decide_eq_false_2; [done |]. intros (? & [= <-] & Hx)%Hl. rewrite E in Hx. by destruct Hx.
Qed.

Lemma stands_for_exec w σ a w' :
  inv w -> stands_for w σ -> (forall now i ip info, a = Accept now i ip info -> 0 ∉ allowed_ports info) ->
  exec w a = Some w' -> stands_for w' (lease_step σ a).
Proof.
  intros Hi Hσ H0 H. destruct (noisy a) eqn:Hn.
  2: { assert (lease_step σ a = σ) as -> by (by destruct a). eapply stands_for_ext, Hσ. by eapply exec_quiet. }
  destruct a; try done; [by eapply stands_for_accept; eauto | ..]; invert_exec H.
  - by apply stands_for_forward.
  - by apply stands_for_cancel.
  - match goal with H : sessions _ !! _ = Some ?x |- _ => rename x into ss, H into Hs end.
    unfold closeAll. eapply stands_for_put; [exact Hσ | exact Hs | done |]. cbn [set_fwds set_phase fwds]. intros p t.
    rewrite map_lookup_filter_Some. cbn. case_decide; [rewrite lookup_empty |]; naive_solver.
Qed.

Lemma stands_for_run acts w : run newSessionManager acts = Some w -> no_port_zero acts -> stands_for w (foldl lease_step no_leases acts).
Proof.
  revert w. induction acts as [| a acts IH] using rev_ind; intros w H Hz.
  { injection H as <-. split; intros *; cbn; rewrite ?lookup_empty; [done | naive_solver | done]. }
  rewrite world_run_snoc in H. apply bind_Some in H as (w1 & H1 & H). rewrite foldl_snoc.
  eapply stands_for_exec; [apply reachable_inv; by exists acts | apply IH; [done |] | | exact H].
  - intros now i ip info Hin. apply (Hz now i ip), elem_of_app. by left.
  - intros now i ip info ->. apply (Hz now i ip), elem_of_app. right. by apply list_elem_of_singleton.
Qed.

Lemma leased_listener w σ q s :
  inv w -> stands_for w σ ->
  lease σ !! q = Some s <-> exists l x, lsts w !! l = Some x /\ l_open x = true /\ l_port x = q /\ l_owner x = s.
Proof.
  intros Hi Hσ. rewrite (st_lease w σ Hσ). split.
  - intros (ss & Hs & Hf). destruct (fwd_listener _ _ _ _ _ Hi Hσ Hs Hf) as [l Hl]. by exists l, (Lst q true s q).
  - intros (l & x & Hx & Ho & <- & <-). destruct (open_held w l x Hi Hx Ho) as (ss & Hs & Hin & [Hz | [-> Hf]]).
    + rewrite Hz in Hin. by destruct (st_zero w σ Hσ _ _ Hs).
    + eauto.
Qed.

(** *** Properties *)

(** C5: the sessions implement leases of ports. After any interleaved actions from the
    start, as long as no accepted key permits port 0, the open listeners are exactly the
    leases that the history of accepted keys, granted forwards, cancellations and
    ended loops gives, each of the session that holds the lease; the ports that
    cannot be bound are exactly the leased ones; and a forward is answered with
    success exactly when the system bound the port and the session may have it. *)
Theorem leases_refined (acts : list action) (w : world)
    (H : run newSessionManager acts = Some w) (Hz : no_port_zero acts) :
  let σ := foldl lease_step no_leases acts in
  (forall q s, lease σ !! q = Some s
     <-> exists l x, lsts w !! l = Some x /\ l_open x = true /\ l_port x = q /\ l_owner x = s)
  /\ (forall q, port_taken w q = bool_decide (is_Some (lease σ !! q)))
  /\ (forall s ss payload bound, sessions w !! s = Some ss ->
        (startForward w s ss payload bound).2 = true
        <-> exists p q, payload = Some p /\ bound = Some q /\ p ∈ default ∅ (may σ !! s)).
Proof.
  cbv zeta. pose proof (stands_for_run acts w H Hz) as Hσ. set (σ := foldl _ _ _) in *.
  assert (inv w) as Hi by (apply reachable_inv; by exists acts). split; [| split].
  - intros q s. by apply leased_listener.
  - intros q. apply eq_true_iff_eq. rewrite bool_decide_eq_true. unfold port_taken. rewrite existsb_exists. split.
    + intros ([l x] & Hin & Hx). cbn in Hx. breflect. apply list_elem_of_In, elem_of_map_to_list in Hin.
      exists (l_owner x). apply (leased_listener w); eauto 6.
    + intros (s & (l & x & Hx & Ho & Hp & _)%(leased_listener w σ q s Hi Hσ)). exists (l, x).
      rewrite <-list_elem_of_In, elem_of_map_to_list. cbn. split; [done |]. rewrite Ho. by apply Z.eqb_eq.
  - intros s ss payload bound Hs. rewrite (st_may w σ Hσ), Hs. change (default ∅ (allowed <$> Some ss)) with (allowed ss).
    unfold startForward. destruct payload as [p |]; [| naive_solver].
    case_bool_decide; destruct bound; naive_solver.
Qed.

(** ** The registry, the names and the listeners *)

(** The panel's entry of a session, with the ports it forwards. *)
Definition entry_of (r : Registry) (ss : session) : Prop :=
  exists p c, Registry.m r !! id ss = Some p /\ heap r !! p = Some c /\ Name c = name ss
  /\ forall q, is_Some (fwds ss !! q) -> q ∈ ports c.

(** No two sessions ever came from one remote address. *)
Definition addresses_differ (w : world) : Prop :=
  forall s t ss st, sessions w !! s = Some ss -> sessions w !! t = Some st -> id ss = id st -> s = t.

Record coherent (w : world) : Prop := {
  (** an entry of the registry is of a session of that address that is not gone *)
  co_entry i p : Registry.m (reg w) !! i = Some p ->
    exists c s ss, heap (reg w) !! p = Some c /\ sessions w !! s = Some ss /\ id ss = i /\ Name c = name ss /\ ph ss <> Gone;
  (** if addresses are not used twice, every session that is not gone has one *)
  co_session s ss : addresses_differ w -> sessions w !! s = Some ss -> ph ss <> Gone -> entry_of (reg w) ss;
}.

(** Steps that leave the registry alone and forward nothing new. *)
Definition same_entry (a b : session) : Prop :=
  id b = id a /\ name b = name a /\ (ph b = Gone <-> ph a = Gone) /\ forall q, is_Some (fwds b !! q) -> is_Some (fwds a !! q).
Definition tracks (w w' : world) : Prop :=
  reg w' = reg w /\ forall s, option_relation same_entry (fun _ => False) (fun _ => False) (sessions w !! s) (sessions w' !! s).

Lemma same_entry_refl a : same_entry a a.
Proof. done. Qed.

Lemma tracks_refl w : tracks w w.
Proof. split; [done |]. intros s. by destruct (sessions w !! s). Qed.

Lemma tracks_put w s ss ss' b L : sessions w !! s = Some ss -> same_entry ss ss' ->
  tracks w (World (<[s := ss']> (sessions w)) b L (reg w)).
Proof.
  intros Hs He. split; [done |]. intros t. cbn. destruct (decide (t = s)) as [-> |].
  - by rewrite Hs, lookup_insert_eq.
  - rewrite lookup_insert_ne by done. by destruct (sessions w !! t).
Qed.

Lemma tracks_close w s : tracks w (close_conn w s).
Proof.
  split; [done |]. intros t. cbn. destruct (decide (t = s)) as [-> |]; [rewrite lookup_alter_eq | rewrite lookup_alter_ne by done];
    by destruct (sessions w !! _).
Qed.

Lemma tracks_trans w1 w2 w3 : tracks w1 w2 -> tracks w2 w3 -> tracks w1 w3.
Proof.
  intros [E1 H1] [E2 H2]. split; [congruence |]. intros s. specialize (H1 s). specialize (H2 s).
  destruct (sessions w1 !! s), (sessions w2 !! s), (sessions w3 !! s); cbn in *; try done.
  destruct H1 as (A1 & B1 & C1 & D1), H2 as (A2 & B2 & C2 & D2). split; [congruence |]. split; [congruence |].
  split; [by rewrite C2 | auto].
Qed.

Lemma tracks_sessions w w' s ss' : tracks w w' -> sessions w' !! s = Some ss' ->
  exists ss, sessions w !! s = Some ss /\ same_entry ss ss'.
Proof. intros [_ H] Hs. specialize (H s). rewrite Hs in H. destruct (sessions w !! s); [by eauto | done]. Qed.

Lemma differ_keeps w w' : keeps w w' -> addresses_differ w' -> addresses_differ w.
Proof.
  intros Hk Hd s t ss st Hs Ht E. destruct (Hk s ss Hs) as (ss' & Hs' & Ei & _), (Hk t st Ht) as (st' & Ht' & Ej & _).
  eapply Hd; [done.. | congruence].
Qed.

Lemma coherent_tracks w w' : tracks w w' -> keeps w w' -> coherent w -> coherent w'.
Proof.
  intros Ht Hk [H1 H2]. pose proof Ht as [Er Hs]. split.
  - intros i p Hp. rewrite Er in *. destruct (H1 i p Hp) as (c & s & ss & Hc & Hss & Hi & Hn & Hg). specialize (Hs s).
    rewrite Hss in Hs. destruct (sessions w' !! s) as [ss' |] eqn:E; [| done]. destruct Hs as (E1 & E2 & E3 & _).
    exists c, s, ss'. split; [done |]. split; [done |]. split; [congruence |]. split; [congruence | naive_solver].
  - intros s ss' Hd Hs' Hg. destruct (tracks_sessions _ _ _ _ Ht Hs') as (ss & Hss & E1 & E2 & E3 & E4).
    destruct (H2 s ss (differ_keeps _ _ Hk Hd) Hss ltac:(naive_solver)) as (p & c & Hm & Hc & Hn & Hq).
    exists p, c. rewrite Er, E1, E2. split; [done |]. split; [done |]. split; [done |]. intros q Hf. by apply Hq, E4.
Qed.

Lemma same_phase ss p : ph ss <> Gone -> p <> Gone -> same_entry ss (set_phase ss p).
Proof. by intros. Qed.

Lemma same_fewer ss f p : ph ss <> Gone -> p <> Gone -> f ⊆ fwds ss -> same_entry ss (set_phase (set_fwds ss f) p).
Proof.
  intros H1 H2 Hf. split_and!; try done. intros q [l Hl]. exists l. by eapply lookup_weaken.
Qed.

Lemma exec_tracks w a w' :
  match a with Accept _ _ _ _ | Forward _ _ _ | Del _ => False | _ => True end -> exec w a = Some w' -> tracks w w'.
Proof.
  intros Ha H. destruct a; try done; invert_exec H;
    try (eapply tracks_put; [eassumption | apply same_phase; congruence]).
  all: try match goal with H : sessions _ !! _ = Some ?x |- _ => rename x into ss, H into Hs end.
  - unfold register_swap. case_bool_decide; (eapply tracks_put; [exact Hs |]); apply same_phase; try congruence.
    destruct (byName_ w !! name ss); [by case_bool_decide | done].
  - eapply tracks_trans; [| apply tracks_close]. eapply tracks_put; [exact Hs | apply same_phase; congruence].
  - unfold cancelForward. destruct (fwds ss !! _); [| apply tracks_refl]. eapply tracks_put; [exact Hs |].
    apply (same_fewer ss (delete (default 0 payload) (fwds ss)) (ph ss)); [congruence.. | apply delete_subseteq].
  - unfold keepalive. destruct (probe e); [apply tracks_refl | apply tracks_close].
  - apply tracks_close.
  - eapply tracks_put; [exact Hs |]. apply same_fewer; [congruence.. | apply map_empty_subseteq].
Qed.

Lemma coherent_accept w now i ip info w' : exec w (Accept now i ip info) = Some w' -> coherent w -> coherent w'.
Proof.
  intros He [H1 H2]. pose proof (keeps_exec _ _ _ He) as Hk. injection He as <-.
  pose proof (not_elem_of_dom_1 _ _ (is_fresh (dom (sessions w)))) as Hf. set (s0 := fresh (dom (sessions w))) in *.
  set (p0 := fresh (dom (heap (reg w)))).
  assert (heap (reg w) !! p0 = None) as Hp0 by apply (not_elem_of_dom_1 _ _ (is_fresh (dom (heap (reg w))))).
  split; cbn [sessions reg Registry.Add Registry.m heap]; fold p0.
  - intros j p [[<- <-] | [Hne Hp]]%lookup_insert_Some.
    + eexists _, s0, _. rewrite !lookup_insert_eq. do 2 (split; [reflexivity |]). done.
    + destruct (H1 j p Hp) as (c & s & ss & Hc & Hs & Hr). exists c, s, ss.
      rewrite !lookup_insert_ne by congruence. done.
  - intros s ss Hd [[<- <-] | [Hne Hs]]%lookup_insert_Some Hg; unfold entry_of; cbn [Registry.Add Registry.m heap]; fold p0.
    + eexists _, _. cbn [id]. rewrite !lookup_insert_eq. do 2 (split; [reflexivity |]). split; [done |].
      intros q. cbn. rewrite lookup_empty. by intros [].
    + destruct (H2 s ss (differ_keeps _ _ Hk Hd) Hs Hg) as (p & c & Hm & Hc & Hr). exists p, c.
      rewrite !lookup_insert_ne; [done | congruence |]. intros E. apply Hne.
      eapply (Hd s0 s); [apply lookup_insert_eq | cbn [sessions]; by rewrite lookup_insert_ne | done].
Qed.

Lemma coherent_forward w s payload bound w' : exec w (Forward s payload bound) = Some w' -> coherent w -> coherent w'.
Proof.
  intros He [H1 H2]. pose proof (keeps_exec _ _ _ He) as Hk. invert_exec He.
  match goal with H : sessions _ !! _ = Some ?x |- _ => rename x into ss, H into Hs end.
  unfold startForward in *. destruct payload as [p |]; [| done]. case_bool_decide; [| done]. destruct bound as [q |]; [| done].
  cbn [fst] in *.
  assert (forall j k, Registry.m (AddPort (reg w) j p) !! k = Registry.m (reg w) !! k) as Em
    by (intros j k; unfold AddPort; by destruct (Registry.m (reg w) !! j)).
  assert (forall k c, heap (reg w) !! k = Some c -> exists c', heap (AddPort (reg w) (id ss) p) !! k = Some c'
      /\ Name c' = Name c /\ (forall x, x ∈ ports c -> x ∈ ports c') /\ (Registry.m (reg w) !! id ss = Some k -> p ∈ ports c')) as Eh.
  { intros k c Hc. unfold AddPort. destruct (Registry.m (reg w) !! id ss) as [k0 |]; [| by exists c]. cbn.
    destruct (decide (k = k0)) as [-> |]; [| rewrite lookup_alter_ne by done; exists c; naive_solver].
    rewrite lookup_alter_eq, Hc. eexists. split; [reflexivity |]. cbn. set_solver. }
  split; cbn [sessions reg].
  - intros j k Hj. rewrite Em in Hj. destruct (H1 j k Hj) as (c & t & st & Hc & Ht & Hi & Hn & Hg).
    destruct (Eh k c Hc) as (c' & Hc' & Hn' & _). destruct (Hk t st Ht) as (st' & Ht' & Ei & _ & En).
    exists c', t, st'. split; [done |]. split; [done |]. split; [congruence |]. split; [congruence |].
    cbn in Ht'. apply lookup_insert_Some in Ht' as [[<- <-] | [_ Ht']]; cbn; congruence.
  - intros t st' Hd Ht' Hg. apply (differ_keeps _ _ Hk) in Hd.
    assert (exists st, sessions w !! t = Some st /\ ph st <> Gone /\ id st' = id st /\ name st' = name st
        /\ forall x, is_Some (fwds st' !! x) -> is_Some (fwds st !! x) \/ x = p /\ id st = id ss) as (st & Ht & Hg0 & Ei & En & Ef).
    { apply lookup_insert_Some in Ht' as [[<- <-] | [_ Ht']]; [exists ss | exists st'; naive_solver].
      do 4 (split; [done |]). cbn. intros x. rewrite lookup_insert_is_Some. naive_solver. }
    destruct (H2 t st Hd Ht Hg0) as (k & c & Hm & Hc & Hn & Hq). destruct (Eh k c Hc) as (c' & Hc' & Hn' & Hsub & Hnew).
    exists k, c'. rewrite Em, Ei, En. split; [done |]. split; [done |]. split; [congruence |].
    intros x [Hx | [-> E]]%Ef; [by apply Hsub, Hq | apply Hnew; congruence].
Qed.

Lemma coherent_del w s w' : exec w (Del s) = Some w' -> coherent w -> coherent w'.
Proof.
  intros He [H1 H2]. pose proof (keeps_exec _ _ _ He) as Hk. invert_exec He.
  match goal with H : sessions _ !! _ = Some ?x |- _ => rename x into ss, H into Hs end.
  split; cbn [sessions reg Registry.Del set_m Registry.m heap].
  - intros j p [Hne Hp]%lookup_delete_Some. destruct (H1 j p Hp) as (c & t & st & Hc & Ht & Hi & Hr).
    exists c, t, st. rewrite lookup_insert_ne; [done |]. intros <-. congruence.
  - intros t st Hd [[<- <-] | [Hne Ht]]%lookup_insert_Some Hg; [done |].
    destruct (H2 t st (differ_keeps _ _ Hk Hd) Ht Hg) as (p & c & Hm & Hr). exists p, c.
    cbn [Registry.Del set_m Registry.m heap]. rewrite lookup_delete_ne; [done |]. intros E. apply Hne. by eapply (differ_keeps _ _ Hk Hd).
Qed.

Lemma coherent_exec w a w' : exec w a = Some w' -> coherent w -> coherent w'.
Proof.
  intros H. pose proof (exec_tracks w a w') as Ht. pose proof (keeps_exec _ _ _ H).
  destruct a; first [by eapply coherent_accept | by eapply coherent_forward | by eapply coherent_del | apply coherent_tracks; [by apply Ht | done]].
Qed.

Lemma reachable_coherent w : reachable w -> coherent w.
Proof.
  intros [acts H]. revert w H. induction acts as [| a acts IH] using rev_ind; intros w H.
  - injection H as <-. split; intros *; cbn; by rewrite lookup_empty.
  - rewrite world_run_snoc in H. apply bind_Some in H as (w1 & H1 & H). eapply coherent_exec; [done | by apply IH].
Qed.

(** *** Properties *)

(** C25: the server's tables refer to its sessions. In every state of the whole server:
    an entry of the registry, which is what the panel lists as connected, is a client
    of that remote address and of the name of a session that is not gone; as long
    as no remote address is used twice, every session that is not gone has its entry,
    with each port it forwards among its ports; a name in the session manager
    is a session of that name that has registered and not unregistered; and a
    forward is an open listener of its session, on a port its key permits. *)
Theorem tables_coherent {K S : Type} (Parse : string -> option (@authorized_key K)) (fingerprint : K -> string)
    (offset : time -> Z) (now : time) (cfg : Config.Config)
    (hk : result S) (f0 : file) (loaded : gmap string Traffic.ct) (le : option string) (l : list act) (s : server)
    (Hs : served Parse fingerprint offset now cfg hk f0 loaded le l s) :
  let w := tunnels s in
  (forall i p, Registry.m (reg w) !! i = Some p ->
     exists c t st, heap (reg w) !! p = Some c /\ sessions w !! t = Some st /\ id st = i /\ Name c = name st /\ ph st <> Gone)
  /\ (addresses_differ w -> forall t st, sessions w !! t = Some st -> ph st <> Gone -> entry_of (reg w) st)
  /\ (forall n t, byName_ w !! n = Some t ->
        exists st, sessions w !! t = Some st /\ name st = n /\ n <> "" /\ holds_name (ph st) = true)
  /\ (forall t st p k, sessions w !! t = Some st -> fwds st !! p = Some k ->
        p ∈ allowed st /\ exists q, lsts w !! k = Some (Lst q true t p)).
Proof.
  cbv zeta. pose proof (served_reachable _ _ _ _ _ _ _ _ _ _ _ Hs) as Hr. destruct (reachable_coherent _ Hr) as [H1 H2].
  pose proof (reachable_inv _ Hr) as Hi. set (w := tunnels s) in *.
  assert (forall p, heap (reg (bare_world w)) !! p = bare <$> heap (reg w) !! p) as Eh by (intros p; apply lookup_fmap).
  split; [| split; [| split]].
  - intros i p Hp. destruct (H1 i p Hp) as (c' & t & st & Hc & H). rewrite Eh in Hc. apply fmap_Some in Hc as (c & Hc & ->).
    by exists c, t, st.
  - intros Hd t st Ht Hg. destruct (H2 t st Hd Ht Hg) as (p & c' & Hm & Hc & H). rewrite Eh in Hc.
    apply fmap_Some in Hc as (c & Hc & ->). by exists p, c.
  - exact (ninv_name _ (inv_n _ Hi)).
  - intros t st p k Ht Hk. assert (cores w t = Some (allowed st, fwds st)) as Hc by (unfold cores; by rewrite Ht).
    destruct (linv_fwds _ _ (inv_l _ Hi) t _ _ p k Hc Hk) as [q Hq]. split; [| by exists q].
    destruct (open_held _ k _ Hi Hq eq_refl) as (st' & Ht' & Hin & _). cbn in Ht', Hin. fold w in Ht'.
    change (sessions (bare_world w)) with (sessions w) in Ht'. congruence.
Qed.

(** ** Witnesses *)

Definition two_keys : list action :=
  [Accept 0 "1.2.3.4:5" "1.2.3.4" web_key; Swap s0; Forward s0 (Some 8022) (Some 8022); Forward s0 (Some 8023) (Some 8023);
   Accept 10 "1.2.3.5:6" "1.2.3.5" (KeyInfo "8023,8024" "tk-b"); Swap s1; Forward s1 (Some 8023) (Some 8023)].

Example two_leases :
  lease (foldl lease_step no_leases two_keys) = {[8022 := s0; 8023 := s1]}
  /\ lease (foldl lease_step no_leases (two_keys ++ [Drop s0; EndLoop s0])) = {[8023 := s1]}.
Proof. split; vm_compute; reflexivity. Qed.

Lemma leases_refined_witness :
  exists w, run newSessionManager two_keys = Some w
  /\ port_taken w 8023 = bool_decide (is_Some (lease (foldl lease_step no_leases two_keys) !! 8023))
  /\ exists l x, lsts w !! l = Some x /\ l_open x = true /\ l_port x = 8023 /\ l_owner x = s1.
Proof.
  assert (no_port_zero two_keys) as Hz.
  { intros now i ip info. unfold two_keys. rewrite !elem_of_cons, elem_of_nil. intros H.
    destruct H as [H | [H | [H | [H | [H | [H | [H | H]]]]]]]; try discriminate H; try done; injection H as -> -> -> ->;
      apply (bool_decide_eq_false_1 _); vm_compute; reflexivity. }
  destruct (leases_refined two_keys (after_ two_keys) eq_refl Hz) as (H1 & H2 & _).
  exists (after_ two_keys). split; [reflexivity |]. split; [exact (H2 8023) |].
  apply (proj1 (H1 8023 s1)). vm_compute. reflexivity.
Defined.

Lemma tables_coherent_witness :
  exists st, sessions (tunnels demo_end) !! 0%nat = Some st /\ ph st <> Gone
  /\ exists c t st', heap (reg (tunnels demo_end)) !! 0%nat = Some c /\ sessions (tunnels demo_end) !! t = Some st'
     /\ Name c = name st' /\ ph st' <> Gone.
Proof.
  destruct (tables_coherent _ _ _ _ _ _ _ _ _ _ _ demo_served) as (H1 & _).
  eexists. split; [reflexivity |]. split; [discriminate |].
  destruct (H1 "1.2.3.4:5" 0%nat eq_refl) as (c & t & st' & Hc & Ht & _ & Hn & Hg). by exists c, t, st'.
Defined.
