(* ===== verification/Accounts.v ===== *)
(** * The accounts of the whole server

    What the counters of the registry and of the traffic store say in every state
    of the server of [Server], with any number of forwarded connections, scrapes,
    saves and sessions interleaved. *)

From S2P Require Persist.
From S2P Require Import HbServer Attempts Links Traffic Conn Sampler Sessions Server.

(** What a forwarded connection has counted for the client at [p], and for a port
    of a name. *)
Definition out_of (p : ptr) (q : piped) : Z := if bool_decide (p_client q = Some p) then p_out q else 0.
Definition in_of (p : ptr) (q : piped) : Z := if bool_decide (p_client q = Some p) then p_in q else 0.
Definition live_of (p : ptr) (q : piped) : Z := if bool_decide (p_client q = Some p) && p_live q then 1 else 0.
Definition out_at (n : string) (port : Z) (q : piped) : Z :=
  if bool_decide (p_name q = n) && (p_port q =? port) then p_out q else 0.
Definition in_at (n : string) (port : Z) (q : piped) : Z :=
  if bool_decide (p_name q = n) && (p_port q =? port) then p_in q else 0.

(** The counters of a client. *)
Definition counters (c : Client) : Z * Z * Z := (tx c, rx c, active c).

Definition counted (ps : gmap pid piped) (p : ptr) : Z * Z * Z :=
  (u64 (map_sum (out_of p) ps), u64 (map_sum (in_of p) ps), i64 (map_sum (live_of p) ps)).

Definition port_sums (t0 : TrafficStore) (ps : gmap pid piped) (n : string) (port : Z) : pb :=
  Pb (u64 (Tx (port_of t0 n port) + map_sum (out_at n port) ps))
     (u64 (Rx (port_of t0 n port) + map_sum (in_at n port) ps)).

Record acc_inv (t0 : TrafficStore) (s : server) : Prop := {
  acc_client p c : heap (reg (tunnels s)) !! p = Some c -> counters c = counted (pipes s) p;
  acc_heap i q p : pipes s !! i = Some q -> p_client q = Some p -> is_Some (heap (reg (tunnels s)) !! p);
  acc_store n port : n <> "" -> port_of (store s) n port = port_sums t0 (pipes s) n port;
}.

(** ** Steps that leave the counters alone *)

Definition same_counters (r r' : Registry) : Prop :=
  forall p, counters <$> heap r' !! p = counters <$> heap r !! p.

Lemma same_update r p f : (forall c, counters (f c) = counters c) -> same_counters r (update r p f).
Proof. intros Hf q. rewrite update_heap. case_decide; destruct (heap r !! q); cbn; by rewrite ?Hf. Qed.

Lemma same_sample t0 a sm r t sm' r' t' :
  sample_step t0 a sm r t = Some (sm', r', t') -> same_counters r r'.
Proof.
  unfold sample_step. intros H.
  destruct a, sm as [| [| p0 l0] | p0 ps l0 | [| p0 l0] c0 | [| n0 l0] c0 g0]; try done;
    repeat (case_match; try done); simplify_option_eq; try done. by apply same_update.
Qed.

Lemma same_handshake now r remote took e r' line :
  handshake_failed now r remote took e = (r', line) -> same_counters r r'.
Proof. unfold handshake_failed. destruct (Record_ _ _) as [a [li n]]. by intros [= <- _]. Qed.

Lemma same_speedtest r p res : same_counters r (fst (speedtest_done r p res)).
Proof. destruct res as [[d u] |]; [by apply same_update | done]. Qed.

(** A session's action adds at most a client whose counters are zero. *)
Lemma exec_counters w a w' p c :
  exec w a = Some w' -> heap (reg w') !! p = Some c ->
  (exists c0, heap (reg w) !! p = Some c0 /\ counters c = counters c0)
  \/ heap (reg w) !! p = None /\ counters c = (0, 0, 0).
Proof.
  intros H Hc. destruct a; invert_exec H; try (left; by eauto).
  - cbn in Hc. apply lookup_insert_Some in Hc as [[<- <-] | [_ Hc]]; [right | left; eauto].
    split; [apply (not_elem_of_dom_1 _ _ (is_fresh (dom (heap (reg w))))) | done].
  - left. unfold register_swap in Hc. case_bool_decide; eauto.
  - left. unfold startForward in Hc. destruct payload as [q |]; [| by eauto].
    case_bool_decide; [| by eauto]. destruct bound; [| by eauto]. cbn in Hc. unfold AddPort in Hc.
    destruct (m (reg w) !! Sessions.id x); [| by eauto].
    cbn in Hc. apply lookup_alter_Some in Hc as [(<- & c0 & Hc0 & ->) | [_ Hc]]; eauto.
  - left. unfold cancelForward in Hc. destruct (fwds x !! _); eauto.
  - left. unfold keepalive in Hc. destruct (probe e); eauto.
Qed.

Lemma exec_heap w a w' p : exec w a = Some w' -> is_Some (heap (reg w) !! p) -> is_Some (heap (reg w') !! p).
Proof.
  intros H [c Hc]. destruct a; invert_exec H; try (by eauto).
  - cbn. rewrite lookup_insert_ne; [eauto |]. intros E. revert Hc. rewrite <-E.
    by rewrite (not_elem_of_dom_1 _ _ (is_fresh (dom (heap (reg w))))).
  - unfold register_swap. case_bool_decide; eauto.
  - unfold startForward. destruct payload as [q |]; [| by eauto].
    case_bool_decide; [| by eauto]. destruct bound; [| by eauto]. cbn. unfold AddPort.
    destruct (m (reg w) !! Sessions.id x); [| by eauto]. rewrite update_heap, Hc. eauto.
  - unfold cancelForward. destruct (fwds x !! _); eauto.
  - unfold keepalive. destruct (probe e); eauto.
Qed.

(** Without connections of its own a client has counted nothing. *)
Lemma counted_none ps p : (forall i q, ps !! i = Some q -> p_client q <> Some p) -> counted ps p = (0, 0, 0).
Proof.
  intros H. unfold counted. rewrite !map_sum_zero; [done | ..]; intros i q Hq; specialize (H i q Hq);
    unfold out_of, in_of, live_of; by rewrite bool_decide_eq_false_2.
Qed.

(** ** The store's counters *)

Lemma port_of_put t n c d n' port :
  port_of (put t n c d) n' port = if decide (n' = n) then default (Pb 0 0) (Traffic.Ports c !! port) else port_of t n' port.
Proof. unfold port_of. rewrite client_of_put. by case_decide. Qed.

Lemma port_touch now t n n' port : port_of (Traffic.Touch now t n) n' port = port_of t n' port.
Proof.
  unfold Traffic.Touch. case_bool_decide; [done |]. rewrite port_of_put. case_decide; [by subst | done].
Qed.

Lemma port_record now t n up n' port : port_of (Traffic.RecordState now t n up) n' port = port_of t n' port.
Proof.
  unfold Traffic.RecordState. case_bool_decide; [done |].
  destruct (last _); [case_bool_decide |]; rewrite port_of_put; case_decide; by subst.
Qed.

Lemma port_save now t t' wr n port : saver_tick now t = (t', wr) -> port_of t' n port = port_of t n port.
Proof.
  unfold saver_tick. destruct (_ || _); intros [= <- _]; [done |]. unfold port_of, client_of. cbn.
  rewrite lookup_fmap. by destruct (Traffic.m t !! n).
Qed.

Lemma port_add_other offset now t n port tx rx n' port' :
  n' <> n \/ port' <> port -> port_of (Traffic.Add offset now t n port tx rx) n' port' = port_of t n' port'.
Proof.
  intros H. unfold Traffic.Add. case_bool_decide; [done |]. rewrite port_of_put. case_decide; [| done]. subst.
  cbn [Traffic.Ports]. rewrite lookup_insert_ne; [done |]. naive_solver.
Qed.

Lemma port_sample t0 a sm r t sm' r' t' n port :
  sample_step t0 a sm r t = Some (sm', r', t') -> port_of t' n port = port_of t n port.
Proof.
  unfold sample_step. intros H.
  destruct a, sm as [| [| p0 l0] | p0 ps l0 | [| p0 l0] c0 | [| n0 l0] c0 g0]; try done;
    repeat (case_match; try done); simplify_option_eq; try done; first [apply port_touch | apply port_record].
Qed.

(** ** Opening, counting, closing *)

Lemma counted_other ps i q p :
  p_client q <> Some p -> (forall q0, ps !! i = Some q0 -> p_client q0 <> Some p) -> counted (<[i := q]> ps) p = counted ps p.
Proof.
  intros Hq H0. unfold counted. rewrite !map_sum_insert.
  assert (forall f : piped -> Z, (forall x, p_client x <> Some p -> f x = 0) ->
            map_sum f ps - from_option f 0 (ps !! i) + f q = map_sum f ps) as E.
  { intros f Hf. rewrite (Hf q Hq). destruct (ps !! i) as [q0 |]; cbn; [rewrite (Hf q0) by auto |]; lia. }
  rewrite !E; [done | ..]; intros x Hx; unfold out_of, in_of, live_of; by rewrite bool_decide_eq_false_2.
Qed.

Lemma port_sums_update t0 ps i q q' n port :
  ps !! i = Some q -> out_at n port q' = out_at n port q -> in_at n port q' = in_at n port q ->
  port_sums t0 (<[i := q']> ps) n port = port_sums t0 ps n port.
Proof. intros Hi E1 E2. unfold port_sums. rewrite !(map_sum_update _ _ _ _ _ Hi), E1, E2. by rewrite !Z.sub_diag, !Z.add_0_r. Qed.

Lemma acc_open t0 s r' cl sid_ name port i :
  acc_inv t0 s -> (forall p, Registry.m (reg (tunnels s)) !! sid_ = Some p -> is_Some (heap (reg (tunnels s)) !! p)) ->
  opened (reg (tunnels s)) sid_ = (r', cl) -> pipes s !! i = None ->
  acc_inv t0 (set_pipes (with_reg s r') (<[i := Piped name port cl true 0 0]> (pipes s))).
Proof.
  intros [H1 H2 H3] Hm Ho Hi. unfold opened, Get in Ho. set (q := Piped name port cl true 0 0).
  assert (forall n pt, port_sums t0 (<[i := q]> (pipes s)) n pt = port_sums t0 (pipes s) n pt) as Hps.
  { intros n pt. unfold port_sums. rewrite !map_sum_insert_new by done. unfold out_at, in_at. cbn.
    by destruct (_ && _). }
  destruct (Registry.m (reg (tunnels s)) !! sid_) as [p0 |] eqn:Em; injection Ho as <- <-.
  - destruct (Hm p0 eq_refl) as [c0 Hc0]. split; cbn [set_pipes with_reg set_tunnels set_reg tunnels pipes store reg]; [| | by intros; rewrite Hps, H3].
    + intros p c. rewrite update_heap. case_decide as Hp.
      * subst. rewrite Hc0. intros [= <-]. specialize (H1 p0 c0 Hc0). unfold counters, counted in *.
        rewrite !map_sum_insert_new by done. unfold out_of, in_of, live_of at 1. cbn [p_client p_out p_in p_live q].
        rewrite !bool_decide_eq_true_2 by done. cbn [andb tx rx active ConnOpen set_counters].
        injection H1 as -> -> E. rewrite E. f_equal. rewrite i64_add_l. f_equal. lia.
      * intros Hc. rewrite counted_other; [apply H1; by destruct (heap _ !! p) | cbn; congruence | by rewrite Hi].
    + intros j x p Hj Hx. rewrite update_heap. apply fmap_is_Some.
      apply lookup_insert_Some in Hj as [[_ <-] | [_ Hj]]; [| by eapply H2]. cbn in Hx. injection Hx as <-. eauto.
  - split; cbn [set_pipes with_reg set_tunnels set_reg tunnels pipes store reg]; [| | by intros; rewrite Hps, H3].
    + intros p c Hc. rewrite counted_other; [by apply H1 | done | by rewrite Hi].
    + intros j x p Hj Hx. apply lookup_insert_Some in Hj as [[_ <-] | [_ Hj]]; [done | by eapply H2].
Qed.

Lemma acc_close t0 s i q :
  acc_inv t0 s -> pipes s !! i = Some q -> p_live q = true ->
  acc_inv t0 (set_pipes (with_reg s (closed (reg (tunnels s)) (p_client q)))
                (<[i := Piped (p_name q) (p_port q) (p_client q) false (p_in q) (p_out q)]> (pipes s))).
Proof.
  intros [H1 H2 H3] Hi Hlive. set (q' := Piped _ _ _ false _ _).
  split; cbn [set_pipes with_reg set_tunnels set_reg tunnels pipes store reg].
  - intros p c. destruct (decide (p_client q = Some p)) as [Hp | Hp].
    + rewrite Hp. cbn [closed]. rewrite update_heap. rewrite decide_True by done.
      destruct (heap (reg (tunnels s)) !! p) as [c0 |] eqn:Hc0; [| done]. intros [= <-]. specialize (H1 p c0 Hc0).
      unfold counters, counted in *. rewrite !(map_sum_update _ _ _ _ _ Hi). unfold out_of, in_of, live_of at 2 3.
      cbn [p_client p_out p_in p_live q']. rewrite !bool_decide_eq_true_2 by done. rewrite Hlive. cbn [andb].
      rewrite !Z.sub_diag, !Z.add_0_r. cbn [tx rx active ConnClose set_counters]. injection H1 as -> -> E. rewrite E. f_equal. rewrite i64_add_l. done.
    + intros Hc. rewrite counted_other; [| done | rewrite Hi; congruence].
      apply H1. unfold closed in Hc. destruct (p_client q) as [p0 |]; [| done]. rewrite update_heap in Hc.
      rewrite decide_False in Hc by congruence. by destruct (heap _ !! p).
  - intros j x p Hj Hx. assert (exists j0 x0, pipes s !! j0 = Some x0 /\ p_client x0 = Some p) as (j0 & x0 & Hj0 & Hx0).
    { apply lookup_insert_Some in Hj as [[_ <-] | [_ Hj]]; eauto. }
    specialize (H2 _ _ _ Hj0 Hx0). unfold closed. destruct (p_client q) as [p0 |]; [| done].
    rewrite update_heap. by apply fmap_is_Some.
  - intros n port Hn. by rewrite (port_sums_update _ _ _ _ _ _ _ Hi), H3.
Qed.

(** The connection after counting [k] bytes. *)
Definition moved (q : piped) (d : dir) (k : Z) : piped :=
  match d with
  | Incoming => Piped (p_name q) (p_port q) (p_client q) (p_live q) (p_in q + k) (p_out q)
  | Outgoing => Piped (p_name q) (p_port q) (p_client q) (p_live q) (p_in q) (p_out q + k)
  end.

Lemma u64_add a b : u64 (u64 a + u64 b) = u64 (a + b).
Proof. by rewrite u64_add_l, u64_add_r. Qed.

Lemma counted_moved ps i q p d k :
  ps !! i = Some q ->
  counted (<[i := moved q d k]> ps) p
  = if bool_decide (p_client q = Some p)
    then match d with
         | Incoming => (u64 (map_sum (out_of p) ps), u64 (map_sum (in_of p) ps + k), i64 (map_sum (live_of p) ps))
         | Outgoing => (u64 (map_sum (out_of p) ps + k), u64 (map_sum (in_of p) ps), i64 (map_sum (live_of p) ps))
         end
    else counted ps p.
Proof.
  intros Hi. case_bool_decide as Hp.
  - unfold counted. rewrite !(map_sum_update _ _ _ _ _ Hi). unfold out_of, in_of, live_of.
    destruct d; cbn [p_client p_out p_in p_live moved]; rewrite !bool_decide_eq_true_2 by done;
      repeat f_equal; lia.
  - apply counted_other; [by destruct d | rewrite Hi; congruence].
Qed.

Lemma sums_moved t0 ps i q n port d k :
  ps !! i = Some q ->
  port_sums t0 (<[i := moved q d k]> ps) n port
  = if bool_decide (p_name q = n) && (p_port q =? port)
    then match d with
         | Incoming => Pb (Tx (port_sums t0 ps n port)) (u64 (Rx (port_of t0 n port) + map_sum (in_at n port) ps + k))
         | Outgoing => Pb (u64 (Tx (port_of t0 n port) + map_sum (out_at n port) ps + k)) (Rx (port_sums t0 ps n port))
         end
    else port_sums t0 ps n port.
Proof.
  intros Hi. unfold port_sums. rewrite !(map_sum_update _ _ _ _ _ Hi). unfold out_at, in_at.
  destruct d; cbn [p_name p_port p_out p_in moved Tx Rx]; destruct (_ && _); f_equal; f_equal; lia.
Qed.

Lemma acc_count offset now t0 s i q d k r' st' :
  acc_inv t0 s -> pipes s !! i = Some q ->
  count offset now (p_name q) (p_port q) (p_client q) (reg (tunnels s), Some (store s)) d k = (r', st') ->
  acc_inv t0 (set_pipes (set_store (with_reg s r') (default (store s) st')) (<[i := moved q d k]> (pipes s))).
Proof.
  intros [H1 H2 H3] Hi Hc. unfold count in Hc. injection Hc as <- <-.
  split; cbn [set_pipes with_reg set_store set_tunnels set_reg tunnels pipes store reg from_option Datatypes.id].
  - intros p c. rewrite (counted_moved _ _ _ _ _ _ Hi). case_bool_decide as Hp.
    + rewrite Hp. rewrite update_heap, decide_True by done. destruct (heap (reg (tunnels s)) !! p) as [c0 |] eqn:Hc0; [| done].
      intros [= <-]. specialize (H1 p c0 Hc0). unfold counters, counted in *.
      destruct d; cbn [tx rx active AddRx AddTx set_counters]; injection H1 as -> -> ->; by rewrite u64_add.
    + intros Hc. apply H1. destruct (p_client q) as [p0 |]; [| done]. rewrite update_heap in Hc.
      rewrite decide_False in Hc by congruence. by destruct (heap _ !! p).
  - intros j x p Hj Hx. assert (exists j0 x0, pipes s !! j0 = Some x0 /\ p_client x0 = Some p) as (j0 & x0 & Hj0 & Hx0).
    { apply lookup_insert_Some in Hj as [[_ <-] | [_ Hj]]; [exists i, q; by destruct d | eauto]. }
    specialize (H2 _ _ _ Hj0 Hx0). destruct (p_client q) as [p0 |]; [| done]. rewrite update_heap. by apply fmap_is_Some.
  - intros n port Hn. rewrite (sums_moved _ _ _ _ _ _ _ _ Hi).
    destruct (decide (p_name q = n /\ p_port q = port)) as [[<- <-] | Hne].
    + rewrite bool_decide_eq_true_2, Z.eqb_refl by done. cbn [andb].
      destruct d; rewrite port_add, (H3 _ _ Hn) by done; unfold port_sums; cbn [Tx Rx];
        rewrite ?Z.add_0_r, ?u64_add, ?(u64_small (u64 _)) by apply u64_range; f_equal; by rewrite u64_add_l.
    + assert (n <> p_name q \/ port <> p_port q) as Ho by (destruct (decide (p_name q = n)); naive_solver).
      replace (bool_decide (p_name q = n) && (p_port q =? port)) with false.
      2: { symmetry. apply andb_false_iff. rewrite bool_decide_eq_false, Z.eqb_neq. naive_solver. }
      rewrite <-(H3 n port Hn). by destruct d; apply port_add_other.
Qed.

(** ** Every step keeps the accounts *)

Lemma acc_same t0 s s' :
  same_counters (reg (tunnels s)) (reg (tunnels s')) -> pipes s' = pipes s ->
  (forall n port, port_of (store s') n port = port_of (store s) n port) ->
  acc_inv t0 s -> acc_inv t0 s'.
Proof.
  intros Hc Hp Hs [H1 H2 H3]. split; rewrite ?Hp.
  - intros p c E. specialize (Hc p). rewrite E in Hc. destruct (heap (reg (tunnels s)) !! p) as [c0 |] eqn:E0; [| done].
    cbn in Hc. injection Hc as H. unfold counters in *. rewrite <-(H1 p c0 E0). congruence.
  - intros i q p Hi Hq. specialize (H2 i q p Hi Hq) as [c Hcp]. specialize (Hc p). rewrite Hcp in Hc.
    by destruct (heap (reg (tunnels s')) !! p).
  - intros n port Hn. by rewrite Hs, H3.
Qed.

Lemma acc_exec t0 s a w' :
  exec (tunnels s) a = Some w' -> acc_inv t0 s -> acc_inv t0 (set_tunnels s w').
Proof.
  intros He [H1 H2 H3]. split; cbn [set_tunnels tunnels pipes store]; [| | done].
  - intros p c Hc. destruct (exec_counters _ _ _ _ _ He Hc) as [(c0 & Hc0 & ->) | [Hn ->]]; [by apply H1 |].
    symmetry. apply counted_none. intros i q Hi Hq. destruct (H2 i q p Hi Hq). congruence.
  - intros i q p Hi Hq. eapply exec_heap; [done | by eapply H2].
Qed.

Section steps.
Context {K : Type} (Parse : string -> option (@authorized_key K)) (fingerprint : K -> string).
Context (offset : time -> Z).

Lemma acc_step t0 s a s' out :
  rinv (bare_world (tunnels s)) -> acc_inv t0 s ->
  exec_ Parse fingerprint offset s a = Some (s', out) -> acc_inv t0 s'.
Proof.
  intros Hr Hi H. inv_step H; try (eapply acc_same, Hi; done).
  - eapply acc_same, Hi; [eapply same_handshake; eassumption | done | done].
  - eapply acc_exec in Hi; [| eassumption]. by eapply acc_same, Hi.
  - by eapply acc_exec.
  - eapply acc_open; [done | | eassumption | apply (not_elem_of_dom_1 _ _ (is_fresh (dom (pipes s))))].
    intros p Hp. destruct (rinv_heap _ _ Hr _ p Hp) as [c Hc]. cbn in Hc. rewrite lookup_fmap in Hc.
    by destruct (heap (reg (tunnels s)) !! p).
  - exact (acc_count offset now t0 s p x d n _ _ Hi ltac:(eassumption) ltac:(eassumption)).
  - by apply acc_close.
  - eapply acc_same, Hi; [done | done |]. intros n port. eapply port_save; eassumption.
  - eapply acc_same, Hi; [eapply same_sample; eassumption | done |]. intros n port. eapply port_sample; eassumption.
  - eapply acc_same, Hi; [apply same_speedtest | done | done].
Qed.

Lemma served_acc {S : Type} now cfg (hk : result S) f0 loaded le l s :
  let t0 := NewTrafficStore now (Config.ServerTrafficFile cfg) loaded in
  (forall n port, is_u64 (Tx (port_of t0 n port)) /\ is_u64 (Rx (port_of t0 n port))) ->
  served Parse fingerprint offset now cfg hk f0 loaded le l s -> acc_inv t0 s.
Proof.
  intros t0 Ht (s0 & H0 & H).
  enough (reachable (bare_world (tunnels s)) /\ acc_inv t0 s) as [_ ?] by done. revert H.
  apply (srun_ind _ _ _ (fun _ s => reachable (bare_world (tunnels s)) /\ acc_inv t0 s)).
  - apply sstart_inv in H0 as (a & v & _ & _ & _ & _ & Hp & (b & Htn) & Hst & _). split.
    + rewrite Htn. apply reachable_start.
    + split; rewrite ?Hp, ?Htn, ?Hst; cbn; [intros *; by rewrite lookup_empty.. |].
      intros n port _. unfold port_sums. rewrite !map_sum_empty, !Z.add_0_r. destruct (Ht n port).
      rewrite !u64_small by done. fold t0. by destruct (port_of t0 n port).
  - intros _ s1 a s2 out [Hr Hi] He. split; [| by eapply acc_step, He; [apply reachable_rinv |]].
    destruct (step_tunnels _ _ _ _ _ _ _ He) as [-> | [a' Ha]]; [done |]. by eapply reachable_bare.
Qed.
End steps.

(** ** The store as loaded *)

Definition ct_typed (c : ct) : Prop :=
  (forall port b, Traffic.Ports c !! port = Some b -> is_u64 (Tx b) /\ is_u64 (Rx b))
  /\ (forall d v, Days c !! d = Some v -> is_u64 v).

Definition store_typed (m : gmap string ct) : Prop := forall n c, m !! n = Some c -> ct_typed c.

Lemma new_typed : ct_typed new_ct.
Proof. split; intros *; cbn; by rewrite lookup_empty. Qed.

Lemma client_typed t n : store_typed (Traffic.m t) -> ct_typed (client_of t n).
Proof. intros H. unfold client_of. destruct (Traffic.m t !! n) eqn:E; [by eapply H | apply new_typed]. Qed.

Lemma start_typed now path loaded : store_typed loaded -> store_typed (Traffic.m (NewTrafficStore now path loaded)).
Proof.
  intros H n c. cbn. rewrite lookup_fmap. destruct (loaded !! n) as [c0 |] eqn:E; [| done]. intros [= <-].
  destruct (H n c0 E). by destruct (LastSeen c0 =? 0).
Qed.

Lemma port_typed t n port : store_typed (Traffic.m t) -> is_u64 (Tx (port_of t n port)) /\ is_u64 (Rx (port_of t n port)).
Proof.
  intros H. unfold port_of. destruct (client_typed t n H) as [H1 _].
  destruct (Traffic.Ports (client_of t n) !! port) eqn:E; [by apply (H1 port) | by vm_compute].
Qed.

(** Whatever the traffic file holds. *)
Lemma loaded_typed traffic l : Persist.loaded traffic = Some l -> store_typed l.
Proof.
  intros H n c Hc. destruct (Persist.loaded_storable _ _ H n c Hc) as (_ & H1 & H2 & _). split.
  - intros p b Hb. by apply (H1 p b).
  - intros d k Hk. by apply (H2 d k).
Qed.

(** ** Properties *)

(** C4: the books balance, whatever interleaves. In every state of the server the
    totals of each client object are, modulo 2^64, the bytes its forwarded
    connections have counted in each direction, and its active connections are
    those that have not finished; and each port of each named client in the
    traffic store has the bytes it was loaded with and those counted since, under
    any number of saves, scrapes and reconnections. *)
Theorem accounts_balance {K S : Type} (Parse : string -> option (@authorized_key K)) (fingerprint : K -> string)
    (offset : time -> Z) (now : time) (cfg : Config.Config)
    (hk : result S) (f0 : file) (loaded : gmap string ct) (le : option string) (l : list act) (s : server)
    (traffic : option string) (Hloaded : Persist.loaded traffic = Some loaded)
    (Hs : served Parse fingerprint offset now cfg hk f0 loaded le l s) :
  (forall p c, heap (reg (tunnels s)) !! p = Some c ->
     tx c = u64 (map_sum (out_of p) (pipes s)) /\ rx c = u64 (map_sum (in_of p) (pipes s))
     /\ active c = i64 (map_sum (live_of p) (pipes s)))
  /\ (forall n port, n <> "" ->
     let b0 := port_of (NewTrafficStore now (Config.ServerTrafficFile cfg) loaded) n port in
     port_of (store s) n port
     = Pb (u64 (Tx b0 + map_sum (out_at n port) (pipes s))) (u64 (Rx b0 + map_sum (in_at n port) (pipes s)))).
Proof.
  destruct (served_acc _ _ _ _ _ _ _ _ _ _ _ (fun n port => port_typed _ n port (start_typed _ _ _ (loaded_typed _ _ Hloaded))) Hs) as [H1 _ H3].
  split; [| exact H3]. intros p c Hc. specialize (H1 p c Hc). unfold counters, counted in H1. by injection H1.
Qed.

(** ** Witnesses *)

Lemma accounts_balance_witness :
  exists c, heap (reg (tunnels demo_end)) !! 0%nat = Some c /\ tx c = u64 12 /\ rx c = u64 103 /\ active c = i64 1
    /\ port_of (store demo_end) "tk-a-web" 8022 = Pb (u64 12) (u64 103).
Proof.
  destruct (accounts_balance _ _ _ _ _ _ _ _ _ _ _ None eq_refl demo_served) as [H1 H2].
  eexists. split; [reflexivity |]. destruct (H1 0%nat _ eq_refl) as (E1 & E2 & E3).
  split; [exact E1 |]. split; [exact E2 |]. split; [exact E3 |].
  exact (H2 "tk-a-web" 8022 ltac:(discriminate)).
Defined.
